(** * swupd-client bundle manager (src/bundle.c): a shallow embedding

    The development follows [src/src/bundle.c]: bundle removal
    ([remove_bundles]), subscription resolution ([add_subscriptions]) and the
    staged installer ([install_bundles]), together with the small helpers
    they are built from.  Data is modelled the way the C code has it (file
    records, manifests, the MoM, subscription lists); the file system is a
    record of the directories the code looks at; every effect is recorded in
    a chronological trace of events. *)

From Stdlib Require Import ZArith String List Bool Lia Floats Uint63 Sorted.
From stdpp Require Import gmap strings list.

Open Scope Z_scope.

(** ** strcmp *)

(** [strcmp(3)]: the sign of the byte-wise lexicographic comparison. *)
Definition strcmp (a b : string) : Z :=
  match String.compare a b with
  | Eq => 0
  | Lt => -1
  | Gt => 1
  end.

Definition str_lt (a b : string) : Prop := String.compare a b = Lt.

(** ** Data model *)

(** [struct file]: one record of a manifest.  Only the fields [bundle.c]
    reads are kept; [staging] is the name of the staged copy, [None] for the
    NULL pointer. *)
Record file := mk_file {
  filename : string;
  hash : string;
  last_change : Z;
  is_deleted : bool;
  is_dir : bool;
  do_not_update : bool;
  is_experimental : bool;
  staging : option string
}.

(** [struct manifest] of one bundle. *)
Record manifest := mk_manifest {
  component : string;
  files : list file;
  includes : list string;
  optional : list string;
  contentsize : Z
}.

(** [struct manifest] of the MoM: [manifests] lists one record per bundle
    (its [filename] is the bundle name); [submanifests] and [mom_files] are
    filled in by the operations. *)
Record MoM := mk_MoM {
  manifests : list file;
  submanifests : list manifest;
  mom_files : list file
}.

(** [struct sub]: a subscription. *)
Record sub := mk_sub {
  sub_component : string;
  sub_version : Z
}.

(** [enum swupd_code] (the members [bundle.c] uses).  [SWUPD_INT n] is a
    status that reaches the callers as a plain [int]. *)
Inductive swupd_code :=
| SWUPD_OK
| SWUPD_REQUIRED_BUNDLE_ERROR
| SWUPD_INVALID_BUNDLE
| SWUPD_COULDNT_LOAD_MOM
| SWUPD_COULDNT_REMOVE_FILE
| SWUPD_COULDNT_LOAD_MANIFEST
| SWUPD_CURRENT_VERSION_UNKNOWN
| SWUPD_RECURSE_MANIFEST
| SWUPD_DISK_SPACE_ERROR
| SWUPD_BUNDLE_NOT_TRACKED
| SWUPD_INT (n : Z).

(** The C truth value of a status: [if (ret)]. *)
Definition code_true (c : swupd_code) : bool :=
  match c with
  | SWUPD_OK => false
  | SWUPD_INT n => negb (n =? 0)
  | _ => true
  end.

(** The bits [add_subscriptions] returns. *)
Definition add_sub_ERR : Z := 1.
Definition add_sub_NEW : Z := 2.
Definition add_sub_BADNAME : Z := 4.

Definition has_bit (ret mask : Z) : bool := negb (Z.land ret mask =? 0).

(** ** List helpers of the repository

    [bundle.c] calls these helpers of [list.c], [manifest.c] and
    [subscriptions.c]; those files are not part of the sources at hand. *)

(** Modelled from the spec: [list_sort] with [file_sort_filename] (list.c,
    manifest.c), "sorts by path".  A stable insertion sort on [filename]. *)
Fixpoint insert_by_filename (f : file) (l : list file) : list file :=
  match l with
  | [] => [f]
  | g :: l' =>
      if strcmp (filename f) (filename g) <=? 0 then f :: g :: l'
      else g :: insert_by_filename f l'
  end.

Definition sort_by_filename (l : list file) : list file :=
  fold_right insert_by_filename [] l.

(** Modelled from the spec: the collision rule of [consolidate_files]
    (manifest.c): "among duplicates, a non-deleted record wins over a deleted
    one; ties among non-deleted resolve to the record with the higher
    last_change". [a] precedes [b] in the sorted list. *)
Definition consolidate_pick (a b : file) : file :=
  if is_deleted a && negb (is_deleted b) then b
  else if negb (is_deleted a) && is_deleted b then a
  else if last_change a <? last_change b then b
  else a.

(** One pass over the path-sorted list, [cur] being the record kept so far
    for the current path. *)
Fixpoint consolidate_from (cur : file) (l : list file) : list file :=
  match l with
  | [] => [cur]
  | b :: l' =>
      if strcmp (filename cur) (filename b) =? 0
      then consolidate_from (consolidate_pick cur b) l'
      else cur :: consolidate_from b l'
  end.

Definition consolidate_files (l : list file) : list file :=
  match sort_by_filename l with
  | [] => []
  | a :: l' => consolidate_from a l'
  end.

(** Modelled from the spec: [consolidate_files_from_bundles] (manifest.c),
    "concatenates all files, sorts by path, then resolves same-path
    collisions". *)
Definition consolidate_files_from_bundles (bundles : list manifest) : list file :=
  consolidate_files (concat (map files bundles)).

(** Modelled from the spec: [filter_out_deleted_files] (manifest.c), "drops
    records whose type is deleted". *)
Definition filter_out_deleted_files (l : list file) : list file :=
  List.filter (fun f => negb (is_deleted f)) l.

(** Modelled from the spec: [filter_out_existing_files] (manifest.c),
    "returns desired records whose path is not already present (by
    path+hash) in installed". *)
Definition filter_out_existing_files (desired installed : list file) : list file :=
  List.filter
    (fun f => negb (existsb (fun g => (strcmp (filename f) (filename g) =? 0)
                                      && (strcmp (hash f) (hash g) =? 0)) installed))
    desired.

(** Modelled from the spec: [list_filter_common_elements] (list.c), the
    helper behind "files_to_unlink": both lists are path-sorted and walked in
    step; an element of the first list for which the comparison answers 0 is
    dropped, a negative answer advances in the first list, a positive one in
    the second.  What is left of the first list when the second runs out
    stays. *)
Fixpoint list_filter_common_elements {A B : Type} (compare_fn : A -> B -> Z)
    (list1 : list A) : list B -> list A :=
  match list1 with
  | [] => fun _ => []
  | a :: rest1 =>
      fix walk (list2 : list B) : list A :=
        match list2 with
        | [] => a :: rest1
        | b :: rest2 =>
            let comp := compare_fn a b in
            if comp =? 0 then list_filter_common_elements compare_fn rest1 list2
            else if comp <? 0 then a :: list_filter_common_elements compare_fn rest1 list2
            else walk rest2
        end
  end.

(** Modelled from the spec: [list_move_item] (list.c), "move the Manifest
    for each target bundle from submanifests into bundles_to_remove": the
    first item of [from] for which [find_fn item key] is 0 is taken out and
    appended to [to]; nothing happens when there is none. *)
Fixpoint list_take_item {A K : Type} (find_fn : A -> K -> Z) (key : K) (from : list A)
    : option (A * list A) :=
  match from with
  | [] => None
  | x :: from' =>
      if find_fn x key =? 0 then Some (x, from')
      else match list_take_item find_fn key from' with
           | Some (y, rest) => Some (y, x :: rest)
           | None => None
           end
  end.

Definition list_move_item {A K : Type} (find_fn : A -> K -> Z) (key : K)
    (from to : list A) : list A * list A :=
  match list_take_item find_fn key from with
  | Some (x, from') => (from', to ++ [x])
  | None => (from, to)
  end.

(** Modelled from the spec: [list_search] with [list_strcmp] and
    [string_in_list] (list.c, helpers.c): membership of a name. *)
Definition string_in_list (name : string) (l : list string) : bool :=
  existsb (fun x => strcmp x name =? 0) l.

(** Modelled from the spec: [list_str_deduplicate] (list.c), "the list is
    deduplicated by name"; the first occurrence of each name stays. *)
Fixpoint list_str_deduplicate_acc (seen l : list string) : list string :=
  match l with
  | [] => []
  | x :: l' =>
      if string_in_list x seen then list_str_deduplicate_acc seen l'
      else x :: list_str_deduplicate_acc (x :: seen) l'
  end.

Definition list_str_deduplicate (l : list string) : list string :=
  list_str_deduplicate_acc [] l.

(** Modelled from the spec: [search_bundle_in_manifest] (manifest.c), "look
    up the bundle in the MoM". *)
Definition search_bundle_in_manifest (mom : MoM) (bundle : string) : option file :=
  find (fun f => strcmp (filename f) bundle =? 0) (manifests mom).

(** Modelled from the spec: [component_subscribed] and
    [create_and_append_subscription] (subscriptions.c): "at most one
    subscription per component". *)
Definition component_subscribed (subs : list sub) (name : string) : bool :=
  existsb (fun s => strcmp (sub_component s) name =? 0) subs.

Definition create_and_append_subscription (subs : list sub) (name : string) : list sub :=
  subs ++ [mk_sub name 0].

(** Modelled from the spec: [set_subscription_versions] (subscriptions.c),
    "set the version of the subscribed bundles to the one they last
    changed". *)
Definition set_subscription_versions (mom : MoM) (subs : list sub) : list sub :=
  map (fun s => match search_bundle_in_manifest mom (sub_component s) with
                | Some f => mk_sub (sub_component s) (last_change f)
                | None => s
                end) subs.

(** Modelled from the spec: [get_manifest_list_contentsize] (manifest.c), the
    sum of [contentsize] over the bundles ([long] arithmetic, no overflow
    modelled). *)
Definition get_manifest_list_contentsize (l : list manifest) : Z :=
  fold_right (fun m acc => contentsize m + acc) 0 l.

Definition list_len {A : Type} (l : list A) : Z := Z.of_nat (length l).

Definition list_longer_than {A : Type} (l : list A) (n : Z) : bool := n <? list_len l.

(** ** The machine and the trace *)

(** What the code can see of the machine: the system's bundle directory
    [<prefix>/usr/share/clear/bundles] (the names present), the tracking
    directory [<state>/bundles] ([None] when it does not exist), the staging
    area [<state>/staged] (name of the entry and the digest of the bytes it
    holds) and the rest of the target tree (path and digest). *)
Record world := mk_world {
  bundles_dir : gset string;
  tracking : option (gset string);
  staged : gmap string string;
  target : gmap string string
}.

Inductive path :=
| TrackingDir
| TrackingFile (name : string)
| StagedFile (name : string).

(** The calls of the platform that [bundle.c] checks for failure. *)
Inductive syscall :=
| SysRmRf
| SysCopyAll
| SysChmod
| SysOpen (name : string)
| SysRm (p : path).

Inductive level := Print | Info | Warn | Error | Debug.

(** The messages of [bundle.c], one constructor per format string. *)
Inductive message :=
| MsgInitFailed
| MsgVersionUnknown
| MsgMoMFailed (version : Z)
| MsgSubmanifestsFailed
| MsgOsCore
| MsgInvalid (bundle : string)
| MsgNotInstalled (bundle : string)
| MsgRequiredByHeader (bundle : string)
| MsgTreeFormat
| MsgTreeRoot (indent : Z) (bundle : string)
| MsgTreeChild (indent : Z) (bundle : string)
| MsgListItem (bundle : string)
| MsgRequiredBy (bundle : string) (n : Z)
| MsgUseForce (bundle : string)
| MsgForceUsed (bundle : string)
| MsgRemoving (bundle : string)
| MsgDeleting
| MsgTotalDeleted (n : Z)
| MsgFailedToRemove (bad total : Z)
| MsgRemoved (total : Z)
| MsgRemoveFailed
| MsgManifestFailed (bundle : string) (version : Z)
| MsgLoading
| MsgAlreadyInstalled (bundle : string)
| MsgExperimental (bundle : string)
| MsgNoToInstall
| MsgNoInstalled
| MsgTooLarge (mb : Z)
| MsgNoFreeSpace
| MsgDiskNote
| MsgDiskHint
| MsgNoPacks
| MsgDownloadFailed
| MsgInstalling
| MsgHashFailed (name : string)
| MsgWillDownload (name : string)
| MsgCouldNotRemove (name : string)
| MsgFailedToInstall (failed requested : Z)
| MsgInstalled (n : Z)
| MsgDependencies (n : Z)
| MsgAlready (n : Z)
| MsgTrackingIssue (bundle : string).

(** One entry of the trace: a message or a call that acts on the machine. *)
Inductive event :=
| EvMsg (l : level) (m : message)
| EvInit
| EvRmRf (p : path)
| EvCopyAll
| EvUnlink (p : path)
| EvChmod (p : path)
| EvCreate (p : path)
| EvRm (p : path)
| EvRmDownload
| EvDownloadPacks
| EvDownloadFullfiles (l : list file)
| EvVerify (f : file)
| EvStage (f : file)
| EvRename (f : option file)
| EvSync
| EvScripts
| EvRemoveFiles (l : list file)
| EvTelemetry (name : string) (result : swupd_code).

(** The options of the command line ([globals] and the static
    [cmdline_option_force]). *)
Record options := mk_options {
  cmdline_option_force : bool;
  skip_diskspace_check : bool;
  skip_optional_bundles : bool;
  verbose : bool
}.

Definition remove_set_option_force (opt : bool) (o : options) : options :=
  {| cmdline_option_force := opt;
     skip_diskspace_check := skip_diskspace_check o;
     skip_optional_bundles := skip_optional_bundles o;
     verbose := verbose o |}.

(** The collaborators of the bundle manager whose code lives outside
    [bundle.c] (fetcher, digest, staging, scripts, platform): they are
    parameters, and every statement below holds for all of them.  A [NULL]
    list is the empty list.  [list_search_rewinds] says whether
    [list_search] (list.c), handed a node in the middle of a list, goes back
    to the head of the list before it searches. *)
Record externs := mk_externs {
  swupd_init : world -> swupd_code * world;
  get_current_version : world -> Z;
  load_mom : Z -> world -> option MoM;
  read_subscriptions : world -> list sub;
  load_manifest : file -> option manifest;
  recurse_manifest : MoM -> list sub -> list manifest;
  ignore : file -> bool;
  apply_heuristics : file -> file;
  get_available_space : world -> Z;
  rm_staging_dir_contents : world -> world;
  download_subscribed_packs : list sub -> MoM -> world -> world;
  download_fullfiles : list file -> world -> Z * world;
  verify_file : file -> string -> world -> bool;
  do_staging : file -> MoM -> world -> swupd_code * file * world;
  search_file_in_manifest : MoM -> string -> option file;
  rename_staged_file_to_final : option file -> world -> world;
  sync : world -> world;
  scripts_run_post_update : world -> world;
  remove_files_from_fs : list file -> world -> Z * world;
  syscall_fails : syscall -> world -> bool;
  list_search_rewinds : bool
}.

(** ** Effects

    A computation reads and changes the machine and appends to the trace;
    [None] is a recursion that did not come back within its budget. *)
Definition M (A : Type) : Type := world -> option (A * world * list event).

Definition ret {A : Type} (a : A) : M A := fun w => Some (a, w, []).

Definition bind {A B : Type} (m : M A) (k : A -> M B) : M B := fun w =>
  match m w with
  | None => None
  | Some (a, w1, t1) =>
      match k a w1 with
      | None => None
      | Some (b, w2, t2) => Some (b, w2, t1 ++ t2)
      end
  end.

Notation "'let*' x ':=' m 'in' k" := (bind m (fun x => k))
  (at level 10, x name, m at level 100, k at level 200).
Notation "'let*' ' p ':=' m 'in' k" := (bind m (fun x => match x with p => k end))
  (at level 10, p pattern, m at level 100, k at level 200).

Definition emit (e : event) : M unit := fun w => Some (tt, w, [e]).
Definition emits (t : list event) : M unit := fun w => Some (tt, w, t).
Definition look {A : Type} (f : world -> A) : M A := fun w => Some (f w, w, []).
Definition act {A : Type} (e : event) (f : world -> A * world) : M A := fun w =>
  let '(a, w') := f w in Some (a, w', [e]).
Definition act_ (e : event) (f : world -> world) : M unit := fun w => Some (tt, f w, [e]).

Definition print (m : message) : M unit := emit (EvMsg Print m).
Definition info (m : message) : M unit := emit (EvMsg Info m).
Definition warn (m : message) : M unit := emit (EvMsg Warn m).
Definition error (m : message) : M unit := emit (EvMsg Error m).
Definition debug (m : message) : M unit := emit (EvMsg Debug m).

(** Modelled from the spec: the directory helpers [is_populated_dir],
    [rm_rf], [copy_all] and [swupd_rm] (helpers.c) and the system calls
    [unlink], [chmod] and [open] on the tracking directory: "if the tracking
    directory is empty or missing, seed it by copying the system's
    authoritative bundle directory to the stateful tracking directory, minus
    internal markers (notably any .MoM sentinel) ... Creating a tracking
    record is an empty-file create ... Removal is best-effort unlink". *)
Definition is_populated_dir (w : world) : bool :=
  match tracking w with
  | Some names => negb (bool_decide (names = ∅))
  | None => false
  end.

Definition set_tracking (t : option (gset string)) (w : world) : world :=
  {| bundles_dir := bundles_dir w; tracking := t; staged := staged w; target := target w |}.

Definition set_staged (s : gmap string string) (w : world) : world :=
  {| bundles_dir := bundles_dir w; tracking := tracking w; staged := s; target := target w |}.

Definition rm_rf_tracking (w : world) : world := set_tracking None w.

Definition copy_all_bundles (w : world) : world := set_tracking (Some (bundles_dir w)) w.

Definition unlink_tracking (name : string) (w : world) : world :=
  set_tracking (match tracking w with
                | Some names => Some (names ∖ {[name]})
                | None => None
                end) w.

Definition create_tracking (name : string) (w : world) : world :=
  set_tracking (match tracking w with
                | Some names => Some ({[name]} ∪ names)
                | None => None
                end) w.

Definition unlink_staged (name : string) (w : world) : world :=
  set_staged (delete name (staged w)) w.

(** ** bundle.c *)

Section Bundle.

Context (G : options) (E : externs).

(** [is_installed_bundle]: [stat] of
    [<prefix>/usr/share/clear/bundles/<bundle_name>]. *)
Definition is_installed_bundle (bundle_name : string) (w : world) : bool :=
  bool_decide (bundle_name ∈ bundles_dir w).

Definition find_manifest (A : manifest) (B : string) : Z :=
  let ret := strcmp (component A) B in
  if negb (ret =? 0) then ret else 0.

(** The state [required_by] works on: the list behind [reqd_by], the static
    [print_msg] and what was printed. *)
Record reqd_state := mk_reqd {
  reqd_by : list string;
  print_msg : bool;
  printed : list event
}.

Definition reqd_info (m : message) (s : reqd_state) : reqd_state :=
  {| reqd_by := reqd_by s; print_msg := print_msg s;
     printed := printed s ++ [EvMsg Info m] |}.

Definition reqd_clear_print_msg (s : reqd_state) : reqd_state :=
  {| reqd_by := reqd_by s; print_msg := false; printed := printed s |}.

(** What [required_by] does when a bundle lists [bundle_name] among its
    includes (lines 160-193): unless the bundle is excluded it is appended
    to [reqd_by] and, with [--verbose], printed as an element of the tree. *)
Definition reqd_add (bundle : manifest) (recursion : Z) (exclusions : list string)
    (msg : message) (s : reqd_state) : reqd_state :=
  if negb (string_in_list (component bundle) exclusions) then
    let s := {| reqd_by := reqd_by s ++ [component bundle];
                print_msg := print_msg s; printed := printed s |} in
    if verbose G then
      let s := if print_msg s
               then reqd_info MsgTreeFormat (reqd_info msg (reqd_clear_print_msg s))
               else s in
      let indent := (recursion - 1) * 4 in
      if recursion =? 1
      then reqd_info (MsgTreeRoot (indent + 2) (component bundle)) s
      else reqd_info (MsgTreeChild indent (component bundle)) s
    else s
  else s.

(** The inner loop over [bundle->includes] (lines 153-198); [again] is the
    recursive call of line 196. *)
Fixpoint reqd_scan_includes (again : reqd_state -> string -> option (Z * reqd_state))
    (bundle_name : string) (bundle : manifest) (recursion : Z)
    (exclusions : list string) (msg : message) (i : list string) (s : reqd_state)
    : option reqd_state :=
  match i with
  | [] => Some s
  | name :: i' =>
      if strcmp name bundle_name =? 0 then
        match again (reqd_add bundle recursion exclusions msg s) (component bundle) with
        | None => None
        | Some (_, s) =>
            reqd_scan_includes again bundle_name bundle recursion exclusions msg i' s
        end
      else reqd_scan_includes again bundle_name bundle recursion exclusions msg i' s
  end.

(** The outer loop over [mom->submanifests] (lines 141-199). *)
Fixpoint reqd_scan_bundles (again : reqd_state -> string -> option (Z * reqd_state))
    (bundle_name : string) (recursion : Z) (exclusions : list string) (msg : message)
    (b : list manifest) (s : reqd_state) : option reqd_state :=
  match b with
  | [] => Some s
  | bundle :: b' =>
      if strcmp (component bundle) bundle_name =? 0
      then reqd_scan_bundles again bundle_name recursion exclusions msg b' s
      else
        match reqd_scan_includes again bundle_name bundle recursion exclusions msg
                (includes bundle) s with
        | None => None
        | Some s => reqd_scan_bundles again bundle_name recursion exclusions msg b' s
        end
  end.

(** The end of the outermost call (lines 201-222): the list is
    deduplicated, counted and, without [--verbose], printed. *)
Definition reqd_list_item (msg : message) (s : reqd_state) (name : string) : reqd_state :=
  if negb (verbose G) then
    let s := if print_msg s then reqd_info msg (reqd_clear_print_msg s) else s in
    reqd_info (MsgListItem name) s
  else s.

Definition reqd_finish (msg : message) (s : reqd_state) : Z * reqd_state :=
  let s := {| reqd_by := list_str_deduplicate (reqd_by s);
              print_msg := print_msg s; printed := printed s |} in
  (list_len (reqd_by s), fold_left (reqd_list_item msg) (reqd_by s) s).

(** [required_by]: the bundles of [mom->submanifests] that include
    [bundle_name], directly or through others.  [fuel] bounds the depth of
    the recursion, which the C code leaves unbounded. *)
Fixpoint required_by (fuel : nat) (s : reqd_state) (bundle_name : string)
    (subm : list manifest) (recursion : Z) (exclusions : list string)
    (msg : message) {struct fuel} : option (Z * reqd_state) :=
  match fuel with
  | O => None
  | S fuel' =>
      let s := if recursion =? 0
               then {| reqd_by := reqd_by s; print_msg := true; printed := printed s |}
               else s in
      let recursion := recursion + 1 in
      match reqd_scan_bundles
              (fun s name => required_by fuel' s name subm recursion exclusions msg)
              bundle_name recursion exclusions msg subm s with
      | None => None
      | Some s => if recursion =? 1 then Some (reqd_finish msg s) else Some (0, s)
      end
  end.

(** The call of line 622: [reqd_by] is [NULL] before it, and what
    [required_by] prints goes to the trace. *)
Definition call_required_by (fuel : nat) (bundle : string) (subm : list manifest)
    (exclusions : list string) : M (Z * list string) := fun w =>
  match required_by fuel (mk_reqd [] false []) bundle subm 0 exclusions
          (MsgRequiredByHeader bundle) with
  | None => None
  | Some (n, r) => Some ((n, reqd_by r), w, printed r)
  end.

(** [remove_tracked]: the tracking file goes, failures are ignored. *)
Definition remove_tracked (bundle : string) : M unit :=
  act_ (EvRm (TrackingFile bundle))
       (fun w => if syscall_fails E (SysRm (TrackingFile bundle)) w then w
                 else unlink_tracking bundle w).

(** [track_installed]: seed the tracking directory when it is missing or
    empty, then create the tracking file of [bundle_name].  [None] stands for
    the jump to [out] with [ret] set. *)
Definition track_installed_seed : M bool :=
  let* populated := look is_populated_dir in
  if negb populated then
    let* failed := look (syscall_fails E SysRmRf) in
    if failed then let* _ := emit (EvRmRf TrackingDir) in ret false
    else
      let* _ := act_ (EvRmRf TrackingDir) rm_rf_tracking in
      let* failed := look (syscall_fails E SysCopyAll) in
      if failed then let* _ := emit EvCopyAll in ret false
      else
        let* _ := act_ EvCopyAll copy_all_bundles in
        let* _ := act_ (EvUnlink (TrackingFile ".MoM")) (unlink_tracking ".MoM") in
        let* failed := look (syscall_fails E SysChmod) in
        let* _ := emit (EvChmod TrackingDir) in
        ret (negb failed)
  else ret true.

Definition track_installed (bundle_name : string) : M unit :=
  let* ok := track_installed_seed in
  let* ok :=
    if ok then
      let* failed := look (fun w => syscall_fails E (SysOpen bundle_name) w
                                    || negb (bool_decide (is_Some (tracking w)))) in
      if failed then ret false
      else let* _ := act_ (EvCreate (TrackingFile bundle_name)) (create_tracking bundle_name) in
           ret true
    else ret false in
  if ok then ret tt else debug (MsgTrackingIssue bundle_name).

Definition filter_files_to_delete (A B : file) : Z :=
  if is_deleted A then 0
  else
    let ret := strcmp (filename A) (filename B) in
    if negb (ret =? 0) then ret
    else if negb (is_deleted B) then 0
    else -1.

(** The variables of [remove_bundles] that its loop updates. *)
Record remove_state := mk_remove_state {
  rs_submanifests : list manifest;
  rs_bundles_to_remove : list manifest;
  rs_ret_code : swupd_code;
  rs_bad : Z;
  rs_total : Z
}.

Definition rs_skip (code : swupd_code) (s : remove_state) : remove_state :=
  {| rs_submanifests := rs_submanifests s;
     rs_bundles_to_remove := rs_bundles_to_remove s;
     rs_ret_code := code;
     rs_bad := rs_bad s + 1;
     rs_total := rs_total s |}.

Definition rs_next (s : remove_state) : remove_state :=
  {| rs_submanifests := rs_submanifests s;
     rs_bundles_to_remove := rs_bundles_to_remove s;
     rs_ret_code := rs_ret_code s;
     rs_bad := rs_bad s;
     rs_total := rs_total s + 1 |}.

Definition rs_move (name : string) (s : remove_state) : remove_state :=
  let '(from, to) := list_move_item find_manifest name
                       (rs_submanifests s) (rs_bundles_to_remove s) in
  {| rs_submanifests := from;
     rs_bundles_to_remove := to;
     rs_ret_code := rs_ret_code s;
     rs_bad := rs_bad s;
     rs_total := rs_total s |}.

(** The [--force] branch: every dependent bundle is moved to the list of
    bundles to remove and untracked. *)
Fixpoint remove_dependents (deps : list string) (s : remove_state) : M remove_state :=
  match deps with
  | [] => ret s
  | dep :: deps' =>
      let s := rs_move dep s in
      let* _ := remove_tracked dep in
      remove_dependents deps' s
  end.

(** The names [list_search] goes through when [required_by] hands it the
    cursor of the loop of [remove_bundles] as the list of exclusions (line
    622): the names from the cursor on and, when [list_search] goes back to
    the head of the list, the names [before] the cursor as well. *)
Definition list_search_span (before cursor : list string) : list string :=
  if list_search_rewinds E then before ++ cursor else cursor.

(** The body of the [for] loop of [remove_bundles] (lines 591-661) for
    the bundle under the cursor.  [exclusions] is what [list_search] finds
    in the list of exclusions that line 622 hands to [required_by]. *)
Definition remove_one (fuel : nat) (mom : MoM) (exclusions : list string)
    (bundle : string) (s : remove_state) : M remove_state :=
  if strcmp bundle "os-core" =? 0 then
    let* _ := warn MsgOsCore in
    ret (rs_skip SWUPD_REQUIRED_BUNDLE_ERROR s)
  else
  match search_bundle_in_manifest mom bundle with
  | None =>
      let* _ := warn (MsgInvalid bundle) in
      ret (rs_skip SWUPD_INVALID_BUNDLE s)
  | Some _ =>
      let* installed := look (is_installed_bundle bundle) in
      if negb installed then
        let* _ := warn (MsgNotInstalled bundle) in
        ret (rs_skip SWUPD_BUNDLE_NOT_TRACKED s)
      else
        let* '(number_of_reqd, reqd_by) :=
          call_required_by fuel bundle (rs_submanifests s) exclusions in
        let finish (s : remove_state) :=
          let s := rs_move bundle s in
          let* _ := info (MsgRemoving bundle) in
          let* _ := remove_tracked bundle in
          ret s in
        if 0 <? number_of_reqd then
          if negb (cmdline_option_force G) then
            let* _ := error (MsgRequiredBy bundle number_of_reqd) in
            let* _ := info (MsgUseForce bundle) in
            ret (rs_skip SWUPD_REQUIRED_BUNDLE_ERROR s)
          else
            let* _ := info (MsgForceUsed bundle) in
            let* s := remove_dependents reqd_by s in
            finish s
        else finish s
  end.

(** The [for] loop of [remove_bundles] (lines 589-662).  [bundles] is the
    cursor of the loop, which the code hands to [required_by]; [before]
    holds the names the cursor has passed. *)
Fixpoint remove_loop (fuel : nat) (mom : MoM) (before bundles : list string)
    (s : remove_state) {struct bundles} : M remove_state :=
  match bundles with
  | [] => ret s
  | bundle :: rest =>
      let* s := remove_one fuel mom (list_search_span before bundles) bundle s in
      remove_loop fuel mom (before ++ [bundle]) rest (rs_next s)
  end.

(** The start of [remove_bundles] (lines 555-587): initialisation, current
    version, MoM and the manifests of the installed bundles.  The left
    result is the early exit through [out_deinit]. *)
Definition remove_prepare (bundles : list string) : M (swupd_code + MoM) :=
  let* r := act EvInit (swupd_init E) in
  if code_true r then
    let* _ := error MsgInitFailed in
    ret (inl r)
  else
    let out_deinit (ret_code : swupd_code) : M (swupd_code + MoM) :=
      let* _ := emit (EvTelemetry "bundleremove" ret_code) in
      let* _ := print MsgRemoveFailed in
      ret (inl ret_code) in
    let* current_version := look (get_current_version E) in
    if current_version <? 0 then
      let* _ := error MsgVersionUnknown in
      out_deinit SWUPD_CURRENT_VERSION_UNKNOWN
    else
      let* current_mom := look (load_mom E current_version) in
      match current_mom with
      | None =>
          let* _ := error (MsgMoMFailed current_version) in
          out_deinit SWUPD_COULDNT_LOAD_MOM
      | Some current_mom =>
          let* subs := look (read_subscriptions E) in
          let subs := set_subscription_versions current_mom subs in
          match recurse_manifest E current_mom subs with
          | [] =>
              let* _ := error MsgSubmanifestsFailed in
              out_deinit SWUPD_RECURSE_MANIFEST
          | subm =>
              ret (inr {| manifests := manifests current_mom;
                          submanifests := subm;
                          mom_files := mom_files current_mom |})
          end
      end.

(** What is handed to [remove_files_from_fs] (lines 664-676). *)
Definition files_to_remove (kept removed : list manifest) : list file :=
  list_filter_common_elements filter_files_to_delete
    (consolidate_files_from_bundles removed)
    (consolidate_files_from_bundles kept).

Definition remove_bundles (fuel : nat) (bundles : list string) : M swupd_code :=
  let* r := remove_prepare bundles in
  match r with
  | inl code => ret code
  | inr current_mom =>
      let* s := remove_loop fuel current_mom [] bundles
                  (mk_remove_state (submanifests current_mom) [] SWUPD_OK 0 0) in
      let* _ :=
        match rs_bundles_to_remove s with
        | [] => ret tt
        | _ =>
            let files_to_remove := files_to_remove (rs_submanifests s) (rs_bundles_to_remove s) in
            if 0 <? list_len files_to_remove then
              let* _ := info MsgDeleting in
              let* deleted := act (EvRemoveFiles files_to_remove)
                                  (remove_files_from_fs E files_to_remove) in
              info (MsgTotalDeleted deleted)
            else ret tt
        end in
      let* _ :=
        if 0 <? rs_bad s then print (MsgFailedToRemove (rs_bad s) (rs_total s))
        else print (MsgRemoved (rs_total s)) in
      ret (rs_ret_code s)
  end.

(** The recursive calls of lines 777-785: nothing is done for a [NULL]
    list. *)
Definition subscribe_includes
    (again : list string -> list sub -> option (Z * list sub * list event))
    (names : list string) (enabled : bool) (subs : list sub)
    : option (Z * list sub * list event) :=
  match names with
  | [] => Some (0, subs, [])
  | _ => if enabled then again names subs else Some (0, subs, [])
  end.

(** The loop of [add_subscriptions] (lines 735-788); [again] is the
    recursive call with [recursion + 1]. *)
Fixpoint subscribe_each
    (again : list string -> list sub -> option (Z * list sub * list event))
    (w : world) (mom : MoM) (find_all : bool) (recursion : Z)
    (iter : list string) (ret : Z) (subs : list sub) (tr : list event)
    : option (Z * list sub * list event) :=
  match iter with
  | [] => Some (ret, subs, tr)
  | bundle :: iter' =>
      match search_bundle_in_manifest mom bundle with
      | None =>
          subscribe_each again w mom find_all recursion iter'
            (Z.lor ret add_sub_BADNAME) subs (tr ++ [EvMsg Warn (MsgInvalid bundle)])
      | Some file =>
          if negb find_all && is_installed_bundle bundle w then
            subscribe_each again w mom find_all recursion iter' ret subs tr
          else
            match load_manifest E file with
            | None =>
                Some (Z.lor ret add_sub_ERR, subs,
                      tr ++ [EvMsg Error (MsgManifestFailed bundle (last_change file))])
            | Some manifest =>
                let subscribed := component_subscribed subs bundle in
                if subscribed && (0 <? recursion) then
                  subscribe_each again w mom find_all recursion iter' ret subs tr
                else
                  let ret := if subscribed then ret else Z.lor ret add_sub_NEW in
                  let subs := if subscribed then subs
                              else create_and_append_subscription subs bundle in
                  match subscribe_includes again (includes manifest) true subs with
                  | None => None
                  | Some (r1, subs, t1) =>
                      match subscribe_includes again (optional manifest)
                              (negb (skip_optional_bundles G)) subs with
                      | None => None
                      | Some (r2, subs, t2) =>
                          subscribe_each again w mom find_all recursion iter'
                            (Z.lor (Z.lor ret r1) r2) subs (tr ++ t1 ++ t2)
                      end
                  end
            end
      end
  end.

(** [add_subscriptions]: the subscriptions the requested bundles and their
    includes need.  It reads the machine ([is_installed_bundle]) and does not
    change it; the result is the bit mask, the list behind [*subs] and what
    was printed.  [fuel] bounds the depth of the recursion. *)
Fixpoint add_subscriptions (fuel : nat) (w : world) (mom : MoM) (find_all : bool)
    (bundles : list string) (subs : list sub) (recursion : Z) {struct fuel}
    : option (Z * list sub * list event) :=
  match fuel with
  | O => None
  | S fuel' =>
      subscribe_each
        (fun names subs => add_subscriptions fuel' w mom find_all names subs (recursion + 1))
        w mom find_all recursion bundles 0 subs []
  end.

(** The call of line 816. *)
Definition call_add_subscriptions (fuel : nat) (mom : MoM) (bundles : list string)
    (subs : list sub) : M (Z * list sub) := fun w =>
  match add_subscriptions fuel w mom false bundles subs 0 with
  | None => None
  | Some (r, subs, tr) => Some ((r, subs), w, tr)
  end.

(** ** install_bundles *)

(** C's [double]: a [long] converted to [double], and the literal [1.1]. *)
Definition double_of_long (z : Z) : float :=
  if z <? 0 then PrimFloat.opp (PrimFloat.of_uint63 (Uint63.of_Z (- z)))
  else PrimFloat.of_uint63 (Uint63.of_Z z).

Definition fudge_factor : float := 0x1.199999999999ap+0%float.

(** The test of line 916: [((bundle_size * 1.1) > fs_free) || fs_free < 0]. *)
Definition disk_space_short (bundle_size fs_free : Z) : bool :=
  PrimFloat.ltb (double_of_long fs_free)
                (PrimFloat.mul (double_of_long bundle_size) fudge_factor)
  || (fs_free <? 0).

(** The loop of lines 819-835: every requested bundle that is already
    installed is reported and tracked; [already_installed] counts them. *)
Fixpoint report_installed (mom : MoM) (iter : list string) (already_installed : Z)
    : M Z :=
  match iter with
  | [] => ret already_installed
  | bundle :: iter' =>
      let* installed := look (is_installed_bundle bundle) in
      let* already_installed :=
        if installed then
          let* _ := warn (MsgAlreadyInstalled bundle) in
          let* _ := track_installed bundle in
          ret (already_installed + 1)
        else ret already_installed in
      let* _ :=
        match search_bundle_in_manifest mom bundle with
        | Some file => if is_experimental file then warn (MsgExperimental bundle) else ret tt
        | None => ret tt
        end in
      report_installed mom iter' already_installed
  end.

(** The loop of lines 971-1004: the staged copy of every planned file is
    verified; a copy that fails the check is removed.  The result is [ret]:
    [SWUPD_COULDNT_REMOVE_FILE] is the jump to [out]. *)
Fixpoint verify_staged (iter : list file) : M swupd_code :=
  match iter with
  | [] => ret SWUPD_OK
  | file :: iter' =>
      let* present := look (fun w => bool_decide (is_Some (staged w !! hash file))) in
      if negb present then verify_staged iter'
      else
        let* good := act (EvVerify file) (fun w => (verify_file E file (hash file) w, w)) in
        if negb good then
          let* _ := warn (MsgHashFailed (filename file)) in
          let* _ := info (MsgWillDownload (filename file)) in
          let* failed := look (syscall_fails E (SysRm (StagedFile (hash file)))) in
          if failed then
            let* _ := emit (EvRm (StagedFile (hash file))) in
            let* _ := error (MsgCouldNotRemove (hash file)) in
            ret SWUPD_COULDNT_REMOVE_FILE
          else
            let* _ := act_ (EvRm (StagedFile (hash file))) (unlink_staged (hash file)) in
            verify_staged iter'
        else verify_staged iter'
  end.

Definition skipped (file : file) : bool :=
  is_deleted file || do_not_update file || ignore E file.

(** The first loop of lines 1018-1047.  [apply_heuristics] and [do_staging]
    work on the record itself, which the second loop reads again: the result
    carries the records as the loop leaves them. *)
Fixpoint stage_files (mom : MoM) (iter : list file) : M (swupd_code * list file) :=
  match iter with
  | [] => ret (SWUPD_OK, [])
  | file :: iter' =>
      if skipped file then
        let* '(code, done) := stage_files mom iter' in
        ret (code, file :: done)
      else
        let file := apply_heuristics E file in
        let* '(code, file) :=
          act (EvStage file)
              (fun w => let '(code, file', w') := do_staging E file mom w in
                        ((code, file'), w')) in
        if code_true code then ret (code, file :: iter')
        else
          let* '(code, done) := stage_files mom iter' in
          ret (code, file :: done)
  end.

(** The second loop of lines 1050-1072. *)
Fixpoint rename_files (mom : MoM) (iter : list file) : M unit :=
  match iter with
  | [] => ret tt
  | file :: iter' =>
      if skipped file then rename_files mom iter'
      else
        let file' :=
          match staging file with
          | None => if negb (is_dir file)
                    then search_file_in_manifest E mom (filename file)
                    else Some file
          | Some _ => Some file
          end in
        let* _ := act_ (EvRename file') (rename_staged_file_to_final E file') in
        rename_files mom iter'
  end.

(** The loop after [out:] (lines 1088-1101). *)
Fixpoint count_installed (bundles : list string) (iter : list manifest)
    (bundles_installed dependencies_installed : Z) : M (Z * Z) :=
  match iter with
  | [] => ret (bundles_installed, dependencies_installed)
  | to_install_manifest :: iter' =>
      let* installed := look (is_installed_bundle (component to_install_manifest)) in
      if installed then
        if string_in_list (component to_install_manifest) bundles then
          let* _ := track_installed (component to_install_manifest) in
          count_installed bundles iter' (bundles_installed + 1) dependencies_installed
        else
          count_installed bundles iter' bundles_installed (dependencies_installed + 1)
      else count_installed bundles iter' bundles_installed dependencies_installed
  end.

(** Everything from [out:] to the [return] (lines 1085-1140). *)
Definition install_out (bundles : list string) (already_installed : Z)
    (to_install_bundles : list manifest) (invalid_bundle_provided : bool)
    (code : swupd_code) : M swupd_code :=
  let bundles_requested := list_len bundles in
  let* '(bundles_installed, dependencies_installed) :=
    count_installed bundles to_install_bundles 0 0 in
  let bundles_failed :=
    if code_true code && negb (bundles_installed =? 0)
    then bundles_requested - already_installed
    else bundles_requested - bundles_installed - already_installed in
  let* _ :=
    if 0 <? bundles_failed
    then print (MsgFailedToInstall bundles_failed (bundles_requested - already_installed))
    else if 0 <? bundles_installed then print (MsgInstalled bundles_installed)
    else ret tt in
  let* _ :=
    if 0 <? dependencies_installed then print (MsgDependencies dependencies_installed)
    else ret tt in
  let* _ :=
    if 0 <? already_installed then print (MsgAlready already_installed) else ret tt in
  if invalid_bundle_provided && negb (code_true code) then ret SWUPD_INVALID_BUNDLE
  else ret code.

(** Steps 4 to 7 of [install_bundles] (lines 936-1083): downloads, the
    check of the staged copies, the two loops over the plan, [sync] and the
    scripts. The result is [ret] at the label [out]. *)
Definition install_files (mom : MoM) (subs : list sub) (to_install_files : list file)
    : M swupd_code :=
  let* _ := act_ EvRmDownload (rm_staging_dir_contents E) in
  let* _ :=
    if list_longer_than to_install_files 10
    then act_ EvDownloadPacks (download_subscribed_packs E subs mom)
    else info MsgNoPacks in
  let* r := act (EvDownloadFullfiles to_install_files)
                (download_fullfiles E to_install_files) in
  if negb (r =? 0) then
    let* _ := error MsgDownloadFailed in
    ret (SWUPD_INT (Z.abs r))
  else
    let* _ := info MsgInstalling in
    let* code := verify_staged to_install_files in
    if code_true code then ret code
    else
      let* '(code, files) := stage_files mom to_install_files in
      if code_true code then ret code
      else
        let* _ := rename_files mom files in
        let* _ := act_ EvSync (sync E) in
        let* _ := act_ EvScripts (scripts_run_post_update E) in
        ret SWUPD_OK.

(** The plan of step 2 (lines 887-897). *)
Definition plan (to_install_bundles installed_bundles : list manifest) : list file :=
  let installed_files := consolidate_files_from_bundles installed_bundles in
  let installed_files := filter_out_deleted_files installed_files in
  let to_install_files := consolidate_files_from_bundles to_install_bundles in
  let to_install_files := filter_out_deleted_files to_install_files in
  filter_out_existing_files to_install_files installed_files.

(** Step 3 (lines 902-934): [false] is the jump to [out] with
    [SWUPD_DISK_SPACE_ERROR]. *)
Definition check_disk_space (to_install_bundles : list manifest) : M bool :=
  if negb (skip_diskspace_check G) then
    let bundle_size := get_manifest_list_contentsize to_install_bundles in
    let* fs_free := look (get_available_space E) in
    if disk_space_short bundle_size fs_free then
      let* _ :=
        if 0 <? fs_free
        then error (MsgTooLarge (Z.quot (Z.quot (bundle_size - fs_free) 1000) 1000))
        else error MsgNoFreeSpace in
      let* _ := info MsgDiskNote in
      let* _ := info MsgDiskHint in
      ret false
    else ret true
  else ret true.

(** [install_bundles]; the result is the status and the list behind
    [*subs]. *)
Definition install_bundles (fuel : nat) (bundles : list string) (subs : list sub)
    (mom : MoM) : M (swupd_code * list sub) :=
  let* _ := info MsgLoading in
  let* '(r, subs) := call_add_subscriptions fuel mom bundles subs in
  let* already_installed := report_installed mom bundles 0 in
  let out := install_out bundles already_installed in
  if negb (has_bit r add_sub_NEW) then
    let code := if has_bit r add_sub_ERR then SWUPD_COULDNT_LOAD_MANIFEST
                else if has_bit r add_sub_BADNAME then SWUPD_INVALID_BUNDLE
                else SWUPD_OK in
    let* code := out [] false code in
    ret (code, subs)
  else
    let invalid_bundle_provided := has_bit r add_sub_BADNAME in
    let subs := set_subscription_versions mom subs in
    match recurse_manifest E mom subs with
    | [] =>
        let* _ := error MsgNoToInstall in
        let* code := out [] invalid_bundle_provided SWUPD_RECURSE_MANIFEST in
        ret (code, subs)
    | to_install_bundles =>
        let out := out to_install_bundles invalid_bundle_provided in
        let* current_subs := look (read_subscriptions E) in
        let current_subs := set_subscription_versions mom current_subs in
        match recurse_manifest E mom current_subs with
        | [] =>
            let* _ := error MsgNoInstalled in
            let* code := out SWUPD_RECURSE_MANIFEST in
            ret (code, subs)
        | installed_bundles =>
            let mom := {| manifests := manifests mom;
                          submanifests := installed_bundles;
                          mom_files := consolidate_files_from_bundles installed_bundles |} in
            let to_install_files := plan to_install_bundles installed_bundles in
            let* enough := check_disk_space to_install_bundles in
            if negb enough then
              let* code := out SWUPD_DISK_SPACE_ERROR in
              ret (code, subs)
            else
              let* code := install_files mom subs to_install_files in
              let* code := out code in
              ret (code, subs)
        end
    end.

End Bundle.

(** ** A reference machine

    One instance of the collaborators, used to run the model on concrete
    inputs.  Modelled from the spec: the fetcher, the digest and the staged
    installer of sections 4.1, 4.5 and 6 ("content-addressed staging area",
    "copy the staged content to <path>.update", "rename each sidecar to its
    final name", "presence marks bundle installed"). *)
Module Reference.

Fixpoint strip_prefix (p s : string) : option string :=
  match p with
  | EmptyString => Some s
  | String c p' =>
      match s with
      | String d s' => if Ascii.eqb c d then strip_prefix p' s' else None
      | EmptyString => None
      end
  end.

Definition BUNDLES_DIR : string := "/usr/share/clear/bundles/".

Definition put_file (name digest : string) (w : world) : world :=
  match strip_prefix BUNDLES_DIR name with
  | Some bundle =>
      {| bundles_dir := {[bundle]} ∪ bundles_dir w; tracking := tracking w;
         staged := staged w; target := target w |}
  | None =>
      {| bundles_dir := bundles_dir w; tracking := tracking w;
         staged := staged w; target := <[name := digest]> (target w) |}
  end.

Definition drop_file (name : string) (w : world) : world :=
  match strip_prefix BUNDLES_DIR name with
  | Some bundle =>
      {| bundles_dir := bundles_dir w ∖ {[bundle]}; tracking := tracking w;
         staged := staged w; target := target w |}
  | None =>
      {| bundles_dir := bundles_dir w; tracking := tracking w;
         staged := staged w; target := delete name (target w) |}
  end.

(** The fetcher stores a payload under its hash unless an entry is there. *)
Definition fetch (f : file) (w : world) : world :=
  match staged w !! hash f with
  | Some _ => w
  | None => set_staged (<[hash f := hash f]> (staged w)) w
  end.

Definition set_target (t : gmap string string) (w : world) : world :=
  {| bundles_dir := bundles_dir w; tracking := tracking w; staged := staged w;
     target := t |}.

(** Staging copies the payload next to its destination; without a payload
    it fails. *)
Definition stage (f : file) (w : world) : swupd_code * file * world :=
  match staged w !! hash f with
  | Some digest =>
      let sidecar := String.append (filename f) ".update" in
      (SWUPD_OK,
       {| filename := filename f; hash := hash f; last_change := last_change f;
          is_deleted := is_deleted f; is_dir := is_dir f;
          do_not_update := do_not_update f; is_experimental := is_experimental f;
          staging := Some sidecar |},
       set_target (<[sidecar := digest]> (target w)) w)
  | None => (SWUPD_INT 1, f, w)
  end.

Definition rename (f : option file) (w : world) : world :=
  match f with
  | Some f =>
      match staging f with
      | Some sidecar =>
          match target w !! sidecar with
          | Some digest =>
              put_file (filename f) digest (set_target (delete sidecar (target w)) w)
          | None => w
          end
      | None => w
      end
  | None => w
  end.

Definition find_in (store : list manifest) (name : string) : option manifest :=
  find (fun m => strcmp (component m) name =? 0) store.

(** The machine of the reference runs: [store] holds the manifests the
    server publishes and [free] is the space left under [/usr]. *)
Definition machine (mom : MoM) (store : list manifest) (free : Z) : externs :=
  {| swupd_init := fun w => (SWUPD_OK, w);
     get_current_version := fun _ => 10;
     load_mom := fun _ _ => Some mom;
     read_subscriptions := fun w => map (fun n => mk_sub n 0) (elements (bundles_dir w));
     load_manifest := fun f => find_in store (filename f);
     recurse_manifest := fun _ subs =>
       omap (fun s => find_in store (sub_component s)) subs;
     ignore := fun _ => false;
     apply_heuristics := fun f => f;
     get_available_space := fun _ => free;
     rm_staging_dir_contents := fun w => w;
     download_subscribed_packs := fun _ _ w => w;
     download_fullfiles := fun l w => (0, fold_right fetch w l);
     verify_file := fun f name w => bool_decide (staged w !! name = Some (hash f));
     do_staging := fun f _ w => stage f w;
     search_file_in_manifest := fun m name =>
       find (fun f => strcmp (filename f) name =? 0) (mom_files m);
     rename_staged_file_to_final := rename;
     sync := fun w => w;
     scripts_run_post_update := fun w => w;
     remove_files_from_fs := fun l w =>
       (list_len l, fold_right (fun f w => drop_file (filename f) w) w l);
     syscall_fails := fun _ _ => false;
     list_search_rewinds := true |}.

Definition defaults : options :=
  {| cmdline_option_force := false; skip_diskspace_check := false;
     skip_optional_bundles := false; verbose := false |}.

Definition regular (name digest : string) (version : Z) : file :=
  {| filename := name; hash := digest; last_change := version; is_deleted := false;
     is_dir := false; do_not_update := false; is_experimental := false;
     staging := None |}.

Definition deleted (name : string) (version : Z) : file :=
  {| filename := name; hash := "0"; last_change := version; is_deleted := true;
     is_dir := false; do_not_update := false; is_experimental := false;
     staging := None |}.

(** Three bundles: [os-core], [editors] and [vim]; [editors] includes
    [vim]; [/usr/bin/vi] is shipped by both [os-core] and [vim]. *)
Definition os_core : manifest :=
  {| component := "os-core";
     files := [regular "/usr/bin/vi" "h-vi" 10;
               regular "/usr/lib/libc.so" "h-libc" 10;
               regular "/usr/share/clear/bundles/os-core" "h-empty" 10];
     includes := []; optional := []; contentsize := 100 |}.

Definition vim : manifest :=
  {| component := "vim";
     files := [regular "/usr/bin/vi" "h-vi" 10;
               regular "/usr/bin/vim" "h-vim" 10;
               regular "/usr/share/clear/bundles/vim" "h-empty" 10];
     includes := ["os-core"%string]; optional := []; contentsize := 100 |}.

Definition editors : manifest :=
  {| component := "editors";
     files := [regular "/usr/bin/emacs" "h-emacs" 10;
               regular "/usr/share/clear/bundles/editors" "h-empty" 10];
     includes := ["os-core"%string; "vim"%string]; optional := []; contentsize := 200 |}.

Definition store : list manifest := [os_core; vim; editors].

Definition the_mom : MoM :=
  {| manifests := [regular "os-core" "m-os-core" 10;
                   regular "vim" "m-vim" 10;
                   regular "editors" "m-editors" 10];
     submanifests := []; mom_files := [] |}.

(** A machine with only [os-core] installed, and one with all three. *)
Definition base : world :=
  {| bundles_dir := {["os-core"%string]};
     tracking := None;
     staged := ∅;
     target := {["/usr/bin/vi"%string := "h-vi"%string]}
               ∪ {["/usr/lib/libc.so"%string := "h-libc"%string]} |}.

Definition full : world :=
  {| bundles_dir := {["os-core"%string]} ∪ {["vim"%string]} ∪ {["editors"%string]};
     tracking := Some ({["editors"%string]});
     staged := ∅;
     target := {["/usr/bin/vi"%string := "h-vi"%string]}
               ∪ {["/usr/lib/libc.so"%string := "h-libc"%string]}
               ∪ {["/usr/bin/vim"%string := "h-vim"%string]}
               ∪ {["/usr/bin/emacs"%string := "h-emacs"%string]} |}.

End Reference.

(** ** Vocabulary of the statements *)

(** A list of records provides [p] when it has a record for [p] that is not
    marked deleted. *)
Definition live_at (p : string) (l : list file) : Prop :=
  exists f, In f l /\ filename f = p /\ is_deleted f = false.

Definition provides (m : manifest) (p : string) : Prop := live_at p (files m).

Definition path_le (a b : file) : Prop := ~ str_lt (filename b) (filename a).
Definition path_lt (a b : file) : Prop := str_lt (filename a) (filename b).


(** The kind of an entry of the trace. *)
Inductive kind :=
| KMsg | KInit | KTrack | KUntrack | KUnstage | KRmDownload | KDownload
| KVerify | KStage | KRename | KSync | KScripts | KRemoveFiles | KTelemetry.

Definition event_kind (e : event) : kind :=
  match e with
  | EvMsg _ _ => KMsg
  | EvInit => KInit
  | EvRmRf _ | EvCopyAll | EvUnlink _ | EvChmod _ | EvCreate _ => KTrack
  | EvRm (StagedFile _) => KUnstage
  | EvRm _ => KUntrack
  | EvRmDownload => KRmDownload
  | EvDownloadPacks | EvDownloadFullfiles _ => KDownload
  | EvVerify _ => KVerify
  | EvStage _ => KStage
  | EvRename _ => KRename
  | EvSync => KSync
  | EvScripts => KScripts
  | EvRemoveFiles _ => KRemoveFiles
  | EvTelemetry _ _ => KTelemetry
  end.

(** Every entry of [t] has one of the kinds [ks]. *)
Definition only (ks : list kind) (t : list event) : Prop :=
  List.Forall (fun e => In (event_kind e) ks) t.

(** What [remove_bundles] decided for one bundle of its list, read off the
    trace: the bundle and the status of its rejection, or [None] when the
    bundle was taken for removal. *)
Definition outcome (e : event) : option (string * option swupd_code) :=
  match e with
  | EvMsg Warn MsgOsCore => Some ("os-core"%string, Some SWUPD_REQUIRED_BUNDLE_ERROR)
  | EvMsg Warn (MsgInvalid b) => Some (b, Some SWUPD_INVALID_BUNDLE)
  | EvMsg Warn (MsgNotInstalled b) => Some (b, Some SWUPD_BUNDLE_NOT_TRACKED)
  | EvMsg Error (MsgRequiredBy b _) => Some (b, Some SWUPD_REQUIRED_BUNDLE_ERROR)
  | EvMsg Info (MsgRemoving b) => Some (b, None)
  | _ => None
  end.

Definition outcomes (t : list event) : list (string * option swupd_code) :=
  omap outcome t.

(** The status of the last rejection of a list of outcomes, [code] when
    there is none. *)
Definition last_fault (code : swupd_code) (os : list (string * option swupd_code))
    : swupd_code :=
  fold_left (fun acc o => match snd o with Some c => c | None => acc end) os code.


Definition count_faults (os : list (string * option swupd_code)) : Z :=
  list_len (omap snd os).

(** The order of the checks [remove_bundles] makes for one bundle: the
    status [c] fits the bundle [b] on the machine [w]. *)
Definition fault_fits (mom : MoM) (w : world) (b : string) (c : option swupd_code) : Prop :=
  if strcmp b "os-core" =? 0 then c = Some SWUPD_REQUIRED_BUNDLE_ERROR
  else match search_bundle_in_manifest mom b with
       | None => c = Some SWUPD_INVALID_BUNDLE
       | Some _ =>
           if negb (is_installed_bundle b w) then c = Some SWUPD_BUNDLE_NOT_TRACKED
           else c = Some SWUPD_REQUIRED_BUNDLE_ERROR \/ c = None
       end.

(** The includes of the loaded manifests have no cycle: [rank] decreases
    from a bundle to the bundles that include it. *)
Definition ranked (rank : string -> nat) (subm : list manifest) : Prop :=
  forall b i, In b subm -> In i (includes b) -> i <> component b ->
              (rank (component b) < rank i)%nat.

(** Two machines that differ at most in the tracking directory. *)
Definition same_but_tracking (w w' : world) : Prop :=
  bundles_dir w' = bundles_dir w /\ staged w' = staged w /\ target w' = target w.

(** A computation that comes back on every machine. *)
Definition returns {A : Type} (m : M A) : Prop := forall w, exists r, m w = Some r.

(** What keeps the manifest of [os-core] out of the [--force] branch of
    [remove_bundles]: no [--force], or a manifest without includes. *)
Definition os_core_safe (G : options) (kept : list manifest) : Prop :=
  cmdline_option_force G = false \/
  (forall m, In m kept -> component m = "os-core"%string -> includes m = []).

(** The parts of the result of a run. *)
Definition result_value {A : Type} (d : A) (r : option (A * world * list event)) : A :=
  match r with Some (a, _, _) => a | None => d end.

Definition result_world {A : Type} (d : world) (r : option (A * world * list event))
    : world :=
  match r with Some (_, w, _) => w | None => d end.

Definition result_trace {A : Type} (r : option (A * world * list event)) : list event :=
  match r with Some (_, _, t) => t | None => [] end.

(** The reference runs of the statements below. *)
Module Runs.
Import Reference.

Definition server : externs := machine the_mom store 1000.

(** [bundle-remove editors] on the machine with the three bundles. *)
Definition remove_editors : option (swupd_code * world * list event) :=
  remove_bundles defaults server 3 ["editors"%string] full.

(** [bundle-remove os-core zzz], [zzz] being no bundle of the MoM. *)
Definition remove_os_core_zzz : option (swupd_code * world * list event) :=
  remove_bundles defaults server 3 ["os-core"%string; "zzz"%string] full.

(** The MoM once the manifests of the installed bundles are loaded. *)
Definition loaded : MoM :=
  {| manifests := manifests the_mom;
     submanifests := [os_core; editors; vim];
     mom_files := [] |}.

(** [os-core] is included by [vim], and both by [editors]. *)
Definition rank (name : string) : nat :=
  if String.eqb name "os-core" then 2%nat
  else if String.eqb name "vim" then 1%nat
  else 0%nat.

End Runs.

(** ** Vocabulary of the further statements *)

(** What a call of [add_subscriptions] leaves: messages only, the list
    grown by subscriptions to bundles of the MoM that are not installed,
    and an error message whenever the error bit is set. *)
Definition subscribed_post (w : world) (mom : MoM) (find_all : bool) (subs : list sub)
    (r : Z * list sub * list event) : Prop :=
  let '(ret, subs', t) := r in
  only [KMsg] t /\
  (exists new, subs' = subs ++ new /\
     forall s, In s new ->
       search_bundle_in_manifest mom (sub_component s) <> None /\
       (find_all = false -> is_installed_bundle (sub_component s) w = false)) /\
  (has_bit ret add_sub_ERR = true ->
   exists b v, In (EvMsg Error (MsgManifestFailed b v)) t).

(** The bundles of the MoM that [subs] does not subscribe to, and a budget
    that lets [add_subscriptions] come back: every level of the recursion
    below the first one adds a subscription. *)
Definition unsubscribed (mom : MoM) (subs : list sub) : nat :=
  length (List.filter (fun f => negb (component_subscribed subs (filename f)))
                      (manifests mom)).

Definition add_subscriptions_budget (mom : MoM) (subs : list sub) : nat :=
  S (S (unsubscribed mom subs)).

(** The bundle has its tracking file. *)
Definition tracked (b : string) (w : world) : Prop :=
  exists names, tracking w = Some names /\ b ∈ names.

(** The tracking directory as [track_installed] seeds it. *)
Definition seeded (w : world) : world :=
  unlink_tracking ".MoM" (copy_all_bundles (rm_rf_tracking w)).

(** The entries [track_installed] can add to the trace for a bundle. *)
Definition tracking_event (b : string) (e : event) : Prop :=
  In e [EvRmRf TrackingDir; EvCopyAll; EvUnlink (TrackingFile ".MoM");
        EvChmod TrackingDir; EvCreate (TrackingFile b);
        EvMsg Debug (MsgTrackingIssue b)].

(** The entries of the loop that reports the installed bundles: for a
    bundle of the list that is installed, the warning and the entries of
    [track_installed]; for any bundle of the list, the note that it is
    experimental. *)
Definition report_event (bundles : list string) (w : world) (e : event) : Prop :=
  exists b, In b bundles /\
    ((is_installed_bundle b w = true /\
      (e = EvMsg Warn (MsgAlreadyInstalled b) \/ tracking_event b e)) \/
     e = EvMsg Warn (MsgExperimental b)).

(** The entries of the loop after [out:]: the entries of [track_installed]
    for requested bundles that are installed by then. *)
Definition count_event (bundles : list string) (w : world) (e : event) : Prop :=
  exists b, In b bundles /\ is_installed_bundle b w = true /\ tracking_event b e.

(** The calls of [do_staging] of a full pass of the first loop over the
    plan: one for every record that is not skipped, in the order of the
    plan, on the record as [apply_heuristics] leaves it. *)
Definition staging_pass (E : externs) (l : list file) : list event :=
  map (fun f => EvStage (apply_heuristics E f))
      (List.filter (fun f => negb (skipped E f)) l).

(** The way of [install_bundles] from the test of line 839 to the label
    [out] (lines 837-1083).  The result is what the code after [out] reads:
    [ret], [to_install_bundles] ([NULL] as the empty list),
    [invalid_bundle_provided] and the list behind [*subs]. *)
Definition install_steps (G : options) (E : externs) (r : Z) (subs : list sub) (mom : MoM)
    : M (swupd_code * list manifest * bool * list sub) :=
  if negb (has_bit r add_sub_NEW) then
    let code := if has_bit r add_sub_ERR then SWUPD_COULDNT_LOAD_MANIFEST
                else if has_bit r add_sub_BADNAME then SWUPD_INVALID_BUNDLE
                else SWUPD_OK in
    ret (code, [], false, subs)
  else
    let invalid_bundle_provided := has_bit r add_sub_BADNAME in
    let subs := set_subscription_versions mom subs in
    match recurse_manifest E mom subs with
    | [] =>
        let* _ := error MsgNoToInstall in
        ret (SWUPD_RECURSE_MANIFEST, [], invalid_bundle_provided, subs)
    | to_install_bundles =>
        let* current_subs := look (read_subscriptions E) in
        let current_subs := set_subscription_versions mom current_subs in
        match recurse_manifest E mom current_subs with
        | [] =>
            let* _ := error MsgNoInstalled in
            ret (SWUPD_RECURSE_MANIFEST, to_install_bundles, invalid_bundle_provided, subs)
        | installed_bundles =>
            let mom := {| manifests := manifests mom;
                          submanifests := installed_bundles;
                          mom_files := consolidate_files_from_bundles installed_bundles |} in
            let to_install_files := plan to_install_bundles installed_bundles in
            let* enough := check_disk_space G E to_install_bundles in
            if negb enough then
              ret (SWUPD_DISK_SPACE_ERROR, to_install_bundles, invalid_bundle_provided, subs)
            else
              let* code := install_files E mom subs to_install_files in
              ret (code, to_install_bundles, invalid_bundle_provided, subs)
        end
    end.


(** The messages of [add_subscriptions]. *)
Definition subscription_event (e : event) : Prop :=
  (exists b, e = EvMsg Warn (MsgInvalid b)) \/
  (exists b v, e = EvMsg Error (MsgManifestFailed b v)).

(** The names a list subscribes to. *)
Definition components (subs : list sub) : list string := map sub_component subs.

(** The reference runs of [install_bundles]. *)
Module InstallRuns.
Import Reference.

Definition none : swupd_code * list sub := (SWUPD_OK, []).

(** [bundle-add editors] on the machine with [os-core] only. *)
Definition add_editors : option (swupd_code * list sub * world * list event) :=
  install_bundles defaults Runs.server 10 ["editors"%string] [] the_mom base.

(** [bundle-add vim zzz], [zzz] being no bundle of the MoM. *)
Definition add_vim_zzz : option (swupd_code * list sub * world * list event) :=
  install_bundles defaults Runs.server 10 ["vim"%string; "zzz"%string] [] the_mom base.

(** [bundle-add os-core vim] with 100 bytes left under [/usr]. *)
Definition tight : externs := machine the_mom store 100.

Definition add_vim_tight : option (swupd_code * list sub * world * list event) :=
  install_bundles defaults tight 10 ["os-core"%string; "vim"%string] [] the_mom base.

(** [bundle-add vim] when the staging area holds a corrupt copy of
    [/usr/bin/vim]. *)
Definition corrupt : world :=
  {| bundles_dir := bundles_dir base; tracking := tracking base;
     staged := {["h-vim"%string := "garbage"%string]}; target := target base |}.

Definition add_vim_corrupt : option (swupd_code * list sub * world * list event) :=
  install_bundles defaults Runs.server 10 ["vim"%string] [] the_mom corrupt.

(** [bundle-add vim] on the machine with the three bundles. *)
Definition add_vim_again : option (swupd_code * list sub * world * list event) :=
  install_bundles defaults Runs.server 10 ["vim"%string] [] the_mom full.

End InstallRuns.

(** Two bundles that include each other, for the runs that show that the
    recursion of [add_subscriptions] ends on a cycle. *)
Module Cyclic.
Import Reference.

Definition ping : manifest :=
  {| component := "ping";
     files := [regular "/usr/bin/ping" "h-ping" 10;
               regular "/usr/share/clear/bundles/ping" "h-empty" 10];
     includes := ["pong"%string]; optional := []; contentsize := 10 |}.

Definition pong : manifest :=
  {| component := "pong";
     files := [regular "/usr/bin/pong" "h-pong" 10;
               regular "/usr/share/clear/bundles/pong" "h-empty" 10];
     includes := ["ping"%string]; optional := []; contentsize := 10 |}.

Definition mom : MoM :=
  {| manifests := [regular "ping" "m-ping" 10; regular "pong" "m-pong" 10];
     submanifests := []; mom_files := [] |}.

Definition server : externs := machine mom [ping; pong] 1000.

Definition nothing : world :=
  {| bundles_dir := ∅; tracking := None; staged := ∅; target := ∅ |}.

End Cyclic.

(** A machine whose server cannot be reached: no MoM can be loaded. *)
Module Offline.
Import Reference.

Definition server : externs :=
  {| swupd_init := swupd_init Runs.server;
     get_current_version := get_current_version Runs.server;
     load_mom := fun _ _ => None;
     read_subscriptions := read_subscriptions Runs.server;
     load_manifest := fun _ => None;
     recurse_manifest := fun _ _ => [];
     ignore := ignore Runs.server;
     apply_heuristics := apply_heuristics Runs.server;
     get_available_space := get_available_space Runs.server;
     rm_staging_dir_contents := rm_staging_dir_contents Runs.server;
     download_subscribed_packs := download_subscribed_packs Runs.server;
     download_fullfiles := fun _ w => (-1, w);
     verify_file := verify_file Runs.server;
     do_staging := do_staging Runs.server;
     search_file_in_manifest := search_file_in_manifest Runs.server;
     rename_staged_file_to_final := rename_staged_file_to_final Runs.server;
     sync := sync Runs.server;
     scripts_run_post_update := scripts_run_post_update Runs.server;
     remove_files_from_fs := remove_files_from_fs Runs.server;
     syscall_fails := syscall_fails Runs.server;
     list_search_rewinds := list_search_rewinds Runs.server |}.

(** [bundle-remove vim] without a MoM. *)
Definition remove_vim : option (swupd_code * world * list event) :=
  remove_bundles defaults server 3 ["vim"%string] full.

End Offline.

(** [requires subm x b]: the bundle [x] depends on [b] through the
    includes of the manifests [subm]: a chain of manifests leads from [b]
    to [x], each one including the component of the one before ([b] for
    the first one) and being another bundle than the one it includes. *)
Inductive requires (subm : list manifest) : string -> string -> Prop :=
| requires_direct (m : manifest) (b : string) :
    In m subm -> In b (includes m) -> component m <> b ->
    requires subm (component m) b
| requires_through (m : manifest) (b x : string) :
    In m subm -> In b (includes m) -> component m <> b ->
    requires subm x (component m) ->
    requires subm x b.

(** ** The commands around [install_bundles] and [required_by]

    [install_bundles_frontend], [show_included_bundles] and
    [show_bundle_reqd_by] print messages of their own, return one more
    status and call helpers the two operations above do not use. *)

(** The messages these commands add. *)
Inductive command_message :=
| MsgOfficialMoMFailed (version : Z)
| MsgAlias (alias bundles : string)
| MsgAborting (reason : string)
| MsgIncludedFailed
| MsgNoIncluded
| MsgIncludedBy (bundle : string)
| MsgName (name : string)
| MsgNotSeemInstalled (bundle : string)
| MsgTryAll
| MsgInvalidAborting (bundle : string)
| MsgServerManifestFailed
| MsgNoDependency (bundle : string)
| MsgIsRequiredBy (bundle : string) (n : Z)
| MsgListFailed.

(** An entry of the trace of a command: an entry of the operations above,
    or a message of the command. *)
Inductive output :=
| Core (e : event)
| Say (l : level) (m : command_message).

(** The status of [show_included_bundles]: a member of [swupd_code] above,
    or [SWUPD_UNEXPECTED_CONDITION]. *)
Inductive command_code :=
| Code (c : swupd_code)
| SWUPD_UNEXPECTED_CONDITION.

(** The helpers of other files the commands call: [load_mom] without the
    mix ([load_mom(version, false, NULL)]), [get_alias_bundles] on what
    [get_alias_definitions] found on the machine, [string_join],
    [add_included_manifests] and [recurse_manifest] with [server] set. *)
Record helpers := mk_helpers {
  load_mom_upstream : Z -> world -> option MoM;
  get_alias_bundles : world -> string -> list string;
  string_join : string -> list string -> string;
  add_included_manifests : MoM -> world -> Z * list sub;
  recurse_manifest_server : MoM -> list sub -> list manifest
}.

(** Computations of the commands. *)
Definition C (A : Type) : Type := world -> option (A * world * list output).

Definition cret {A : Type} (a : A) : C A := fun w => Some (a, w, []).

Definition cbind {A B : Type} (m : C A) (k : A -> C B) : C B := fun w =>
  match m w with
  | None => None
  | Some (a, w1, t1) =>
      match k a w1 with
      | None => None
      | Some (b, w2, t2) => Some (b, w2, t1 ++ t2)
      end
  end.

Notation "'let+' x ':=' m 'in' k" := (cbind m (fun x => k))
  (at level 10, x name, m at level 100, k at level 200).
Notation "'let+' ' p ':=' m 'in' k" := (cbind m (fun x => match x with p => k end))
  (at level 10, p pattern, m at level 100, k at level 200).

(** A computation of the operations above, run inside a command. *)
Definition lift {A : Type} (m : M A) : C A := fun w =>
  match m w with
  | None => None
  | Some (a, w', t) => Some (a, w', map Core t)
  end.

Definition say (l : level) (m : command_message) : C unit := fun w => Some (tt, w, [Say l m]).

Section Commands.

Context (G : options) (E : externs) (H : helpers).

(** The message of line 1189 for one name of the command line, if any. *)
Definition alias_note (w : world) (bundle : string) : list output :=
  let alias_list_str := string_join H ", " (get_alias_bundles H w bundle) in
  if negb (strcmp bundle alias_list_str =? 0)
  then [Say Info (MsgAlias bundle alias_list_str)] else [].

(** The loop of lines 1184-1193: the bundles an alias stands for go in
    front of the list built so far. *)
Fixpoint expand_aliases (bundles : list string) (bundles_list : list string)
    : C (list string) :=
  match bundles with
  | [] => cret bundles_list
  | bundle :: bundles' =>
      let+ alias_bundles := lift (look (fun w => get_alias_bundles H w bundle)) in
      let alias_list_str := string_join H ", " alias_bundles in
      let+ _ := if negb (strcmp bundle alias_list_str =? 0)
                then say Info (MsgAlias bundle alias_list_str)
                else cret tt in
      expand_aliases bundles' (alias_bundles ++ bundles_list)
  end.

(** [install_bundles_frontend] (lines 1146-1228). *)
Definition install_bundles_frontend (fuel : nat) (bundles : list string) : C swupd_code :=
  let+ r := lift (act EvInit (swupd_init E)) in
  if code_true r then
    let+ _ := lift (error MsgInitFailed) in
    cret r
  else
    let clean_and_exit (ret : swupd_code) : C swupd_code :=
      let+ _ := lift (emit (EvTelemetry "bundleadd" ret)) in
      cret ret in
    let+ current_version := lift (look (get_current_version E)) in
    if current_version <? 0 then
      let+ _ := lift (error MsgVersionUnknown) in
      clean_and_exit SWUPD_CURRENT_VERSION_UNKNOWN
    else
      let+ mom := lift (look (load_mom E current_version)) in
      match mom with
      | None =>
          let+ _ := say Error (MsgOfficialMoMFailed current_version) in
          clean_and_exit SWUPD_COULDNT_LOAD_MOM
      | Some mom =>
          let+ bundles_list := expand_aliases bundles [] in
          let+ '(ret, _) := lift (install_bundles G E fuel bundles_list [] mom) in
          clean_and_exit ret
      end.

(** The loop of lines 292-302. *)
Fixpoint print_included (bundle_name : string) (deps : list manifest) : C unit :=
  match deps with
  | [] => cret tt
  | included_bundle :: iter =>
      if strcmp bundle_name (component included_bundle) =? 0
      then print_included bundle_name iter
      else
        let+ _ := say Print (MsgName (component included_bundle)) in
        print_included bundle_name iter
  end.

(** The call of line 252: a list of one name, no subscriptions yet,
    [find_all] set. *)
Definition call_add_subscriptions_all (fuel : nat) (mom : MoM) (bundle_name : string)
    : M (Z * list sub) := fun w =>
  match add_subscriptions G E fuel w mom true [bundle_name] [] 0 with
  | None => None
  | Some (r, subs, tr) => Some ((r, subs), w, tr)
  end.

(** [show_included_bundles] (lines 228-319). *)
Definition show_included_bundles (fuel : nat) (bundle_name : string) : C command_code :=
  let+ current_version := lift (look (get_current_version E)) in
  if current_version <? 0 then
    let+ _ := lift (error MsgVersionUnknown) in
    cret (Code SWUPD_CURRENT_VERSION_UNKNOWN)
  else
    let+ mom := lift (look (load_mom_upstream H current_version)) in
    match mom with
    | None =>
        let+ _ := say Error (MsgOfficialMoMFailed current_version) in
        cret (Code SWUPD_COULDNT_LOAD_MOM)
    | Some mom =>
        let+ '(ret, subs) := lift (call_add_subscriptions_all fuel mom bundle_name) in
        if negb (ret =? add_sub_NEW) then
          if has_bit ret add_sub_ERR then
            let+ _ := say Error (MsgAborting "Processing error") in
            cret (Code SWUPD_COULDNT_LOAD_MANIFEST)
          else if has_bit ret add_sub_BADNAME then
            let+ _ := say Error (MsgAborting "Bad bundle name detected") in
            cret (Code SWUPD_INVALID_BUNDLE)
          else
            let+ _ := say Error (MsgAborting "Unknown error") in
            cret SWUPD_UNEXPECTED_CONDITION
        else
          match recurse_manifest E mom subs with
          | [] =>
              let+ _ := say Error MsgIncludedFailed in
              cret (Code SWUPD_RECURSE_MANIFEST)
          | deps =>
              if list_len deps =? 1 then
                let+ _ := say Info MsgNoIncluded in
                cret (Code SWUPD_OK)
              else
                let+ _ := say Info (MsgIncludedBy bundle_name) in
                let+ _ := print_included bundle_name deps in
                cret (Code SWUPD_OK)
          end
    end.

(** The call of line 381: [reqd_by] is [NULL] before it and there are no
    exclusions; what [required_by] prints goes to the trace. *)
Definition call_required_by_all (fuel : nat) (bundle : string) (subm : list manifest)
    (msg : message) : M (Z * list string) := fun w =>
  match required_by G fuel (mk_reqd [] false []) bundle subm 0 [] msg with
  | None => None
  | Some (n, r) => Some ((n, reqd_by r), w, printed r)
  end.

(** [show_bundle_reqd_by] (lines 321-406).  [msg] is the header line 380
    makes of [server] and [bundle_name]. *)
Definition show_bundle_reqd_by (fuel : nat) (msg : bool -> string -> message)
    (bundle_name : string) (server : bool) : C swupd_code :=
  let out (ret : swupd_code) : C swupd_code :=
    let+ _ := if code_true ret then say Print MsgListFailed else cret tt in
    cret ret in
  let+ installed := lift (look (is_installed_bundle bundle_name)) in
  if negb server && negb installed then
    let+ _ := say Info (MsgNotSeemInstalled bundle_name) in
    let+ _ := say Info MsgTryAll in
    out SWUPD_BUNDLE_NOT_TRACKED
  else
    let+ version := lift (look (get_current_version E)) in
    if version <? 0 then
      let+ _ := lift (error MsgVersionUnknown) in
      out SWUPD_CURRENT_VERSION_UNKNOWN
    else
      let+ current_manifest := lift (look (load_mom_upstream H version)) in
      match current_manifest with
      | None =>
          let+ _ := lift (error (MsgMoMFailed version)) in
          out SWUPD_COULDNT_LOAD_MOM
      | Some current_manifest =>
          match search_bundle_in_manifest current_manifest bundle_name with
          | None =>
              let+ _ := say Error (MsgInvalidAborting bundle_name) in
              out SWUPD_INVALID_BUNDLE
          | Some _ =>
              let+ subs :=
                if server then
                  let+ '(ret, subs) :=
                    lift (look (add_included_manifests H current_manifest)) in
                  if negb (ret =? 0) then
                    let+ _ := say Error MsgServerManifestFailed in
                    cret None
                  else cret (Some subs)
                else
                  let+ subs := lift (look (read_subscriptions E)) in
                  cret (Some subs) in
              match subs with
              | None => out SWUPD_COULDNT_LOAD_MANIFEST
              | Some subs =>
                  match (if server
                         then recurse_manifest_server H current_manifest subs
                         else recurse_manifest E current_manifest subs) with
                  | [] =>
                      let+ _ := lift (error MsgSubmanifestsFailed) in
                      out SWUPD_RECURSE_MANIFEST
                  | submanifests =>
                      let+ '(number_of_reqd, reqd_by) :=
                        lift (call_required_by_all fuel bundle_name submanifests
                                (msg server bundle_name)) in
                      match reqd_by with
                      | [] =>
                          let+ _ := say Info (MsgNoDependency bundle_name) in
                          out SWUPD_OK
                      | _ =>
                          let+ _ := say Info (MsgIsRequiredBy bundle_name number_of_reqd) in
                          out SWUPD_OK
                      end
                  end
              end
          end
      end.

End Commands.

(** What a command put on the trace of the operations. *)
Definition core_of (t : list output) : list event :=
  omap (fun o => match o with Core e => Some e | Say _ _ => None end) t.

(** The names [show_included_bundles] printed. *)
Definition names_of (t : list output) : list string :=
  omap (fun o => match o with Say Print (MsgName n) => Some n | _ => None end) t.

(** The lines [show_bundle_reqd_by] ends with: the count, the line for no
    dependency, or the line for a failure. *)
Definition is_verdict (o : output) : bool :=
  match o with
  | Say _ (MsgNoDependency _) | Say _ (MsgIsRequiredBy _ _) | Say _ MsgListFailed => true
  | _ => false
  end.

(** The commands on the machines of the reference runs; [dev] is an alias
    for [editors] and [vim]. *)
Module CommandRuns.
Import Reference.

Definition tools : helpers :=
  {| load_mom_upstream := fun _ _ => Some the_mom;
     get_alias_bundles := fun _ name =>
       if String.eqb name "dev" then ["editors"%string; "vim"%string] else [name];
     string_join := String.concat;
     add_included_manifests := fun mom _ =>
       (0, map (fun f => mk_sub (filename f) (last_change f)) (manifests mom));
     recurse_manifest_server := recurse_manifest Runs.server |}.

Definition header (server : bool) (bundle : string) : message := MsgRequiredByHeader bundle.

End CommandRuns.

(** ** What the loop of remove_bundles decides

    The rounds of the loop of [remove_bundles], told by what each round
    decides and not by how the code gets there: the dependents of a bundle
    are given by [requires], the manifests that change lists by their
    names. *)

Section Removal.

Context (G : options) (E : externs) (mom : MoM) (w : world).

(** [x] is a bundle that [required_by] reports for [b]: it requires [b]
    through the includes of the manifests [kept] and [list_search] does not
    find it among the [exclusions]. *)
Definition dependent (kept : list manifest) (exclusions : list string) (b x : string)
    : Prop :=
  requires kept x b /\ ~ In x exclusions.

(** The manifests of the bundles [names] have gone from [kept] to
    [removed]. *)
Definition moved (names : list string) (kept removed kept1 removed1 : list manifest)
    : Prop :=
  (forall m, In m kept1 <-> In m kept /\ ~ In (component m) names) /\
  (forall m, In m removed1 <-> In m removed \/ (In m kept /\ In (component m) names)).

(** One round, for the bundle [b] under the cursor: the status of its
    rejection ([None] when the bundle is taken for removal) and the two
    lists after the round.  The checks come in the order of lines 595-635:
    [os-core], a name that is not in the MoM, a bundle that is not
    installed, a bundle with dependents when [--force] is not given.  A
    bundle that is taken goes to the list of removed bundles, with its
    dependents [l] when there are any. *)
Inductive round (exclusions : list string) (kept removed : list manifest) (b : string)
    : option swupd_code -> list manifest -> list manifest -> Prop :=
| round_os_core :
    b = "os-core"%string ->
    round exclusions kept removed b (Some SWUPD_REQUIRED_BUNDLE_ERROR) kept removed
| round_invalid :
    b <> "os-core"%string -> search_bundle_in_manifest mom b = None ->
    round exclusions kept removed b (Some SWUPD_INVALID_BUNDLE) kept removed
| round_not_installed :
    b <> "os-core"%string -> search_bundle_in_manifest mom b <> None ->
    is_installed_bundle b w = false ->
    round exclusions kept removed b (Some SWUPD_BUNDLE_NOT_TRACKED) kept removed
| round_required (x : string) :
    b <> "os-core"%string -> search_bundle_in_manifest mom b <> None ->
    is_installed_bundle b w = true ->
    dependent kept exclusions b x -> cmdline_option_force G = false ->
    round exclusions kept removed b (Some SWUPD_REQUIRED_BUNDLE_ERROR) kept removed
| round_taken (l : list string) (kept1 removed1 : list manifest) :
    b <> "os-core"%string -> search_bundle_in_manifest mom b <> None ->
    is_installed_bundle b w = true ->
    (forall x, In x l <-> dependent kept exclusions b x) ->
    l = [] \/ cmdline_option_force G = true ->
    moved (b :: l) kept removed kept1 removed1 ->
    round exclusions kept removed b None kept1 removed1.

(** The rounds for the bundles from the cursor on, [before] being the names
    the cursor has passed: the outcomes, in the order of the list, and the
    two lists at the end. *)
Inductive removal : list string -> list string -> list manifest -> list manifest ->
                    list (string * option swupd_code) ->
                    list manifest -> list manifest -> Prop :=
| removal_nil (before : list string) (kept removed : list manifest) :
    removal before [] kept removed [] kept removed
| removal_cons (before : list string) (b : string) (rest : list string)
    (kept removed : list manifest) (c : option swupd_code)
    (kept1 removed1 : list manifest) (os : list (string * option swupd_code))
    (kept' removed' : list manifest) :
    round (list_search_span E before (b :: rest)) kept removed b c kept1 removed1 ->
    removal (before ++ [b]) rest kept1 removed1 os kept' removed' ->
    removal before (b :: rest) kept removed ((b, c) :: os) kept' removed'.

End Removal.

(** Modelled from the spec: [remove_files_from_fs], whose code is not in
    [bundle.c], unlinks the paths it is handed (spec 4.6, step 7: unlink
    the resulting paths): at [l] on [w], the paths of [l] are gone from the
    target tree and every other path is as it was. *)
Definition unlinked (E : externs) (l : list file) (w : world) : Prop :=
  (forall f, In f l ->
     target (snd (remove_files_from_fs E l w)) !! filename f = None) /\
  (forall p, (forall f, In f l -> filename f <> p) ->
     target (snd (remove_files_from_fs E l w)) !! p = target w !! p).

(** A machine on which [os-core] includes another bundle, [tools], and
    whose [list_search] starts at the node it is handed. *)
Module Cursor.
Import Reference.

Definition tools : manifest :=
  {| component := "tools";
     files := [regular "/usr/bin/tool" "h-tool" 10;
               regular "/usr/share/clear/bundles/tools" "h-empty" 10];
     includes := []; optional := []; contentsize := 10 |}.

Definition os_core : manifest :=
  {| component := "os-core";
     files := files Reference.os_core;
     includes := ["tools"%string]; optional := []; contentsize := 100 |}.

Definition mom : MoM :=
  {| manifests := [regular "os-core" "m-os-core" 10; regular "tools" "m-tools" 10];
     submanifests := []; mom_files := [] |}.

Definition server : externs :=
  let M := machine mom [os_core; tools] 1000 in
  {| swupd_init := swupd_init M;
     get_current_version := get_current_version M;
     load_mom := load_mom M;
     read_subscriptions := read_subscriptions M;
     load_manifest := load_manifest M;
     recurse_manifest := recurse_manifest M;
     ignore := ignore M;
     apply_heuristics := apply_heuristics M;
     get_available_space := get_available_space M;
     rm_staging_dir_contents := rm_staging_dir_contents M;
     download_subscribed_packs := download_subscribed_packs M;
     download_fullfiles := download_fullfiles M;
     verify_file := verify_file M;
     do_staging := do_staging M;
     search_file_in_manifest := search_file_in_manifest M;
     rename_staged_file_to_final := rename_staged_file_to_final M;
     sync := sync M;
     scripts_run_post_update := scripts_run_post_update M;
     remove_files_from_fs := remove_files_from_fs M;
     syscall_fails := syscall_fails M;
     list_search_rewinds := false |}.

Definition installed : world :=
  {| bundles_dir := {["os-core"%string]} ∪ {["tools"%string]};
     tracking := None;
     staged := ∅;
     target := {["/usr/bin/vi"%string := "h-vi"%string]}
               ∪ {["/usr/lib/libc.so"%string := "h-libc"%string]}
               ∪ {["/usr/bin/tool"%string := "h-tool"%string]} |}.

(** [bundle-remove --force os-core tools]. *)
Definition remove_forced : option (swupd_code * world * list event) :=
  remove_bundles (remove_set_option_force true defaults) server 3
    ["os-core"%string; "tools"%string] installed.

End Cursor.

(** The machine of the reference runs on a platform where every call that
    [bundle.c] checks fails. *)
Module Failing.

Definition server : externs :=
  let M := Runs.server in
  {| swupd_init := swupd_init M;
     get_current_version := get_current_version M;
     load_mom := load_mom M;
     read_subscriptions := read_subscriptions M;
     load_manifest := load_manifest M;
     recurse_manifest := recurse_manifest M;
     ignore := ignore M;
     apply_heuristics := apply_heuristics M;
     get_available_space := get_available_space M;
     rm_staging_dir_contents := rm_staging_dir_contents M;
     download_subscribed_packs := download_subscribed_packs M;
     download_fullfiles := download_fullfiles M;
     verify_file := verify_file M;
     do_staging := do_staging M;
     search_file_in_manifest := search_file_in_manifest M;
     rename_staged_file_to_final := rename_staged_file_to_final M;
     sync := sync M;
     scripts_run_post_update := scripts_run_post_update M;
     remove_files_from_fs := remove_files_from_fs M;
     syscall_fails := fun _ _ => true;
     list_search_rewinds := list_search_rewinds M |}.

End Failing.

(** * Proofs *)

(** ** strcmp is a strict total order *)

Lemma ascii_compare_refl (c : Ascii.ascii) : Ascii.compare c c = Eq.
Proof. unfold Ascii.compare. apply N.compare_refl. Qed.

Lemma string_compare_refl (s : string) : String.compare s s = Eq.
Proof.
  induction s as [|c s IH]; simpl; [reflexivity|].
  now rewrite ascii_compare_refl.
Qed.

Lemma ascii_compare_lt_trans (a b c : Ascii.ascii) :
  Ascii.compare a b = Lt -> Ascii.compare b c = Lt -> Ascii.compare a c = Lt.
Proof.
  unfold Ascii.compare. rewrite !N.compare_lt_iff. lia.
Qed.

Lemma str_lt_trans (a b c : string) : str_lt a b -> str_lt b c -> str_lt a c.
Proof.
  unfold str_lt. revert b c.
  induction a as [|x a IH]; intros [|y b] [|z c]; simpl; try congruence.
  destruct (Ascii.compare x y) eqn:Exy; try discriminate.
  - apply Ascii.compare_eq_iff in Exy. subst y.
    destruct (Ascii.compare x z) eqn:Exz; try congruence.
    intros H1 H2. eapply IH; eassumption.
  - intros _.
    destruct (Ascii.compare y z) eqn:Eyz; try discriminate.
    + apply Ascii.compare_eq_iff in Eyz. subst z. now rewrite Exy.
    + intros _. now rewrite (ascii_compare_lt_trans _ _ _ Exy Eyz).
Qed.

Lemma str_lt_irrefl (a : string) : ~ str_lt a a.
Proof. unfold str_lt. rewrite string_compare_refl. discriminate. Qed.

Lemma strcmp_eq (a b : string) : strcmp a b = 0 <-> a = b.
Proof.
  unfold strcmp. split.
  - destruct (String.compare a b) eqn:E; try discriminate.
    intros _. now apply String.compare_eq_iff.
  - intros ->. now rewrite string_compare_refl.
Qed.

Lemma strcmp_lt (a b : string) : strcmp a b < 0 <-> str_lt a b.
Proof.
  unfold strcmp, str_lt. destruct (String.compare a b); split; (lia || congruence).
Qed.

Lemma strcmp_gt (a b : string) : 0 < strcmp a b <-> str_lt b a.
Proof.
  unfold strcmp, str_lt. rewrite (String.compare_antisym b a).
  destruct (String.compare a b); simpl; split; (lia || congruence).
Qed.

Lemma strcmp_cases (a b : string) : str_lt a b \/ a = b \/ str_lt b a.
Proof.
  destruct (Z.lt_trichotomy (strcmp a b) 0) as [H|[H|H]].
  - left. now apply strcmp_lt.
  - right; left. now apply strcmp_eq.
  - right; right. now apply strcmp_gt.
Qed.

(** ** Sorting and consolidation *)

Lemma insert_by_filename_In (x f : file) (l : list file) :
  In x (insert_by_filename f l) <-> x = f \/ In x l.
Proof.
  induction l as [|g l IH]; simpl.
  - intuition.
  - destruct (strcmp (filename f) (filename g) <=? 0); simpl; rewrite ?IH; intuition.
Qed.

Lemma sort_by_filename_In (x : file) (l : list file) :
  In x (sort_by_filename l) <-> In x l.
Proof.
  induction l as [|f l IH]; simpl; [tauto|].
  rewrite insert_by_filename_In, IH. intuition.
Qed.

Lemma path_le_trans (a b c : file) : path_le a b -> path_le b c -> path_le a c.
Proof.
  unfold path_le. intros Hab Hbc Hca.
  destruct (strcmp_cases (filename a) (filename b)) as [H|[H|H]].
  - apply Hbc. eapply str_lt_trans; eassumption.
  - apply Hbc. now rewrite <- H.
  - contradiction.
Qed.

Lemma insert_by_filename_sorted (f : file) (l : list file) :
  StronglySorted path_le l -> StronglySorted path_le (insert_by_filename f l).
Proof.
  induction 1 as [|g l Hs IH Hall]; simpl.
  - constructor; constructor.
  - destruct (strcmp (filename f) (filename g) <=? 0) eqn:Hc.
    + apply Z.leb_le in Hc.
      assert (Hfg : path_le f g).
      { unfold path_le. rewrite <- strcmp_gt. lia. }
      constructor; [constructor; assumption|].
      constructor; [assumption|].
      eapply List.Forall_impl; [|exact Hall]. intros h Hh. eapply path_le_trans; eassumption.
    + apply Z.leb_gt in Hc. apply strcmp_gt in Hc.
      constructor; [assumption|].
      apply List.Forall_forall. intros x Hx. apply insert_by_filename_In in Hx.
      destruct Hx as [->|Hx].
      * unfold path_le. intros Hlt. eapply str_lt_irrefl. eapply str_lt_trans; eassumption.
      * rewrite List.Forall_forall in Hall. now apply Hall.
Qed.

Lemma sort_by_filename_sorted (l : list file) : StronglySorted path_le (sort_by_filename l).
Proof.
  induction l as [|f l IH]; simpl; [constructor|].
  now apply insert_by_filename_sorted.
Qed.

Lemma consolidate_pick_cases (a b : file) : consolidate_pick a b = a \/ consolidate_pick a b = b.
Proof.
  unfold consolidate_pick.
  destruct (is_deleted a && negb (is_deleted b)); [now right|].
  destruct (negb (is_deleted a) && is_deleted b); [now left|].
  destruct (last_change a <? last_change b); [now right|now left].
Qed.

Lemma consolidate_pick_deleted (a b : file) :
  is_deleted (consolidate_pick a b) = is_deleted a && is_deleted b.
Proof.
  unfold consolidate_pick.
  destruct (is_deleted a) eqn:Ha, (is_deleted b) eqn:Hb; simpl;
    try destruct (last_change a <? last_change b); simpl; congruence.
Qed.

Lemma consolidate_pick_filename (a b : file) :
  filename a = filename b -> filename (consolidate_pick a b) = filename a.
Proof.
  intros H. destruct (consolidate_pick_cases a b) as [-> | ->]; congruence.
Qed.

Lemma consolidate_from_In (x cur : file) (l : list file) :
  In x (consolidate_from cur l) -> x = cur \/ In x l.
Proof.
  revert cur. induction l as [|b l IH]; intros cur; simpl.
  - intuition.
  - destruct (strcmp (filename cur) (filename b) =? 0).
    + intros H. apply IH in H. destruct H as [->|H]; [|auto].
      destruct (consolidate_pick_cases cur b) as [-> | ->]; auto.
    + simpl. intros [<-|H]; [now left|]. apply IH in H. destruct H as [->|H]; auto.
Qed.

Lemma consolidate_from_head (cur : file) (l : list file) :
  exists x rest, consolidate_from cur l = x :: rest /\ filename x = filename cur.
Proof.
  revert cur. induction l as [|b l IH]; intros cur; simpl.
  - eauto.
  - destruct (strcmp (filename cur) (filename b) =? 0) eqn:Hc.
    + apply Z.eqb_eq, strcmp_eq in Hc.
      destruct (IH (consolidate_pick cur b)) as (x & rest & -> & Hx).
      exists x, rest. split; [reflexivity|]. rewrite Hx. now apply consolidate_pick_filename.
    + eauto.
Qed.

Lemma consolidate_from_sorted (cur : file) (l : list file) :
  StronglySorted path_le (cur :: l) ->
  StronglySorted path_lt (consolidate_from cur l).
Proof.
  revert cur. induction l as [|b l IH]; intros cur Hs; simpl.
  - constructor; constructor.
  - inversion Hs as [|? ? Hs' Hall]; subst. inversion Hall as [|? ? Hcb Hall']; subst.
    inversion Hs' as [|? ? Hs'' Hall'']; subst.
    destruct (strcmp (filename cur) (filename b) =? 0) eqn:Hc.
    + apply Z.eqb_eq, strcmp_eq in Hc.
      apply IH. constructor; [assumption|].
      eapply List.Forall_impl; [|exact Hall'']. intros x Hx. unfold path_le in *.
      rewrite (consolidate_pick_filename _ _ Hc), Hc. exact Hx.
    + apply Z.eqb_neq in Hc.
      assert (Hlt : path_lt cur b).
      { unfold path_lt. destruct (strcmp_cases (filename cur) (filename b)) as [H|[H|H]];
          [assumption| |contradiction].
        exfalso. apply Hc. now apply strcmp_eq. }
      constructor; [now apply IH|].
      apply List.Forall_forall. intros x Hx.
      destruct (consolidate_from_head b l) as (y & rest & Heq & Hy).
      specialize (IH b Hs'). rewrite Heq in IH, Hx.
      inversion IH as [|? ? _ Hally]; subst.
      unfold path_lt in *. destruct Hx as [<-|Hx].
      * now rewrite Hy.
      * rewrite List.Forall_forall in Hally. specialize (Hally x Hx).
        eapply str_lt_trans; [exact Hlt|]. rewrite <- Hy. exact Hally.
Qed.

Lemma live_at_cons (p : string) (a : file) (l : list file) :
  live_at p (a :: l) <-> (filename a = p /\ is_deleted a = false) \/ live_at p l.
Proof.
  unfold live_at. split.
  - intros (f & [<-|Hin] & Hp & Hd); [left; tauto|right; eauto].
  - intros [[Hp Hd]|(f & Hin & Hp & Hd)]; [exists a|exists f]; simpl; tauto.
Qed.

Lemma consolidate_from_live (p : string) (cur : file) (l : list file) :
  live_at p (consolidate_from cur l) <-> live_at p (cur :: l).
Proof.
  revert cur. induction l as [|b l IH]; intros cur; simpl.
  - tauto.
  - destruct (strcmp (filename cur) (filename b) =? 0) eqn:Hc.
    + apply Z.eqb_eq, strcmp_eq in Hc.
      rewrite IH, !live_at_cons, consolidate_pick_deleted,
        (consolidate_pick_filename _ _ Hc), <- Hc.
      destruct (is_deleted cur), (is_deleted b); simpl; intuition congruence.
    + rewrite live_at_cons, IH. rewrite (live_at_cons p cur (b :: l)). tauto.
Qed.

Lemma live_at_In_equiv (p : string) (l1 l2 : list file) :
  (forall x, In x l1 <-> In x l2) -> live_at p l1 <-> live_at p l2.
Proof.
  intros H. unfold live_at. split; intros (f & Hin & Hrest); exists f; split;
    try tauto; now apply H.
Qed.

Lemma consolidate_files_live (p : string) (l : list file) :
  live_at p (consolidate_files l) <-> live_at p l.
Proof.
  unfold consolidate_files.
  rewrite <- (live_at_In_equiv p (sort_by_filename l) l) by (intros; apply sort_by_filename_In).
  destruct (sort_by_filename l) as [|a l']; [tauto|].
  apply consolidate_from_live.
Qed.

Lemma consolidate_files_In (x : file) (l : list file) :
  In x (consolidate_files l) -> In x l.
Proof.
  unfold consolidate_files. intros H. apply sort_by_filename_In.
  destruct (sort_by_filename l) as [|a l']; [contradiction|].
  apply consolidate_from_In in H. destruct H as [->|H]; simpl; auto.
Qed.

Lemma consolidate_files_sorted (l : list file) :
  StronglySorted path_lt (consolidate_files l).
Proof.
  unfold consolidate_files. pose proof (sort_by_filename_sorted l) as Hs.
  destruct (sort_by_filename l) as [|a l']; [constructor|].
  now apply consolidate_from_sorted.
Qed.

Lemma consolidate_bundles_live (p : string) (bundles : list manifest) :
  live_at p (consolidate_files_from_bundles bundles) <->
  exists m, In m bundles /\ provides m p.
Proof.
  unfold consolidate_files_from_bundles, provides. rewrite consolidate_files_live.
  unfold live_at. split.
  - intros (f & Hin & Hrest). apply in_concat in Hin. destruct Hin as (fs & Hfs & Hf).
    apply in_map_iff in Hfs. destruct Hfs as (m & <- & Hm). eauto.
  - intros (m & Hm & f & Hf & Hrest). exists f. split; [|assumption].
    apply in_concat. exists (files m). split; [now apply in_map|assumption].
Qed.

Lemma consolidate_bundles_In (x : file) (bundles : list manifest) :
  In x (consolidate_files_from_bundles bundles) ->
  exists m, In m bundles /\ In x (files m).
Proof.
  unfold consolidate_files_from_bundles. intros H. apply consolidate_files_In in H.
  apply in_concat in H. destruct H as (fs & Hfs & Hf).
  apply in_map_iff in Hfs. destruct Hfs as (m & <- & Hm). eauto.
Qed.

(** ** The filter of the files to delete *)

Lemma list_filter_common_elements_cons {A B : Type} (cmp : A -> B -> Z)
    (a : A) (r1 : list A) (b : B) (r2 : list B) :
  list_filter_common_elements cmp (a :: r1) (b :: r2) =
  if cmp a b =? 0 then list_filter_common_elements cmp r1 (b :: r2)
  else if cmp a b <? 0 then a :: list_filter_common_elements cmp r1 (b :: r2)
  else list_filter_common_elements cmp (a :: r1) r2.
Proof. reflexivity. Qed.

Lemma list_filter_common_elements_nil {A B : Type} (cmp : A -> B -> Z) (l1 : list A) :
  list_filter_common_elements cmp l1 [] = l1.
Proof. destruct l1; reflexivity. Qed.

Lemma filter_files_to_delete_zero (a b : file) :
  filter_files_to_delete a b = 0 <->
  is_deleted a = true \/ (filename a = filename b /\ is_deleted b = false).
Proof.
  unfold filter_files_to_delete.
  destruct (is_deleted a); [intuition|].
  destruct (strcmp (filename a) (filename b) =? 0) eqn:Hc; simpl.
  - apply Z.eqb_eq in Hc. apply strcmp_eq in Hc.
    destruct (is_deleted b); simpl; intuition (try lia; try congruence).
  - apply Z.eqb_neq in Hc. split; [intros H; contradiction|].
    intros [H|[H _]]; [discriminate|]. exfalso. apply Hc. now apply strcmp_eq.
Qed.

Lemma filter_files_to_delete_neg (a b : file) :
  filter_files_to_delete a b < 0 ->
  is_deleted a = false /\
  (str_lt (filename a) (filename b) \/ (filename a = filename b /\ is_deleted b = true)).
Proof.
  unfold filter_files_to_delete.
  destruct (is_deleted a); [lia|].
  destruct (strcmp (filename a) (filename b) =? 0) eqn:Hc; simpl.
  - apply Z.eqb_eq in Hc. apply strcmp_eq in Hc.
    destruct (is_deleted b); simpl; [tauto|lia].
  - intros H. apply strcmp_lt in H. tauto.
Qed.

Lemma filter_files_to_delete_pos (a b : file) :
  0 < filter_files_to_delete a b -> str_lt (filename b) (filename a).
Proof.
  unfold filter_files_to_delete.
  destruct (is_deleted a); [lia|].
  destruct (strcmp (filename a) (filename b) =? 0) eqn:Hc; simpl.
  - destruct (is_deleted b); simpl; lia.
  - intros H. now apply strcmp_gt.
Qed.

(** What the filter leaves is part of the first list and has no live
    counterpart in the second. *)
Lemma filtered_sound (l1 : list file) :
  StronglySorted path_le l1 ->
  forall l2, StronglySorted path_lt l2 ->
  forall f, In f (list_filter_common_elements filter_files_to_delete l1 l2) ->
            In f l1 /\ ~ live_at (filename f) l2.
Proof.
  intros H1. induction H1 as [|a r1 Hs1 IH1 Ha]; intros l2 H2 f.
  - simpl. contradiction.
  - induction H2 as [|b r2 Hs2 IH2 Hb].
    + rewrite list_filter_common_elements_nil. intros Hin. split; [assumption|].
      intros (g & [] & _).
    + rewrite list_filter_common_elements_cons.
      assert (Hs2' : StronglySorted path_lt (b :: r2)) by (constructor; assumption).
      destruct (filter_files_to_delete a b =? 0) eqn:H0.
      * intros Hin. apply (IH1 _ Hs2') in Hin. simpl. tauto.
      * destruct (filter_files_to_delete a b <? 0) eqn:Hn.
        -- apply Z.ltb_lt in Hn. apply filter_files_to_delete_neg in Hn.
           destruct Hn as [Hda Hn].
           intros [<-|Hin]; [|apply (IH1 _ Hs2') in Hin; simpl; tauto].
           split; [now left|].
           intros Hlive. apply live_at_cons in Hlive.
           destruct Hlive as [[Hn1 Hn2]|(g & Hg & Hgn & _)].
           ++ destruct Hn as [Hlt|[_ Hdb]]; [|congruence].
              rewrite Hn1 in Hlt. now apply str_lt_irrefl in Hlt.
           ++ rewrite List.Forall_forall in Hb. specialize (Hb g Hg).
              unfold path_lt in Hb. rewrite Hgn in Hb.
              destruct Hn as [Hlt|[Heq _]].
              ** eapply str_lt_irrefl, str_lt_trans; eassumption.
              ** rewrite Heq in Hb. now apply str_lt_irrefl in Hb.
        -- apply Z.eqb_neq in H0. apply Z.ltb_ge in Hn.
           assert (Hp : 0 < filter_files_to_delete a b) by lia.
           apply filter_files_to_delete_pos in Hp.
           intros Hin. apply IH2 in Hin. destruct Hin as [Hin Hnl].
           split; [assumption|].
           intros Hlive. apply live_at_cons in Hlive.
           destruct Hlive as [[Hn1 _]|Hl]; [|contradiction].
           assert (Haf : path_le a f).
           { destruct Hin as [<-|Hin]; [unfold path_le; apply str_lt_irrefl|].
             rewrite List.Forall_forall in Ha. now apply Ha. }
           apply Haf. now rewrite <- Hn1.
Qed.

(** A live record of the first list without a live counterpart in the
    second stays. *)
Lemma filtered_complete (l1 l2 : list file) (f : file) :
  In f l1 -> is_deleted f = false -> ~ live_at (filename f) l2 ->
  In f (list_filter_common_elements filter_files_to_delete l1 l2).
Proof.
  revert l2. induction l1 as [|a r1 IH1]; intros l2 Hin Hd Hnl; [contradiction|].
  induction l2 as [|b r2 IH2].
  - now rewrite list_filter_common_elements_nil.
  - rewrite list_filter_common_elements_cons.
    destruct (filter_files_to_delete a b =? 0) eqn:H0.
    + apply Z.eqb_eq, filter_files_to_delete_zero in H0.
      destruct Hin as [<-|Hin]; [|now apply IH1].
      exfalso. destruct H0 as [H0|[Hn Hb]]; [congruence|].
      apply Hnl. exists b. simpl. auto.
    + destruct (filter_files_to_delete a b <? 0).
      * destruct Hin as [<-|Hin]; [now left|right; now apply IH1].
      * apply IH2. intros Hl. apply Hnl. apply live_at_cons. now right.
Qed.

Lemma sorted_lt_le (l : list file) :
  StronglySorted path_lt l -> StronglySorted path_le l.
Proof.
  induction 1 as [|a l Hs IH Ha]; constructor; [assumption|].
  eapply List.Forall_impl; [|exact Ha].
  unfold path_lt, path_le. intros b Hab Hba.
  eapply str_lt_irrefl, str_lt_trans; eassumption.
Qed.

(** The files handed to [remove_files_from_fs], in terms of the manifests
    that stay and the manifests that go. *)
Lemma files_to_remove_sound (kept removed : list manifest) (f : file) :
  In f (files_to_remove kept removed) ->
  (exists m, In m removed /\ In f (files m)) /\
  (forall m, In m kept -> ~ provides m (filename f)).
Proof.
  unfold files_to_remove. intros H.
  apply filtered_sound in H.
  - destruct H as [Hin Hnl]. split; [now apply consolidate_bundles_In|].
    intros m Hm Hp. apply Hnl. apply consolidate_bundles_live. eauto.
  - apply sorted_lt_le, consolidate_files_sorted.
  - apply consolidate_files_sorted.
Qed.

Lemma files_to_remove_complete (kept removed : list manifest) (m : manifest) (p : string) :
  In m removed -> provides m p ->
  (forall m', In m' kept -> ~ provides m' p) ->
  exists f, In f (files_to_remove kept removed) /\ filename f = p /\ is_deleted f = false.
Proof.
  intros Hm Hp Hkept.
  assert (Hl : live_at p (consolidate_files_from_bundles removed)).
  { apply consolidate_bundles_live. eauto. }
  destruct Hl as (f & Hin & Hn & Hd).
  exists f. split; [|tauto].
  unfold files_to_remove. apply filtered_complete; [assumption..|].
  rewrite Hn. intros Hl. apply consolidate_bundles_live in Hl.
  destruct Hl as (m' & Hm' & Hp'). eapply Hkept; eassumption.
Qed.

(** ** Reasoning about computations *)

Lemma bind_inv {A B : Type} (m : M A) (k : A -> M B) (w : world) (r : B * world * list event) :
  bind m k w = Some r ->
  exists a w1 t1 b w2 t2,
    m w = Some (a, w1, t1) /\ k a w1 = Some (b, w2, t2) /\ r = (b, w2, t1 ++ t2).
Proof.
  unfold bind. destruct (m w) as [[[a w1] t1]|]; [|discriminate].
  destruct (k a w1) as [[[b w2] t2]|] eqn:Hk; [|discriminate].
  intros [= <-]. eauto 10.
Qed.

Ltac prim_inv H :=
  cbv [ret emit emits look act act_ print info warn error debug] in H;
  repeat match type of H with
         | context [let '(_, _) := ?x in _] => destruct x eqn:?
         end;
  inversion H; subst; clear H.

Ltac minv1 :=
  match goal with
  | H : bind _ _ _ = Some _ |- _ =>
      let a := fresh "a" in let w := fresh "w" in let t := fresh "t" in
      let b := fresh "b" in let w' := fresh "w" in let t' := fresh "t" in
      let H1 := fresh "Hm" in let H2 := fresh "Hk" in let H3 := fresh "Hr" in
      apply bind_inv in H;
      destruct H as (a & w & t & b & w' & t' & H1 & H2 & H3);
      inversion H3; subst; clear H3
  | H : ret _ _ = Some _ |- _ => prim_inv H
  | H : emit _ _ = Some _ |- _ => prim_inv H
  | H : emits _ _ = Some _ |- _ => prim_inv H
  | H : look _ _ = Some _ |- _ => prim_inv H
  | H : act _ _ _ = Some _ |- _ => prim_inv H
  | H : act_ _ _ _ = Some _ |- _ => prim_inv H
  | H : print _ _ = Some _ |- _ => prim_inv H
  | H : info _ _ = Some _ |- _ => prim_inv H
  | H : warn _ _ = Some _ |- _ => prim_inv H
  | H : error _ _ = Some _ |- _ => prim_inv H
  | H : debug _ _ = Some _ |- _ => prim_inv H
  | H : (if ?c then _ else _) _ = Some _ |- _ => destruct c eqn:?
  | H : (match ?x with _ => _ end) _ = Some _ |- _ => destruct x eqn:?
  | H : (let '(_, _) := ?x in _) _ = Some _ |- _ => destruct x eqn:?
  end.

Ltac minv := repeat minv1.

Lemma only_nil (ks : list kind) : only ks [].
Proof. constructor. Qed.

Lemma only_app (ks : list kind) (t1 t2 : list event) :
  only ks (t1 ++ t2) <-> only ks t1 /\ only ks t2.
Proof. unfold only. apply List.Forall_app. Qed.

Lemma only_cons (ks : list kind) (e : event) (t : list event) :
  only ks (e :: t) <-> In (event_kind e) ks /\ only ks t.
Proof. unfold only. apply List.Forall_cons_iff. Qed.

Lemma only_mono (ks ks' : list kind) (t : list event) :
  (forall k, In k ks -> In k ks') -> only ks t -> only ks' t.
Proof. intros H. unfold only. apply List.Forall_impl. intros e. apply H. Qed.

Lemma only_In (ks : list kind) (t : list event) (e : event) :
  only ks t -> In e t -> In (event_kind e) ks.
Proof. unfold only. rewrite List.Forall_forall. auto. Qed.

Ltac only_tac :=
  repeat (rewrite ?only_app, ?only_cons; simpl);
  repeat split; auto using only_nil; try (simpl; tauto).

Section Traces.

Context (G : options) (E : externs).

Lemma track_installed_seed_only (w w' : world) (ok : bool) (t : list event) :
  track_installed_seed E w = Some (ok, w', t) -> only [KTrack] t.
Proof.
  unfold track_installed_seed. intros H. minv; only_tac.
Qed.

Lemma track_installed_only (b : string) (w w' : world) (t : list event) :
  track_installed E b w = Some (tt, w', t) -> only [KMsg; KTrack] t.
Proof.
  unfold track_installed. intros H. minv;
    repeat match goal with
           | H : track_installed_seed _ _ = Some _ |- _ =>
               apply track_installed_seed_only in H
           end; only_tac;
    eapply only_mono; try eassumption; simpl; tauto.
Qed.

End Traces.

(** ** required_by *)

Section RequiredBy.

Context (G : options).

Lemma strcmp_eqb (a b : string) : (strcmp a b =? 0) = true <-> a = b.
Proof. rewrite Z.eqb_eq. apply strcmp_eq. Qed.

Lemma strcmp_neqb (a b : string) : (strcmp a b =? 0) = false <-> a <> b.
Proof. rewrite Z.eqb_neq. now rewrite strcmp_eq. Qed.

Lemma string_in_list_In (name : string) (l : list string) :
  string_in_list name l = true <-> In name l.
Proof.
  unfold string_in_list. rewrite existsb_exists. split.
  - intros (x & Hx & Hc). apply strcmp_eqb in Hc. now subst.
  - intros H. exists name. split; [assumption|]. now apply strcmp_eqb.
Qed.

Lemma list_str_deduplicate_acc_In (x : string) (seen l : list string) :
  In x (list_str_deduplicate_acc seen l) -> In x l.
Proof.
  revert seen. induction l as [|y l IH]; intros seen; simpl; [tauto|].
  destruct (string_in_list y seen); simpl; intros H.
  - right. eapply IH; eassumption.
  - destruct H as [H|H]; [now left|right; eapply IH; eassumption].
Qed.

Lemma list_str_deduplicate_In (x : string) (l : list string) :
  In x (list_str_deduplicate l) -> In x l.
Proof. apply list_str_deduplicate_acc_In. Qed.

(** An invariant of the state is kept by [required_by] when the steps of
    the function keep it. *)
Section Invariant.

Context (Q : reqd_state -> Prop) (subm : list manifest) (exclusions : list string)
        (msg : message).

Hypothesis Q_print_msg : forall s,
  Q s -> Q {| reqd_by := reqd_by s; print_msg := true; printed := printed s |}.
Hypothesis Q_add : forall bundle recursion s,
  In bundle subm -> includes bundle <> [] ->
  Q s -> Q (reqd_add G bundle recursion exclusions msg s).
Hypothesis Q_finish : forall s, Q s -> Q (snd (reqd_finish G msg s)).

Lemma reqd_scan_includes_inv again bundle_name bundle recursion :
  (forall s name r, Q s -> again s name = Some r -> Q (snd r)) ->
  In bundle subm ->
  forall i s s', includes bundle <> [] \/ i = [] -> Q s ->
    reqd_scan_includes G again bundle_name bundle recursion exclusions msg i s = Some s' ->
    Q s'.
Proof.
  intros Hagain Hin. induction i as [|name i IH]; intros s s' Hne Hs; simpl.
  - now intros [= <-].
  - assert (Hne' : includes bundle <> []) by (destruct Hne as [H|H]; [exact H|discriminate]).
    destruct (strcmp name bundle_name =? 0).
    + destruct (again _ _) as [[n s1]|] eqn:Ha; [|discriminate].
      apply IH; [now left|]. apply (Hagain _ _ _ (Q_add _ _ _ Hin Hne' Hs) Ha).
    + apply IH; [now left|assumption].
Qed.

Lemma reqd_scan_bundles_inv again bundle_name recursion :
  (forall s name r, Q s -> again s name = Some r -> Q (snd r)) ->
  forall b s s', (forall m, In m b -> In m subm) -> Q s ->
    reqd_scan_bundles G again bundle_name recursion exclusions msg b s = Some s' ->
    Q s'.
Proof.
  intros Hagain. induction b as [|bundle b IH]; intros s s' Hsub Hs; simpl.
  - now intros [= <-].
  - destruct (strcmp (component bundle) bundle_name =? 0).
    + apply IH; [intros; apply Hsub; now right|assumption].
    + destruct (reqd_scan_includes _ _ _ _ _ _ _ _ _) as [s1|] eqn:Hi; [|discriminate].
      apply IH; [intros; apply Hsub; now right|].
      eapply reqd_scan_includes_inv; [exact Hagain|apply Hsub; now left| |exact Hs|exact Hi].
      destruct (includes bundle); [now right|now left].
Qed.

Lemma required_by_inv (fuel : nat) :
  forall s bundle_name recursion r, Q s ->
    required_by G fuel s bundle_name subm recursion exclusions msg = Some r -> Q (snd r).
Proof.
  induction fuel as [|fuel IH]; intros s bundle_name recursion r Hs; simpl; [discriminate|].
  destruct (reqd_scan_bundles _ _ _ _ _ _ _ _) as [s1|] eqn:Hb; [|discriminate].
  assert (Hs1 : Q s1).
  { eapply reqd_scan_bundles_inv; [| |  |exact Hb].
    - intros s0 name r0 Hs0. apply IH. exact Hs0.
    - auto.
    - destruct (recursion =? 0); [now apply Q_print_msg|assumption]. }
  destruct (recursion + 1 =? 1); intros [= <-]; [now apply Q_finish|assumption].
Qed.

End Invariant.

(** With includes that form no cycle, a budget above the rank of the
    bundle is enough for [required_by] to come back. *)
Lemma required_by_returns (rank : string -> nat) (subm : list manifest)
    (exclusions : list string) (msg : message) :
  ranked rank subm ->
  forall fuel s bundle_name recursion, (rank bundle_name < fuel)%nat ->
    exists r, required_by G fuel s bundle_name subm recursion exclusions msg = Some r.
Proof.
  intros Hrank. induction fuel as [|fuel IH]; intros s bundle_name recursion Hlt; [lia|].
  simpl.
  set (again := fun s0 name => required_by G fuel s0 name subm (recursion + 1) exclusions msg).
  assert (Hinc : forall bundle, In bundle subm -> component bundle <> bundle_name ->
            forall i s0, (forall x, In x i -> In x (includes bundle)) ->
              exists s1, reqd_scan_includes G again bundle_name bundle (recursion + 1)
                           exclusions msg i s0 = Some s1).
  { intros bundle Hin Hne. induction i as [|name i IHi]; intros s0 Hsub; simpl; [eauto|].
    destruct (strcmp name bundle_name =? 0) eqn:Hc.
    - apply strcmp_eqb in Hc. subst name.
      destruct (IH (reqd_add G bundle (recursion + 1) exclusions msg s0)
                   (component bundle) (recursion + 1)) as [[n s1] Hr].
      + assert (rank (component bundle) < rank bundle_name)%nat; [|lia].
        apply Hrank; [assumption|apply Hsub; now left|congruence].
      + unfold again at 1. rewrite Hr. apply IHi. intros; apply Hsub; now right.
    - apply IHi. intros; apply Hsub; now right. }
  assert (Hbun : forall b s0, (forall m, In m b -> In m subm) ->
            exists s1, reqd_scan_bundles G again bundle_name (recursion + 1)
                         exclusions msg b s0 = Some s1).
  { induction b as [|bundle b IHb]; intros s0 Hsub; simpl; [eauto|].
    destruct (strcmp (component bundle) bundle_name =? 0) eqn:Hc.
    - apply IHb. intros; apply Hsub; now right.
    - apply strcmp_neqb in Hc.
      destruct (Hinc bundle (Hsub _ (or_introl eq_refl)) Hc (includes bundle) s0) as [s1 Hs1];
        [auto|].
      rewrite Hs1. apply IHb. intros; apply Hsub; now right. }
  match goal with |- context [reqd_scan_bundles G again bundle_name (recursion + 1) exclusions msg subm ?s0] =>
    destruct (Hbun subm s0) as [s1 Hs1]; [auto|] end.
  rewrite Hs1. destruct (recursion + 1 =? 1); eauto.
Qed.

End RequiredBy.

(** ** The loop of remove_bundles *)

Lemma outcomes_app (t1 t2 : list event) : outcomes (t1 ++ t2) = outcomes t1 ++ outcomes t2.
Proof. unfold outcomes. apply omap_app. Qed.

Lemma same_but_tracking_refl (w : world) : same_but_tracking w w.
Proof. repeat split. Qed.

Lemma same_but_tracking_trans (w1 w2 w3 : world) :
  same_but_tracking w1 w2 -> same_but_tracking w2 w3 -> same_but_tracking w1 w3.
Proof. unfold same_but_tracking. intuition congruence. Qed.

Lemma same_but_tracking_set (t : option (gset string)) (w : world) :
  same_but_tracking w (set_tracking t w).
Proof. repeat split. Qed.

Lemma is_installed_same (b : string) (w w' : world) :
  same_but_tracking w w' -> is_installed_bundle b w' = is_installed_bundle b w.
Proof. intros (H & _). unfold is_installed_bundle. now rewrite H. Qed.

Lemma fault_fits_same (mom : MoM) (w w' : world) (b : string) (c : option swupd_code) :
  same_but_tracking w w' -> fault_fits mom w' b c -> fault_fits mom w b c.
Proof. intros H. unfold fault_fits. now rewrite (is_installed_same b w w' H). Qed.

Lemma list_take_item_spec (key : string) (from rest : list manifest) (x : manifest) :
  list_take_item find_manifest key from = Some (x, rest) ->
  component x = key /\
  (forall m, In m rest -> In m from) /\
  (forall m, In m from -> m = x \/ In m rest).
Proof.
  revert rest. induction from as [|y from IH]; intros rest; simpl; [discriminate|].
  unfold find_manifest at 1.
  destruct (strcmp (component y) key =? 0) eqn:Hc; simpl.
  - intros [= -> ->]. apply strcmp_eqb in Hc. repeat split; auto.
    intros m [->|H]; auto.
  - rewrite Hc.
    destruct (list_take_item find_manifest key from) as [[z rest']|]; [|discriminate].
    intros [= -> <-]. destruct (IH rest' eq_refl) as (H1 & H2 & H3).
    repeat split; [assumption| |].
    + intros m [->|H]; [now left|right; now apply H2].
    + intros m [->|H]; [right; now left|]. destruct (H3 m H); [now left|right; now right].
Qed.

Lemma rs_move_fields (name : string) (s : remove_state) :
  rs_ret_code (rs_move name s) = rs_ret_code s /\
  rs_bad (rs_move name s) = rs_bad s /\
  rs_total (rs_move name s) = rs_total s.
Proof.
  unfold rs_move, list_move_item.
  destruct (list_take_item _ _ _) as [[x rest]|]; simpl; auto.
Qed.

Lemma rs_move_kept (name : string) (s : remove_state) :
  (forall m, In m (rs_submanifests (rs_move name s)) -> In m (rs_submanifests s)) /\
  (forall m, In m (rs_submanifests s) -> component m <> name ->
             In m (rs_submanifests (rs_move name s))).
Proof.
  unfold rs_move, list_move_item.
  destruct (list_take_item _ _ _) as [[x rest]|] eqn:Ht; simpl; [|auto].
  apply list_take_item_spec in Ht. destruct Ht as (Hx & H1 & H2).
  split; [exact H1|]. intros m Hm Hne. destruct (H2 m Hm); [congruence|assumption].
Qed.

Section RemoveLoop.

Context (G : options) (E : externs).

Lemma remove_tracked_spec (b : string) (w w' : world) (t : list event) :
  remove_tracked E b w = Some (tt, w', t) ->
  t = [EvRm (TrackingFile b)] /\ same_but_tracking w w'.
Proof.
  unfold remove_tracked. intros H. minv. split; [reflexivity|].
  destruct (syscall_fails E _ _); [apply same_but_tracking_refl|].
  apply same_but_tracking_set.
Qed.

Lemma call_required_by_spec (fuel : nat) (bundle : string) (subm : list manifest)
    (exclusions : list string) (w w' : world) (n : Z) (names : list string)
    (t : list event) :
  call_required_by G fuel bundle subm exclusions w = Some ((n, names), w', t) ->
  w' = w /\ only [KMsg] t /\ outcomes t = [] /\
  (forall x, In x names -> exists m, In m subm /\ component m = x /\ includes m <> []).
Proof.
  unfold call_required_by.
  destruct (required_by _ _ _ _ _ _ _ _) as [[n' r]|] eqn:Hr; [|discriminate].
  intros [= <- <- <- <-]. split; [reflexivity|].
  pose (Q := fun s : reqd_state =>
    (only [KMsg] (printed s) /\ outcomes (printed s) = []) /\
    (forall x, In x (reqd_by s) -> exists m, In m subm /\ component m = x /\ includes m <> [])).
  assert (HQ : Q (snd (n', r))).
  { eapply (required_by_inv G Q); [| | | |exact Hr].
    - intros s Hs. exact Hs.
    - intros b recursion s Hb Hne [[Ho Hout] Hn]. unfold reqd_add.
      destruct (negb (string_in_list (component b) exclusions)); [|repeat split; assumption].
      assert (Hn' : forall x, In x (reqd_by s ++ [component b]) ->
                exists m, In m subm /\ component m = x /\ includes m <> []).
      { intros x Hx. apply in_app_or in Hx. destruct Hx as [Hx|[<-|[]]]; eauto. }
      destruct (verbose G); [|repeat split; assumption].
      simpl. destruct (print_msg s), (recursion =? 1); simpl; unfold Q; simpl;
        rewrite ?outcomes_app, ?Hout; repeat split; try assumption; only_tac.
    - intros s [[Ho Hout] Hn]. unfold reqd_finish. simpl.
      assert (Hgen : forall names s0,
                (only [KMsg] (printed s0) /\ outcomes (printed s0) = []) ->
                let s1 := fold_left (reqd_list_item G (MsgRequiredByHeader bundle)) names s0 in
                (only [KMsg] (printed s1) /\ outcomes (printed s1) = []) /\
                reqd_by s1 = reqd_by s0).
      { intros nm. induction nm as [|x nm IH]; intros s0 Hs0; simpl; [auto|].
        destruct (IH (reqd_list_item G (MsgRequiredByHeader bundle) s0 x)) as [H1 H2].
        - destruct Hs0 as [Ho0 Hout0]. unfold reqd_list_item.
          destruct (negb (verbose G)); [|auto].
          destruct (print_msg s0); simpl; rewrite ?outcomes_app, ?Hout0; split; only_tac.
        - split; [exact H1|]. rewrite H2. unfold reqd_list_item.
          destruct (negb (verbose G)); [|reflexivity]. destruct (print_msg s0); reflexivity. }
      match goal with |- Q (fold_left _ ?l ?s0) =>
        destruct (Hgen l s0) as [H1 H2]; [simpl; auto|] end.
      split; [exact H1|]. rewrite H2. simpl. intros x Hx.
      apply Hn. now apply list_str_deduplicate_In.
    - unfold Q. simpl. repeat split; [constructor|]. intros x []. }
  destruct HQ as [[H1 H2] H3]. auto.
Qed.

Lemma remove_dependents_spec (deps : list string) :
  forall s w s' w' t,
    remove_dependents E deps s w = Some (s', w', t) ->
    only [KUntrack] t /\ outcomes t = [] /\ same_but_tracking w w' /\
    rs_ret_code s' = rs_ret_code s /\ rs_bad s' = rs_bad s /\ rs_total s' = rs_total s /\
    (forall m, In m (rs_submanifests s') -> In m (rs_submanifests s)) /\
    (forall m, In m (rs_submanifests s) -> ~ In (component m) deps ->
               In m (rs_submanifests s')).
Proof.
  induction deps as [|dep deps IH]; intros s w s' w' t H; simpl in H.
  - minv. repeat split; auto using only_nil, same_but_tracking_refl.
  - minv. destruct a. apply remove_tracked_spec in Hm. destruct Hm as [-> Hw].
    apply IH in Hk. destruct Hk as (H1 & H2 & H3 & H4 & H5 & H6 & H7 & H8).
    destruct (rs_move_fields dep s) as (F1 & F2 & F3).
    destruct (rs_move_kept dep s) as (K1 & K2).
    split; [only_tac|].
    split; [rewrite outcomes_app, H2; reflexivity|].
    split; [eapply same_but_tracking_trans; eassumption|].
    split; [congruence|]. split; [congruence|]. split; [congruence|].
    split.
    + intros m Hm. auto.
    + intros m Hm Hn. apply H8; [apply K2; [assumption|]|]; intros Heq; apply Hn; simpl; auto.
Qed.

Lemma os_core_safe_sub (kept kept' : list manifest) :
  (forall m, In m kept' -> In m kept) -> os_core_safe G kept -> os_core_safe G kept'.
Proof. intros Hsub [H|H]; [now left|right]. intros m Hm. apply H. now apply Hsub. Qed.

(** One round of the loop: the trace holds messages and removals of
    tracking files, exactly one outcome for the bundle, and the outcome
    decides the status and the counters. *)
Ltac remove_specs :=
  repeat match goal with
         | H : remove_tracked _ _ _ = Some (?a, _, _) |- _ =>
             destruct a; apply remove_tracked_spec in H; destruct H as [-> ?]
         | H : call_required_by _ _ _ _ _ _ = Some _ |- _ =>
             apply call_required_by_spec in H; destruct H as (-> & ? & ? & ?)
         | H : remove_dependents _ _ _ _ = Some _ |- _ =>
             apply remove_dependents_spec in H;
             destruct H as (? & ? & ? & ? & ? & ? & ? & ?)
         end.

(** One round of the loop: the trace holds messages and removals of
    tracking files, exactly one outcome for the bundle, and the outcome
    decides the status and the counters. *)
Lemma remove_one_spec (fuel : nat) (mom : MoM) (bundles : list string) (bundle : string)
    (s s' : remove_state) (w w' : world) (t : list event) :
  remove_one G E fuel mom bundles bundle s w = Some (s', w', t) ->
  only [KMsg; KUntrack] t /\ same_but_tracking w w' /\
  (exists c, outcomes t = [(bundle, c)] /\ fault_fits mom w bundle c /\
             rs_ret_code s' = match c with Some x => x | None => rs_ret_code s end /\
             rs_bad s' = rs_bad s + match c with Some _ => 1 | None => 0 end) /\
  rs_total s' = rs_total s /\
  (forall m, In m (rs_submanifests s') -> In m (rs_submanifests s)) /\
  (os_core_safe G (rs_submanifests s) ->
   forall m, In m (rs_submanifests s) -> component m = "os-core"%string ->
             In m (rs_submanifests s')).
Proof.
  unfold remove_one, fault_fits.
  destruct (strcmp bundle "os-core" =? 0) eqn:Hos;
    [apply strcmp_eqb in Hos; subst bundle|apply strcmp_neqb in Hos];
    try (destruct (search_bundle_in_manifest mom bundle) eqn:Hsearch);
    intros H; minv; remove_specs.
  all: split;
    [only_tac; try (eapply only_mono; [|eassumption]; simpl; tauto)|].
  all: split;
    [eauto using same_but_tracking_refl, same_but_tracking_trans|].
  all: repeat match goal with
              | |- context [rs_move ?b ?s0] =>
                  let F := fresh "F" in let K := fresh "K" in
                  pose proof (rs_move_fields b s0) as F;
                  pose proof (rs_move_kept b s0) as K;
                  generalize dependent (rs_move b s0); intros
              end.
  all: repeat match goal with H : _ /\ _ |- _ => destruct H end.
  all: split;
    [ first [ match goal with |- context [rs_skip ?code _] => exists (Some code) end
            | exists None ];
      rewrite ?outcomes_app;
      repeat match goal with H : outcomes _ = [] |- _ => rewrite H end;
      simpl;
      repeat match goal with H : negb _ = _ |- _ => rewrite H end; simpl;
      repeat split; auto; try congruence; try lia
    | ].
  all: simpl; split; [congruence|].
  all: split; [auto|].
  all: intros Hsafe m Hm Hc; auto.
  - (* with --force the dependents go too *)
    match goal with K : forall m, In m _ -> component m <> bundle -> In m _ |- _ =>
      apply K; [|congruence] end.
    match goal with D : forall m, In m (rs_submanifests s) -> ~ In (component m) _ -> _ |- _ =>
      apply D; [assumption|] end.
    intros Hin.
    match goal with Hn : forall x, In x _ -> exists m, _ |- _ =>
      apply Hn in Hin; destruct Hin as (m' & Hm' & Hc' & Hinc) end.
    destruct Hsafe as [Hf|Hs].
    + match goal with Hb : negb (cmdline_option_force G) = false |- _ =>
        rewrite Hf in Hb; discriminate end.
    + apply Hinc, Hs; [assumption|congruence].
  - match goal with K : forall m, In m _ -> component m <> bundle -> In m _ |- _ =>
      apply K; [assumption|congruence] end.
Qed.

Lemma last_fault_cons (code : swupd_code) (o : string * option swupd_code)
    (os : list (string * option swupd_code)) :
  last_fault code (o :: os) =
  last_fault (match snd o with Some c => c | None => code end) os.
Proof. reflexivity. Qed.

Lemma count_faults_cons (b : string) (c : option swupd_code)
    (os : list (string * option swupd_code)) :
  count_faults ((b, c) :: os) = match c with Some _ => 1 | None => 0 end + count_faults os.
Proof.
  unfold count_faults, list_len. destruct c; cbn; lia.
Qed.

(** The whole loop: every bundle of the list gets its outcome, in order;
    the status is that of the last rejection; [bad] counts the rejections
    and [total] the bundles. *)
Lemma remove_loop_spec (fuel : nat) (mom : MoM) (bundles : list string) :
  forall before s w s' w' t,
    remove_loop G E fuel mom before bundles s w = Some (s', w', t) ->
    only [KMsg; KUntrack] t /\ same_but_tracking w w' /\
    map fst (outcomes t) = bundles /\
    List.Forall (fun o => fault_fits mom w (fst o) (snd o)) (outcomes t) /\
    rs_ret_code s' = last_fault (rs_ret_code s) (outcomes t) /\
    rs_bad s' = rs_bad s + count_faults (outcomes t) /\
    rs_total s' = rs_total s + list_len bundles /\
    (forall m, In m (rs_submanifests s') -> In m (rs_submanifests s)) /\
    (os_core_safe G (rs_submanifests s) ->
     forall m, In m (rs_submanifests s) -> component m = "os-core"%string ->
               In m (rs_submanifests s')).
Proof.
  induction bundles as [|bundle rest IH]; intros before s w s' w' t H; simpl in H.
  - minv. unfold count_faults, list_len. simpl.
    repeat split; auto using only_nil; try lia.
  - minv. apply remove_one_spec in Hm.
    destruct Hm as (O1 & O2 & (c & O3 & O4 & O5 & O6) & O7 & O8 & O9).
    apply IH in Hk. simpl in Hk.
    destruct Hk as (L1 & L2 & L3 & L4 & L5 & L6 & L7 & L8 & L9).
    split; [only_tac|].
    split; [eapply same_but_tracking_trans; eassumption|].
    rewrite outcomes_app, O3. cbn [app].
    split; [cbn [map fst]; now rewrite L3|].
    split.
    { constructor; [exact O4|]. eapply List.Forall_impl; [|exact L4].
      intros o. apply fault_fits_same. exact O2. }
    rewrite last_fault_cons, count_faults_cons. cbn [snd].
    split; [now rewrite L5, O5|].
    split; [rewrite L6, O6; lia|].
    split.
    { rewrite L7, O7. unfold list_len. simpl length. rewrite Nat2Z.inj_succ. lia. }
    split; [auto|].
    intros Hsafe m Hm Hc. apply L9; [eapply os_core_safe_sub; eassumption| |assumption].
    now apply O9.
Qed.

End RemoveLoop.

(** ** Computations that come back *)

Lemma returns_ret {A : Type} (a : A) : returns (ret a).
Proof. intros w. unfold ret. eauto. Qed.

Lemma returns_bind {A B : Type} (m : M A) (k : A -> M B) :
  returns m -> (forall a, returns (k a)) -> returns (bind m k).
Proof.
  intros Hm Hk w. unfold bind. destruct (Hm w) as [[[a w1] t1] ->].
  destruct (Hk a w1) as [[[b w2] t2] ->]. eauto.
Qed.

Lemma returns_emit (e : event) : returns (emit e).
Proof. intros w. unfold emit. eauto. Qed.

Lemma returns_look {A : Type} (f : world -> A) : returns (look f).
Proof. intros w. unfold look. eauto. Qed.

Lemma returns_act {A : Type} (e : event) (f : world -> A * world) : returns (act e f).
Proof. intros w. unfold act. destruct (f w). eauto. Qed.

Lemma returns_act_ (e : event) (f : world -> world) : returns (act_ e f).
Proof. intros w. unfold act_. eauto. Qed.

Ltac returns_tac :=
  repeat first
    [ apply returns_ret
    | apply returns_emit
    | apply returns_look
    | apply returns_act
    | apply returns_act_
    | progress unfold print, info, warn, error, debug
    | apply returns_bind; [|intro]
    | match goal with
      | |- returns (if ?c then _ else _) => destruct c
      | |- returns (match ?x with _ => _ end) => destruct x
      | |- returns (let '(_, _) := ?x in _) => destruct x
      end
    | assumption ].

Section Returns.

Context (G : options) (E : externs).

Lemma returns_track_installed (b : string) : returns (track_installed E b).
Proof. unfold track_installed, track_installed_seed. returns_tac. Qed.

Lemma returns_remove_tracked (b : string) : returns (remove_tracked E b).
Proof. unfold remove_tracked. returns_tac. Qed.

Lemma returns_remove_dependents (deps : list string) :
  forall s, returns (remove_dependents E deps s).
Proof.
  induction deps as [|dep deps IH]; intros s; simpl; returns_tac.
  apply IH.
Qed.

Lemma returns_remove_prepare (bundles : list string) : returns (remove_prepare E bundles).
Proof. unfold remove_prepare. returns_tac. Qed.

Lemma returns_call_required_by (rank : string -> nat) (fuel : nat) (bundle : string)
    (subm : list manifest) (exclusions : list string) :
  ranked rank subm -> (rank bundle < fuel)%nat ->
  returns (call_required_by G fuel bundle subm exclusions).
Proof.
  intros Hr Hf w. unfold call_required_by.
  destruct (required_by_returns G rank subm exclusions (MsgRequiredByHeader bundle) Hr
              fuel (mk_reqd [] false []) bundle 0 Hf) as [[n r] ->].
  eauto.
Qed.

Lemma ranked_sub (rank : string -> nat) (subm subm' : list manifest) :
  (forall m, In m subm' -> In m subm) -> ranked rank subm -> ranked rank subm'.
Proof. intros Hsub Hr b i Hb. apply Hr. now apply Hsub. Qed.

Lemma returns_remove_one (rank : string -> nat) (fuel : nat) (mom : MoM)
    (bundles : list string) (bundle : string) (s : remove_state) :
  ranked rank (rs_submanifests s) -> (forall n, (rank n < fuel)%nat) ->
  returns (remove_one G E fuel mom bundles bundle s).
Proof.
  intros Hr Hf. unfold remove_one. returns_tac;
    try apply returns_remove_tracked; try apply returns_remove_dependents.
  all: eapply returns_call_required_by; eauto.
Qed.

(** With includes that form no cycle and a budget above every rank, the
    loop of [remove_bundles] comes back. *)
Lemma returns_remove_loop (rank : string -> nat) (fuel : nat) (mom : MoM)
    (bundles : list string) :
  (forall n, (rank n < fuel)%nat) ->
  forall before s, ranked rank (rs_submanifests s) ->
                   returns (remove_loop G E fuel mom before bundles s).
Proof.
  intros Hf. induction bundles as [|bundle rest IH]; intros before s Hr w; simpl.
  - apply returns_ret.
  - unfold bind.
    destruct (returns_remove_one rank fuel mom (list_search_span E before (bundle :: rest))
                bundle s Hr Hf w) as [[[s1 w1] t1] H1].
    rewrite H1. apply remove_one_spec in H1.
    destruct H1 as (_ & _ & _ & _ & Hsub & _).
    destruct (IH (before ++ [bundle]) (rs_next s1) (ranked_sub _ _ _ Hsub Hr) w1)
      as [[[s2 w2] t2] ->].
    eauto.
Qed.

Lemma returns_remove_bundles (rank : string -> nat) (fuel : nat) (bundles : list string)
    (w : world) :
  (forall n, (rank n < fuel)%nat) ->
  (forall mom w1 t1, remove_prepare E bundles w = Some (inr mom, w1, t1) ->
                     ranked rank (submanifests mom)) ->
  exists r, remove_bundles G E fuel bundles w = Some r.
Proof.
  intros Hf Hr. unfold remove_bundles, bind at 1.
  destruct (returns_remove_prepare bundles w) as [[[r w1] t1] Hp]. rewrite Hp.
  destruct r as [code|mom]; [unfold ret; eauto|].
  specialize (Hr mom w1 t1 Hp).
  assert (Hret : returns
    (let* s := remove_loop G E fuel mom [] bundles
                 (mk_remove_state (submanifests mom) [] SWUPD_OK 0 0) in
     let* _ :=
       match rs_bundles_to_remove s with
       | [] => ret tt
       | _ :: _ =>
           if 0 <? list_len (files_to_remove (rs_submanifests s) (rs_bundles_to_remove s))
           then
             let* _ := info MsgDeleting in
             let* deleted :=
               act (EvRemoveFiles (files_to_remove (rs_submanifests s) (rs_bundles_to_remove s)))
                   (remove_files_from_fs E
                      (files_to_remove (rs_submanifests s) (rs_bundles_to_remove s))) in
             info (MsgTotalDeleted deleted)
           else ret tt
       end in
     let* _ :=
       if 0 <? rs_bad s then print (MsgFailedToRemove (rs_bad s) (rs_total s))
       else print (MsgRemoved (rs_total s)) in
     ret (rs_ret_code s))).
  { apply returns_bind; [apply (returns_remove_loop rank); assumption|].
    intros s. returns_tac. }
  destruct (Hret w1) as [[[c w2] t2] ->]. eauto.
Qed.

End Returns.

(** ** remove_bundles *)

Ltac not_of_kind :=
  match goal with
  | Ho : only _ ?t, Hin : In _ ?t |- _ =>
      apply (only_In _ _ _ Ho) in Hin; simpl in Hin;
      repeat (destruct Hin as [Hin|Hin]; try discriminate Hin); contradiction
  end.


Section RemoveBundles.

Context (G : options) (E : externs).

Lemma remove_prepare_only (bundles : list string) (w w' : world)
    (r : swupd_code + MoM) (t : list event) :
  remove_prepare E bundles w = Some (r, w', t) -> only [KMsg; KInit; KTelemetry] t.
Proof. unfold remove_prepare. intros H. minv; only_tac. Qed.

(** The shape of a run of [remove_bundles] that gets past its
    initialisation: the trace of the start, the trace of the loop, then at
    most one call of [remove_files_from_fs], then the summary. *)
Lemma remove_bundles_inr (fuel : nat) (bundles : list string) (w w1 w' : world)
    (mom : MoM) (t1 tr : list event) (rc : swupd_code) :
  remove_prepare E bundles w = Some (inr mom, w1, t1) ->
  remove_bundles G E fuel bundles w = Some (rc, w', tr) ->
  exists s w2 t2 t3,
    remove_loop G E fuel mom [] bundles
      (mk_remove_state (submanifests mom) [] SWUPD_OK 0 0) w1 = Some (s, w2, t2) /\
    rc = rs_ret_code s /\
    tr = t1 ++ t2 ++ t3 ++
         [EvMsg Print (if 0 <? rs_bad s then MsgFailedToRemove (rs_bad s) (rs_total s)
                       else MsgRemoved (rs_total s))] /\
    let l := files_to_remove (rs_submanifests s) (rs_bundles_to_remove s) in
    ((t3 = [] /\ w' = w2 /\ (rs_bundles_to_remove s = [] \/ l = [])) \/
     (exists n, t3 = [EvMsg Info MsgDeleting; EvRemoveFiles l; EvMsg Info (MsgTotalDeleted n)] /\
                rs_bundles_to_remove s <> [] /\ l <> [] /\
                remove_files_from_fs E l w2 = (n, w'))).
Proof.
  intros Hp H. unfold remove_bundles in H.
  apply bind_inv in H. destruct H as (r & w1' & t1' & b & w2' & t2' & Hp' & H & Hr).
  rewrite Hp in Hp'. inversion Hp'; subst; clear Hp'. inversion Hr; subst; clear Hr.
  minv.
  all: match goal with
       | H : remove_loop _ _ _ _ _ _ _ _ = Some (?s, ?w2, ?t2) |- _ => exists s, w2, t2
       end.
  all: first [ match goal with
               | H : remove_files_from_fs E ?l _ = (?n, _) |- _ =>
                   exists [EvMsg Info MsgDeleting; EvRemoveFiles l; EvMsg Info (MsgTotalDeleted n)]
               end
             | exists [] ].
  all: repeat match goal with H : (0 <? rs_bad _) = _ |- _ => rewrite H; clear H end.
  all: split; [assumption|]; split; [reflexivity|].
  all: split; [simpl; rewrite ?app_nil_r; reflexivity|].
  all: cbv zeta.
  all: repeat match goal with H : rs_bundles_to_remove _ = _ :: _ |- _ => rewrite H end.
  all: first
    [ match goal with
      | H : remove_files_from_fs E _ _ = (?n, _) |- _ =>
          right; exists n; split; [reflexivity|];
          split; [congruence|]; split; [|assumption];
          intros Hl;
          match goal with Hb : (0 <? list_len _) = true |- _ =>
            rewrite Hl in Hb; discriminate end
      end
    | left; split; [reflexivity|]; split; [reflexivity|];
      first [ left; assumption
            | right;
              match goal with Hb : (0 <? list_len ?l) = false |- _ =>
                unfold list_len in Hb; destruct l; [reflexivity|simpl in Hb; first [discriminate|lia]] end ] ].
Qed.

(** In a run that gets past its initialisation, the only list handed to
    [remove_files_from_fs] is [files_to_remove] of the two lists the loop
    leaves. *)
Lemma remove_files_event (fuel : nat) (bundles : list string) (w w1 w' : world)
    (mom : MoM) (t1 tr : list event) (rc : swupd_code) (l : list file) :
  remove_prepare E bundles w = Some (inr mom, w1, t1) ->
  remove_bundles G E fuel bundles w = Some (rc, w', tr) ->
  In (EvRemoveFiles l) tr ->
  exists s w2 t2,
    remove_loop G E fuel mom [] bundles
      (mk_remove_state (submanifests mom) [] SWUPD_OK 0 0) w1 = Some (s, w2, t2) /\
    l = files_to_remove (rs_submanifests s) (rs_bundles_to_remove s).
Proof.
  intros Hp H Hin.
  destruct (remove_bundles_inr fuel bundles w w1 w' mom t1 tr rc Hp H)
    as (s & w2 & t2 & t3 & Hloop & -> & -> & Hfiles).
  exists s, w2, t2. split; [exact Hloop|].
  apply remove_prepare_only in Hp.
  apply remove_loop_spec in Hloop. destruct Hloop as (Ho & _).
  apply in_app_or in Hin. destruct Hin as [Hin|Hin]; [not_of_kind|].
  apply in_app_or in Hin. destruct Hin as [Hin|Hin]; [not_of_kind|].
  apply in_app_or in Hin. destruct Hin as [Hin|Hin].
  - destruct Hfiles as [(-> & _)|(n & -> & _)]; [contradiction|].
    simpl in Hin. destruct Hin as [Hin|[Hin|[Hin|[]]]]; try discriminate.
    now injection Hin as <-.
  - simpl in Hin. destruct Hin as [Hin|[]]. destruct (0 <? rs_bad s); discriminate.
Qed.

Lemma remove_prepare_inr (bundles : list string) (w w1 : world) (mom : MoM)
    (t1 : list event) :
  remove_prepare E bundles w = Some (inr mom, w1, t1) -> t1 = [EvInit].
Proof. unfold remove_prepare. intros H. minv; reflexivity. Qed.

(** With includes that form no cycle and enough budget, a run that gets
    past its initialisation returns; its outcomes are those of the loop. *)
Lemma remove_bundles_run (rank : string -> nat) (fuel : nat) (bundles : list string)
    (w w1 : world) (mom : MoM) (t1 : list event) :
  (forall n, (rank n < fuel)%nat) ->
  remove_prepare E bundles w = Some (inr mom, w1, t1) ->
  ranked rank (submanifests mom) ->
  exists rc w' tr s w2 t2,
    remove_bundles G E fuel bundles w = Some (rc, w', tr) /\
    remove_loop G E fuel mom [] bundles
      (mk_remove_state (submanifests mom) [] SWUPD_OK 0 0) w1 = Some (s, w2, t2) /\
    rc = rs_ret_code s /\
    outcomes tr = outcomes t2 /\
    (forall e, In e t2 -> In e tr) /\
    last tr = Some (EvMsg Print (if 0 <? rs_bad s
                                 then MsgFailedToRemove (rs_bad s) (rs_total s)
                                 else MsgRemoved (rs_total s))).
Proof.
  intros Hfuel Hp Hrank.
  destruct (returns_remove_bundles G E rank fuel bundles w Hfuel) as [[[rc w'] tr] H].
  { intros mom' w1' t1' Hp'. rewrite Hp in Hp'. inversion Hp'; subst. exact Hrank. }
  destruct (remove_bundles_inr fuel bundles w w1 w' mom t1 tr rc Hp H)
    as (s & w2 & t2 & t3 & Hloop & -> & -> & Hfiles).
  eexists (rs_ret_code s), w', _, s, w2, t2.
  split; [exact H|]. split; [exact Hloop|]. split; [reflexivity|].
  apply remove_prepare_inr in Hp. subst t1.
  split; [|split].
  - rewrite !outcomes_app.
    assert (H3 : outcomes t3 = []).
    { destruct Hfiles as [(-> & _)|(n & -> & _)]; reflexivity. }
    rewrite H3. destruct (0 <? rs_bad s); simpl; now rewrite app_nil_r.
  - intros e He. apply in_or_app. right. apply in_or_app. now left.
  - rewrite !app_assoc. apply last_snoc.
Qed.

End RemoveBundles.

(** ** The status of remove_bundles *)

Lemma last_fault_app (code : swupd_code) (os1 os2 : list (string * option swupd_code)) :
  last_fault code (os1 ++ os2) = last_fault (last_fault code os1) os2.
Proof. unfold last_fault. apply fold_left_app. Qed.

Lemma last_fault_stays (code : swupd_code) (os : list (string * option swupd_code)) :
  List.Forall (fun o => snd o = Some code \/ snd o = None) os -> last_fault code os = code.
Proof.
  induction 1 as [|o os Ho Hall IH]; [reflexivity|].
  rewrite last_fault_cons. destruct Ho as [-> | ->]; exact IH.
Qed.

Lemma last_fault_not_ok (code : swupd_code) (os : list (string * option swupd_code)) :
  List.Forall (fun o => snd o <> Some SWUPD_OK) os -> code <> SWUPD_OK ->
  last_fault code os <> SWUPD_OK.
Proof.
  intros Hall. revert code. induction Hall as [|o os Ho Hall IH]; intros code Hc; [exact Hc|].
  rewrite last_fault_cons. apply IH. destruct (snd o); congruence.
Qed.

Lemma fault_fits_not_ok (mom : MoM) (w : world) (b : string) (c : option swupd_code) :
  fault_fits mom w b c -> c <> Some SWUPD_OK.
Proof.
  unfold fault_fits. destruct (strcmp b "os-core" =? 0); [congruence|].
  destruct (search_bundle_in_manifest mom b); [|congruence].
  destruct (negb (is_installed_bundle b w)); [congruence|]. intros [-> | ->]; congruence.
Qed.

Section RemoveStatus.

Context (G : options) (E : externs).

Lemma remove_loop_os_core (fuel : nat) (mom : MoM) (bundles : list string) :
  In "os-core"%string bundles ->
  forall before s w s' w' t,
    remove_loop G E fuel mom before bundles s w = Some (s', w', t) ->
    In (EvMsg Warn MsgOsCore) t.
Proof.
  induction bundles as [|bundle rest IH]; intros Hin before s w s' w' t H; [contradiction|].
  simpl in H. minv. apply in_or_app. destruct Hin as [->|Hin].
  - left. unfold remove_one in Hm. simpl in Hm. minv. now left.
  - right. eapply IH; eassumption.
Qed.

End RemoveStatus.

Lemma rank_below_3 (n : string) : (Runs.rank n < 3)%nat.
Proof. unfold Runs.rank. destruct (String.eqb n "os-core"), (String.eqb n "vim"); lia. Qed.

Lemma ranked_loaded : ranked Runs.rank (submanifests Runs.loaded).
Proof.
  intros b i Hb Hi _. simpl in Hb.
  destruct Hb as [<-|[<-|[<-|[]]]]; simpl in Hi;
    repeat (destruct Hi as [<-|Hi]; [vm_compute; lia|]); contradiction.
Qed.


(** ** os-core *)

Lemma outcomes_split (os : list (string * option swupd_code)) (pre post : list string)
    (b : string) :
  map fst os = pre ++ b :: post ->
  exists os1 o os2, os = os1 ++ o :: os2 /\ map fst os1 = pre /\ fst o = b /\
                    map fst os2 = post.
Proof.
  revert pre. induction os as [|o os IH]; intros pre H.
  - destruct pre; discriminate.
  - destruct pre as [|p pre]; simpl in H.
    + injection H as Ho Hos. exists [], o, os. auto.
    + injection H as Ho Hos. destruct (IH pre Hos) as (os1 & o' & os2 & -> & H1 & H2 & H3).
      exists (o :: os1), o', os2. simpl. repeat split; auto. congruence.
Qed.

(** C4 as the spec words it fails on [bundle-remove os-core zzz]: the list
    names [os-core] and the status returned is that of [zzz]. *)
Lemma remove_os_core_counterexample :
  In "os-core"%string ["os-core"%string; "zzz"%string] /\
  Runs.remove_os_core_zzz <> None /\
  result_value SWUPD_OK Runs.remove_os_core_zzz = SWUPD_INVALID_BUNDLE /\
  result_value SWUPD_OK Runs.remove_os_core_zzz <> SWUPD_REQUIRED_BUNDLE_ERROR.
Proof. vm_compute. repeat split; try discriminate. now left. Qed.

(** ** Inversion of the computations *)

Lemma ret_inv {A : Type} (a b : A) (w w' : world) (t : list event) :
  ret a w = Some (b, w', t) -> b = a /\ w' = w /\ t = [].
Proof. unfold ret. intros [= <- <- <-]. auto. Qed.

Lemma emit_inv (e : event) (u : unit) (w w' : world) (t : list event) :
  emit e w = Some (u, w', t) -> w' = w /\ t = [e].
Proof. unfold emit. intros [= <- <- <-]. auto. Qed.

Lemma look_inv {A : Type} (f : world -> A) (a : A) (w w' : world) (t : list event) :
  look f w = Some (a, w', t) -> a = f w /\ w' = w /\ t = [].
Proof. unfold look. intros [= <- <- <-]. auto. Qed.

Lemma act_inv {A : Type} (e : event) (f : world -> A * world) (a : A) (w w' : world)
    (t : list event) :
  act e f w = Some (a, w', t) -> f w = (a, w') /\ t = [e].
Proof. unfold act. destruct (f w). intros [= <- <- <-]. auto. Qed.

Lemma act__inv (e : event) (f : world -> world) (u : unit) (w w' : world)
    (t : list event) :
  act_ e f w = Some (u, w', t) -> w' = f w /\ t = [e].
Proof. unfold act_. intros [= <- <- <-]. auto. Qed.

(** Inversion of the primitive computations: the result, the machine and
    the trace are replaced by what the computation gives. *)
Ltac run_inv H :=
  unfold print, info, warn, error, debug in H;
  lazymatch type of H with
  | ret _ _ = Some (?b, ?w', ?t) =>
      apply ret_inv in H;
      let Hb := fresh in let Hw := fresh in let Ht := fresh in
      destruct H as (Hb & Hw & Ht);
      try subst t; try subst w'; first [subst b | discriminate Hb | (injection Hb; clear Hb; intros; subst) | idtac]
  | emit _ _ = Some (_, ?w', ?t) =>
      apply emit_inv in H;
      let Hw := fresh in let Ht := fresh in
      destruct H as (Hw & Ht); try subst t; try subst w'
  | look _ _ = Some (?a, ?w', ?t) =>
      apply look_inv in H;
      let Ha := fresh in let Hw := fresh in let Ht := fresh in
      destruct H as (Ha & Hw & Ht);
      try subst t; try subst w'; first [subst a | symmetry in Ha]
  | act _ _ _ = Some (_, _, ?t) =>
      apply act_inv in H;
      let Ht := fresh in
      destruct H as (H & Ht); try subst t
  | act_ _ _ _ = Some (_, ?w', ?t) =>
      apply act__inv in H;
      let Hw := fresh in let Ht := fresh in
      destruct H as (Hw & Ht); try subst t; try subst w'
  end.

Ltac unbind1 :=
  match goal with
  | H : bind _ _ _ = Some _ |- _ =>
      let a := fresh "a" in let w := fresh "w" in let t := fresh "t" in
      let b := fresh "b" in let w' := fresh "w" in let t' := fresh "t" in
      let H1 := fresh "Hm" in let H2 := fresh "Hk" in let H3 := fresh "Hr" in
      apply bind_inv in H;
      destruct H as (a & w & t & b & w' & t' & H1 & H2 & H3);
      injection H3; clear H3; intros; subst
  | H : ret _ _ = Some _ |- _ => run_inv H
  | H : emit _ _ = Some _ |- _ => run_inv H
  | H : look _ _ = Some _ |- _ => run_inv H
  | H : act _ _ _ = Some _ |- _ => run_inv H
  | H : act_ _ _ _ = Some _ |- _ => run_inv H
  | H : print _ _ = Some _ |- _ => run_inv H
  | H : info _ _ = Some _ |- _ => run_inv H
  | H : warn _ _ = Some _ |- _ => run_inv H
  | H : error _ _ = Some _ |- _ => run_inv H
  | H : debug _ _ = Some _ |- _ => run_inv H
  | H : (if ?c then _ else _) _ = Some _ |- _ =>
      first [progress cbv beta iota in H | destruct c eqn:?]
  | H : (match ?x with _ => _ end) _ = Some _ |- _ =>
      first [progress cbv beta iota in H | destruct x eqn:?]
  | H : (let '(_, _) := ?x in _) _ = Some _ |- _ =>
      first [progress cbv beta iota in H | destruct x eqn:?]
  end.

Ltac unbind := repeat unbind1.


Ltac trace_eq := simpl; rewrite <- ?app_assoc, ?app_nil_r; simpl; reflexivity.

Ltac in_tac := simpl; rewrite ?in_app_iff; simpl; tauto.

(** No entry of a trace passes a test that fails on the whole trace. *)
Lemma absent_by (p : event -> bool) (t : list event) :
  existsb p t = false -> forall e, p e = true -> ~ In e t.
Proof.
  intros H e He Hin.
  assert (existsb p t = true) by (apply existsb_exists; eauto). congruence.
Qed.

(** ** add_subscriptions *)

Lemma has_bit_lor (a b m : Z) : has_bit (Z.lor a b) m = has_bit a m || has_bit b m.
Proof.
  unfold has_bit. rewrite Z.land_lor_distr_l.
  destruct (Z.land a m =? 0) eqn:Ha, (Z.land b m =? 0) eqn:Hb; simpl;
    rewrite ?Z.eqb_eq, ?Z.eqb_neq in *.
  - apply negb_false_iff, Z.eqb_eq. apply Z.lor_eq_0_iff. auto.
  - apply negb_true_iff, Z.eqb_neq. rewrite Z.lor_eq_0_iff. tauto.
  - apply negb_true_iff, Z.eqb_neq. rewrite Z.lor_eq_0_iff. tauto.
  - apply negb_true_iff, Z.eqb_neq. rewrite Z.lor_eq_0_iff. tauto.
Qed.

Lemma search_bundle_in_manifest_Some (mom : MoM) (bundle : string) (f : file) :
  search_bundle_in_manifest mom bundle = Some f ->
  In f (manifests mom) /\ filename f = bundle.
Proof.
  unfold search_bundle_in_manifest. intros H. apply find_some in H.
  destruct H as [Hin Hc]. apply strcmp_eqb in Hc. auto.
Qed.

Lemma component_subscribed_app (subs new : list sub) (name : string) :
  component_subscribed (subs ++ new) name =
  component_subscribed subs name || component_subscribed new name.
Proof. unfold component_subscribed. apply existsb_app. Qed.

Lemma component_subscribed_In (subs : list sub) (name : string) :
  component_subscribed subs name = true <-> exists s, In s subs /\ sub_component s = name.
Proof.
  unfold component_subscribed. rewrite existsb_exists.
  split; intros (s & Hs & Hc); exists s; (split; [assumption|]); now apply strcmp_eqb.
Qed.

Section AddSubscriptions.

Context (G : options) (E : externs) (w : world) (mom : MoM).

Lemma subscribe_includes_post again find_all names enabled subs r :
  (forall names subs r, again names subs = Some r -> subscribed_post w mom find_all subs r) ->
  subscribe_includes again names enabled subs = Some r ->
  subscribed_post w mom find_all subs r.
Proof.
  intros Hagain. unfold subscribe_includes.
  assert (H0 : subscribed_post w mom find_all subs (0, subs, [])).
  { simpl. split; [constructor|]. split; [|discriminate].
    exists []. rewrite app_nil_r. split; [reflexivity|]. intros s []. }
  destruct names; [now intros [= <-]|].
  destruct enabled; [apply Hagain|now intros [= <-]].
Qed.

Lemma subscribe_each_post again find_all recursion :
  (forall names subs r, again names subs = Some r -> subscribed_post w mom find_all subs r) ->
  forall iter ret subs tr ret' subs' tr',
    subscribe_each G E again w mom find_all recursion iter ret subs tr
      = Some (ret', subs', tr') ->
    exists t new,
      tr' = tr ++ t /\ only [KMsg] t /\ subs' = subs ++ new /\
      (forall s, In s new ->
         search_bundle_in_manifest mom (sub_component s) <> None /\
         (find_all = false -> is_installed_bundle (sub_component s) w = false)) /\
      (has_bit ret' add_sub_ERR = true ->
       has_bit ret add_sub_ERR = true \/
       exists b v, In (EvMsg Error (MsgManifestFailed b v)) t) /\
      (has_bit ret add_sub_BADNAME = true -> has_bit ret' add_sub_BADNAME = true) /\
      (forall n, In n iter -> search_bundle_in_manifest mom n = None ->
                 has_bit ret' add_sub_BADNAME = true \/
                 exists b v, In (EvMsg Error (MsgManifestFailed b v)) t).
Proof.
  intros Hagain. induction iter as [|bundle iter IH]; intros ret subs tr ret' subs' tr' H;
    simpl in H.
  - injection H as <- <- <-. exists [], []. rewrite !app_nil_r.
    repeat split; auto using only_nil; try contradiction.
  - destruct (search_bundle_in_manifest mom bundle) as [file|] eqn:Hsearch.
    2:{ apply IH in H. destruct H as (t & new & -> & Ho & -> & Hnew & Herr & Hbad & Hinv).
        exists ([EvMsg Warn (MsgInvalid bundle)] ++ t), new.
        rewrite has_bit_lor in Herr, Hbad. simpl in Herr.
        rewrite orb_false_r in Herr.
        split; [now rewrite app_assoc|]. split; [only_tac|]. split; [reflexivity|].
        split; [exact Hnew|]. split.
        { intros He. destruct (Herr He) as [H1|(b & v & H1)]; [now left|].
          right. exists b, v. now right. }
        split; [intros Hb; apply Hbad; rewrite Hb; reflexivity|].
        intros n [<-|Hn] Hs.
        - left. apply Hbad. apply orb_true_r.
        - destruct (Hinv n Hn Hs) as [H1|(b & v & H1)]; [now left|].
          right. exists b, v. now right. }
    assert (Hskip : forall ret0,
      subscribe_each G E again w mom find_all recursion iter ret0 subs tr
        = Some (ret', subs', tr') ->
      (has_bit ret add_sub_ERR = true -> has_bit ret0 add_sub_ERR = true) ->
      (has_bit ret0 add_sub_ERR = true -> has_bit ret add_sub_ERR = true) ->
      (has_bit ret add_sub_BADNAME = true -> has_bit ret0 add_sub_BADNAME = true) ->
      exists t new,
        tr' = tr ++ t /\ only [KMsg] t /\ subs' = subs ++ new /\
        (forall s, In s new ->
           search_bundle_in_manifest mom (sub_component s) <> None /\
           (find_all = false -> is_installed_bundle (sub_component s) w = false)) /\
        (has_bit ret' add_sub_ERR = true ->
         has_bit ret add_sub_ERR = true \/
         exists b v, In (EvMsg Error (MsgManifestFailed b v)) t) /\
        (has_bit ret add_sub_BADNAME = true -> has_bit ret' add_sub_BADNAME = true) /\
        (forall n, In n (bundle :: iter) -> search_bundle_in_manifest mom n = None ->
                   has_bit ret' add_sub_BADNAME = true \/
                   exists b v, In (EvMsg Error (MsgManifestFailed b v)) t)).
    { intros ret0 H0 He1 He2 Hb.
      apply IH in H0. destruct H0 as (t & new & -> & Ho & -> & Hnew & Herr & Hbad & Hinv).
      exists t, new. split; [reflexivity|]. split; [exact Ho|]. split; [reflexivity|].
      split; [exact Hnew|]. split; [intros He; destruct (Herr He); auto|].
      split; [auto|]. intros n [<-|Hn] Hs; [congruence|exact (Hinv n Hn Hs)]. }
    destruct (negb find_all && is_installed_bundle bundle w) eqn:Hinst;
      [apply (Hskip ret H); auto|].
    destruct (load_manifest E file) as [manifest|] eqn:Hload.
    2:{ injection H as <- <- <-.
        exists [EvMsg Error (MsgManifestFailed bundle (last_change file))], [].
        rewrite app_nil_r. rewrite !has_bit_lor.
        split; [reflexivity|]. split; [only_tac|]. split; [reflexivity|].
        split; [intros s []|]. split; [intros _; right; eexists _, _; now left|].
        split; [intros Hb; rewrite Hb; reflexivity|].
        intros n _ _. right. eexists _, _. now left. }
    destruct (component_subscribed subs bundle && (0 <? recursion)) eqn:Hcut;
      [apply (Hskip ret H); auto|].
    destruct (subscribe_includes again (includes manifest) true _) as [[[r1 subs1] t1]|] eqn:H1;
      [|discriminate].
    destruct (subscribe_includes again (optional manifest) _ subs1) as [[[r2 subs2] t2]|] eqn:H2;
      [|discriminate].
    apply (subscribe_includes_post again find_all) in H1; [|exact Hagain].
    apply (subscribe_includes_post again find_all) in H2; [|exact Hagain].
    destruct H1 as (Ho1 & (new1 & -> & Hnew1) & He1).
    destruct H2 as (Ho2 & (new2 & -> & Hnew2) & He2).
    apply IH in H. destruct H as (t & new & -> & Ho & -> & Hnew & Herr & Hbad & Hinv).
    set (added := if component_subscribed subs bundle then []
                  else [mk_sub bundle 0]).
    exists (t1 ++ t2 ++ t), (added ++ new1 ++ new2 ++ new).
    split; [now rewrite !app_assoc|]. split; [only_tac|].
    split.
    { unfold added, create_and_append_subscription.
      destruct (component_subscribed subs bundle); simpl; now rewrite <- ?app_assoc. }
    split.
    { intros s Hs. apply in_app_or in Hs. destruct Hs as [Hs|Hs].
      - unfold added in Hs. destruct (component_subscribed subs bundle); [contradiction|].
        destruct Hs as [<-|[]]. simpl. split; [congruence|].
        intros ->. simpl in Hinst. exact Hinst.
      - apply in_app_or in Hs. destruct Hs as [Hs|Hs]; [now apply Hnew1|].
        apply in_app_or in Hs. destruct Hs as [Hs|Hs]; [now apply Hnew2|now apply Hnew]. }
    assert (Hbits : forall m, has_bit add_sub_NEW m = false ->
      has_bit (Z.lor (Z.lor (if component_subscribed subs bundle then ret
                             else Z.lor ret add_sub_NEW) r1) r2) m
      = has_bit ret m || has_bit r1 m || has_bit r2 m).
    { intros m Hm. rewrite !has_bit_lor.
      destruct (component_subscribed subs bundle); [reflexivity|].
      rewrite has_bit_lor, Hm, orb_false_r. reflexivity. }
    rewrite Hbits in Herr, Hbad by reflexivity.
    split.
    { intros He. destruct (Herr He) as [H0|(b & v & H0)].
      - apply orb_true_iff in H0. destruct H0 as [H0|H0].
        + apply orb_true_iff in H0. destruct H0 as [H0|H0]; [now left|].
          right. destruct (He1 H0) as (b & v & Hin). exists b, v.
          apply in_or_app. now left.
        + right. destruct (He2 H0) as (b & v & Hin). exists b, v.
          apply in_or_app. right. apply in_or_app. now left.
      - right. exists b, v. apply in_or_app. right. apply in_or_app. now right. }
    split; [intros Hb; apply Hbad; rewrite Hb; reflexivity|].
    intros n [<-|Hn] Hs; [congruence|].
    destruct (Hinv n Hn Hs) as [H0|(b & v & H0)]; [now left|].
    right. exists b, v. apply in_or_app. right. apply in_or_app. now right.
Qed.

Lemma add_subscriptions_post (fuel : nat) :
  forall find_all bundles subs recursion r,
    add_subscriptions G E fuel w mom find_all bundles subs recursion = Some r ->
    subscribed_post w mom find_all subs r.
Proof.
  induction fuel as [|fuel IH]; intros find_all bundles subs recursion r H; [discriminate|].
  simpl in H. destruct r as [[ret' subs'] tr'].
  apply (subscribe_each_post _ find_all) in H.
  - destruct H as (t & new & -> & Ho & -> & Hnew & Herr & _). simpl.
    split; [exact Ho|]. split; [eauto|].
    intros He. destruct (Herr He) as [H0|H0]; [discriminate|exact H0].
  - intros names subs0 r0. apply IH.
Qed.

(** A name of the list that is no bundle of the MoM sets the bad-name bit,
    unless a manifest failed to load. *)
Lemma add_subscriptions_badname (fuel : nat) find_all bundles subs recursion ret subs' t n :
  add_subscriptions G E fuel w mom find_all bundles subs recursion = Some (ret, subs', t) ->
  In n bundles -> search_bundle_in_manifest mom n = None ->
  has_bit ret add_sub_BADNAME = true \/
  exists b v, In (EvMsg Error (MsgManifestFailed b v)) t.
Proof.
  destruct fuel as [|fuel]; [discriminate|]. simpl. intros H Hn Hs.
  apply (subscribe_each_post _ find_all) in H.
  - destruct H as (t0 & new & -> & _ & _ & _ & _ & _ & Hinv). exact (Hinv n Hn Hs).
  - intros names subs0 r0. apply add_subscriptions_post.
Qed.

End AddSubscriptions.

(** ** add_subscriptions comes back *)

Lemma filter_length_le {A : Type} (p p' : A -> bool) (l : list A) :
  (forall x, p' x = true -> p x = true) ->
  (length (List.filter p' l) <= length (List.filter p l))%nat.
Proof.
  intros H. induction l as [|x l IH]; simpl; [lia|].
  destruct (p' x) eqn:Hp'; [rewrite (H x Hp'); simpl; lia|].
  destruct (p x); simpl; lia.
Qed.

Lemma filter_length_lt {A : Type} (p p' : A -> bool) (l : list A) (x : A) :
  (forall x, p' x = true -> p x = true) ->
  In x l -> p x = true -> p' x = false ->
  (length (List.filter p' l) < length (List.filter p l))%nat.
Proof.
  intros H. induction l as [|y l IH]; simpl; [contradiction|].
  intros [->|Hin] Hp Hp'.
  - rewrite Hp, Hp'. simpl. pose proof (filter_length_le p p' l H). lia.
  - specialize (IH Hin Hp Hp').
    destruct (p' y) eqn:Hy; [rewrite (H y Hy); simpl; lia|].
    destruct (p y); simpl; lia.
Qed.

Lemma unsubscribed_app (mom : MoM) (subs new : list sub) :
  (unsubscribed mom (subs ++ new) <= unsubscribed mom subs)%nat.
Proof.
  unfold unsubscribed. apply filter_length_le. intros f.
  rewrite component_subscribed_app, negb_orb. intros H.
  apply andb_true_iff in H. tauto.
Qed.

Lemma unsubscribed_new (mom : MoM) (subs : list sub) (bundle : string) (file : file) :
  search_bundle_in_manifest mom bundle = Some file ->
  component_subscribed subs bundle = false ->
  (unsubscribed mom (create_and_append_subscription subs bundle) < unsubscribed mom subs)%nat.
Proof.
  intros Hs Hc. apply search_bundle_in_manifest_Some in Hs. destruct Hs as [Hin Hn].
  unfold unsubscribed, create_and_append_subscription.
  apply (filter_length_lt _ _ _ file); [|exact Hin| |].
  - intros f. rewrite component_subscribed_app, negb_orb. intros H.
    apply andb_true_iff in H. tauto.
  - now rewrite Hn, Hc.
  - rewrite Hn, component_subscribed_app, Hc. simpl.
    unfold strcmp. now rewrite string_compare_refl.
Qed.

Section AddSubscriptionsReturns.

Context (G : options) (E : externs) (w : world) (mom : MoM).

Lemma subscribe_each_returns again find_all recursion (bound : nat) :
  (forall names subs, (unsubscribed mom subs < bound)%nat ->
     exists r, again names subs = Some r /\ subscribed_post w mom find_all subs r) ->
  forall iter ret subs tr,
    (if 0 <? recursion then (unsubscribed mom subs <= bound)%nat
     else (unsubscribed mom subs < bound)%nat) ->
    exists r, subscribe_each G E again w mom find_all recursion iter ret subs tr = Some r.
Proof.
  intros Hagain. induction iter as [|bundle iter IH]; intros ret subs tr Hb; simpl; [eauto|].
  destruct (search_bundle_in_manifest mom bundle) as [file|] eqn:Hsearch; [|now apply IH].
  destruct (negb find_all && is_installed_bundle bundle w); [now apply IH|].
  destruct (load_manifest E file) as [manifest|]; [|eauto].
  destruct (component_subscribed subs bundle && (0 <? recursion)) eqn:Hcut; [now apply IH|].
  set (subs1 := if component_subscribed subs bundle then subs
                else create_and_append_subscription subs bundle).
  assert (H1 : (unsubscribed mom subs1 < bound)%nat /\
               (unsubscribed mom subs1 <= unsubscribed mom subs)%nat).
  { unfold subs1. destruct (component_subscribed subs bundle) eqn:Hsub.
    - simpl in Hcut. rewrite Hcut in Hb. lia.
    - pose proof (unsubscribed_new mom subs bundle file Hsearch Hsub).
      destruct (0 <? recursion); lia. }
  destruct H1 as [H1 H1'].
  assert (Hinc : forall names enabled subs0, (unsubscribed mom subs0 < bound)%nat ->
            exists ret0 new t0,
              subscribe_includes again names enabled subs0 = Some (ret0, subs0 ++ new, t0)).
  { intros names enabled subs0 Hlt. unfold subscribe_includes.
    assert (H0 : exists ret0 new t0, Some (0, subs0, @nil event) = Some (ret0, subs0 ++ new, t0)).
    { exists 0, [], []. now rewrite app_nil_r. }
    destruct names; [exact H0|]. destruct enabled; [|exact H0].
    destruct (Hagain (s :: names) subs0 Hlt) as ([[ret0 subs0'] t0] & -> & _ & (new & -> & _) & _).
    eauto. }
  destruct (Hinc (includes manifest) true subs1 H1) as (r1 & new1 & t1 & ->).
  pose proof (unsubscribed_app mom subs1 new1).
  destruct (Hinc (optional manifest) (negb (skip_optional_bundles G)) (subs1 ++ new1))
    as (r2 & new2 & t2 & ->); [lia|].
  pose proof (unsubscribed_app mom (subs1 ++ new1) new2).
  apply IH. destruct (0 <? recursion); lia.
Qed.

(** [add_subscriptions] comes back when the budget exceeds the number of
    bundles of the MoM that are not subscribed yet (by two at the first
    level, by one below). *)
Lemma add_subscriptions_returns (fuel : nat) :
  forall find_all bundles subs recursion,
    0 <= recursion ->
    (if 0 <? recursion then (unsubscribed mom subs < fuel)%nat
     else (S (unsubscribed mom subs) < fuel)%nat) ->
    exists r, add_subscriptions G E fuel w mom find_all bundles subs recursion = Some r.
Proof.
  induction fuel as [|fuel IH]; intros find_all bundles subs recursion Hrec Hb.
  - destruct (0 <? recursion); lia.
  - simpl. apply (subscribe_each_returns _ find_all recursion fuel).
    + intros names subs0 Hlt.
      destruct (IH find_all names subs0 (recursion + 1)) as [r Hr]; [lia| |].
      * assert (Hpos : (0 <? recursion + 1) = true) by (apply Z.ltb_lt; lia).
        now rewrite Hpos.
      * exists r. split; [exact Hr|]. eapply add_subscriptions_post. exact Hr.
    + destruct (0 <? recursion); lia.
Qed.

Lemma call_add_subscriptions_returns (fuel : nat) (bundles : list string) (subs : list sub) :
  (add_subscriptions_budget mom subs <= fuel)%nat ->
  exists r subs' t,
    call_add_subscriptions G E fuel mom bundles subs w = Some ((r, subs'), w, t) /\
    subscribed_post w mom false subs (r, subs', t).
Proof.
  intros Hb. unfold call_add_subscriptions, add_subscriptions_budget in *.
  destruct (add_subscriptions_returns fuel false bundles subs 0) as [[[r subs'] t] Hr];
    [lia|simpl; lia|].
  rewrite Hr. exists r, subs', t. split; [reflexivity|].
  eapply add_subscriptions_post. exact Hr.
Qed.

End AddSubscriptionsReturns.

(** ** The tracking directory *)

Section Tracking.

Context (E : externs).

(** The machine [track_installed] leaves, case by case. *)
Lemma track_installed_cases (b : string) (w w' : world) (t : list event) :
  track_installed E b w = Some (tt, w', t) ->
  (is_populated_dir w = true /\ (w' = w \/ w' = create_tracking b w)) \/
  (is_populated_dir w = false /\
   ((w' = w /\ syscall_fails E SysRmRf w = true) \/
    (w' = rm_rf_tracking w /\ syscall_fails E SysCopyAll (rm_rf_tracking w) = true) \/
    (syscall_fails E SysCopyAll (rm_rf_tracking w) = false /\
     (w' = seeded w \/ w' = create_tracking b (seeded w))))).
Proof.
  unfold track_installed, track_installed_seed. intros H.
  destruct (is_populated_dir w) eqn:Hpop; [left|right]; (split; [reflexivity|]).
  - unbind; try (rewrite Hpop in *; simpl in *; try discriminate); auto.
  - unbind; try (rewrite Hpop in *; simpl in *; try discriminate); auto.
Qed.

Lemma track_installed_same (b : string) (w w' : world) (t : list event) :
  track_installed E b w = Some (tt, w', t) -> same_but_tracking w w'.
Proof.
  intros H. apply track_installed_cases in H.
  destruct H as [(_ & [-> | ->])|(_ & [(-> & _)|[(-> & _)|(_ & [-> | ->])]])];
    repeat split.
Qed.

Lemma create_tracking_tracked (b : string) (w : world) :
  tracked b w -> create_tracking b w = w.
Proof.
  intros (names & Hn & Hb). destruct w as [bd tr st tg]. simpl in Hn. subst tr.
  unfold create_tracking, set_tracking. simpl. f_equal. f_equal.
  apply subseteq_union_1_L. now apply singleton_subseteq_l.
Qed.

Lemma tracked_populated (b : string) (w : world) : tracked b w -> is_populated_dir w = true.
Proof.
  intros (names & Hn & Hb). unfold is_populated_dir. rewrite Hn.
  apply negb_true_iff, bool_decide_eq_false. set_solver.
Qed.

Lemma seeded_tracked (b : string) (w : world) :
  is_installed_bundle b w = true -> b <> ".MoM"%string -> tracked b (seeded w).
Proof.
  unfold is_installed_bundle. intros Hb Hne. apply bool_decide_eq_true in Hb.
  eexists. split; [reflexivity|]. simpl. set_solver.
Qed.

Lemma create_tracking_keeps (x b : string) (w : world) :
  tracked x w -> tracked x (create_tracking b w).
Proof.
  intros (names & Hn & Hx). unfold tracked, create_tracking. simpl. rewrite Hn.
  eexists. split; [reflexivity|]. set_solver.
Qed.

(** A tracking file that is there stays when another bundle is tracked. *)
Lemma track_installed_keeps (x b : string) (w w' : world) (t : list event) :
  tracked x w -> track_installed E b w = Some (tt, w', t) -> tracked x w'.
Proof.
  intros Hx H. apply track_installed_cases in H.
  rewrite (tracked_populated x w Hx) in H.
  destruct H as [(_ & [-> | ->])|(Hf & _)]; [assumption| |discriminate].
  now apply create_tracking_keeps.
Qed.

(** When no call of the platform fails, [track_installed] leaves the
    tracking file of the bundle. *)
Lemma track_installed_creates (b : string) (w w' : world) (t : list event) :
  (forall c w0, syscall_fails E c w0 = false) ->
  track_installed E b w = Some (tt, w', t) -> tracked b w'.
Proof.
  intros Hok. unfold track_installed, track_installed_seed. intros H.
  unbind; try (rewrite Hok in *; simpl in *; try discriminate).
  all: try match goal with
           | Hp : negb (is_populated_dir ?w0) = false,
             Ho : negb (bool_decide (is_Some (tracking ?w0))) = true |- _ =>
               exfalso; unfold is_populated_dir in Hp;
               destruct (tracking w0); simpl in Hp, Ho; discriminate
           end.
  all: unfold tracked, create_tracking; simpl.
  all: repeat match goal with
              | H : negb (bool_decide (is_Some ?x)) = false |- _ =>
                  apply negb_false_iff, bool_decide_eq_true in H;
                  destruct H as [? H]; try rewrite H
              end.
  all: eexists; split; [reflexivity|]; set_solver.
Qed.

(** A call that creates the tracking file leaves the bundle tracked. *)
Lemma track_installed_made (b : string) (w w' : world) (t : list event) :
  track_installed E b w = Some (tt, w', t) ->
  In (EvCreate (TrackingFile b)) t -> tracked b w'.
Proof.
  unfold track_installed, track_installed_seed. intros H Hin.
  unbind; simpl in Hin; rewrite ?in_app_iff in Hin; simpl in Hin;
    try (exfalso; decompose [or] Hin; (discriminate || contradiction)).
  all: unfold tracked, create_tracking; simpl.
  all: repeat match goal with
              | H : _ || _ = false |- _ => apply orb_false_iff in H; destruct H
              | H : negb (bool_decide (is_Some ?x)) = false |- _ =>
                  apply negb_false_iff, bool_decide_eq_true in H;
                  destruct H as [? H]; try rewrite H
              end.
  all: eexists; split; [reflexivity|]; set_solver.
Qed.

End Tracking.

(** On a machine where the bundle is tracked, a call of [track_installed]
    for it changes nothing, whichever calls of the platform fail. *)
Lemma track_installed_settled (E : externs) (b : string) (w w' : world)
    (t : list event) :
  tracked b w -> track_installed E b w = Some (tt, w', t) -> w' = w.
Proof.
  intros Hb H. apply track_installed_cases in H.
  rewrite (tracked_populated b _ Hb) in H.
  destruct H as [(_ & [-> | ->])|(Hf & _)]; [reflexivity| |discriminate].
  now apply create_tracking_tracked.
Qed.

(** ** The loops of install_bundles over the bundles *)

Lemma tracking_event_kind (b : string) (e : event) :
  tracking_event b e -> In (event_kind e) [KMsg; KTrack].
Proof.
  unfold tracking_event. simpl.
  intros [<-|[<-|[<-|[<-|[<-|[<-|[]]]]]]]; simpl; auto.
Qed.

Section InstallLoops.

Context (E : externs).

Lemma track_installed_events (b : string) (w w' : world) (t : list event) :
  track_installed E b w = Some (tt, w', t) -> forall e, In e t -> tracking_event b e.
Proof.
  unfold track_installed, track_installed_seed, tracking_event. intros H e He.
  unbind; simpl in He;
    repeat (destruct He as [<-|He]; [simpl; tauto|]); contradiction.
Qed.

(** The first loop: every installed bundle of the list is reported, and
    nothing but the tracking directory changes. *)
Lemma report_installed_spec (mom : MoM) (bundles : list string) :
  forall n w n' w' t,
    report_installed E mom bundles n w = Some (n', w', t) ->
    same_but_tracking w w' /\
    (forall e, In e t -> report_event bundles w e) /\
    (forall b, In b bundles -> is_installed_bundle b w = true ->
               In (EvMsg Warn (MsgAlreadyInstalled b)) t).
Proof.
  induction bundles as [|bundle rest IH]; intros n w n' w' t H; simpl in H.
  - unbind. repeat split; auto; contradiction.
  - apply bind_inv in H. destruct H as (inst & ? & ? & ? & ? & ? & H1 & H & Hr).
    inversion Hr; subst; clear Hr. run_inv H1.
    apply bind_inv in H. destruct H as (n1 & wa & ta & ? & ? & ? & H2 & H & Hr).
    inversion Hr; subst; clear Hr.
    apply bind_inv in H. destruct H as ([] & wb & tb & ? & ? & ? & H3 & H & Hr).
    inversion Hr; subst; clear Hr.
    apply IH in H. destruct H as (I1 & I2 & I3).
    assert (Hexp : wb = wa /\ forall e, In e tb -> e = EvMsg Warn (MsgExperimental bundle)).
    { destruct (search_bundle_in_manifest mom bundle) as [file|];
        [destruct (is_experimental file)|]; unbind; split; auto;
        intros e He; simpl in He; intuition. }
    destruct Hexp as (-> & Hexp).
    assert (Hfirst : same_but_tracking w wa /\
              (forall e, In e ta -> is_installed_bundle bundle w = true /\
                 (e = EvMsg Warn (MsgAlreadyInstalled bundle) \/ tracking_event bundle e)) /\
              (is_installed_bundle bundle w = true ->
               In (EvMsg Warn (MsgAlreadyInstalled bundle)) ta)).
    { destruct (is_installed_bundle bundle w) eqn:Hinst.
      - apply bind_inv in H2. destruct H2 as ([] & ? & ? & ? & ? & ? & Hw & H2 & Hr).
        inversion Hr; subst; clear Hr. run_inv Hw.
        apply bind_inv in H2. destruct H2 as ([] & ? & ? & ? & ? & ? & Ht & H2 & Hr).
        inversion Hr; subst; clear Hr. run_inv H2.
        split; [eapply track_installed_same; eassumption|].
        split; [|intros _; now left].
        intros e [<-|He]; (split; [reflexivity|]); [now left|right].
        rewrite app_nil_r in He. eapply track_installed_events; eassumption.
      - run_inv H2. split; [apply same_but_tracking_refl|].
        split; [intros e []|discriminate]. }
    destruct Hfirst as (F1 & F2 & F3).
    split; [eapply same_but_tracking_trans; eassumption|].
    split.
    + intros e He. simpl in He. apply in_app_or in He. destruct He as [He|He].
      { exists bundle. split; [now left|]. left. now apply F2. }
      apply in_app_or in He. destruct He as [He|He].
      { exists bundle. split; [now left|]. right. now apply Hexp. }
      destruct (I2 e He) as (b & Hb & Hcase). exists b. split; [now right|].
      now rewrite <- (is_installed_same b w wa F1).
    + intros b [<-|Hb] Hi.
      * simpl. apply in_or_app. left. now apply F3.
      * simpl. apply in_or_app. right. apply in_or_app. right.
        apply I3; [assumption|]. now rewrite (is_installed_same b w wa F1).
Qed.

(** The loop after [out:]: the requested bundles that are installed by then
    are tracked, and nothing but the tracking directory changes. *)
Lemma count_installed_spec (bundles : list string) (iter : list manifest) :
  forall a b w r w' t,
    count_installed E bundles iter a b w = Some (r, w', t) ->
    same_but_tracking w w' /\ (forall e, In e t -> count_event bundles w e).
Proof.
  induction iter as [|m iter IH]; intros a b w r w' t H; simpl in H.
  - unbind. split; [apply same_but_tracking_refl|contradiction].
  - apply bind_inv in H. destruct H as (inst & ? & ? & ? & ? & ? & H1 & H & Hr).
    inversion Hr; subst; clear Hr. run_inv H1.
    destruct (is_installed_bundle (component m) w) eqn:Hinst; [|now apply IH in H].
    destruct (string_in_list (component m) bundles) eqn:Hreq; [|now apply IH in H].
    apply string_in_list_In in Hreq.
    apply bind_inv in H. destruct H as ([] & wa & ta & ? & ? & ? & Ht & H & Hr).
    inversion Hr; subst; clear Hr.
    apply IH in H. destruct H as (I1 & I2).
    pose proof (track_installed_same E _ _ _ _ Ht) as Hs.
    split; [eapply same_but_tracking_trans; eassumption|].
    intros e He. simpl in He. apply in_app_or in He. destruct He as [He|He].
    + exists (component m). repeat split; try assumption.
      eapply track_installed_events; eassumption.
    + destruct (I2 e He) as (bx & Hx & Hi & Hev). exists bx. repeat split; try assumption.
      now rewrite <- (is_installed_same bx w wa Hs).
Qed.

(** The code after [out:]: the status is kept, except that a run without
    error that was given an invalid name returns [SWUPD_INVALID_BUNDLE]. *)
Lemma install_out_spec (bundles : list string) (already : Z) (tib : list manifest)
    (invalid : bool) (code rc : swupd_code) (w w' : world) (t : list event) :
  install_out E bundles already tib invalid code w = Some (rc, w', t) ->
  rc = (if invalid && negb (code_true code) then SWUPD_INVALID_BUNDLE else code) /\
  same_but_tracking w w' /\
  (forall e, In e t -> count_event bundles w e \/ exists m, e = EvMsg Print m).
Proof.
  unfold install_out. intros H.
  apply bind_inv in H. destruct H as ([bi di] & wa & ta & rc' & wb & tb & Hc & H & Hr).
  injection Hr as -> -> ->.
  apply count_installed_spec in Hc. destruct Hc as (C1 & C2).
  assert (Hrest : wb = wa /\
            (forall e, In e tb -> exists m, e = EvMsg Print m) /\
            rc' = (if invalid && negb (code_true code) then SWUPD_INVALID_BUNDLE else code)).
  { clear C1 C2.
    unbind; repeat split; auto;
      intros e He; simpl in He;
      repeat (destruct He as [<-|He]; [eexists; reflexivity|]); contradiction. }
  destruct Hrest as (-> & Hp & ->).
  split; [reflexivity|]. split; [assumption|].
  intros e He. apply in_app_or in He. destruct He as [He|He]; [left; auto|right; auto].
Qed.

End InstallLoops.

(** ** The phases of install_bundles over the plan *)

Section InstallPhases.

Context (G : options) (E : externs).

(** The check of the staged copies: it verifies and removes staged copies
    and nothing else, and it fails only when a copy cannot be removed. *)
Lemma verify_staged_spec (l : list file) :
  forall w code w' t,
    verify_staged E l w = Some (code, w', t) ->
    only [KMsg; KVerify; KUnstage] t /\
    (code = SWUPD_OK \/ code = SWUPD_COULDNT_REMOVE_FILE).
Proof.
  induction l as [|f l IH]; intros w code w' t H; simpl in H.
  - unbind. split; [apply only_nil|now left].
  - unbind;
      match goal with
      | H : verify_staged _ _ _ = Some _ |- _ =>
          apply IH in H; destruct H as (H & ?); split; [|assumption]; only_tac
      | |- _ => split; [only_tac|now right]
      end.
Qed.

(** The first loop over the plan: it only stages; when it comes to its end
    it has staged every record that is not skipped. *)
Lemma stage_files_spec (mom : MoM) (l : list file) :
  forall w code files w' t,
    stage_files E mom l w = Some ((code, files), w', t) ->
    only [KStage] t /\
    (code_true code = false -> t = staging_pass E l).
Proof.
  unfold staging_pass.
  induction l as [|f l IH]; intros w code files w' t H; simpl in H.
  - unbind. split; [apply only_nil|reflexivity].
  - destruct (skipped E f) eqn:Hskip; simpl; rewrite Hskip; simpl.
    + unbind. match goal with H : stage_files _ _ _ _ = Some _ |- _ => apply IH in H; destruct H as (H1 & H2) end.
      split; [only_tac|]. intros Hc. rewrite app_nil_r. auto.
    + unbind.
      * split; [only_tac|]. intros Hc. congruence.
      * match goal with H : stage_files _ _ _ _ = Some _ |- _ => apply IH in H; destruct H as (H1 & H2) end.
        split; [only_tac|]. intros Hc. rewrite app_nil_r. simpl. f_equal. auto.
Qed.

(** The second loop over the plan only renames. *)
Lemma rename_files_spec (mom : MoM) (l : list file) :
  forall w w' t, rename_files E mom l w = Some (tt, w', t) -> only [KRename] t.
Proof.
  induction l as [|f l IH]; intros w w' t H; simpl in H.
  - unbind. apply only_nil.
  - destruct (skipped E f); [eauto|].
    unbind. match goal with H : rename_files _ _ _ _ = Some _ |- _ => apply IH in H end.
    only_tac.
Qed.

End InstallPhases.

(** ** The steps of install_bundles *)

Section InstallSteps.

Context (G : options) (E : externs).

(** Steps 4 to 7: the downloads, then the check of the staged copies, then
    the first loop, then the second loop, then [sync] and the scripts.  The
    second loop starts only when the first one came to its end. *)
Lemma install_files_spec (mom : MoM) (subs : list sub) (l : list file)
    (w w' : world) (code : swupd_code) (t : list event) :
  install_files E mom subs l w = Some (code, w', t) ->
  exists td tv ts tr te,
    t = td ++ tv ++ ts ++ tr ++ te /\
    only [KMsg; KRmDownload; KDownload] td /\
    In EvRmDownload td /\ In (EvDownloadFullfiles l) td /\
    only [KMsg; KVerify; KUnstage] tv /\
    only [KStage] ts /\ only [KRename] tr /\
    ((code_true code = true /\ tr = [] /\ te = []) \/
     (code = SWUPD_OK /\ ts = staging_pass E l /\ te = [EvSync; EvScripts])).
Proof.
  unfold install_files. intros H.
  apply bind_inv in H. destruct H as ([] & w1 & t1 & r1 & w1' & t1' & H1 & H & Hr).
  injection Hr as -> -> ->. run_inv H1.
  apply bind_inv in H. destruct H as ([] & w2 & t2 & r2 & w2' & t2' & H2 & H & Hr).
  injection Hr as -> -> ->.
  assert (Hp : only [KMsg; KRmDownload; KDownload] t2).
  { destruct (list_longer_than l 10); run_inv H2; only_tac. }
  clear H2.
  apply bind_inv in H. destruct H as (r & w3 & t3 & r3 & w3' & t3' & H3 & H & Hr).
  injection Hr as -> -> ->. run_inv H3.
  destruct (negb (r =? 0)) eqn:Hr0.
  - unbind.
    exists ([EvRmDownload] ++ t2 ++ [EvDownloadFullfiles l] ++ [EvMsg Error MsgDownloadFailed]),
      [], [], [], [].
    split; [trace_eq|].
    split; [only_tac|]. split; [in_tac|]. split; [in_tac|].
    repeat (split; [apply only_nil|]).
    left. simpl. rewrite negb_true_iff, Z.eqb_neq in Hr0 |- *. split; [lia|auto].
  - apply bind_inv in H. destruct H as ([] & w4 & t4 & r4 & w4' & t4' & H4 & H & Hr).
    injection Hr as -> -> ->. run_inv H4.
    apply bind_inv in H. destruct H as (vc & w5 & t5 & r5 & w5' & t5' & H5 & H & Hr).
    injection Hr as -> -> ->.
    apply verify_staged_spec in H5. destruct H5 as (V1 & V2).
    exists ([EvRmDownload] ++ t2 ++ [EvDownloadFullfiles l] ++ [EvMsg Info MsgInstalling]), t5.
    assert (Hd : only [KMsg; KRmDownload; KDownload]
                   ([EvRmDownload] ++ t2 ++ [EvDownloadFullfiles l] ++
                    [EvMsg Info MsgInstalling])) by only_tac.
    assert (Hi1 : In EvRmDownload ([EvRmDownload] ++ t2 ++ [EvDownloadFullfiles l] ++
                    [EvMsg Info MsgInstalling])) by in_tac.
    assert (Hi2 : In (EvDownloadFullfiles l)
                    ([EvRmDownload] ++ t2 ++ [EvDownloadFullfiles l] ++
                     [EvMsg Info MsgInstalling])).
    { in_tac. }
    destruct (code_true vc) eqn:Hvc.
    + run_inv H. exists [], [], [].
      split; [trace_eq|].
      repeat (split; [assumption || apply only_nil|]). left. auto.
    + apply bind_inv in H. destruct H as ([sc files] & w6 & t6 & r6 & w6' & t6' & H6 & H & Hr).
      injection Hr as -> -> ->.
      apply stage_files_spec in H6. destruct H6 as (S1 & S2).
      destruct (code_true sc) eqn:Hsc.
      * run_inv H. exists t6, [], [].
        split; [trace_eq|].
        repeat (split; [assumption || apply only_nil|]). left. auto.
      * apply bind_inv in H. destruct H as ([] & w7 & t7 & r7 & w7' & t7' & H7 & H & Hr).
        injection Hr as -> -> ->.
        apply rename_files_spec in H7. unbind.
        exists t6, t7, [EvSync; EvScripts].
        split; [trace_eq|].
        repeat (split; [assumption|]). right. auto.
Qed.

(** Step 3: the check passes exactly when it is switched off or the space
    is not short; it does not touch the machine, and when it fails it says
    so. *)
Lemma check_disk_space_spec (tib : list manifest) (w w' : world) (enough : bool)
    (t : list event) :
  check_disk_space G E tib w = Some (enough, w', t) ->
  w' = w /\ only [KMsg] t /\
  enough = skip_diskspace_check G ||
           negb (disk_space_short (get_manifest_list_contentsize tib)
                   (get_available_space E w)) /\
  (In (EvMsg Info MsgDiskNote) t <-> enough = false).
Proof.
  unfold check_disk_space. intros H.
  destruct (skip_diskspace_check G); simpl in H |- *.
  - run_inv H. repeat split; auto using only_nil; try contradiction; discriminate.
  - apply bind_inv in H. destruct H as (free & w1 & t1 & r1 & w1' & t1' & H1 & H & Hr).
    injection Hr as -> -> ->. run_inv H1.
    destruct (disk_space_short _ _); simpl.
    + unbind; (split; [reflexivity|]); (split; [only_tac|]); (split; [reflexivity|]);
        (split; [intros _; reflexivity|intros _; simpl; tauto]).
    + run_inv H. repeat split; auto using only_nil; try contradiction; discriminate.
Qed.

End InstallSteps.

Section InstallRun.

Context (G : options) (E : externs).

(** The way from the test of the [add_sub_NEW] bit to the label [out]. *)
Lemma install_steps_spec (r : Z) (subs : list sub) (mom : MoM) (w w' : world)
    (code : swupd_code) (tib : list manifest) (invalid : bool) (subs' : list sub)
    (t : list event) :
  install_steps G E r subs mom w = Some ((code, tib, invalid, subs'), w', t) ->
  (has_bit r add_sub_NEW = false /\ w' = w /\ t = [] /\ tib = [] /\ invalid = false /\
   subs' = subs /\
   code = (if has_bit r add_sub_ERR then SWUPD_COULDNT_LOAD_MANIFEST
           else if has_bit r add_sub_BADNAME then SWUPD_INVALID_BUNDLE
           else SWUPD_OK)) \/
  (has_bit r add_sub_NEW = true /\ invalid = has_bit r add_sub_BADNAME /\
   subs' = set_subscription_versions mom subs /\
   tib = recurse_manifest E mom subs' /\
   ((w' = w /\ code = SWUPD_RECURSE_MANIFEST /\ exists m, t = [EvMsg Error m]) \/
    (exists enough tc,
       check_disk_space G E tib w = Some (enough, w, tc) /\
       ((enough = false /\ w' = w /\ t = tc /\ code = SWUPD_DISK_SPACE_ERROR) \/
        (enough = true /\
         exists mom' l tf,
           install_files E mom' subs' l w = Some (code, w', tf) /\ t = tc ++ tf))))).
Proof.
  unfold install_steps. intros H.
  destruct (has_bit r add_sub_NEW) eqn:Hnew; simpl in H.
  - right. split; [reflexivity|].
    destruct (recurse_manifest E mom (set_subscription_versions mom subs)) as [|m0 l0] eqn:Htib.
    { unbind. rewrite Htib. repeat split. left. repeat split. eexists; reflexivity. }
    apply bind_inv in H. destruct H as (cur & w1 & t1 & r1 & w1' & t1' & H1 & H & Hr).
    injection Hr as <- -> ->. run_inv H1.
    destruct (recurse_manifest E mom (set_subscription_versions mom (read_subscriptions E w)))
      as [|m1 l1] eqn:Hinst.
    { unbind. rewrite Htib. repeat split. left. repeat split. eexists; reflexivity. }
    apply bind_inv in H. destruct H as (enough & w2 & t2 & r2 & w2' & t2' & H2 & H & Hr).
    injection Hr as <- -> ->.
    pose proof (check_disk_space_spec G E _ _ _ _ _ H2) as (-> & _).
    destruct enough; simpl in H.
    + apply bind_inv in H. destruct H as (c & w3 & t3 & r3 & w3' & t3' & H3 & H & Hr).
      injection Hr as <- -> ->. run_inv H.
      rewrite Htib. repeat split. right. exists true, t2. split; [assumption|].
      right. split; [reflexivity|]. do 3 eexists. split; [eassumption|]. trace_eq.
    + run_inv H. rewrite Htib. repeat split. right. exists false, t2.
      split; [assumption|]. left. repeat split. trace_eq.
  - left. unbind. repeat split.
Qed.

(** The laws of the computations that the proofs below use. *)
Lemma bind_ext {A B : Type} (m : M A) (k k' : A -> M B) (w : world) :
  (forall a w1, k a w1 = k' a w1) -> bind m k w = bind m k' w.
Proof.
  intros H. unfold bind. destruct (m w) as [[[a w1] t1]|]; [|reflexivity].
  now rewrite H.
Qed.

Lemma bind_assoc {A B C : Type} (m : M A) (k : A -> M B) (h : B -> M C) (w : world) :
  bind (bind m k) h w = bind m (fun a => bind (k a) h) w.
Proof.
  unfold bind. destruct (m w) as [[[a w1] t1]|]; [|reflexivity].
  destruct (k a w1) as [[[b w2] t2]|]; [|reflexivity].
  destruct (h b w2) as [[[c w3] t3]|]; [|reflexivity].
  now rewrite app_assoc.
Qed.

Lemma bind_ret_l {A B : Type} (a : A) (k : A -> M B) (w : world) :
  bind (ret a) k w = k a w.
Proof.
  unfold bind, ret. destruct (k a w) as [[[b w2] t2]|]; reflexivity.
Qed.

(** [install_bundles] is its steps followed by the code after [out]. *)
Lemma install_bundles_steps (fuel : nat) (bundles : list string) (subs : list sub)
    (mom : MoM) (w : world) :
  install_bundles G E fuel bundles subs mom w =
  (let* _ := info MsgLoading in
   let* '(r, subs) := call_add_subscriptions G E fuel mom bundles subs in
   let* already_installed := report_installed E mom bundles 0 in
   let* '(code, to_install_bundles, invalid_bundle_provided, subs) :=
     install_steps G E r subs mom in
   let* code := install_out E bundles already_installed to_install_bundles
                  invalid_bundle_provided code in
   ret (code, subs)) w.
Proof.
  unfold install_bundles.
  apply bind_ext. intros _ w1. apply bind_ext. intros [r subs1] w2.
  apply bind_ext. intros n w3. unfold install_steps.
  destruct (negb (has_bit r add_sub_NEW)).
  { rewrite bind_ret_l; reflexivity. }
  cbv zeta.
  destruct (recurse_manifest E mom (set_subscription_versions mom subs1)) as [|m0 l0].
  { rewrite bind_assoc. apply bind_ext. intros a wa. rewrite bind_ret_l; reflexivity. }
  rewrite bind_assoc. apply bind_ext. intros cur w4.
  destruct (recurse_manifest E mom (set_subscription_versions mom cur)) as [|m1 l1].
  { rewrite bind_assoc. apply bind_ext. intros a wa. rewrite bind_ret_l; reflexivity. }
  rewrite bind_assoc. apply bind_ext. intros enough w5.
  destruct (negb enough).
  { rewrite bind_ret_l; reflexivity. }
  rewrite bind_assoc. apply bind_ext. intros code w6. rewrite bind_ret_l; reflexivity.
Qed.

(** A run of [install_bundles] is the call of [add_subscriptions], the loop
    over the requested bundles, the steps and the code after [out]. *)
Lemma install_bundles_run (fuel : nat) (bundles : list string) (subs : list sub)
    (mom : MoM) (w w' : world) (rc : swupd_code) (subs' : list sub) (t : list event) :
  install_bundles G E fuel bundles subs mom w = Some ((rc, subs'), w', t) ->
  exists r subs1 ta n w1 tr code tib invalid w2 ts tout,
    add_subscriptions G E fuel w mom false bundles subs 0 = Some (r, subs1, ta) /\
    report_installed E mom bundles 0 w = Some (n, w1, tr) /\
    install_steps G E r subs1 mom w1 = Some ((code, tib, invalid, subs'), w2, ts) /\
    install_out E bundles n tib invalid code w2 = Some (rc, w', tout) /\
    t = EvMsg Info MsgLoading :: ta ++ tr ++ ts ++ tout.
Proof.
  rewrite install_bundles_steps. intros H.
  apply bind_inv in H. destruct H as ([] & w0 & t0 & r0 & w0' & t0' & H0 & H & Hr).
  injection Hr as <- -> ->. run_inv H0.
  apply bind_inv in H. destruct H as ([r subs1] & wa & ta & ra & wa' & ta' & Ha & H & Hr).
  injection Hr as <- -> ->.
  unfold call_add_subscriptions in Ha.
  destruct (add_subscriptions G E fuel w mom false bundles subs 0)
    as [[[r' s'] t']|] eqn:Hadd; [|discriminate].
  injection Ha as -> -> -> ->.
  apply bind_inv in H. destruct H as (n & w1 & tr & rb & wb' & tb' & Hb & H & Hr).
  injection Hr as <- -> ->.
  apply bind_inv in H.
  destruct H as ([[[code tib] invalid] subs2] & w2 & ts & rc' & wc' & tc' & Hc & H & Hr).
  injection Hr as <- -> ->.
  apply bind_inv in H. destruct H as (rc2 & w3 & tout & rd & wd' & td' & Hd & H & Hr).
  injection Hr as <- -> ->. run_inv H.
  do 12 eexists. split; [reflexivity|]. split; [exact Hb|].
  split; [exact Hc|]. split; [exact Hd|]. trace_eq.
Qed.

End InstallRun.

(** ** install_bundles comes back *)

Section InstallReturns.

Context (G : options) (E : externs).

Lemma returns_report_installed (mom : MoM) (bundles : list string) :
  forall n, returns (report_installed E mom bundles n).
Proof.
  induction bundles as [|b bs IH]; intros n; simpl.
  - apply returns_ret.
  - returns_tac; try apply returns_track_installed; apply IH.
Qed.

Lemma returns_count_installed (bundles : list string) (iter : list manifest) :
  forall a b, returns (count_installed E bundles iter a b).
Proof.
  induction iter as [|m iter IH]; intros a b; simpl.
  - apply returns_ret.
  - returns_tac; try apply returns_track_installed; apply IH.
Qed.

Lemma returns_install_out (bundles : list string) (n : Z) (tib : list manifest)
    (invalid : bool) (code : swupd_code) :
  returns (install_out E bundles n tib invalid code).
Proof.
  unfold install_out. apply returns_bind; [apply returns_count_installed|].
  intros [bi di]. returns_tac.
Qed.

Lemma returns_verify_staged (l : list file) : returns (verify_staged E l).
Proof.
  induction l as [|f l IH]; simpl; returns_tac.
Qed.

Lemma returns_stage_files (mom : MoM) (l : list file) : returns (stage_files E mom l).
Proof.
  induction l as [|f l IH]; simpl; returns_tac.
Qed.

Lemma returns_rename_files (mom : MoM) (l : list file) : returns (rename_files E mom l).
Proof.
  induction l as [|f l IH]; simpl; returns_tac.
Qed.

Lemma returns_install_files (mom : MoM) (subs : list sub) (l : list file) :
  returns (install_files E mom subs l).
Proof.
  unfold install_files.
  returns_tac; try apply returns_verify_staged; try apply returns_stage_files;
    try apply returns_rename_files.
Qed.

Lemma returns_install_steps (r : Z) (subs : list sub) (mom : MoM) :
  returns (install_steps G E r subs mom).
Proof.
  unfold install_steps.
  destruct (negb (has_bit r add_sub_NEW)); [returns_tac|]. cbv zeta.
  destruct (recurse_manifest E mom (set_subscription_versions mom subs)); [returns_tac|].
  apply returns_bind; [returns_tac|]. intros cur.
  destruct (recurse_manifest E mom (set_subscription_versions mom cur)); [returns_tac|].
  apply returns_bind; [unfold check_disk_space; returns_tac|]. intros enough.
  destruct (negb enough); [returns_tac|].
  apply returns_bind; [apply returns_install_files|]. intros code. returns_tac.
Qed.

(** [install_bundles] comes back when [add_subscriptions] has the budget
    for its recursion. *)
Lemma install_bundles_returns (fuel : nat) (bundles : list string) (subs : list sub)
    (mom : MoM) (w : world) :
  (add_subscriptions_budget mom subs <= fuel)%nat ->
  exists rc subs' w' t,
    install_bundles G E fuel bundles subs mom w = Some ((rc, subs'), w', t).
Proof.
  intros Hfuel. rewrite install_bundles_steps.
  destruct (call_add_subscriptions_returns G E w mom fuel bundles subs Hfuel)
    as (r & subs1 & ta & Ha & _).
  destruct (returns_report_installed mom bundles 0 w) as ([[n w1] tr] & Hb).
  destruct (returns_install_steps r subs1 mom w1)
    as ([[[[[code tib] invalid] subs2] w2] ts] & Hc).
  destruct (returns_install_out bundles n tib invalid code w2) as ([[rc w3] tout] & Hd).
  exists rc, subs2, w3.
  unfold bind at 1. unfold info, emit at 1.
  unfold bind at 1. rewrite Ha.
  unfold bind at 1. rewrite Hb.
  unfold bind at 1. rewrite Hc.
  unfold bind at 1. rewrite Hd. unfold ret. eexists; reflexivity.
Qed.

End InstallReturns.

(** ** A proof rule for add_subscriptions

    [I s0 ret s t] relates the list a call starts from to the bit mask, the
    list and the messages it has reached.  A relation that holds at the start
    of a call and is kept by the three ways a bundle of the list changes
    them holds for the result of every call. *)

Section AddSubscriptionsRule.

Context (G : options) (E : externs) (w : world) (mom : MoM) (find_all : bool).

Variable I : list sub -> Z -> list sub -> list event -> Prop.

Hypothesis I_init : forall s, I s 0 s [].

Hypothesis I_invalid : forall s0 ret s t b,
  I s0 ret s t -> search_bundle_in_manifest mom b = None ->
  I s0 (Z.lor ret add_sub_BADNAME) s (t ++ [EvMsg Warn (MsgInvalid b)]).

Hypothesis I_failed : forall s0 ret s t b f,
  I s0 ret s t -> search_bundle_in_manifest mom b = Some f ->
  negb find_all && is_installed_bundle b w = false ->
  load_manifest E f = None ->
  I s0 (Z.lor ret add_sub_ERR) s
    (t ++ [EvMsg Error (MsgManifestFailed b (last_change f))]).

Hypothesis I_loaded : forall s0 ret s t b f m r1 s1 t1 r2 s2 t2,
  I s0 ret s t -> search_bundle_in_manifest mom b = Some f ->
  negb find_all && is_installed_bundle b w = false ->
  load_manifest E f = Some m ->
  I (if component_subscribed s b then s else create_and_append_subscription s b)
    r1 s1 t1 ->
  I s1 r2 s2 t2 ->
  I s0 (Z.lor (Z.lor (if component_subscribed s b then ret
                      else Z.lor ret add_sub_NEW) r1) r2)
    s2 (t ++ t1 ++ t2).

Lemma subscribe_includes_rule again names enabled subs r s' t :
  (forall names subs r s' t, again names subs = Some (r, s', t) -> I subs r s' t) ->
  subscribe_includes again names enabled subs = Some (r, s', t) ->
  I subs r s' t.
Proof.
  intros Hagain. unfold subscribe_includes.
  destruct names; [intros [= <- <- <-]; apply I_init|].
  destruct enabled; [apply Hagain|intros [= <- <- <-]; apply I_init].
Qed.

Lemma subscribe_each_rule again recursion s0 :
  (forall names subs r s' t, again names subs = Some (r, s', t) -> I subs r s' t) ->
  forall iter ret s tr r' s' tr',
    I s0 ret s tr ->
    subscribe_each G E again w mom find_all recursion iter ret s tr = Some (r', s', tr') ->
    I s0 r' s' tr'.
Proof.
  intros Hagain. induction iter as [|b iter IH]; intros ret s tr r' s' tr' HI H;
    simpl in H.
  - injection H as <- <- <-. exact HI.
  - destruct (search_bundle_in_manifest mom b) as [f|] eqn:Hsearch;
      [|eapply IH; [|exact H]; now apply I_invalid].
    destruct (negb find_all && is_installed_bundle b w) eqn:Hinst; [eapply IH; eauto|].
    destruct (load_manifest E f) as [m|] eqn:Hload;
      [|injection H as <- <- <-; now apply (I_failed s0 ret s tr b f)].
    destruct (component_subscribed s b && (0 <? recursion)); [eapply IH; eauto|].
    destruct (subscribe_includes again (includes m) true _) as [[[r1 s1] t1]|] eqn:H1;
      [|discriminate].
    destruct (subscribe_includes again (optional m) _ s1) as [[[r2 s2] t2]|] eqn:H2;
      [|discriminate].
    apply subscribe_includes_rule in H1; [|exact Hagain].
    apply subscribe_includes_rule in H2; [|exact Hagain].
    eapply IH; [|exact H].
    now apply (I_loaded s0 ret s tr b f m r1 s1 t1 r2 s2 t2).
Qed.

Lemma add_subscriptions_rule (fuel : nat) :
  forall bundles subs recursion r s' t,
    add_subscriptions G E fuel w mom find_all bundles subs recursion = Some (r, s', t) ->
    I subs r s' t.
Proof.
  induction fuel as [|fuel IH]; intros bundles subs recursion r s' t H; [discriminate|].
  simpl in H. eapply subscribe_each_rule; [|apply I_init|exact H].
  intros names subs0 r0 s0' t0. apply IH.
Qed.

End AddSubscriptionsRule.

(** ** What the bit mask of add_subscriptions says *)

Lemma lor_below_8 (a b : Z) : 0 <= a < 8 -> 0 <= b < 8 -> 0 <= Z.lor a b < 8.
Proof.
  intros Ha Hb. split; [apply Z.lor_nonneg; lia|].
  destruct (Z.eq_dec (Z.lor a b) 0) as [->|Hz]; [lia|].
  assert (0 < Z.lor a b) by (assert (0 <= Z.lor a b) by (apply Z.lor_nonneg; lia); lia).
  apply (Z.log2_lt_pow2 _ 3); [assumption|].
  rewrite Z.log2_lor by lia.
  assert (La : Z.log2 a < 3).
  { destruct (Z.eq_dec a 0) as [->|]; [simpl; lia|apply Z.log2_lt_pow2; simpl; lia]. }
  assert (Lb : Z.log2 b < 3).
  { destruct (Z.eq_dec b 0) as [->|]; [simpl; lia|apply Z.log2_lt_pow2; simpl; lia]. }
  lia.
Qed.

Lemma app_same_l {A : Type} (l new : list A) : l ++ new = l <-> new = [].
Proof.
  split; [|intros ->; apply app_nil_r].
  intros H. apply (app_inv_head l). now rewrite app_nil_r.
Qed.

Section AddSubscriptionsMask.

Context (G : options) (E : externs) (w : world) (mom : MoM) (find_all : bool).

(** The relation behind [add_subscriptions_mask_rel]. *)
Lemma add_subscriptions_mask_rel (fuel : nat) bundles subs recursion r s' t :
  add_subscriptions G E fuel w mom find_all bundles subs recursion = Some (r, s', t) ->
  0 <= r < 8 /\
  (forall e, In e t -> subscription_event e) /\
  (has_bit r add_sub_ERR = true <-> exists b v, In (EvMsg Error (MsgManifestFailed b v)) t) /\
  (has_bit r add_sub_BADNAME = true <-> exists b, In (EvMsg Warn (MsgInvalid b)) t) /\
  exists new, s' = subs ++ new /\ (has_bit r add_sub_NEW = true <-> new <> []).
Proof.
  apply (add_subscriptions_rule G E w mom find_all
    (fun s0 r s t =>
       0 <= r < 8 /\
       (forall e, In e t -> subscription_event e) /\
       (has_bit r add_sub_ERR = true <->
        exists b v, In (EvMsg Error (MsgManifestFailed b v)) t) /\
       (has_bit r add_sub_BADNAME = true <-> exists b, In (EvMsg Warn (MsgInvalid b)) t) /\
       exists new, s = s0 ++ new /\ (has_bit r add_sub_NEW = true <-> new <> []))).
  - intros s. split; [lia|]. split; [intros e []|].
    split; [split; [discriminate|intros (b & v & [])]|].
    split; [split; [discriminate|intros (b & [])]|].
    exists []. rewrite app_nil_r. split; [reflexivity|]. split; [discriminate|congruence].
  - intros s0 ret s t0 b (Hr & Hev & Herr & Hbad & new & -> & Hnew) Hs.
    split; [apply lor_below_8; [assumption|unfold add_sub_BADNAME; lia]|].
    split.
    { intros e He. apply in_app_or in He. destruct He as [He|[<-|[]]]; [auto|].
      left. eexists; reflexivity. }
    rewrite !has_bit_lor. change (has_bit add_sub_BADNAME add_sub_ERR) with false.
    change (has_bit add_sub_BADNAME add_sub_NEW) with false.
    change (has_bit add_sub_BADNAME add_sub_BADNAME) with true.
    rewrite !orb_false_r, orb_true_r.
    split.
    { rewrite Herr. split; intros (b0 & v & Hin); exists b0, v.
      - apply in_or_app. now left.
      - apply in_app_or in Hin. destruct Hin as [Hin|[Hin|[]]]; [assumption|discriminate]. }
    split; [split; [intros _; exists b; apply in_or_app; right; now left|reflexivity]|].
    exists new. split; [reflexivity|exact Hnew].
  - intros s0 ret s t0 b f (Hr & Hev & Herr & Hbad & new & -> & Hnew) Hs Hi Hl.
    split; [apply lor_below_8; [assumption|unfold add_sub_ERR; lia]|].
    split.
    { intros e He. apply in_app_or in He. destruct He as [He|[<-|[]]]; [auto|].
      right. eexists _, _; reflexivity. }
    rewrite !has_bit_lor. change (has_bit add_sub_ERR add_sub_ERR) with true.
    change (has_bit add_sub_ERR add_sub_NEW) with false.
    change (has_bit add_sub_ERR add_sub_BADNAME) with false.
    rewrite !orb_false_r, orb_true_r.
    split; [split; [intros _; eexists _, _; apply in_or_app; right; now left|reflexivity]|].
    split.
    { rewrite Hbad. split; intros (b0 & Hin); exists b0.
      - apply in_or_app. now left.
      - apply in_app_or in Hin. destruct Hin as [Hin|[Hin|[]]]; [assumption|discriminate]. }
    exists new. split; [reflexivity|exact Hnew].
  - intros s0 ret s t0 b f m r1 s1 t1 r2 s2 t2
      (Hr & Hev & Herr & Hbad & new & -> & Hnew) Hs Hi Hl
      (Hr1 & Hev1 & Herr1 & Hbad1 & new1 & -> & Hnew1)
      (Hr2 & Hev2 & Herr2 & Hbad2 & new2 & -> & Hnew2).
    set (sb := component_subscribed (s0 ++ new) b) in *.
    assert (Hm : forall k, has_bit add_sub_NEW k = false ->
      has_bit (Z.lor (Z.lor (if sb then ret else Z.lor ret add_sub_NEW) r1) r2) k
      = has_bit ret k || has_bit r1 k || has_bit r2 k).
    { intros k Hk. rewrite !has_bit_lor. destruct sb; [reflexivity|].
      now rewrite has_bit_lor, Hk, orb_false_r. }
    split.
    { apply lor_below_8; [apply lor_below_8|]; try assumption.
      destruct sb; [assumption|apply lor_below_8; [assumption|unfold add_sub_NEW; lia]]. }
    split.
    { intros e He. apply in_app_or in He. destruct He as [He|He]; [auto|].
      apply in_app_or in He. destruct He; auto. }
    split.
    { rewrite Hm by reflexivity. rewrite !orb_true_iff, Herr, Herr1, Herr2.
      split.
      - intros [[(b0 & v & Hin)|(b0 & v & Hin)]|(b0 & v & Hin)]; exists b0, v;
          rewrite !in_app_iff; tauto.
      - intros (b0 & v & Hin). rewrite !in_app_iff in Hin.
        destruct Hin as [Hin|[Hin|Hin]]; [left; left|left; right|right]; eauto. }
    split.
    { rewrite Hm by reflexivity. rewrite !orb_true_iff, Hbad, Hbad1, Hbad2.
      split.
      - intros [[(b0 & Hin)|(b0 & Hin)]|(b0 & Hin)]; exists b0;
          rewrite !in_app_iff; tauto.
      - intros (b0 & Hin). rewrite !in_app_iff in Hin.
        destruct Hin as [Hin|[Hin|Hin]]; [left; left|left; right|right]; eauto. }
    exists (new ++ (if sb then [] else [mk_sub b 0]) ++ new1 ++ new2).
    split.
    { unfold create_and_append_subscription. destruct sb; simpl;
        now rewrite <- ?app_assoc. }
    rewrite !has_bit_lor, !orb_true_iff, Hnew1, Hnew2.
    destruct sb.
    + rewrite Hnew. simpl. split.
      * intros [[H|H]|H] Hnil; apply app_eq_nil in Hnil; destruct Hnil as [? Hnil];
          try apply app_eq_nil in Hnil; intuition.
      * intros H. destruct new; [|left; left; discriminate].
        destruct new1; [|left; right; discriminate].
        destruct new2; [contradiction|right; discriminate].
    + split; [|intros _; left; left; rewrite has_bit_lor; apply orb_true_r].
      intros _ Hnil. apply app_eq_nil in Hnil. destruct Hnil as [_ Hnil]. discriminate.
Qed.

(** The list keeps one subscription per component. *)
Lemma add_subscriptions_NoDup (fuel : nat) bundles subs recursion r s' t :
  add_subscriptions G E fuel w mom find_all bundles subs recursion = Some (r, s', t) ->
  NoDup (components subs) -> NoDup (components s').
Proof.
  apply (add_subscriptions_rule G E w mom find_all
    (fun s0 r s t => NoDup (components s0) -> NoDup (components s))); auto.
  intros s0 ret s t0 b f m r1 s1 t1 r2 s2 t2 H0 Hs Hi Hl H1 H2 Hnd.
  apply H2, H1. specialize (H0 Hnd).
  destruct (component_subscribed s b) eqn:Hsub; [assumption|].
  unfold create_and_append_subscription, components. rewrite map_app. simpl.
  apply NoDup_app. split; [exact H0|]. split; [|apply NoDup_singleton].
  intros x Hx Hx'. apply list_elem_of_In in Hx, Hx'. destruct Hx' as [<-|[]].
  assert (component_subscribed s b = true); [|congruence].
  apply component_subscribed_In. apply in_map_iff in Hx.
  destruct Hx as (s3 & ? & ?). eauto.
Qed.

End AddSubscriptionsMask.

(** ** The order of the events of install_bundles *)

(** When no entry of [t1] is a [P] and no entry of [t2] is a [Q], no [Q]
    comes after a [P] in [t1 ++ t2]. *)
Lemma none_after (P Q : event -> Prop) (t1 t2 : list event) :
  (forall e, In e t1 -> ~ P e) -> (forall e, In e t2 -> ~ Q e) ->
  forall pre e post, t1 ++ t2 = pre ++ e :: post -> P e ->
  forall e', In e' post -> ~ Q e'.
Proof.
  induction t1 as [|a t1 IH]; intros H1 H2 pre e post Heq HP e' He'; simpl in Heq.
  - apply H2. rewrite Heq. apply in_or_app. right. now right.
  - destruct pre as [|b pre]; simpl in Heq; injection Heq as -> Heq.
    + exfalso. apply (H1 e); [now left|assumption].
    + eapply IH; try eassumption. intros x Hx. apply H1. now right.
Qed.

Lemma report_event_kind (bundles : list string) (w : world) (e : event) :
  report_event bundles w e -> In (event_kind e) [KMsg; KTrack].
Proof.
  intros (b & _ & [(_ & [->|H])| ->]); [simpl; auto|now apply tracking_event_kind in H|
                                        simpl; auto].
Qed.

Lemma count_event_kind (bundles : list string) (w : world) (e : event) :
  count_event bundles w e -> In (event_kind e) [KMsg; KTrack].
Proof. intros (b & _ & _ & H). now apply tracking_event_kind in H. Qed.

Lemma only_of (ks : list kind) (t : list event) :
  (forall e, In e t -> In (event_kind e) ks) -> only ks t.
Proof. intros H. unfold only. now apply List.Forall_forall. Qed.

Section InstallOrder.

Context (G : options) (E : externs).

(** The events of the steps: nothing is renamed unless the first loop came
    to its end, and a run of the steps that ends well without [sync] did
    nothing. *)
Lemma install_steps_shape (r : Z) (subs : list sub) (mom : MoM) (w w' : world)
    (code : swupd_code) (tib : list manifest) (invalid : bool) (subs' : list sub)
    (t : list event) :
  install_steps G E r subs mom w = Some ((code, tib, invalid, subs'), w', t) ->
  exists pre ts tr post,
    t = pre ++ ts ++ tr ++ post /\
    only [KMsg; KRmDownload; KDownload; KVerify; KUnstage] pre /\
    only [KStage] ts /\ only [KRename] tr /\
    ((tr = [] /\ post = [] /\
      (code_true code = false ->
       t = [] /\ w' = w /\ has_bit r add_sub_NEW = false /\ subs' = subs /\ tib = [])) \/
     (code = SWUPD_OK /\ has_bit r add_sub_NEW = true /\
      exists l, In (EvDownloadFullfiles l) pre /\ ts = staging_pass E l /\
                post = [EvSync; EvScripts])).
Proof.
  intros H. apply install_steps_spec in H.
  destruct H as [(Hnew & -> & -> & -> & -> & -> & ->)|
                 (Hnew & -> & -> & -> & [(-> & -> & m & ->)|(enough & tc & Hc & Hrest)])].
  - exists [], [], [], []. repeat (split; [reflexivity || apply only_nil|]).
    left. repeat split; auto.
  - exists [EvMsg Error m], [], [], []. split; [reflexivity|].
    split; [only_tac|]. repeat (split; [apply only_nil|]).
    left. repeat split; discriminate.
  - apply check_disk_space_spec in Hc. destruct Hc as (_ & Hk & _ & _).
    destruct Hrest as [(-> & -> & -> & ->)|(-> & mom' & l & tf & Hf & ->)].
    + exists tc, [], [], []. split; [now rewrite !app_nil_r|].
      split; [eapply only_mono; [|exact Hk]; simpl; tauto|].
      repeat (split; [apply only_nil|]). left. repeat split; discriminate.
    + apply install_files_spec in Hf.
      destruct Hf as (td & tv & ts & tr & te & -> & Hd & _ & Hl & Hv & Hs & Hr & Hcase).
      exists (tc ++ td ++ tv), ts, tr, te.
      split; [now rewrite <- !app_assoc|].
      split.
      { rewrite !only_app. repeat split; (eapply only_mono; [|eassumption]); simpl; tauto. }
      split; [assumption|]. split; [assumption|].
      destruct Hcase as [(Hc & -> & ->)|(-> & -> & ->)].
      * left. repeat split; congruence.
      * right. repeat split; try assumption. exists l.
        split; [|auto]. rewrite !in_app_iff. tauto.
Qed.

(** The parts of a run and what they may hold. *)
Lemma install_bundles_parts (fuel : nat) (bundles : list string) (subs : list sub)
    (mom : MoM) (w w' : world) (rc : swupd_code) (subs' : list sub) (t : list event) :
  install_bundles G E fuel bundles subs mom w = Some ((rc, subs'), w', t) ->
  exists r subs1 n w1 code tib invalid w2 ta tr t1 ts t3,
    t = t1 ++ ts ++ t3 /\ t1 = EvMsg Info MsgLoading :: ta ++ tr /\
    add_subscriptions G E fuel w mom false bundles subs 0 = Some (r, subs1, ta) /\
    report_installed E mom bundles 0 w = Some (n, w1, tr) /\
    install_steps G E r subs1 mom w1 = Some ((code, tib, invalid, subs'), w2, ts) /\
    install_out E bundles n tib invalid code w2 = Some (rc, w', t3) /\
    same_but_tracking w w1 /\ same_but_tracking w2 w' /\
    only [KMsg; KTrack] t1 /\ only [KMsg; KTrack] t3 /\
    (forall e, In e t1 -> event_kind e = KTrack -> report_event bundles w e) /\
    (forall e, In e t3 -> event_kind e = KTrack -> count_event bundles w' e).
Proof.
  intros H. apply install_bundles_run in H.
  destruct H as (r & subs1 & ta & n & w1 & tr & code & tib & invalid & w2 & ts & tout &
                 Ha & Hb & Hc & Hd & ->).
  pose proof (add_subscriptions_post _ _ _ _ _ _ _ _ _ _ Ha) as (Hka & _).
  pose proof (report_installed_spec E mom bundles _ _ _ _ _ Hb) as (Hs1 & Hev1 & _).
  pose proof (install_out_spec E _ _ _ _ _ _ _ _ _ Hd) as (_ & Hs3 & Hev3).
  exists r, subs1, n, w1, code, tib, invalid, w2, ta, tr,
    (EvMsg Info MsgLoading :: ta ++ tr), ts, tout.
  split; [simpl; now rewrite <- !app_assoc|].
  split; [reflexivity|]. split; [assumption|]. split; [assumption|].
  split; [assumption|]. split; [assumption|]. split; [assumption|]. split; [assumption|].
  split.
  { apply only_cons. split; [simpl; auto|]. apply only_app. split.
    - eapply only_mono; [|exact Hka]. simpl; tauto.
    - apply only_of. intros e He. eapply report_event_kind; eauto. }
  split.
  { apply only_of. intros e He. destruct (Hev3 e He) as [Hc3|(m & ->)];
      [eapply count_event_kind; eauto|simpl; auto]. }
  split.
  - intros e [<-|He] Hk; [discriminate|]. apply in_app_or in He. destruct He as [He|He].
    + apply (only_In _ _ _ Hka) in He. rewrite Hk in He. simpl in He.
      destruct He as [He|[]]. discriminate.
    + auto.
  - intros e He Hk. destruct (Hev3 e He) as [(b & Hb1 & Hb2 & Hb3)|(m & ->)];
      [|discriminate].
    exists b. repeat split; try assumption.
    now rewrite (is_installed_same b w2 w' Hs3).
Qed.

End InstallOrder.

Lemma staging_pass_In (E : externs) (l : list file) (f : file) :
  In f l -> skipped E f = false -> In (EvStage (apply_heuristics E f)) (staging_pass E l).
Proof.
  intros Hf Hs. unfold staging_pass.
  apply (List.in_map (fun f => EvStage (apply_heuristics E f))). apply List.filter_In.
  split; [assumption|]. now rewrite Hs.
Qed.

(** X1: in every run of [install_bundles] that returns, the calls of
    [do_staging] come in one block, the calls of
    [rename_staged_file_to_final] in one block right after it, and nothing
    is staged or renamed outside them.  Either nothing is renamed and
    [sync] is not called, or the first loop has called [do_staging] for
    every record of the plan that is not skipped, in the order of the plan,
    and [sync] and then the scripts follow the last rename. *)
Theorem install_stages_before_renames (G : options) (E : externs) (fuel : nat)
    (bundles : list string) (subs : list sub) (mom : MoM) (w w' : world)
    (rc : swupd_code) (subs' : list sub) (t : list event) :
  install_bundles G E fuel bundles subs mom w = Some ((rc, subs'), w', t) ->
  exists pre ts tr post,
    t = pre ++ ts ++ tr ++ post /\
    only [KMsg; KTrack; KRmDownload; KDownload; KVerify; KUnstage] pre /\
    only [KStage] ts /\ only [KRename] tr /\
    ((tr = [] /\ only [KMsg; KTrack] post) \/
     (exists l post',
        In (EvDownloadFullfiles l) pre /\ ts = staging_pass E l /\
        post = EvSync :: EvScripts :: post' /\ only [KMsg; KTrack] post')).
Proof.
  intros H. apply install_bundles_parts in H.
  destruct H as (r & subs1 & n & w1 & code & tib & invalid & w2 & ta & tr0 & t1 & ts0 & t3 &
                 -> & Ht1 & Ha & Hb & Hs & _ & _ & _ & H1 & H3 & _).
  apply install_steps_shape in Hs.
  destruct Hs as (pre & ts & tr & post & -> & Hpre & Hts & Htr & Hcase).
  exists (t1 ++ pre), ts, tr, (post ++ t3).
  split; [now rewrite <- !app_assoc|].
  split.
  { apply only_app. split; (eapply only_mono; [|eassumption]); simpl; tauto. }
  split; [assumption|]. split; [assumption|].
  destruct Hcase as [(-> & -> & _)|(_ & _ & l & Hl & -> & ->)].
  - left. split; [reflexivity|exact H3].
  - right. exists l, t3. split; [apply in_or_app; now right|]. auto.
Qed.

Lemma install_stages_before_renames_witness :
  InstallRuns.add_editors =
    Some (result_value InstallRuns.none InstallRuns.add_editors,
          result_world Reference.base InstallRuns.add_editors,
          result_trace InstallRuns.add_editors) /\
  exists pre ts tr post,
    result_trace InstallRuns.add_editors = pre ++ ts ++ tr ++ post /\
    only [KMsg; KTrack; KRmDownload; KDownload; KVerify; KUnstage] pre /\
    only [KStage] ts /\ only [KRename] tr /\
    ((tr = [] /\ only [KMsg; KTrack] post) \/
     (exists l post',
        In (EvDownloadFullfiles l) pre /\ ts = staging_pass Runs.server l /\
        post = EvSync :: EvScripts :: post' /\ only [KMsg; KTrack] post')).
Proof.
  split; [vm_compute; reflexivity|].
  apply (install_stages_before_renames Reference.defaults Runs.server 10
           ["editors"%string] [] Reference.the_mom Reference.base
           (result_world Reference.base InstallRuns.add_editors)
           (fst (result_value InstallRuns.none InstallRuns.add_editors))
           (snd (result_value InstallRuns.none InstallRuns.add_editors))).
  vm_compute. reflexivity.
Defined.

Section InstallFacts.

Context (G : options) (E : externs).

(** The steps fetch first and check afterwards. *)
Lemma install_steps_fetch_first (r : Z) (subs : list sub) (mom : MoM) (w w' : world)
    (res : swupd_code * list manifest * bool * list sub) (t : list event) :
  install_steps G E r subs mom w = Some (res, w', t) ->
  exists a b,
    t = a ++ b /\ only [KMsg; KRmDownload; KDownload] a /\
    only [KMsg; KVerify; KUnstage; KStage; KRename; KSync; KScripts] b.
Proof.
  destruct res as [[[code tib] invalid] subs']. intros H. apply install_steps_spec in H.
  destruct H as [(Hnew & -> & -> & -> & -> & -> & ->)|
                 (Hnew & -> & -> & -> & [(-> & -> & m & ->)|(enough & tc & Hc & Hrest)])].
  - exists [], []. repeat split; apply only_nil.
  - exists [EvMsg Error m], []. repeat split; only_tac.
  - apply check_disk_space_spec in Hc. destruct Hc as (_ & Hk & _ & _).
    destruct Hrest as [(-> & -> & -> & ->)|(-> & mom' & l & tf & Hf & ->)].
    + exists tc, []. split; [now rewrite app_nil_r|].
      split; [eapply only_mono; [|exact Hk]; simpl; tauto|apply only_nil].
    + apply install_files_spec in Hf.
      destruct Hf as (td & tv & ts & tr & te & -> & Hd & _ & Hl & Hv & Hs & Hr & Hcase).
      exists (tc ++ td), (tv ++ ts ++ tr ++ te).
      split; [now rewrite <- !app_assoc|].
      split.
      { apply only_app. split; (eapply only_mono; [|eassumption]); simpl; tauto. }
      rewrite !only_app. repeat split;
        try (eapply only_mono; [|eassumption]; simpl; tauto).
      destruct Hcase as [(_ & _ & ->)|(_ & _ & ->)]; only_tac.
Qed.

End InstallFacts.

(** X2: [install_bundles] fetches only before it checks the staged copies:
    once a staged copy has been verified or removed, neither
    [download_subscribed_packs] nor [download_fullfiles] is called again in
    the run. *)
Theorem install_no_fetch_after_check (G : options) (E : externs) (fuel : nat)
    (bundles : list string) (subs : list sub) (mom : MoM) (w w' : world)
    (rc : swupd_code) (subs' : list sub) (t : list event) :
  install_bundles G E fuel bundles subs mom w = Some ((rc, subs'), w', t) ->
  forall pre e post,
    t = pre ++ e :: post ->
    In (event_kind e) [KVerify; KUnstage] ->
    forall e', In e' post -> event_kind e' <> KDownload.
Proof.
  intros H pre e post Heq Hk e' He'. apply install_bundles_parts in H.
  destruct H as (r & subs1 & n & w1 & code & tib & invalid & w2 & ta & tr0 & t1 & ts0 & t3 &
                 -> & Ht1 & Ha & Hb & Hs & _ & _ & _ & H1 & H3 & _).
  apply install_steps_fetch_first in Hs. destruct Hs as (a & b & -> & Hfa & Hfb).
  revert e' He'.
  apply (none_after (fun e => In (event_kind e) [KVerify; KUnstage])
                    (fun e => event_kind e = KDownload) (t1 ++ a) (b ++ t3)) with pre e.
  - intros x Hx Hkx. apply in_app_or in Hx. destruct Hx as [Hx|Hx].
    + apply (only_In _ _ _ H1) in Hx. simpl in Hx, Hkx.
      destruct Hkx as [Hkx|[Hkx|[]]]; rewrite <- Hkx in Hx;
        intuition discriminate.
    + apply (only_In _ _ _ Hfa) in Hx. simpl in Hx, Hkx.
      destruct Hkx as [Hkx|[Hkx|[]]]; rewrite <- Hkx in Hx;
        intuition discriminate.
  - intros x Hx Hkx. apply in_app_or in Hx. destruct Hx as [Hx|Hx].
    + apply (only_In _ _ _ Hfb) in Hx. rewrite Hkx in Hx. simpl in Hx.
      intuition discriminate.
    + apply (only_In _ _ _ H3) in Hx. rewrite Hkx in Hx. simpl in Hx.
      intuition discriminate.
  - rewrite <- Heq. now rewrite <- !app_assoc.
  - exact Hk.
Qed.

Lemma install_no_fetch_after_check_witness :
  InstallRuns.add_vim_corrupt =
    Some (result_value InstallRuns.none InstallRuns.add_vim_corrupt,
          result_world Reference.base InstallRuns.add_vim_corrupt,
          result_trace InstallRuns.add_vim_corrupt) /\
  result_trace InstallRuns.add_vim_corrupt =
    firstn 8 (result_trace InstallRuns.add_vim_corrupt) ++
    EvRm (StagedFile "h-vim") :: skipn 9 (result_trace InstallRuns.add_vim_corrupt) /\
  In (event_kind (EvRm (StagedFile "h-vim"))) [KVerify; KUnstage] /\
  forall e', In e' (skipn 9 (result_trace InstallRuns.add_vim_corrupt)) ->
             event_kind e' <> KDownload.
Proof.
  split; [vm_compute; reflexivity|].
  split; [vm_compute; reflexivity|].
  split; [simpl; auto|].
  apply (install_no_fetch_after_check Reference.defaults Runs.server 10
           ["vim"%string] [] Reference.the_mom InstallRuns.corrupt
           (result_world Reference.base InstallRuns.add_vim_corrupt)
           (fst (result_value InstallRuns.none InstallRuns.add_vim_corrupt))
           (snd (result_value InstallRuns.none InstallRuns.add_vim_corrupt))
           (result_trace InstallRuns.add_vim_corrupt))
    with (pre := firstn 8 (result_trace InstallRuns.add_vim_corrupt))
         (e := EvRm (StagedFile "h-vim")).
  - vm_compute. reflexivity.
  - vm_compute. reflexivity.
  - simpl. auto.
Defined.

(** X3: [install_bundles] writes to the tracking directory only in its
    first loop and in the loop after [out], that is before anything is
    fetched and after the last rename, [sync] and the scripts; every such
    write belongs to [track_installed] for a requested bundle whose file
    under the bundles directory is there at that time (at the start for the
    first loop, at the end for the last one). *)
Theorem install_tracks_installed_only (G : options) (E : externs) (fuel : nat)
    (bundles : list string) (subs : list sub) (mom : MoM) (w w' : world)
    (rc : swupd_code) (subs' : list sub) (t : list event) :
  install_bundles G E fuel bundles subs mom w = Some ((rc, subs'), w', t) ->
  exists t1 ts t3,
    t = t1 ++ ts ++ t3 /\
    only [KMsg; KTrack] t1 /\
    only [KMsg; KRmDownload; KDownload; KVerify; KUnstage; KStage; KRename; KSync;
          KScripts] ts /\
    only [KMsg; KTrack] t3 /\
    (forall e, In e t1 -> event_kind e = KTrack ->
       exists b, In b bundles /\ is_installed_bundle b w = true /\ tracking_event b e) /\
    (forall e, In e t3 -> event_kind e = KTrack ->
       exists b, In b bundles /\ is_installed_bundle b w' = true /\ tracking_event b e).
Proof.
  intros H. apply install_bundles_parts in H.
  destruct H as (r & subs1 & n & w1 & code & tib & invalid & w2 & ta & tr0 & t1 & ts & t3 &
                 -> & Ht1 & Ha & Hb & Hs & _ & _ & _ & H1 & H3 & Hr & Hc).
  exists t1, ts, t3. split; [reflexivity|]. split; [assumption|].
  split.
  { apply install_steps_fetch_first in Hs. destruct Hs as (a & b & -> & Hfa & Hfb).
    apply only_app. split; (eapply only_mono; [|eassumption]); simpl; tauto. }
  split; [assumption|]. split.
  - intros e He Hk. destruct (Hr e He Hk) as (b & Hbb & [(Hi & [->|Ht])| ->]);
      try discriminate. eauto.
  - intros e He Hk. exact (Hc e He Hk).
Qed.

Lemma install_tracks_installed_only_witness :
  InstallRuns.add_editors =
    Some (result_value InstallRuns.none InstallRuns.add_editors,
          result_world Reference.base InstallRuns.add_editors,
          result_trace InstallRuns.add_editors) /\
  exists t1 ts t3,
    result_trace InstallRuns.add_editors = t1 ++ ts ++ t3 /\
    only [KMsg; KTrack] t1 /\
    only [KMsg; KRmDownload; KDownload; KVerify; KUnstage; KStage; KRename; KSync;
          KScripts] ts /\
    only [KMsg; KTrack] t3 /\
    (forall e, In e t1 -> event_kind e = KTrack ->
       exists b, In b ["editors"%string] /\
                 is_installed_bundle b Reference.base = true /\ tracking_event b e) /\
    (forall e, In e t3 -> event_kind e = KTrack ->
       exists b, In b ["editors"%string] /\
                 is_installed_bundle b (result_world Reference.base InstallRuns.add_editors)
                   = true /\ tracking_event b e).
Proof.
  split; [vm_compute; reflexivity|].
  apply (install_tracks_installed_only Reference.defaults Runs.server 10
           ["editors"%string] [] Reference.the_mom Reference.base
           (result_world Reference.base InstallRuns.add_editors)
           (fst (result_value InstallRuns.none InstallRuns.add_editors))
           (snd (result_value InstallRuns.none InstallRuns.add_editors))).
  vm_compute. reflexivity.
Defined.

(** X4: when [install_bundles] returns [SWUPD_OK], either it went all the
    way (every record of the plan that is not skipped was handed to
    [do_staging], then the renames, [sync] and the scripts), or no bundle
    was newly subscribed and the run changed nothing but the tracking
    directory: nothing was fetched, staged or renamed and the list of
    subscriptions is as it was. *)
Theorem install_ok_means (G : options) (E : externs) (fuel : nat)
    (bundles : list string) (subs : list sub) (mom : MoM) (w w' : world)
    (subs' : list sub) (t : list event) :
  install_bundles G E fuel bundles subs mom w = Some ((SWUPD_OK, subs'), w', t) ->
  (In EvSync t /\
   exists l, In (EvDownloadFullfiles l) t /\
     forall f, In f l -> skipped E f = false -> In (EvStage (apply_heuristics E f)) t) \/
  (only [KMsg; KTrack] t /\ same_but_tracking w w' /\ subs' = subs).
Proof.
  intros H. apply install_bundles_parts in H.
  destruct H as (r & subs1 & n & w1 & code & tib & invalid & w2 & ta & tr0 & t1 & ts0 & t3 &
                 -> & Ht1 & Ha & Hb & Hs & Ho & Hw1 & Hw2 & H1 & H3 & _).
  apply install_out_spec in Ho. destruct Ho as (Hrc & _).
  assert (Hcode : code_true code = false).
  { destruct (code_true code) eqn:Hc; [|reflexivity].
    rewrite andb_false_r in Hrc. subst code. discriminate. }
  pose proof Hs as Hs'. apply install_steps_shape in Hs.
  destruct Hs as (pre & ts & tr & post & -> & Hpre & Hts & Htr & Hcase).
  destruct Hcase as [(-> & -> & Hnothing)|(_ & _ & l & Hl & -> & ->)].
  - right. destruct (Hnothing Hcode) as (Hnil & -> & Hnew & Hsubs & _).
    rewrite Hnil. split; [rewrite !only_app; auto using only_nil|].
    split; [eapply same_but_tracking_trans; eassumption|].
    apply add_subscriptions_mask_rel in Ha.
    destruct Ha as (_ & _ & _ & _ & new & -> & Hn).
    destruct new; [rewrite Hsubs; apply app_nil_r|].
    assert (has_bit r add_sub_NEW = true) by (apply Hn; discriminate). congruence.
  - left. split; [rewrite !in_app_iff; simpl; tauto|].
    exists l. split; [rewrite !in_app_iff; tauto|].
    intros f Hf Hsk. rewrite !in_app_iff. right. left. right. left.
    now apply staging_pass_In.
Qed.

Lemma install_ok_means_witness :
  InstallRuns.add_editors =
    Some ((SWUPD_OK, snd (result_value InstallRuns.none InstallRuns.add_editors)),
          result_world Reference.base InstallRuns.add_editors,
          result_trace InstallRuns.add_editors) /\
  ((In EvSync (result_trace InstallRuns.add_editors) /\
    exists l, In (EvDownloadFullfiles l) (result_trace InstallRuns.add_editors) /\
      forall f, In f l -> skipped Runs.server f = false ->
        In (EvStage (apply_heuristics Runs.server f))
           (result_trace InstallRuns.add_editors)) \/
   (only [KMsg; KTrack] (result_trace InstallRuns.add_editors) /\
    same_but_tracking Reference.base
      (result_world Reference.base InstallRuns.add_editors) /\
    snd (result_value InstallRuns.none InstallRuns.add_editors) = [])).
Proof.
  split; [vm_compute; reflexivity|].
  apply (install_ok_means Reference.defaults Runs.server 10 ["editors"%string] []
           Reference.the_mom Reference.base).
  vm_compute. reflexivity.
Defined.

(** ** The check of the free space *)

Section DiskSpace.

Context (G : options) (E : externs).

(** Only the check of the free space prints its note. *)
Lemma verify_staged_no_note (l : list file) :
  forall w code w' t,
    verify_staged E l w = Some (code, w', t) -> ~ In (EvMsg Info MsgDiskNote) t.
Proof.
  induction l as [|f l IH]; intros w code w' t H; simpl in H.
  - unbind. simpl. tauto.
  - unbind;
      try match goal with
          | H : verify_staged _ _ _ = Some _ |- _ => apply IH in H
          end;
      rewrite ?in_app_iff; simpl; intuition discriminate.
Qed.

Lemma install_files_no_note (mom : MoM) (subs : list sub) (l : list file)
    (w w' : world) (code : swupd_code) (t : list event) :
  install_files E mom subs l w = Some (code, w', t) -> ~ In (EvMsg Info MsgDiskNote) t.
Proof.
  unfold install_files. intros H. unbind;
    repeat match goal with
           | H : verify_staged _ _ _ = Some _ |- _ => apply verify_staged_no_note in H
           | H : stage_files _ _ _ _ = Some _ |- _ =>
               apply stage_files_spec in H; destruct H as (H & _)
           | H : rename_files _ _ _ _ = Some (?u, _, _) |- _ =>
               destruct u; apply rename_files_spec in H
           end;
    rewrite ?in_app_iff; simpl;
    repeat match goal with
           | H : only _ ?t |- context [In ?e ?t] =>
               lazymatch goal with
               | _ : In e t -> False |- _ => fail
               | _ => assert (In e t -> False)
                        by (let Hi := fresh in intros Hi; apply (only_In _ _ _ H) in Hi;
                            simpl in Hi; intuition discriminate)
               end
           end;
    intuition (try discriminate).
Qed.

End DiskSpace.

Lemma tracking_event_no_note (b : string) : ~ tracking_event b (EvMsg Info MsgDiskNote).
Proof. unfold tracking_event. simpl. intuition discriminate. Qed.

(** X5: the check of the free space of [install_bundles].  When its note
    is printed the check has failed: the check is not switched
    off, the space the platform reports is negative or below the sum of
    [contentsize] over the bundles to install times 1.1 (as [double]), the
    status is [SWUPD_DISK_SPACE_ERROR], and the run has printed messages
    and written to the tracking directory and done nothing else.  A run
    that goes on to the downloads has the check switched off or found the
    space not short. *)
Theorem install_disk_space_check (G : options) (E : externs) (fuel : nat)
    (bundles : list string) (subs : list sub) (mom : MoM) (w w' : world)
    (rc : swupd_code) (subs' : list sub) (t : list event) :
  install_bundles G E fuel bundles subs mom w = Some ((rc, subs'), w', t) ->
  (In (EvMsg Info MsgDiskNote) t ->
   skip_diskspace_check G = false /\ rc = SWUPD_DISK_SPACE_ERROR /\
   only [KMsg; KTrack] t /\ same_but_tracking w w' /\
   exists w1, same_but_tracking w w1 /\
     disk_space_short
       (get_manifest_list_contentsize (recurse_manifest E mom subs'))
       (get_available_space E w1) = true) /\
  (In EvRmDownload t ->
   skip_diskspace_check G = true \/
   exists w1, same_but_tracking w w1 /\
     disk_space_short
       (get_manifest_list_contentsize (recurse_manifest E mom subs'))
       (get_available_space E w1) = false).
Proof.
  intros H. apply install_bundles_parts in H.
  destruct H as (r & subs1 & n & w1 & code & tib & invalid & w2 & ta & tr0 & t1 & ts &
                 t3 & -> & -> & Ha & Hb & Hs & Ho & Hw1 & Hw2 & H1 & H3 & _).
  apply add_subscriptions_mask_rel in Ha. destruct Ha as (_ & Hta & _).
  pose proof (report_installed_spec E mom bundles _ _ _ _ _ Hb) as (_ & Htr & _).
  pose proof (install_out_spec E _ _ _ _ _ _ _ _ _ Ho) as (Hrc & _ & Ht3).
  apply install_steps_spec in Hs.
  assert (Hout1 : forall e, In e (EvMsg Info MsgLoading :: ta ++ tr0) ->
            e <> EvMsg Info MsgDiskNote /\ e <> EvRmDownload).
  { intros e [<-|He]; [split; discriminate|]. apply in_app_or in He.
    destruct He as [He|He].
    - destruct (Hta e He) as [(b & ->)|(b & v & ->)]; split; discriminate.
    - destruct (Htr e He) as (b & _ & [(_ & [->|Ht])| ->]); try (split; discriminate).
      split; intros ->; [now apply tracking_event_no_note in Ht|].
      apply tracking_event_kind in Ht. simpl in Ht. intuition discriminate. }
  assert (Hout3 : forall e, In e t3 ->
            e <> EvMsg Info MsgDiskNote /\ e <> EvRmDownload).
  { intros e He. destruct (Ht3 e He) as [(b & _ & _ & Ht)|(m & ->)];
      [|split; discriminate].
    split; intros ->; [now apply tracking_event_no_note in Ht|].
    apply tracking_event_kind in Ht. simpl in Ht. intuition discriminate. }
  assert (Hin : forall e, e = EvMsg Info MsgDiskNote \/ e = EvRmDownload ->
            In e ((EvMsg Info MsgLoading :: ta ++ tr0) ++ ts ++ t3) -> In e ts).
  { intros e He Hi. apply in_app_or in Hi. destruct Hi as [Hi|Hi].
    - destruct (Hout1 e Hi). intuition.
    - apply in_app_or in Hi. destruct Hi as [Hi|Hi]; [assumption|].
      destruct (Hout3 e Hi). intuition. }
  destruct Hs as [(Hnew & -> & -> & -> & -> & -> & ->)|
                  (Hnew & -> & -> & -> & [(-> & -> & m & ->)|(enough & tc & Hc & Hrest)])].
  - split; intros Hi; apply Hin in Hi; auto; contradiction.
  - split; intros Hi; apply Hin in Hi; auto; destruct Hi as [Hi|[]]; discriminate.
  - apply check_disk_space_spec in Hc. destruct Hc as (_ & Hk & He & Hnote).
    destruct Hrest as [(-> & -> & -> & ->)|(-> & mom' & l & tf & Hf & ->)].
    + split.
      * intros _. symmetry in He. apply orb_false_iff in He. destruct He as (Hskip & Hshort).
        apply negb_false_iff in Hshort.
        split; [assumption|]. split; [now rewrite andb_false_r in Hrc|].
        split.
        { rewrite !only_app. repeat split; try assumption.
          eapply only_mono; [|exact Hk]. simpl; tauto. }
        split; [eapply same_but_tracking_trans; eassumption|].
        exists w1. split; assumption.
      * intros Hi. apply Hin in Hi; auto. apply (only_In _ _ _ Hk) in Hi.
        simpl in Hi. intuition discriminate.
    + split.
      * intros Hi. apply Hin in Hi; auto. apply in_app_or in Hi. destruct Hi as [Hi|Hi].
        -- apply Hnote in Hi. discriminate.
        -- now apply install_files_no_note in Hf.
      * intros _. symmetry in He. apply orb_true_iff in He. destruct He as [He|He];
          [now left|right].
        exists w1. split; [assumption|]. now apply negb_true_iff in He.
Qed.

Lemma install_disk_space_check_witness :
  InstallRuns.add_vim_tight =
    Some (result_value InstallRuns.none InstallRuns.add_vim_tight,
          result_world Reference.base InstallRuns.add_vim_tight,
          result_trace InstallRuns.add_vim_tight) /\
  (In (EvMsg Info MsgDiskNote) (result_trace InstallRuns.add_vim_tight) ->
   skip_diskspace_check Reference.defaults = false /\
   fst (result_value InstallRuns.none InstallRuns.add_vim_tight) = SWUPD_DISK_SPACE_ERROR /\
   only [KMsg; KTrack] (result_trace InstallRuns.add_vim_tight) /\
   same_but_tracking Reference.base
     (result_world Reference.base InstallRuns.add_vim_tight) /\
   exists w1, same_but_tracking Reference.base w1 /\
     disk_space_short
       (get_manifest_list_contentsize
          (recurse_manifest InstallRuns.tight Reference.the_mom
             (snd (result_value InstallRuns.none InstallRuns.add_vim_tight))))
       (get_available_space InstallRuns.tight w1) = true) /\
  (In EvRmDownload (result_trace InstallRuns.add_vim_tight) ->
   skip_diskspace_check Reference.defaults = true \/
   exists w1, same_but_tracking Reference.base w1 /\
     disk_space_short
       (get_manifest_list_contentsize
          (recurse_manifest InstallRuns.tight Reference.the_mom
             (snd (result_value InstallRuns.none InstallRuns.add_vim_tight))))
       (get_available_space InstallRuns.tight w1) = false).
Proof.
  split; [vm_compute; reflexivity|].
  apply (install_disk_space_check Reference.defaults InstallRuns.tight 10
           ["os-core"%string; "vim"%string] [] Reference.the_mom Reference.base).
  vm_compute. reflexivity.
Defined.

(** ** Invalid names *)

Lemma set_subscription_versions_length (mom : MoM) (subs : list sub) :
  length (set_subscription_versions mom subs) = length subs.
Proof. unfold set_subscription_versions. apply length_map. Qed.

Lemma set_subscription_versions_components (mom : MoM) (subs : list sub) :
  components (set_subscription_versions mom subs) = components subs.
Proof.
  unfold components, set_subscription_versions. rewrite map_map.
  apply map_ext. intros s. now destruct (search_bundle_in_manifest mom (sub_component s)).
Qed.

(** X6: when the list names a bundle that the MoM does not have and no
    manifest failed to load, [install_bundles] does not return [SWUPD_OK]:
    it returns [SWUPD_INVALID_BUNDLE] when the installation went all the way
    to [sync], and also when no bundle was newly subscribed. *)
Theorem install_invalid_name_status (G : options) (E : externs) (fuel : nat)
    (bundles : list string) (subs : list sub) (mom : MoM) (w w' : world)
    (rc : swupd_code) (subs' : list sub) (t : list event) (z : string) :
  In z bundles -> search_bundle_in_manifest mom z = None ->
  install_bundles G E fuel bundles subs mom w = Some ((rc, subs'), w', t) ->
  (forall b v, ~ In (EvMsg Error (MsgManifestFailed b v)) t) ->
  rc <> SWUPD_OK /\
  (In EvSync t -> rc = SWUPD_INVALID_BUNDLE) /\
  (subs' = subs -> rc = SWUPD_INVALID_BUNDLE).
Proof.
  intros Hz Hs H Hno. apply install_bundles_parts in H.
  destruct H as (r & subs1 & n & w1 & code & tib & invalid & w2 & ta & tr0 & t1 & ts &
                 t3 & -> & -> & Ha & Hb & Hst & Ho & Hw1 & Hw2 & H1 & H3 & _).
  assert (Hnoa : forall b v, ~ In (EvMsg Error (MsgManifestFailed b v)) ta).
  { intros b v Hi. apply (Hno b v). simpl. right. rewrite !in_app_iff. tauto. }
  pose proof (add_subscriptions_badname G E w mom fuel _ _ _ _ _ _ _ z Ha Hz Hs) as Hbad.
  destruct Hbad as [Hbad|(b & v & Hi)]; [|now apply Hnoa in Hi].
  apply add_subscriptions_mask_rel in Ha.
  destruct Ha as (_ & _ & Herr & _ & new & -> & Hnew).
  assert (Herr' : has_bit r add_sub_ERR = false).
  { destruct (has_bit r add_sub_ERR) eqn:He; [|reflexivity].
    destruct Herr as [Herr _]. destruct (Herr eq_refl) as (b & v & Hi).
    now apply Hnoa in Hi. }
  apply install_out_spec in Ho. destruct Ho as (Hrc & _).
  pose proof Hst as Hshape. apply install_steps_shape in Hshape.
  apply install_steps_spec in Hst.
  assert (Hsync : In EvSync ((EvMsg Info MsgLoading :: ta ++ tr0) ++ ts ++ t3) ->
                  In EvSync ts).
  { intros Hi. apply in_app_or in Hi. destruct Hi as [Hi|Hi].
    - apply (only_In _ _ _ H1) in Hi. simpl in Hi. intuition discriminate.
    - apply in_app_or in Hi. destruct Hi as [Hi|Hi]; [assumption|].
      apply (only_In _ _ _ H3) in Hi. simpl in Hi. intuition discriminate. }
  destruct Hst as [(Hn & -> & -> & -> & -> & -> & ->)|
                   (Hn & -> & -> & -> & _)].
  - rewrite Herr', Hbad in Hrc. simpl in Hrc. subst rc.
    split; [discriminate|]. split; reflexivity.
  - rewrite Hbad in Hrc. simpl in Hrc.
    split; [destruct (code_true code) eqn:Hc; simpl in Hrc; subst rc;
            [intros ->; discriminate|discriminate]|].
    split.
    + intros Hi. apply Hsync in Hi.
      destruct Hshape as (pre & ts' & tr' & post & -> & Hpre & Hts & Htr &
                          [(-> & -> & _)|(-> & _)]).
      * rewrite !app_nil_r in Hi. apply in_app_or in Hi. destruct Hi as [Hi|Hi].
        -- apply (only_In _ _ _ Hpre) in Hi. simpl in Hi. intuition discriminate.
        -- apply (only_In _ _ _ Hts) in Hi. simpl in Hi. intuition discriminate.
      * simpl in Hrc. exact Hrc.
    + intros Heq. exfalso. apply (f_equal (@length sub)) in Heq.
      rewrite set_subscription_versions_length, length_app in Heq.
      destruct new; [|simpl in Heq; lia].
      destruct Hnew as [Hnew _]. now apply Hnew.
Qed.

Lemma install_invalid_name_status_witness :
  In "zzz"%string ["vim"%string; "zzz"%string] /\
  search_bundle_in_manifest Reference.the_mom "zzz" = None /\
  InstallRuns.add_vim_zzz =
    Some (result_value InstallRuns.none InstallRuns.add_vim_zzz,
          result_world Reference.base InstallRuns.add_vim_zzz,
          result_trace InstallRuns.add_vim_zzz) /\
  (forall b v, ~ In (EvMsg Error (MsgManifestFailed b v))
                    (result_trace InstallRuns.add_vim_zzz)) /\
  fst (result_value InstallRuns.none InstallRuns.add_vim_zzz) <> SWUPD_OK /\
  (In EvSync (result_trace InstallRuns.add_vim_zzz) ->
   fst (result_value InstallRuns.none InstallRuns.add_vim_zzz) = SWUPD_INVALID_BUNDLE) /\
  (snd (result_value InstallRuns.none InstallRuns.add_vim_zzz) = [] ->
   fst (result_value InstallRuns.none InstallRuns.add_vim_zzz) = SWUPD_INVALID_BUNDLE).
Proof.
  assert (Hno : forall b v, ~ In (EvMsg Error (MsgManifestFailed b v))
                                 (result_trace InstallRuns.add_vim_zzz)).
  { intros b v.
    apply (absent_by (fun e => match e with
                               | EvMsg Error (MsgManifestFailed _ _) => true
                               | _ => false
                               end)); [vm_compute|]; reflexivity. }
  split; [simpl; auto|]. split; [vm_compute; reflexivity|].
  split; [vm_compute; reflexivity|]. split; [exact Hno|].
  apply (install_invalid_name_status Reference.defaults Runs.server 10
           ["vim"%string; "zzz"%string] [] Reference.the_mom Reference.base
           (result_world Reference.base InstallRuns.add_vim_zzz)
           (fst (result_value InstallRuns.none InstallRuns.add_vim_zzz))
           (snd (result_value InstallRuns.none InstallRuns.add_vim_zzz))
           (result_trace InstallRuns.add_vim_zzz) "zzz").
  - simpl; auto.
  - vm_compute; reflexivity.
  - vm_compute; reflexivity.
  - exact Hno.
Defined.

(** ** Requested bundles that are installed *)

Section Requested.

Context (E : externs).

(** [track_installed] either creates the tracking file or says that it
    could not. *)
Lemma track_installed_attempt (b : string) (w w' : world) (t : list event) :
  track_installed E b w = Some (tt, w', t) ->
  In (EvCreate (TrackingFile b)) t \/ In (EvMsg Debug (MsgTrackingIssue b)) t.
Proof.
  unfold track_installed, track_installed_seed. intros H.
  unbind; rewrite ?in_app_iff; simpl; tauto.
Qed.

Lemma track_installed_created (b : string) (w w' : world) (t : list event) :
  (forall c w0, syscall_fails E c w0 = false) ->
  track_installed E b w = Some (tt, w', t) -> In (EvCreate (TrackingFile b)) t.
Proof.
  intros Hok H. pose proof (track_installed_creates E b w w' t Hok H) as Ht.
  revert H. unfold track_installed, track_installed_seed. intros H.
  unbind; rewrite ?in_app_iff; simpl; auto;
    try (rewrite Hok in *; discriminate).
  all: try tauto.
  all: destruct Ht as (names & Hn & _); simpl in *;
    repeat match goal with
           | H : _ || _ = true |- _ => rewrite Hok in H; simpl in H
           | H : negb (bool_decide _) = true |- _ =>
               apply negb_true_iff, bool_decide_eq_false in H
           end.
  all: try (exfalso; match goal with H : ~ is_Some _ |- _ => apply H end;
            rewrite Hn; eauto).
Qed.

Lemma report_installed_keeps (mom : MoM) (x : string) (bundles : list string) :
  forall n w n' w' t,
    tracked x w -> report_installed E mom bundles n w = Some (n', w', t) -> tracked x w'.
Proof.
  induction bundles as [|b bs IH]; intros n w n' w' t Hx H; simpl in H.
  - unbind. exact Hx.
  - unbind;
      repeat match goal with
             | H : track_installed _ _ _ = Some (?u, _, _) |- _ =>
                 destruct u; apply (track_installed_keeps E x) in H; [|assumption]
             end;
      eapply IH; eassumption.
Qed.

Lemma count_installed_keeps (x : string) (bundles : list string) (iter : list manifest) :
  forall a c w r w' t,
    tracked x w -> count_installed E bundles iter a c w = Some (r, w', t) -> tracked x w'.
Proof.
  induction iter as [|m iter IH]; intros a c w r w' t Hx H; simpl in H.
  - unbind. exact Hx.
  - unbind;
      repeat match goal with
             | H : track_installed _ _ _ = Some (?u, _, _) |- _ =>
                 destruct u; apply (track_installed_keeps E x) in H; [|assumption]
             end;
      eapply IH; eassumption.
Qed.

(** The first loop calls [track_installed] for every bundle of the list
    that is installed. *)
Lemma report_installed_tracks (mom : MoM) (bundles : list string) (b : string) :
  forall n w n' w' t,
    report_installed E mom bundles n w = Some (n', w', t) ->
    In b bundles -> is_installed_bundle b w = true ->
    (In (EvCreate (TrackingFile b)) t \/ In (EvMsg Debug (MsgTrackingIssue b)) t) /\
    ((forall c w0, syscall_fails E c w0 = false) ->
     In (EvCreate (TrackingFile b)) t /\ tracked b w').
Proof.
  induction bundles as [|b0 bs IH]; intros n w n' w' t H Hb Hi; [contradiction|].
  simpl in H.
  apply bind_inv in H. destruct H as (inst & w0 & t0 & r0 & w0' & t0' & H0 & H & Hr).
  injection Hr as <- -> ->. run_inv H0.
  apply bind_inv in H. destruct H as (n1 & wa & ta & r1 & w1 & t1 & H1 & H & Hr).
  injection Hr as <- -> ->.
  apply bind_inv in H. destruct H as ([] & wb & tb & r2 & w2 & t2 & H2 & H & Hr).
  injection Hr as <- -> ->.
  assert (Hwb : wb = wa).
  { destruct (search_bundle_in_manifest mom b0) as [file|];
      [destruct (is_experimental file)|]; run_inv H2; reflexivity. }
  subst wb.
  assert (Hsame : same_but_tracking w wa).
  { destruct (is_installed_bundle b0 w).
    - apply bind_inv in H1. destruct H1 as ([] & wc & tc & r3 & w3 & t3 & Hw & H1 & Hr).
      injection Hr as <- -> ->. run_inv Hw.
      apply bind_inv in H1. destruct H1 as ([] & wd & td & r4 & w4 & t4 & Ht & H1 & Hr).
      injection Hr as <- -> ->. run_inv H1.
      eapply track_installed_same; eassumption.
    - run_inv H1. apply same_but_tracking_refl. }
  destruct Hb as [->|Hb].
  - rewrite Hi in H1.
    apply bind_inv in H1. destruct H1 as ([] & wc & tc & r3 & w3 & t3 & Hw & H1 & Hr).
    injection Hr as <- -> ->. run_inv Hw.
    apply bind_inv in H1. destruct H1 as ([] & wd & td & r4 & w4 & t4 & Ht & H1 & Hr).
    injection Hr as <- -> ->. run_inv H1.
    split.
    + destruct (track_installed_attempt _ _ _ _ Ht); [left|right];
        simpl; rewrite !in_app_iff; tauto.
    + intros Hok. split.
      * pose proof (track_installed_created _ _ _ _ Hok Ht).
        simpl; rewrite !in_app_iff; tauto.
      * eapply report_installed_keeps; [|exact H].
        eapply track_installed_creates; eassumption.
  - assert (Hi' : is_installed_bundle b wa = true)
      by now rewrite (is_installed_same b w wa Hsame).
    destruct (IH _ _ _ _ _ H Hb Hi') as (I1 & I2). split.
    + rewrite !in_app_iff. tauto.
    + intros Hok. destruct (I2 Hok). rewrite !in_app_iff. tauto.
Qed.

End Requested.

Lemma component_subscribed_components (s : list sub) (b : string) :
  component_subscribed s b = existsb (fun n => strcmp n b =? 0) (components s).
Proof.
  unfold component_subscribed, components. induction s as [|x s IH]; simpl; congruence.
Qed.

Lemma install_out_keeps (E : externs) (x : string) (bundles : list string) (n : Z)
    (tib : list manifest) (invalid : bool) (code rc : swupd_code) (w w' : world)
    (t : list event) :
  tracked x w -> install_out E bundles n tib invalid code w = Some (rc, w', t) ->
  tracked x w'.
Proof.
  unfold install_out. intros Hx H.
  apply bind_inv in H. destruct H as ([bi di] & wa & ta & rc' & wb & tb & Hc & H & Hr).
  injection Hr as <- -> ->.
  apply (count_installed_keeps E x) in Hc; [|assumption].
  assert (Hw : wb = wa) by (unbind; reflexivity).
  now subst wb.
Qed.

(** X7: a requested bundle that is installed when [install_bundles] starts
    is reported as already installed and handed to [track_installed] (which
    creates its tracking file or says that it could not); the call does not
    subscribe to it.  When no call of the platform fails the tracking file
    is created, and the bundle is tracked when a run that fetches nothing
    returns. *)
Theorem install_requested_installed (G : options) (E : externs) (fuel : nat)
    (bundles : list string) (subs : list sub) (mom : MoM) (w w' : world)
    (rc : swupd_code) (subs' : list sub) (t : list event) (b : string) :
  In b bundles -> is_installed_bundle b w = true ->
  install_bundles G E fuel bundles subs mom w = Some ((rc, subs'), w', t) ->
  In (EvMsg Warn (MsgAlreadyInstalled b)) t /\
  (In (EvCreate (TrackingFile b)) t \/ In (EvMsg Debug (MsgTrackingIssue b)) t) /\
  component_subscribed subs' b = component_subscribed subs b /\
  ((forall c w0, syscall_fails E c w0 = false) ->
   In (EvCreate (TrackingFile b)) t /\ (~ In EvRmDownload t -> tracked b w')).
Proof.
  intros Hb Hi H. apply install_bundles_parts in H.
  destruct H as (r & subs1 & n & w1 & code & tib & invalid & w2 & ta & tr0 & t1 & ts &
                 t3 & -> & -> & Ha & Hrep & Hst & Ho & Hw1 & Hw2 & H1 & H3 & _).
  pose proof (report_installed_spec E mom bundles _ _ _ _ _ Hrep) as (_ & _ & Hwarn).
  pose proof (report_installed_tracks E mom bundles b _ _ _ _ _ Hrep Hb Hi) as (Hatt & Hok).
  apply add_subscriptions_post in Ha. destruct Ha as (_ & (new & -> & Hnew) & _).
  assert (Hsub : component_subscribed (subs ++ new) b = component_subscribed subs b).
  { rewrite component_subscribed_app.
    destruct (component_subscribed new b) eqn:Hn; [|apply orb_false_r].
    apply component_subscribed_In in Hn. destruct Hn as (s & Hs & <-).
    destruct (Hnew s Hs) as (_ & Hni). rewrite Hni in Hi by reflexivity. discriminate. }
  pose proof Hst as Hspec. apply install_steps_spec in Hspec.
  split; [simpl; right; rewrite !in_app_iff; auto|].
  split; [destruct Hatt; [left|right]; simpl; right; rewrite !in_app_iff; auto|].
  split.
  { destruct Hspec as [(_ & _ & _ & _ & _ & -> & _)|(_ & _ & -> & _)]; [exact Hsub|].
    rewrite component_subscribed_components, set_subscription_versions_components,
      <- component_subscribed_components. exact Hsub. }
  intros Hnofail. destruct (Hok Hnofail) as (Hc & Ht).
  split; [simpl; right; rewrite !in_app_iff; auto|].
  intros Hnd. apply (install_out_keeps E b) in Ho; [assumption|].
  destruct Hspec as [(_ & -> & _)|
                     (_ & _ & _ & _ & [(-> & _)|(enough & tc & _ & Hrest)])];
    try assumption.
  destruct Hrest as [(_ & -> & _)|(_ & mom' & l & tf & Hf & ->)]; [assumption|].
  exfalso. apply Hnd. apply install_files_spec in Hf.
  destruct Hf as (td & tv & ts' & tr' & te & -> & _ & Hin & _).
  simpl. right. rewrite !in_app_iff. tauto.
Qed.

Lemma install_requested_installed_witness :
  In "os-core"%string ["os-core"%string; "vim"%string] /\
  is_installed_bundle "os-core" Reference.base = true /\
  InstallRuns.add_vim_tight =
    Some (result_value InstallRuns.none InstallRuns.add_vim_tight,
          result_world Reference.base InstallRuns.add_vim_tight,
          result_trace InstallRuns.add_vim_tight) /\
  In (EvMsg Warn (MsgAlreadyInstalled "os-core")) (result_trace InstallRuns.add_vim_tight) /\
  (In (EvCreate (TrackingFile "os-core")) (result_trace InstallRuns.add_vim_tight) \/
   In (EvMsg Debug (MsgTrackingIssue "os-core"))
      (result_trace InstallRuns.add_vim_tight)) /\
  component_subscribed (snd (result_value InstallRuns.none InstallRuns.add_vim_tight))
    "os-core" = component_subscribed [] "os-core" /\
  ((forall c w0, syscall_fails InstallRuns.tight c w0 = false) ->
   In (EvCreate (TrackingFile "os-core")) (result_trace InstallRuns.add_vim_tight) /\
   (~ In EvRmDownload (result_trace InstallRuns.add_vim_tight) ->
    tracked "os-core" (result_world Reference.base InstallRuns.add_vim_tight))).
Proof.
  split; [simpl; auto|]. split; [vm_compute; reflexivity|].
  split; [vm_compute; reflexivity|].
  apply (install_requested_installed Reference.defaults InstallRuns.tight 10
           ["os-core"%string; "vim"%string] [] Reference.the_mom Reference.base
           (result_world Reference.base InstallRuns.add_vim_tight)
           (fst (result_value InstallRuns.none InstallRuns.add_vim_tight))
           (snd (result_value InstallRuns.none InstallRuns.add_vim_tight))
           (result_trace InstallRuns.add_vim_tight) "os-core").
  - simpl; auto.
  - vm_compute; reflexivity.
  - vm_compute; reflexivity.
Defined.

(** ** Installing a bundle that is installed *)

Section Again.

Context (G : options) (E : externs).

Lemma add_subscriptions_installed (fuel : nat) (w : world) (mom : MoM) (b : string)
    (subs : list sub) (f : file) :
  search_bundle_in_manifest mom b = Some f -> is_installed_bundle b w = true ->
  add_subscriptions G E (S fuel) w mom false [b] subs 0 = Some (0, subs, []).
Proof. intros Hs Hi. simpl. now rewrite Hs, Hi. Qed.

(** What [install_bundles] does for one bundle of the MoM that is
    installed. *)
Lemma install_installed (fuel : nat) (mom : MoM) (b : string) (subs : list sub)
    (f : file) (w : world) :
  search_bundle_in_manifest mom b = Some f -> is_installed_bundle b w = true ->
  exists w' tt',
    track_installed E b w = Some (tt, w', tt') /\
    install_bundles G E (S fuel) [b] subs mom w =
      Some ((SWUPD_OK, subs), w',
            [EvMsg Info MsgLoading; EvMsg Warn (MsgAlreadyInstalled b)] ++ tt' ++
            (if is_experimental f then [EvMsg Warn (MsgExperimental b)] else []) ++
            [EvMsg Print (MsgAlready 1)]).
Proof.
  intros Hs Hi.
  destruct (returns_track_installed E b w) as ([[[] w'] tt'] & Ht).
  exists w', tt'. split; [exact Ht|].
  rewrite install_bundles_steps.
  unfold bind at 1. unfold info, emit at 1.
  unfold bind at 1. unfold call_add_subscriptions.
  rewrite (add_subscriptions_installed fuel w mom b subs f Hs Hi).
  unfold bind at 1.
  assert (Hrep : report_installed E mom [b] 0 w =
                 Some (1, w', [EvMsg Warn (MsgAlreadyInstalled b)] ++ tt' ++
                   (if is_experimental f then [EvMsg Warn (MsgExperimental b)] else []))).
  { simpl. unfold bind at 1. unfold look. rewrite Hi.
    unfold bind at 1. unfold bind at 1. unfold warn, emit at 1.
    unfold bind at 1. rewrite Ht. unfold ret at 1. rewrite Hs.
    destruct (is_experimental f); unfold bind, warn, emit, ret; simpl;
      now rewrite ?app_nil_r. }
  rewrite Hrep. unfold install_steps. change (has_bit 0 add_sub_NEW) with false.
  change (has_bit 0 add_sub_ERR) with false. change (has_bit 0 add_sub_BADNAME) with false.
  simpl negb. cbv iota. unfold bind at 1. unfold ret at 1.
  unfold install_out. simpl count_installed. unfold bind, ret, print, emit. simpl.
  now rewrite ?app_nil_r, <- ?app_assoc.
Qed.

End Again.

(** X8: for a bundle of the MoM that is installed, [install_bundles]
    returns [SWUPD_OK], leaves the subscriptions as they are and changes the
    machine only as [track_installed] does: it prints that the bundle is
    already installed and fetches, stages and renames nothing. *)
Theorem install_installed_bundle (G : options) (E : externs) (fuel : nat) (mom : MoM)
    (b : string) (subs : list sub) (w : world) :
  search_bundle_in_manifest mom b <> None -> is_installed_bundle b w = true ->
  exists w' tt' t,
    install_bundles G E (S fuel) [b] subs mom w = Some ((SWUPD_OK, subs), w', t) /\
    track_installed E b w = Some (tt, w', tt') /\
    same_but_tracking w w' /\
    In (EvMsg Warn (MsgAlreadyInstalled b)) t /\
    In (EvMsg Print (MsgAlready 1)) t /\
    only [KMsg; KTrack] t.
Proof.
  intros Hs Hi. destruct (search_bundle_in_manifest mom b) as [f|] eqn:Hf; [|congruence].
  destruct (install_installed G E fuel mom b subs f w Hf Hi) as (w' & tt' & Ht & Hrun).
  exists w', tt'. eexists. split; [exact Hrun|]. split; [exact Ht|].
  split; [eapply track_installed_same; eassumption|].
  split; [simpl; auto|].
  split; [simpl; right; right; rewrite !in_app_iff; simpl; auto|].
  apply track_installed_only in Ht.
  destruct (is_experimental f); only_tac.
Qed.

Lemma install_installed_bundle_witness :
  search_bundle_in_manifest Reference.the_mom "vim" <> None /\
  is_installed_bundle "vim" Reference.full = true /\
  exists w' tt' t,
    install_bundles Reference.defaults Runs.server 10 ["vim"%string] [] Reference.the_mom
      Reference.full = Some ((SWUPD_OK, []), w', t) /\
    track_installed Runs.server "vim" Reference.full = Some (tt, w', tt') /\
    same_but_tracking Reference.full w' /\
    In (EvMsg Warn (MsgAlreadyInstalled "vim")) t /\
    In (EvMsg Print (MsgAlready 1)) t /\
    only [KMsg; KTrack] t.
Proof.
  split; [vm_compute; discriminate|]. split; [vm_compute; reflexivity|].
  apply (install_installed_bundle Reference.defaults Runs.server 9 Reference.the_mom
           "vim" [] Reference.full).
  - vm_compute; discriminate.
  - vm_compute; reflexivity.
Defined.

(** ** Installing twice *)

Section Twice.

Context (G : options) (E : externs).

(** A call for one bundle of the MoM that is not installed sets the
    [add_sub_NEW] bit only with the bundle subscribed. *)
Lemma add_subscriptions_one (fuel : nat) (w : world) (mom : MoM) (b : string)
    (subs : list sub) (f : file) (r : Z) (s' : list sub) (t : list event) :
  add_subscriptions G E fuel w mom false [b] subs 0 = Some (r, s', t) ->
  search_bundle_in_manifest mom b = Some f -> is_installed_bundle b w = false ->
  has_bit r add_sub_NEW = true -> component_subscribed s' b = true.
Proof.
  destruct fuel as [|fuel]; [discriminate|]. simpl. intros H Hs Hi Hnew.
  rewrite Hs, Hi in H. simpl in H.
  destruct (load_manifest E f) as [m|]; [|injection H as <- <- <-; discriminate].
  rewrite andb_false_r in H.
  destruct (subscribe_includes _ (includes m) true _) as [[[r1 s1] t1]|] eqn:H1;
    [|discriminate].
  destruct (subscribe_includes _ (optional m) _ s1) as [[[r2 s2] t2]|] eqn:H2;
    [|discriminate].
  injection H as <- <- <-.
  apply subscribe_includes_post with (w := w) (mom := mom) (find_all := false) in H1;
    [|intros names s0 r0; apply add_subscriptions_post].
  apply subscribe_includes_post with (w := w) (mom := mom) (find_all := false) in H2;
    [|intros names s0 r0; apply add_subscriptions_post].
  destruct H1 as (_ & (new1 & -> & _) & _). destruct H2 as (_ & (new2 & -> & _) & _).
  rewrite !component_subscribed_app. apply orb_true_iff. left. apply orb_true_iff. left.
  destruct (component_subscribed subs b) eqn:Hsub; [assumption|].
  unfold create_and_append_subscription. rewrite component_subscribed_app.
  apply orb_true_iff. right. simpl. rewrite orb_false_r. now apply strcmp_eqb.
Qed.

Lemma count_installed_cons (bundles : list string) (m : manifest) (iter : list manifest)
    (a c : Z) :
  count_installed E bundles (m :: iter) a c =
  (let* installed := look (is_installed_bundle (component m)) in
   if installed then
     if string_in_list (component m) bundles then
       let* _ := track_installed E (component m) in
       count_installed E bundles iter (a + 1) c
     else count_installed E bundles iter a (c + 1)
   else count_installed E bundles iter a c).
Proof. reflexivity. Qed.

(** When no call of the platform fails, the loop after [out] leaves the
    bundle tracked: it was tracked before, or the loop comes to its
    manifest. *)
Lemma count_installed_tracks (b : string) (iter : list manifest) :
  (forall c w0, syscall_fails E c w0 = false) ->
  forall a c w r w' t,
    is_installed_bundle b w = true ->
    tracked b w \/ (exists m, In m iter /\ component m = b) ->
    count_installed E [b] iter a c w = Some (r, w', t) ->
    tracked b w'.
Proof.
  intros Hok. induction iter as [|m iter IH]; intros a c w r w' t Hi Hcase H;
    [simpl in H|rewrite count_installed_cons in H].
  - run_inv H. destruct Hcase as [Hs|(m & [] & _)]. exact Hs.
  - apply bind_inv in H. destruct H as (inst & w0 & t0 & r0 & w0' & t0' & H0 & H & Hr).
    run_inv H0. simpl in Hr. injection Hr as <- <- <-.
    destruct (string_in_list (component m) [b]) eqn:Hreq.
    + apply string_in_list_In in Hreq. destruct Hreq as [Hreq|[]]. rewrite <- Hreq in H.
      rewrite Hi in H.
      apply bind_inv in H. destruct H as ([] & wa & ta & r1 & w1 & t1 & Ht & H & Hr).
      injection Hr as <- <- _.
      eapply (IH _ _ wa); [|left|exact H].
      * rewrite (is_installed_same b w wa); [assumption|].
        eapply track_installed_same; eassumption.
      * eapply track_installed_creates; eassumption.
    + assert (Hne : component m <> b).
      { intros Heq. rewrite Heq in Hreq.
        assert (string_in_list b [b] = true) by (apply string_in_list_In; now left).
        congruence. }
      assert (Hrest : exists a' c', count_installed E [b] iter a' c' w = Some (r, w', t)).
      { destruct (is_installed_bundle (component m) w); eauto. }
      destruct Hrest as (a' & c' & Hrest).
      eapply (IH _ _ w); [assumption| |exact Hrest].
      destruct Hcase as [Hs|(m' & [<-|Hm'] & Hc)]; [now left|congruence|right; eauto].
Qed.

End Twice.
Lemma install_out_count (E : externs) (bundles : list string) (n : Z)
    (tib : list manifest) (invalid : bool) (code rc : swupd_code) (w w' : world)
    (t : list event) :
  install_out E bundles n tib invalid code w = Some (rc, w', t) ->
  exists r t', count_installed E bundles tib 0 0 w = Some (r, w', t').
Proof.
  unfold install_out. intros H.
  apply bind_inv in H. destruct H as ([bi di] & wa & ta & rc' & wb & tb & Hc & H & Hr).
  injection Hr as <- <- _.
  assert (Hw : w' = wa) by (unbind; reflexivity).
  subst wa. eauto.
Qed.

Lemma report_installed_one (E : externs) (mom : MoM) (b : string) (w w' : world)
    (n : Z) (t : list event) :
  report_installed E mom [b] 0 w = Some (n, w', t) ->
  if is_installed_bundle b w
  then exists t', track_installed E b w = Some (tt, w', t')
  else w' = w.
Proof.
  simpl. intros H.
  apply bind_inv in H. destruct H as (inst & w0 & t0 & r0 & w0' & t0' & H0 & H & Hr).
  run_inv H0. simpl in Hr. injection Hr as <- <- <-.
  apply bind_inv in H. destruct H as (n1 & wa & ta & r1 & w1 & t1 & H1 & H & Hr).
  injection Hr as <- <- _.
  apply bind_inv in H. destruct H as ([] & wb & tb & r2 & w2 & t2 & H2 & H & Hr).
  injection Hr as <- <- _. run_inv H.
  assert (Hwb : wb = wa).
  { destruct (search_bundle_in_manifest mom b) as [file|];
      [destruct (is_experimental file)|]; run_inv H2; reflexivity. }
  subst wb. destruct (is_installed_bundle b w).
  - apply bind_inv in H1. destruct H1 as ([] & wc & tc & r3 & w3 & t3 & Hw & H1 & Hr).
    injection Hr as <- <- _. run_inv Hw.
    apply bind_inv in H1. destruct H1 as ([] & wd & td & r4 & w4 & t4 & Ht & H1 & Hr).
    injection Hr as <- <- _. run_inv H1. eauto.
  - run_inv H1. reflexivity.
Qed.

(** A run for one bundle of the MoM in which no call of the platform fails
    and that returns with the bundle installed leaves the bundle tracked. *)
Lemma install_tracks (G : options) (E : externs) (fuel : nat) (mom : MoM) (b : string)
    (subs : list sub) (w w1 : world) (rc1 : swupd_code) (subs1 : list sub)
    (t1 : list event) :
  (forall c w0, syscall_fails E c w0 = false) ->
  install_bundles G E fuel [b] subs mom w = Some ((rc1, subs1), w1, t1) ->
  search_bundle_in_manifest mom b <> None ->
  is_installed_bundle b w1 = true ->
  (forall s, component_subscribed s b = true ->
             exists m, In m (recurse_manifest E mom s) /\ component m = b) ->
  tracked b w1.
Proof.
  intros Hok Hrun Hs Hi1 Hrec.
  destruct (search_bundle_in_manifest mom b) as [f|] eqn:Hf; [clear Hs|congruence].
  apply install_bundles_parts in Hrun.
  destruct Hrun as (r & subsA & n & wa & code & tib & invalid & w2 & ta & tr0 & t1' & ts &
                    t3 & -> & -> & Ha & Hb & Hst & Ho & Hw1 & Hw2 & _).
  destruct fuel as [|fuel]; [discriminate|].
  assert (Hi2 : is_installed_bundle b w2 = true)
    by now rewrite <- (is_installed_same b w2 w1 Hw2).
  apply install_out_count in Ho. destruct Ho as (rr & tc & Hc).
  apply report_installed_one in Hb.
  apply install_steps_spec in Hst.
  destruct (is_installed_bundle b w) eqn:Hi.
  - rewrite (add_subscriptions_installed G E fuel w mom b subs f Hf Hi) in Ha.
    injection Ha as <- <- <-. destruct Hb as (t' & Ht).
    destruct Hst as [(_ & -> & _ & -> & _)|(Hnew & _)]; [|discriminate].
    simpl in Hc. run_inv Hc.
    eapply track_installed_creates; eassumption.
  - subst wa.
    destruct Hst as [(_ & -> & _)|(Hnew & _ & -> & -> & _)].
    + rewrite Hi in Hi2. discriminate.
    + refine (count_installed_tracks E b _ Hok _ _ _ _ _ _ Hi2 _ Hc).
      right. apply Hrec.
      rewrite component_subscribed_components, set_subscription_versions_components,
        <- component_subscribed_components.
      eapply add_subscriptions_one; eassumption.
Qed.

(** X9: [install_bundles] is idempotent for one bundle once it has gone
    through.  When a run for a bundle of the MoM in which no call of the
    platform failed has returned with the bundle installed, and
    [recurse_manifest] gives a manifest for every bundle subscribed, a
    second run for the bundle on the machine the first one leaves,
    whichever calls of the platform fail in it, returns [SWUPD_OK], prints
    that the bundle is already installed, fetches, stages and renames
    nothing and leaves the machine and the subscriptions as they are. *)
Theorem install_twice (G : options) (E E2 : externs) (fuel : nat) (mom : MoM)
    (b : string) (subs : list sub) (w w1 : world) (rc1 : swupd_code)
    (subs1 : list sub) (t1 : list event) :
  (forall c w0, syscall_fails E c w0 = false) ->
  install_bundles G E fuel [b] subs mom w = Some ((rc1, subs1), w1, t1) ->
  search_bundle_in_manifest mom b <> None ->
  is_installed_bundle b w1 = true ->
  (forall s, component_subscribed s b = true ->
             exists m, In m (recurse_manifest E mom s) /\ component m = b) ->
  forall subs2, exists t2,
    install_bundles G E2 fuel [b] subs2 mom w1 = Some ((SWUPD_OK, subs2), w1, t2) /\
    In (EvMsg Warn (MsgAlreadyInstalled b)) t2 /\
    only [KMsg; KTrack] t2.
Proof.
  intros Hok Hrun Hs Hi1 Hrec subs2.
  pose proof (install_tracks G E fuel mom b subs w w1 rc1 subs1 t1 Hok Hrun Hs Hi1 Hrec)
    as Htracked.
  destruct (search_bundle_in_manifest mom b) as [f|] eqn:Hf; [clear Hs|congruence].
  destruct fuel as [|fuel]; [discriminate|].
  destruct (install_installed G E2 fuel mom b subs2 f w1 Hf Hi1) as (w' & tt' & Ht & Hrun2).
  pose proof (track_installed_settled E2 b w1 w' tt' Htracked Ht). subst w'.
  eexists. split; [exact Hrun2|]. split; [simpl; auto|].
  apply track_installed_only in Ht. destruct (is_experimental f); only_tac.
Qed.

Lemma install_twice_witness :
  (forall c w0, syscall_fails Runs.server c w0 = false) /\
  InstallRuns.add_editors =
    Some (result_value InstallRuns.none InstallRuns.add_editors,
          result_world Reference.base InstallRuns.add_editors,
          result_trace InstallRuns.add_editors) /\
  search_bundle_in_manifest Reference.the_mom "editors" <> None /\
  is_installed_bundle "editors"
    (result_world Reference.base InstallRuns.add_editors) = true /\
  (forall s, component_subscribed s "editors" = true ->
             exists m, In m (recurse_manifest Runs.server Reference.the_mom s) /\
                       component m = "editors"%string) /\
  forall subs2, exists t2,
    install_bundles Reference.defaults Failing.server 10 ["editors"%string] subs2
      Reference.the_mom (result_world Reference.base InstallRuns.add_editors)
      = Some ((SWUPD_OK, subs2), result_world Reference.base InstallRuns.add_editors, t2) /\
    In (EvMsg Warn (MsgAlreadyInstalled "editors")) t2 /\
    only [KMsg; KTrack] t2.
Proof.
  assert (Hrec : forall s, component_subscribed s "editors" = true ->
             exists m, In m (recurse_manifest Runs.server Reference.the_mom s) /\
                       component m = "editors"%string).
  { intros s Hs. exists Reference.editors. split; [|reflexivity].
    apply component_subscribed_In in Hs. destruct Hs as (x & Hx & Hc).
    apply list_elem_of_In. apply list_elem_of_omap. exists x.
    split; [now apply list_elem_of_In|]. rewrite Hc. reflexivity. }
  split; [reflexivity|].
  split; [vm_compute; reflexivity|]. split; [vm_compute; discriminate|].
  split; [vm_compute; reflexivity|]. split; [exact Hrec|].
  apply (install_twice Reference.defaults Runs.server Failing.server 10 Reference.the_mom
           "editors" [] Reference.base
           (result_world Reference.base InstallRuns.add_editors)
           (fst (result_value InstallRuns.none InstallRuns.add_editors))
           (snd (result_value InstallRuns.none InstallRuns.add_editors))
           (result_trace InstallRuns.add_editors)).
  - reflexivity.
  - vm_compute; reflexivity.
  - vm_compute; discriminate.
  - vm_compute; reflexivity.
  - exact Hrec.
Defined.

(** ** More on add_subscriptions *)

(** X10: the bit mask [add_subscriptions] returns says what happened.  It
    has no bit besides [add_sub_ERR], [add_sub_NEW] and [add_sub_BADNAME];
    [add_sub_ERR] is set exactly when the failure to load a manifest was
    reported, [add_sub_BADNAME] exactly when a name was reported as invalid,
    and [add_sub_NEW] exactly when the list of subscriptions has grown; the
    call prints nothing but these two kinds of messages. *)
Theorem add_subscriptions_mask (G : options) (E : externs) (w : world) (mom : MoM)
    (find_all : bool) (fuel : nat) (bundles : list string) (subs : list sub)
    (recursion : Z) (r : Z) (s' : list sub) (t : list event) :
  add_subscriptions G E fuel w mom find_all bundles subs recursion = Some (r, s', t) ->
  0 <= r < 8 /\
  (forall e, In e t -> subscription_event e) /\
  (has_bit r add_sub_ERR = true <-> exists b v, In (EvMsg Error (MsgManifestFailed b v)) t) /\
  (has_bit r add_sub_BADNAME = true <-> exists b, In (EvMsg Warn (MsgInvalid b)) t) /\
  (has_bit r add_sub_NEW = true <-> s' <> subs).
Proof.
  intros H. apply add_subscriptions_mask_rel in H.
  destruct H as (Hr & He & Herr & Hbad & new & -> & Hnew).
  repeat (split; [assumption|]). rewrite Hnew. now rewrite app_same_l.
Qed.

Lemma add_subscriptions_mask_witness :
  add_subscriptions Reference.defaults Runs.server 10 Reference.base Reference.the_mom
    false ["editors"%string; "zzz"%string] [] 0
  = Some (6, [mk_sub "editors" 0; mk_sub "vim" 0], [EvMsg Warn (MsgInvalid "zzz")]) /\
  0 <= 6 < 8 /\
  (forall e, In e [EvMsg Warn (MsgInvalid "zzz")] -> subscription_event e) /\
  (has_bit 6 add_sub_ERR = true <->
   exists b v, In (EvMsg Error (MsgManifestFailed b v)) [EvMsg Warn (MsgInvalid "zzz")]) /\
  (has_bit 6 add_sub_BADNAME = true <->
   exists b, In (EvMsg Warn (MsgInvalid b)) [EvMsg Warn (MsgInvalid "zzz")]) /\
  (has_bit 6 add_sub_NEW = true <-> [mk_sub "editors" 0; mk_sub "vim" 0] <> []).
Proof.
  split; [vm_compute; reflexivity|].
  apply (add_subscriptions_mask Reference.defaults Runs.server Reference.base
           Reference.the_mom false 10 ["editors"%string; "zzz"%string] [] 0).
  vm_compute. reflexivity.
Defined.

(** X11: [add_subscriptions] only appends to the list of subscriptions.
    What it appends are subscriptions to bundles of the MoM which, unless
    [find_all] is set, are not installed; and a list with at most one
    subscription per component stays one. *)
Theorem add_subscriptions_appends (G : options) (E : externs) (w : world) (mom : MoM)
    (find_all : bool) (fuel : nat) (bundles : list string) (subs : list sub)
    (recursion : Z) (r : Z) (s' : list sub) (t : list event) :
  add_subscriptions G E fuel w mom find_all bundles subs recursion = Some (r, s', t) ->
  (exists new, s' = subs ++ new /\
     forall s, In s new ->
       search_bundle_in_manifest mom (sub_component s) <> None /\
       (find_all = false -> is_installed_bundle (sub_component s) w = false)) /\
  (NoDup (components subs) -> NoDup (components s')).
Proof.
  intros H. split.
  - apply add_subscriptions_post in H. destruct H as (_ & Hnew & _). exact Hnew.
  - eapply add_subscriptions_NoDup. exact H.
Qed.

Lemma add_subscriptions_appends_witness :
  add_subscriptions Reference.defaults Runs.server 10 Reference.base Reference.the_mom
    false ["editors"%string; "vim"%string] [] 0
  = Some (2, [mk_sub "editors" 0; mk_sub "vim" 0], []) /\
  (exists new, [mk_sub "editors" 0; mk_sub "vim" 0] = [] ++ new /\
     forall s, In s new ->
       search_bundle_in_manifest Reference.the_mom (sub_component s) <> None /\
       (false = false -> is_installed_bundle (sub_component s) Reference.base = false)) /\
  (NoDup (components []) -> NoDup (components [mk_sub "editors" 0; mk_sub "vim" 0])).
Proof.
  split; [vm_compute; reflexivity|].
  apply (add_subscriptions_appends Reference.defaults Runs.server Reference.base
           Reference.the_mom false 10 ["editors"%string; "vim"%string] [] 0 2
           [mk_sub "editors" 0; mk_sub "vim" 0] []).
  vm_compute. reflexivity.
Defined.

(** X12: the recursion of [add_subscriptions] ends, also when bundles
    include each other: a call from the first level comes back as soon as
    the budget for the depth of the recursion exceeds by two the number of
    bundles of the MoM that the list does not subscribe to yet. *)
Theorem add_subscriptions_terminates (G : options) (E : externs) (w : world) (mom : MoM)
    (find_all : bool) (fuel : nat) (bundles : list string) (subs : list sub) :
  (add_subscriptions_budget mom subs <= fuel)%nat ->
  exists r s' t,
    add_subscriptions G E fuel w mom find_all bundles subs 0 = Some (r, s', t).
Proof.
  intros Hb. unfold add_subscriptions_budget in Hb.
  destruct (add_subscriptions_returns G E w mom fuel find_all bundles subs 0)
    as [[[r s'] t] Hr]; [lia|simpl; lia|eauto].
Qed.

Lemma add_subscriptions_terminates_witness :
  (add_subscriptions_budget Cyclic.mom [] <= 4)%nat /\
  exists r s' t,
    add_subscriptions Reference.defaults Cyclic.server 4 Cyclic.nothing Cyclic.mom true
      ["ping"%string] [] 0 = Some (r, s', t).
Proof.
  split; [vm_compute; lia|].
  apply (add_subscriptions_terminates Reference.defaults Cyclic.server Cyclic.nothing
           Cyclic.mom true 4 ["ping"%string] []).
  vm_compute. lia.
Defined.

Section Requested.

Context (G : options) (E : externs) (w : world) (mom : MoM) (find_all : bool).

Lemma subscribe_each_requested again :
  (forall names subs r, again names subs = Some r -> subscribed_post w mom find_all subs r) ->
  forall iter ret s tr r' s' tr',
    subscribe_each G E again w mom find_all 0 iter ret s tr = Some (r', s', tr') ->
    has_bit r' add_sub_ERR = false ->
    forall b, In b iter -> search_bundle_in_manifest mom b <> None ->
      negb find_all && is_installed_bundle b w = false ->
      component_subscribed s' b = true.
Proof.
  intros Hagain. induction iter as [|b0 iter IH]; intros ret s tr r' s' tr' H Herr b Hb Hs Hi;
    [contradiction|].
  simpl in H.
  destruct (search_bundle_in_manifest mom b0) as [f|] eqn:Hs0.
  2:{ destruct Hb as [->|Hb]; [congruence|]. eapply IH; eassumption. }
  destruct (negb find_all && is_installed_bundle b0 w) eqn:Hi0.
  { destruct Hb as [->|Hb]; [congruence|]. eapply IH; eassumption. }
  destruct (load_manifest E f) as [m|].
  2:{ injection H as <- <- <-. rewrite has_bit_lor in Herr.
      change (has_bit add_sub_ERR add_sub_ERR) with true in Herr.
      rewrite orb_true_r in Herr. discriminate. }
  rewrite andb_false_r in H.
  destruct (subscribe_includes again (includes m) true _) as [[[r1 s1] t1]|] eqn:H1;
    [|discriminate].
  destruct (subscribe_includes again (optional m) _ s1) as [[[r2 s2] t2]|] eqn:H2;
    [|discriminate].
  destruct Hb as [->|Hb]; [|eapply IH; eassumption].
  apply (subscribe_includes_post w mom again find_all) in H1; [|exact Hagain].
  apply (subscribe_includes_post w mom again find_all) in H2; [|exact Hagain].
  destruct H1 as (_ & (new1 & -> & _) & _). destruct H2 as (_ & (new2 & -> & _) & _).
  apply (subscribe_each_post G E w mom again find_all 0 Hagain) in H.
  destruct H as (t0 & new & _ & _ & -> & _).
  rewrite !component_subscribed_app. apply orb_true_iff. left.
  apply orb_true_iff. left. apply orb_true_iff. left.
  destruct (component_subscribed s b) eqn:Hsub; [assumption|].
  unfold create_and_append_subscription. rewrite component_subscribed_app.
  apply orb_true_iff. right. simpl. rewrite orb_false_r. now apply strcmp_eqb.
Qed.

End Requested.

(** X13: when a call of [add_subscriptions] from the first level comes
    back without the [add_sub_ERR] bit, the list subscribes to every bundle
    of the request that is a bundle of the MoM and that is not installed
    (to every one that is a bundle of the MoM, with [find_all]). *)
Theorem add_subscriptions_requested (G : options) (E : externs) (w : world) (mom : MoM)
    (find_all : bool) (fuel : nat) (bundles : list string) (subs : list sub)
    (r : Z) (s' : list sub) (t : list event) (b : string) :
  add_subscriptions G E fuel w mom find_all bundles subs 0 = Some (r, s', t) ->
  has_bit r add_sub_ERR = false ->
  In b bundles -> search_bundle_in_manifest mom b <> None ->
  (find_all = true \/ is_installed_bundle b w = false) ->
  component_subscribed s' b = true.
Proof.
  destruct fuel as [|fuel]; [discriminate|]. simpl. intros H Herr Hb Hs Hi.
  eapply (subscribe_each_requested G E w mom find_all); try eassumption.
  - intros names s0 r0. apply add_subscriptions_post.
  - destruct Hi as [->| ->]; [reflexivity|apply andb_false_r].
Qed.

Lemma add_subscriptions_requested_witness :
  add_subscriptions Reference.defaults Runs.server 10 Reference.base Reference.the_mom
    false ["editors"%string; "zzz"%string] [] 0
  = Some (6, [mk_sub "editors" 0; mk_sub "vim" 0], [EvMsg Warn (MsgInvalid "zzz")]) /\
  has_bit 6 add_sub_ERR = false /\
  In "editors"%string ["editors"%string; "zzz"%string] /\
  search_bundle_in_manifest Reference.the_mom "editors" <> None /\
  (false = true \/ is_installed_bundle "editors" Reference.base = false) /\
  component_subscribed [mk_sub "editors" 0; mk_sub "vim" 0] "editors" = true.
Proof.
  split; [vm_compute; reflexivity|]. split; [reflexivity|]. split; [simpl; auto|].
  split; [vm_compute; discriminate|]. split; [right; vm_compute; reflexivity|].
  apply (add_subscriptions_requested Reference.defaults Runs.server Reference.base
           Reference.the_mom false 10 ["editors"%string; "zzz"%string] [] 6
           [mk_sub "editors" 0; mk_sub "vim" 0] [EvMsg Warn (MsgInvalid "zzz")] "editors").
  - vm_compute; reflexivity.
  - reflexivity.
  - simpl; auto.
  - vm_compute; discriminate.
  - right; vm_compute; reflexivity.
Defined.

(** ** The tracking directory *)

(** X14: [track_installed] changes nothing but the tracking directory,
    never removes the tracking file of a bundle that has one, and either
    creates the tracking file of its bundle or prints (at debug level) that
    it could not; it has no other way out. *)
Theorem track_installed_effect (E : externs) (b : string) (w w' : world) (t : list event) :
  track_installed E b w = Some (tt, w', t) ->
  same_but_tracking w w' /\
  (forall e, In e t -> tracking_event b e) /\
  (forall x, tracked x w -> tracked x w') /\
  (In (EvCreate (TrackingFile b)) t \/ In (EvMsg Debug (MsgTrackingIssue b)) t).
Proof.
  intros H. split; [eapply track_installed_same; eassumption|].
  split; [eapply track_installed_events; eassumption|].
  split; [intros x Hx; eapply track_installed_keeps; eassumption|].
  eapply track_installed_attempt; eassumption.
Qed.

Lemma track_installed_effect_witness :
  track_installed Runs.server "vim" Reference.full =
    Some (tt, create_tracking "vim" Reference.full, [EvCreate (TrackingFile "vim")]) /\
  same_but_tracking Reference.full (create_tracking "vim" Reference.full) /\
  (forall e, In e [EvCreate (TrackingFile "vim")] -> tracking_event "vim" e) /\
  (forall x, tracked x Reference.full -> tracked x (create_tracking "vim" Reference.full)) /\
  (In (EvCreate (TrackingFile "vim")) [EvCreate (TrackingFile "vim")] \/
   In (EvMsg Debug (MsgTrackingIssue "vim")) [EvCreate (TrackingFile "vim")]).
Proof.
  split; [vm_compute; reflexivity|].
  apply (track_installed_effect Runs.server "vim" Reference.full).
  vm_compute. reflexivity.
Defined.

Lemma tracked_create (x b : string) (w : world) (names : gset string) :
  tracking w = Some names ->
  (tracked x (create_tracking b w) <-> x = b \/ tracked x w).
Proof.
  intros Hn. unfold tracked, create_tracking. simpl. rewrite Hn. split.
  - intros (s & [= <-] & Hx). apply elem_of_union in Hx. destruct Hx as [Hx|Hx].
    + left. now apply elem_of_singleton in Hx.
    + right. eauto.
  - intros [->|(s & [= <-] & Hx)]; (eexists; split; [reflexivity|]); set_solver.
Qed.

Lemma tracked_seeded (x : string) (w : world) :
  tracked x (seeded w) <-> is_installed_bundle x w = true /\ x <> ".MoM"%string.
Proof.
  unfold tracked, seeded, is_installed_bundle. simpl. rewrite bool_decide_eq_true. split.
  - intros (s & [= <-] & Hx). set_solver.
  - intros (Hx & Hne). eexists. split; [reflexivity|]. set_solver.
Qed.

(** What [track_installed] leaves when no call of the platform fails. *)
Lemma track_installed_tracks (E : externs) (b : string) (w w' : world) (t : list event) :
  (forall c w0, syscall_fails E c w0 = false) ->
  track_installed E b w = Some (tt, w', t) ->
  only [KTrack] t /\
  forall x, tracked x w' <->
            x = b \/ (if is_populated_dir w then tracked x w
                      else is_installed_bundle x w = true /\ x <> ".MoM"%string).
Proof.
  intros Hok H. pose proof (track_installed_creates E b w w' t Hok H) as Hb.
  pose proof (track_installed_cases E b w w' t H) as Hc.
  split.
  - revert H. unfold track_installed, track_installed_seed. intros H.
    unbind; repeat rewrite Hok in *; simpl in *; try discriminate; only_tac.
    all: exfalso; destruct Hb as (names & Hn & _); simpl in Hn;
      repeat match goal with
             | H : negb (bool_decide (is_Some ?x)) = true |- _ =>
                 apply negb_true_iff, bool_decide_eq_false in H; apply H
             end; eauto.
  - destruct Hc as [(Hpop & [-> | ->])|(Hpop & [(_ & Hf)|[(_ & Hf)|(_ & [-> | ->])]])];
      try (rewrite Hok in Hf; discriminate); intros x; rewrite Hpop.
    + split; [auto|]. intros [->|Hx]; assumption.
    + unfold is_populated_dir in Hpop. destruct (tracking w) as [names|] eqn:Hn;
        [|discriminate].
      now apply (tracked_create x b w names).
    + rewrite tracked_seeded. split; [auto|]. intros [->|Hx]; [|assumption].
      now apply tracked_seeded.
    + rewrite (tracked_create x b (seeded w) (bundles_dir w ∖ {[".MoM"%string]}))
        by reflexivity.
      now rewrite tracked_seeded.
Qed.

(** X15: when no call of the platform fails, [track_installed] leaves the
    bundle tracked and prints nothing.  On a tracking directory that holds
    tracking files it adds the one of the bundle to them; on a missing or
    empty one it first takes over the bundles directory, so that the bundles
    tracked afterwards are the bundle itself and the installed bundles,
    [.MoM] left out. *)
Theorem track_installed_result (E : externs) (b : string) (w w' : world) (t : list event) :
  (forall c w0, syscall_fails E c w0 = false) ->
  track_installed E b w = Some (tt, w', t) ->
  only [KTrack] t /\
  forall x, tracked x w' <->
            x = b \/ (if is_populated_dir w then tracked x w
                      else is_installed_bundle x w = true /\ x <> ".MoM"%string).
Proof. apply track_installed_tracks. Qed.

Lemma track_installed_result_witness :
  (forall c w0, syscall_fails Runs.server c w0 = false) /\
  track_installed Runs.server "os-core" Reference.base =
    Some (tt, create_tracking "os-core" (seeded Reference.base),
          [EvRmRf TrackingDir; EvCopyAll; EvUnlink (TrackingFile ".MoM");
           EvChmod TrackingDir; EvCreate (TrackingFile "os-core")]) /\
  only [KTrack] [EvRmRf TrackingDir; EvCopyAll; EvUnlink (TrackingFile ".MoM");
                 EvChmod TrackingDir; EvCreate (TrackingFile "os-core")] /\
  forall x, tracked x (create_tracking "os-core" (seeded Reference.base)) <->
            x = "os-core"%string \/
            (if is_populated_dir Reference.base then tracked x Reference.base
             else is_installed_bundle x Reference.base = true /\ x <> ".MoM"%string).
Proof.
  split; [reflexivity|]. split; [vm_compute; reflexivity|].
  apply (track_installed_result Runs.server "os-core" Reference.base).
  - reflexivity.
  - vm_compute. reflexivity.
Defined.

(** X16: once [track_installed] has created the tracking file of a bundle,
    tracking the bundle again changes nothing: a second call of
    [track_installed] for the bundle leaves the machine as the first one
    left it, whichever calls of the platform fail in the second call. *)
Theorem track_installed_idempotent (E E2 : externs) (b : string) (w w1 w2 : world)
    (t1 t2 : list event) :
  track_installed E b w = Some (tt, w1, t1) ->
  In (EvCreate (TrackingFile b)) t1 ->
  track_installed E2 b w1 = Some (tt, w2, t2) ->
  w2 = w1.
Proof.
  intros H1 Hin H2. eapply track_installed_settled; [|exact H2].
  eapply track_installed_made; eassumption.
Qed.

Lemma track_installed_idempotent_witness :
  track_installed Runs.server "os-core" Reference.base =
    Some (tt, create_tracking "os-core" (seeded Reference.base),
          [EvRmRf TrackingDir; EvCopyAll; EvUnlink (TrackingFile ".MoM");
           EvChmod TrackingDir; EvCreate (TrackingFile "os-core")]) /\
  In (EvCreate (TrackingFile "os-core"))
     [EvRmRf TrackingDir; EvCopyAll; EvUnlink (TrackingFile ".MoM");
      EvChmod TrackingDir; EvCreate (TrackingFile "os-core")] /\
  track_installed Failing.server "os-core"
    (create_tracking "os-core" (seeded Reference.base)) =
    Some (tt, result_world Reference.base
                (track_installed Failing.server "os-core"
                   (create_tracking "os-core" (seeded Reference.base))),
          [EvMsg Debug (MsgTrackingIssue "os-core")]) /\
  result_world Reference.base
    (track_installed Failing.server "os-core"
       (create_tracking "os-core" (seeded Reference.base)))
  = create_tracking "os-core" (seeded Reference.base).
Proof.
  assert (H1 : track_installed Runs.server "os-core" Reference.base =
    Some (tt, create_tracking "os-core" (seeded Reference.base),
          [EvRmRf TrackingDir; EvCopyAll; EvUnlink (TrackingFile ".MoM");
           EvChmod TrackingDir; EvCreate (TrackingFile "os-core")]))
    by (vm_compute; reflexivity).
  assert (H2 : track_installed Failing.server "os-core"
                 (create_tracking "os-core" (seeded Reference.base)) =
    Some (tt, result_world Reference.base
                (track_installed Failing.server "os-core"
                   (create_tracking "os-core" (seeded Reference.base))),
          [EvMsg Debug (MsgTrackingIssue "os-core")]))
    by (vm_compute; reflexivity).
  split; [exact H1|]. split; [simpl; auto 10|]. split; [exact H2|].
  refine (track_installed_idempotent Runs.server Failing.server "os-core" Reference.base
            _ _ _ _ H1 _ H2).
  simpl. auto 10.
Defined.

(** X17: [remove_tracked] is one call of [swupd_rm] on the tracking file of
    the bundle, whose failure is ignored.  It changes nothing but the
    tracking directory; when the call fails nothing changes, otherwise the
    bundles tracked afterwards are those tracked before without the bundle.
    So after [track_installed] and then [remove_tracked] for a bundle, with
    no call failing, the bundle is not tracked, and the other bundles
    tracked are those that were tracked before or, when the tracking
    directory was missing or empty, the installed bundles. *)
Theorem remove_tracked_effect (E : externs) (b : string) (w w' : world) (t : list event) :
  remove_tracked E b w = Some (tt, w', t) ->
  t = [EvRm (TrackingFile b)] /\ same_but_tracking w w' /\
  (if syscall_fails E (SysRm (TrackingFile b)) w then w' = w
   else forall x, tracked x w' <-> x <> b /\ tracked x w) /\
  (forall w0 t0, (forall c w1, syscall_fails E c w1 = false) ->
     track_installed E b w0 = Some (tt, w, t0) ->
     forall x, tracked x w' <->
       x <> b /\ (if is_populated_dir w0 then tracked x w0
                  else is_installed_bundle x w0 = true /\ x <> ".MoM"%string)).
Proof.
  intros H. pose proof (remove_tracked_spec E b w w' t H) as (Ht & Hs).
  unfold remove_tracked in H. run_inv H.
  assert (Hun : forall x, tracked x (unlink_tracking b w) <-> x <> b /\ tracked x w).
  { intros x. unfold tracked, unlink_tracking. simpl.
    destruct (tracking w) as [names|]; split.
    - intros (s & [= <-] & Hx). split; [set_solver|]. eexists. split; [reflexivity|].
      set_solver.
    - intros (Hne & s & [= <-] & Hx). eexists. split; [reflexivity|]. set_solver.
    - intros (s & [=] & _).
    - intros (_ & s & [=] & _). }
  split; [assumption|]. split; [assumption|]. split.
  - destruct (syscall_fails E (SysRm (TrackingFile b)) w); [reflexivity|exact Hun].
  - intros w0 t0 Hok Ht0 x. rewrite Hok, Hun.
    destruct (track_installed_tracks E b w0 w t0 Hok Ht0) as (_ & Hx). rewrite Hx. tauto.
Qed.

Lemma remove_tracked_effect_witness :
  remove_tracked Runs.server "editors" Reference.full =
    Some (tt, unlink_tracking "editors" Reference.full, [EvRm (TrackingFile "editors")]) /\
  [EvRm (TrackingFile "editors")] = [EvRm (TrackingFile "editors")] /\
  same_but_tracking Reference.full (unlink_tracking "editors" Reference.full) /\
  (if syscall_fails Runs.server (SysRm (TrackingFile "editors")) Reference.full
   then unlink_tracking "editors" Reference.full = Reference.full
   else forall x, tracked x (unlink_tracking "editors" Reference.full) <->
                  x <> "editors"%string /\ tracked x Reference.full) /\
  (forall w0 t0, (forall c w1, syscall_fails Runs.server c w1 = false) ->
     track_installed Runs.server "editors" w0 = Some (tt, Reference.full, t0) ->
     forall x, tracked x (unlink_tracking "editors" Reference.full) <->
       x <> "editors"%string /\
       (if is_populated_dir w0 then tracked x w0
        else is_installed_bundle x w0 = true /\ x <> ".MoM"%string)).
Proof.
  split; [vm_compute; reflexivity|].
  apply (remove_tracked_effect Runs.server "editors" Reference.full).
  vm_compute. reflexivity.
Defined.

(** ** More on remove_bundles *)

Section RemoveRuns.

Context (G : options) (E : externs).

(** The ways out of [remove_bundles] before its loop. *)
Lemma remove_prepare_inl (bundles : list string) (w w1 : world) (c : swupd_code)
    (t1 : list event) :
  remove_prepare E bundles w = Some (inl c, w1, t1) ->
  code_true c = true /\ snd (swupd_init E w) = w1 /\
  ((t1 = [EvInit; EvMsg Error MsgInitFailed] /\ fst (swupd_init E w) = c) \/
   (exists m, t1 = [EvInit; EvMsg Error m; EvTelemetry "bundleremove" c;
                    EvMsg Print MsgRemoveFailed] /\
              code_true (fst (swupd_init E w)) = false)).
Proof.
  unfold remove_prepare. intros H.
  apply bind_inv in H. destruct H as (r & w0 & t0 & r0 & w0' & t0' & H0 & H & Hr).
  injection Hr as <- <- ->.
  apply act_inv in H0. destruct H0 as (Hinit & ->).
  rewrite Hinit. simpl fst. simpl snd.
  destruct (code_true r) eqn:Hr0.
  - unbind. repeat split; auto.
  - unbind; (split; [reflexivity|]); (split; [reflexivity|]); right; eexists;
      (split; [reflexivity|first [assumption|reflexivity]]).
Qed.

Lemma remove_bundles_inl (fuel : nat) (bundles : list string) (w w1 w' : world)
    (c rc : swupd_code) (t1 tr : list event) :
  remove_prepare E bundles w = Some (inl c, w1, t1) ->
  remove_bundles G E fuel bundles w = Some (rc, w', tr) ->
  rc = c /\ w' = w1 /\ tr = t1.
Proof.
  intros Hp H. unfold remove_bundles, bind in H. rewrite Hp in H. unfold ret in H.
  injection H as <- <- <-. rewrite app_nil_r. auto.
Qed.

End RemoveRuns.

(** X18: in every run of [remove_bundles] that returns,
    [remove_files_from_fs] is called at most once, and only after the loop
    over the bundles: every tracking file the run removes is removed before
    any file of a bundle is unlinked, and nothing but messages follows the
    call. *)
Theorem remove_untracks_then_unlinks (G : options) (E : externs) (fuel : nat)
    (bundles : list string) (w w' : world) (rc : swupd_code) (tr : list event) :
  remove_bundles G E fuel bundles w = Some (rc, w', tr) ->
  exists pre post,
    tr = pre ++ post /\
    only [KInit; KMsg; KTelemetry; KUntrack] pre /\
    (only [KMsg] post \/
     exists l rest, post = EvRemoveFiles l :: rest /\ only [KMsg] rest).
Proof.
  intros H.
  destruct (remove_prepare E bundles w) as [[[[c|mom] w1] t1]|] eqn:Hp.
  - destruct (remove_bundles_inl G E fuel bundles w w1 w' c rc t1 tr Hp H) as (_ & _ & ->).
    apply remove_prepare_only in Hp. exists t1, []. split; [now rewrite app_nil_r|].
    split; [eapply only_mono; [|exact Hp]; simpl; tauto|left; apply only_nil].
  - destruct (remove_bundles_inr G E fuel bundles w w1 w' mom t1 tr rc Hp H)
      as (s & w2 & t2 & t3 & Hloop & _ & -> & Hfiles).
    apply remove_prepare_only in Hp. apply remove_loop_spec in Hloop.
    destruct Hloop as (Ho & _). cbv zeta in Hfiles.
    destruct Hfiles as [(-> & _)|(n & -> & _)].
    + exists (t1 ++ t2). eexists. split; [now rewrite <- app_assoc|].
      split; [|left; destruct (0 <? rs_bad s); only_tac].
      apply only_app. split; (eapply only_mono; [|eassumption]); simpl; tauto.
    + exists (t1 ++ t2 ++ [EvMsg Info MsgDeleting]). eexists.
      split; [rewrite <- !app_assoc; simpl; reflexivity|].
      split.
      * rewrite !only_app. repeat split;
          try (eapply only_mono; [|eassumption]; simpl; tauto). only_tac.
      * right. eexists _, _. split; [reflexivity|].
        destruct (0 <? rs_bad s); only_tac.
  - unfold remove_bundles, bind in H. rewrite Hp in H. discriminate.
Qed.

Lemma remove_untracks_then_unlinks_witness :
  Runs.remove_editors =
    Some (result_value SWUPD_OK Runs.remove_editors,
          result_world Reference.full Runs.remove_editors,
          result_trace Runs.remove_editors) /\
  exists pre post,
    result_trace Runs.remove_editors = pre ++ post /\
    only [KInit; KMsg; KTelemetry; KUntrack] pre /\
    (only [KMsg] post \/
     exists l rest, post = EvRemoveFiles l :: rest /\ only [KMsg] rest).
Proof.
  split; [vm_compute; reflexivity|].
  apply (remove_untracks_then_unlinks Reference.defaults Runs.server 3
           ["editors"%string] Reference.full
           (result_world Reference.full Runs.remove_editors)
           (result_value SWUPD_OK Runs.remove_editors)).
  vm_compute. reflexivity.
Defined.

(** X19: [remove_bundles] records telemetry only when it gives up before
    its loop, after a successful initialisation: the record is named
    [bundleremove] and holds the status returned, which is not [SWUPD_OK];
    the run then ends with the message that the removal failed and has
    removed neither a tracking file nor a file of a bundle. *)
Theorem remove_telemetry (G : options) (E : externs) (fuel : nat)
    (bundles : list string) (w w' : world) (rc : swupd_code) (tr : list event)
    (name : string) (c : swupd_code) :
  remove_bundles G E fuel bundles w = Some (rc, w', tr) ->
  In (EvTelemetry name c) tr ->
  name = "bundleremove"%string /\ c = rc /\ code_true rc = true /\
  w' = snd (swupd_init E w) /\ code_true (fst (swupd_init E w)) = false /\
  exists m, tr = [EvInit; EvMsg Error m; EvTelemetry "bundleremove" rc;
                  EvMsg Print MsgRemoveFailed].
Proof.
  intros H Hin.
  destruct (remove_prepare E bundles w) as [[[[c0|mom] w1] t1]|] eqn:Hp.
  - destruct (remove_bundles_inl G E fuel bundles w w1 w' c0 rc t1 tr Hp H)
      as (-> & -> & ->).
    apply remove_prepare_inl in Hp.
    destruct Hp as (Hc & Hw & [(-> & _)|(m & -> & Hi)]).
    + simpl in Hin. intuition discriminate.
    + simpl in Hin. destruct Hin as [Hin|[Hin|[Hin|[Hin|[]]]]]; try discriminate.
      injection Hin as <- <-. repeat split; auto. eauto.
  - exfalso.
    destruct (remove_bundles_inr G E fuel bundles w w1 w' mom t1 tr rc Hp H)
      as (s & w2 & t2 & t3 & Hloop & _ & -> & Hfiles).
    apply remove_prepare_inr in Hp. subst t1. apply remove_loop_spec in Hloop.
    destruct Hloop as (Ho & _). cbv zeta in Hfiles.
    destruct Hin as [Hin|Hin]; [discriminate|]. simpl in Hin.
    apply in_app_or in Hin. destruct Hin as [Hin|Hin]; [not_of_kind|].
    apply in_app_or in Hin. destruct Hin as [Hin|Hin].
    + destruct Hfiles as [(-> & _)|(n & -> & _)]; simpl in Hin; intuition discriminate.
    + destruct (0 <? rs_bad s); simpl in Hin; intuition discriminate.
  - unfold remove_bundles, bind in H. rewrite Hp in H. discriminate.
Qed.

Lemma remove_telemetry_witness :
  Offline.remove_vim =
    Some (SWUPD_COULDNT_LOAD_MOM, Reference.full,
          [EvInit; EvMsg Error (MsgMoMFailed 10);
           EvTelemetry "bundleremove" SWUPD_COULDNT_LOAD_MOM;
           EvMsg Print MsgRemoveFailed]) /\
  In (EvTelemetry "bundleremove" SWUPD_COULDNT_LOAD_MOM)
     [EvInit; EvMsg Error (MsgMoMFailed 10);
      EvTelemetry "bundleremove" SWUPD_COULDNT_LOAD_MOM; EvMsg Print MsgRemoveFailed] /\
  "bundleremove"%string = "bundleremove"%string /\
  SWUPD_COULDNT_LOAD_MOM = SWUPD_COULDNT_LOAD_MOM /\
  code_true SWUPD_COULDNT_LOAD_MOM = true /\
  Reference.full = snd (swupd_init Offline.server Reference.full) /\
  code_true (fst (swupd_init Offline.server Reference.full)) = false /\
  exists m, [EvInit; EvMsg Error (MsgMoMFailed 10);
             EvTelemetry "bundleremove" SWUPD_COULDNT_LOAD_MOM;
             EvMsg Print MsgRemoveFailed]
            = [EvInit; EvMsg Error m; EvTelemetry "bundleremove" SWUPD_COULDNT_LOAD_MOM;
               EvMsg Print MsgRemoveFailed].
Proof.
  split; [vm_compute; reflexivity|]. split; [simpl; auto|].
  apply (remove_telemetry Reference.defaults Offline.server 3 ["vim"%string]
           Reference.full Reference.full SWUPD_COULDNT_LOAD_MOM).
  - vm_compute. reflexivity.
  - simpl. auto.
Defined.

Section Rejected.

Context (G : options) (E : externs).

Lemma remove_prepare_world (bundles : list string) (w w1 : world)
    (r : swupd_code + MoM) (t1 : list event) :
  remove_prepare E bundles w = Some (r, w1, t1) -> w1 = snd (swupd_init E w).
Proof.
  unfold remove_prepare. intros H.
  apply bind_inv in H. destruct H as (r0 & w0 & t0 & r0' & w0' & t0' & H0 & H & Hr).
  injection Hr as <- <- ->.
  apply act_inv in H0. destruct H0 as (Hinit & ->). rewrite Hinit. simpl.
  unbind; reflexivity.
Qed.

(** A round of the loop that does not announce a removal leaves the
    machine and the two lists of manifests as they are. *)
Lemma remove_one_rejected (fuel : nat) (mom : MoM) (bundles : list string)
    (bundle : string) (s s' : remove_state) (w w' : world) (t : list event) :
  remove_one G E fuel mom bundles bundle s w = Some (s', w', t) ->
  (forall b, ~ In (EvMsg Info (MsgRemoving b)) t) ->
  w' = w /\ only [KMsg] t /\
  rs_submanifests s' = rs_submanifests s /\
  rs_bundles_to_remove s' = rs_bundles_to_remove s.
Proof.
  unfold remove_one. intros H Hno.
  unbind;
    repeat match goal with
           | H : call_required_by _ _ _ _ _ _ = Some _ |- _ =>
               apply call_required_by_spec in H; destruct H as (-> & ? & ? & ?)
           end;
    try (exfalso; apply (Hno bundle); rewrite ?in_app_iff; simpl; tauto);
    repeat split; only_tac.
Qed.

Lemma remove_loop_rejected (fuel : nat) (mom : MoM) (bundles : list string) :
  forall before s w s' w' t,
    remove_loop G E fuel mom before bundles s w = Some (s', w', t) ->
    (forall b, ~ In (EvMsg Info (MsgRemoving b)) t) ->
    w' = w /\ only [KMsg] t /\
    rs_submanifests s' = rs_submanifests s /\
    rs_bundles_to_remove s' = rs_bundles_to_remove s.
Proof.
  induction bundles as [|b rest IH]; intros before s w s' w' t H Hno; simpl in H.
  - run_inv H. repeat split. apply only_nil.
  - apply bind_inv in H. destruct H as (s1 & w1 & t1 & s2 & w2 & t2 & H1 & H & Hr).
    injection Hr as <- <- ->.
    apply remove_one_rejected in H1;
      [|intros x Hx; apply (Hno x); apply in_or_app; now left].
    destruct H1 as (-> & Hk1 & Hs1 & Hr1).
    apply IH in H; [|intros x Hx; apply (Hno x); apply in_or_app; now right].
    destruct H as (-> & Hk2 & Hs2 & Hr2). simpl in Hs2, Hr2.
    repeat split; try congruence. apply only_app. auto.
Qed.

End Rejected.

(** X20: a run of [remove_bundles] that accepts no bundle for removal
    (every bundle of the list is rejected, or the run gives up before its
    loop) removes no tracking file, unlinks no file and leaves the machine as
    [swupd_init] left it. *)
Theorem remove_nothing_accepted (G : options) (E : externs) (fuel : nat)
    (bundles : list string) (w w' : world) (rc : swupd_code) (tr : list event) :
  remove_bundles G E fuel bundles w = Some (rc, w', tr) ->
  (forall b, ~ In (EvMsg Info (MsgRemoving b)) tr) ->
  w' = snd (swupd_init E w) /\ only [KInit; KMsg; KTelemetry] tr.
Proof.
  intros H Hno.
  destruct (remove_prepare E bundles w) as [[[[c0|mom] w1] t1]|] eqn:Hp.
  - destruct (remove_bundles_inl G E fuel bundles w w1 w' c0 rc t1 tr Hp H)
      as (-> & -> & ->).
    split; [eapply remove_prepare_world; eassumption|].
    apply remove_prepare_only in Hp. eapply only_mono; [|exact Hp]. simpl; tauto.
  - destruct (remove_bundles_inr G E fuel bundles w w1 w' mom t1 tr rc Hp H)
      as (s & w2 & t2 & t3 & Hloop & _ & -> & Hfiles).
    pose proof (remove_prepare_world E _ _ _ _ _ Hp) as Hw1.
    apply remove_prepare_inr in Hp. subst t1.
    apply remove_loop_rejected in Hloop;
      [|intros x Hx; apply (Hno x); rewrite !in_app_iff; tauto].
    destruct Hloop as (-> & Hk & _ & Hr). simpl in Hr. cbv zeta in Hfiles.
    destruct Hfiles as [(-> & -> & _)|(n & _ & Hne & _)]; [|congruence].
    split; [assumption|].
    rewrite !only_app. repeat split; try (eapply only_mono; [|eassumption]; simpl; tauto).
    + only_tac.
    + apply only_nil.
    + destruct (0 <? rs_bad s); only_tac.
  - unfold remove_bundles, bind in H. rewrite Hp in H. discriminate.
Qed.

Lemma remove_nothing_accepted_witness :
  Runs.remove_os_core_zzz =
    Some (result_value SWUPD_OK Runs.remove_os_core_zzz,
          result_world Reference.base Runs.remove_os_core_zzz,
          result_trace Runs.remove_os_core_zzz) /\
  (forall b, ~ In (EvMsg Info (MsgRemoving b)) (result_trace Runs.remove_os_core_zzz)) /\
  result_world Reference.base Runs.remove_os_core_zzz
    = snd (swupd_init Runs.server Reference.full) /\
  only [KInit; KMsg; KTelemetry] (result_trace Runs.remove_os_core_zzz).
Proof.
  assert (Hno : forall b, ~ In (EvMsg Info (MsgRemoving b))
                               (result_trace Runs.remove_os_core_zzz)).
  { intros b.
    apply (absent_by (fun e => match e with
                               | EvMsg Info (MsgRemoving _) => true
                               | _ => false
                               end)); [vm_compute|]; reflexivity. }
  split; [vm_compute; reflexivity|]. split; [exact Hno|].
  apply (remove_nothing_accepted Reference.defaults Runs.server 3
           ["os-core"%string; "zzz"%string] Reference.full
           (result_world Reference.base Runs.remove_os_core_zzz)
           (result_value SWUPD_OK Runs.remove_os_core_zzz)
           (result_trace Runs.remove_os_core_zzz)).
  - vm_compute. reflexivity.
  - exact Hno.
Defined.

(** X21: [remove_bundles] comes back when the includes of the manifests it
    loads form no cycle: a budget for the depth of the recursion of
    [required_by] above the rank of every bundle is enough. *)
Theorem remove_bundles_terminates (G : options) (E : externs) (rank : string -> nat)
    (fuel : nat) (bundles : list string) (w : world) :
  (forall n, (rank n < fuel)%nat) ->
  (forall mom w1 t1, remove_prepare E bundles w = Some (inr mom, w1, t1) ->
                     ranked rank (submanifests mom)) ->
  exists rc w' tr, remove_bundles G E fuel bundles w = Some (rc, w', tr).
Proof.
  intros Hr Hk.
  destruct (returns_remove_bundles G E rank fuel bundles w Hr Hk) as ([[rc w'] tr] & H).
  eauto.
Qed.

Lemma remove_bundles_terminates_witness :
  (forall n, (Runs.rank n < 3)%nat) /\
  (forall mom w1 t1,
     remove_prepare Runs.server ["editors"%string] Reference.full = Some (inr mom, w1, t1) ->
     ranked Runs.rank (submanifests mom)) /\
  exists rc w' tr,
    remove_bundles Reference.defaults Runs.server 3 ["editors"%string] Reference.full
      = Some (rc, w', tr).
Proof.
  assert (Hk : forall mom w1 t1,
     remove_prepare Runs.server ["editors"%string] Reference.full = Some (inr mom, w1, t1) ->
     ranked Runs.rank (submanifests mom)).
  { intros mom w1 t1 H.
    assert (Heq : remove_prepare Runs.server ["editors"%string] Reference.full
                  = Some (inr Runs.loaded, Reference.full, [EvInit]))
      by (vm_compute; reflexivity).
    rewrite Heq in H. injection H as <- _ _. exact ranked_loaded. }
  split; [exact rank_below_3|]. split; [exact Hk|].
  apply (remove_bundles_terminates Reference.defaults Runs.server Runs.rank 3
           ["editors"%string] Reference.full rank_below_3 Hk).
Defined.

(** ** What required_by finds *)

Lemma requires_trans (subm : list manifest) (x y b : string) :
  requires subm y b -> requires subm x y -> requires subm x b.
Proof.
  intros H. revert x. induction H as [m b Hm Hb Hne|m b y Hm Hb Hne Hy IH]; intros x Hx.
  - eapply requires_through; eassumption.
  - eapply requires_through; try eassumption. now apply IH.
Qed.

Lemma list_str_deduplicate_acc_complete (x : string) (l : list string) :
  forall seen, In x l -> string_in_list x seen = false ->
               In x (list_str_deduplicate_acc seen l).
Proof.
  induction l as [|y l IH]; intros seen Hx Hs; [contradiction|]. simpl.
  destruct (string_in_list y seen) eqn:Hy.
  - destruct Hx as [->|Hx]; [congruence|]. now apply IH.
  - destruct (String.eqb_spec x y) as [->|Hne]; [now left|].
    destruct Hx as [->|Hx]; [congruence|]. right. apply IH; [assumption|].
    simpl. apply orb_false_iff. split; [|assumption]. apply strcmp_neqb. congruence.
Qed.

Lemma list_str_deduplicate_complete (x : string) (l : list string) :
  In x l -> In x (list_str_deduplicate l).
Proof. intros H. now apply list_str_deduplicate_acc_complete. Qed.

Lemma list_str_deduplicate_acc_NoDup (l : list string) :
  forall seen, List.NoDup (list_str_deduplicate_acc seen l) /\
               forall x, In x (list_str_deduplicate_acc seen l) -> ~ In x seen.
Proof.
  induction l as [|y l IH]; intros seen; simpl; [split; [constructor|contradiction]|].
  destruct (string_in_list y seen) eqn:Hy; [apply IH|].
  destruct (IH (y :: seen)) as (Hnd & Hout). split.
  - constructor; [|assumption]. intros Hin. apply (Hout y Hin). now left.
  - intros x [<-|Hx] Hs.
    + apply string_in_list_In in Hs. congruence.
    + apply (Hout x Hx). now right.
Qed.

Lemma list_str_deduplicate_NoDup (l : list string) : List.NoDup (list_str_deduplicate l).
Proof. apply list_str_deduplicate_acc_NoDup. Qed.

Section Resolver.

Context (G : options) (subm : list manifest) (exclusions : list string) (msg : message).

Lemma reqd_info_by (m : message) (s : reqd_state) : reqd_by (reqd_info m s) = reqd_by s.
Proof. reflexivity. Qed.

Lemma reqd_add_by (bundle : manifest) (recursion : Z) (s : reqd_state) :
  reqd_by (reqd_add G bundle recursion exclusions msg s) =
  if string_in_list (component bundle) exclusions then reqd_by s
  else reqd_by s ++ [component bundle].
Proof.
  unfold reqd_add. destruct (string_in_list (component bundle) exclusions); [reflexivity|].
  simpl. destruct (verbose G); [|reflexivity].
  destruct (print_msg s); destruct (recursion =? 1); reflexivity.
Qed.

Lemma reqd_list_items_by (l : list string) :
  forall s, reqd_by (fold_left (reqd_list_item G msg) l s) = reqd_by s.
Proof.
  induction l as [|x l IH]; intros s; simpl; [reflexivity|]. rewrite IH.
  unfold reqd_list_item. destruct (negb (verbose G)); [|reflexivity].
  now destruct (print_msg s).
Qed.

Lemma reqd_finish_by (s : reqd_state) :
  reqd_by (snd (reqd_finish G msg s)) = list_str_deduplicate (reqd_by s) /\
  fst (reqd_finish G msg s) = list_len (list_str_deduplicate (reqd_by s)).
Proof.
  unfold reqd_finish. simpl. split; [|reflexivity]. now rewrite reqd_list_items_by.
Qed.

(** *** Every bundle found requires the bundle asked for *)

Section Sound.

Context (target : string).

Definition found_ok (s : reqd_state) : Prop :=
  forall x, In x (reqd_by s) -> requires subm x target /\ string_in_list x exclusions = false.

Definition linked (cur : string) : Prop := cur = target \/ requires subm cur target.

Lemma linked_up (m : manifest) (cur : string) :
  In m subm -> In cur (includes m) -> component m <> cur -> linked cur ->
  requires subm (component m) target.
Proof.
  intros Hm Hc Hne [->|Hl]; [now apply requires_direct|].
  eapply requires_trans; [exact Hl|]. now apply requires_direct.
Qed.

Lemma reqd_add_ok (m : manifest) (cur : string) (recursion : Z) (s : reqd_state) :
  In m subm -> In cur (includes m) -> component m <> cur -> linked cur ->
  found_ok s -> found_ok (reqd_add G m recursion exclusions msg s).
Proof.
  intros Hm Hc Hne Hl Hs x Hx. rewrite reqd_add_by in Hx.
  destruct (string_in_list (component m) exclusions) eqn:He; [now apply Hs|].
  apply in_app_or in Hx. destruct Hx as [Hx|[<-|[]]]; [now apply Hs|].
  split; [|assumption]. eapply linked_up; eassumption.
Qed.

Lemma reqd_scan_includes_ok again (cur : string) (m : manifest) (recursion : Z) :
  (forall s name r, found_ok s -> linked name -> again s name = Some r -> found_ok (snd r)) ->
  In m subm -> component m <> cur -> linked cur ->
  forall i s s',
    (forall x, In x i -> In x (includes m)) -> found_ok s ->
    reqd_scan_includes G again cur m recursion exclusions msg i s = Some s' ->
    found_ok s'.
Proof.
  intros Hagain Hm Hne Hl. induction i as [|name i IH]; intros s s' Hsub Hs H; simpl in H.
  - now injection H as <-.
  - destruct (strcmp name cur =? 0) eqn:Hc.
    + apply strcmp_eqb in Hc. subst name.
      destruct (again _ _) as [[n s1]|] eqn:Ha; [|discriminate].
      eapply IH; [intros; apply Hsub; now right| |exact H].
      assert (Hin : In cur (includes m)) by (apply Hsub; now left).
      apply (Hagain _ _ _ (reqd_add_ok m cur recursion s Hm Hin Hne Hl Hs)
               (or_intror (linked_up m cur Hm Hin Hne Hl)) Ha).
    + eapply IH; [intros; apply Hsub; now right|exact Hs|exact H].
Qed.

Lemma reqd_scan_bundles_ok again (cur : string) (recursion : Z) :
  (forall s name r, found_ok s -> linked name -> again s name = Some r -> found_ok (snd r)) ->
  linked cur ->
  forall b s s',
    (forall m, In m b -> In m subm) -> found_ok s ->
    reqd_scan_bundles G again cur recursion exclusions msg b s = Some s' ->
    found_ok s'.
Proof.
  intros Hagain Hl. induction b as [|m b IH]; intros s s' Hsub Hs H; simpl in H.
  - now injection H as <-.
  - destruct (strcmp (component m) cur =? 0) eqn:Hc.
    + eapply IH; [intros; apply Hsub; now right|exact Hs|exact H].
    + apply strcmp_neqb in Hc.
      destruct (reqd_scan_includes _ _ _ _ _ _ _ _ _) as [s1|] eqn:Hi; [|discriminate].
      eapply IH; [intros; apply Hsub; now right| |exact H].
      eapply reqd_scan_includes_ok; [exact Hagain|apply Hsub; now left|exact Hc|exact Hl| |
                                     exact Hs|exact Hi].
      auto.
Qed.

Lemma required_by_ok (fuel : nat) :
  forall s cur recursion r,
    found_ok s -> linked cur ->
    required_by G fuel s cur subm recursion exclusions msg = Some r -> found_ok (snd r).
Proof.
  induction fuel as [|fuel IH]; intros s cur recursion r Hs Hl H; [discriminate|].
  simpl in H.
  destruct (reqd_scan_bundles _ _ _ _ _ _ _ _) as [s1|] eqn:Hb; [|discriminate].
  apply reqd_scan_bundles_ok in Hb; auto.
  - destruct (recursion + 1 =? 1); injection H as <-; [|exact Hb].
    intros x Hx. destruct (reqd_finish_by s1) as (Hby & _). rewrite Hby in Hx.
    apply list_str_deduplicate_In in Hx. now apply Hb.
  - intros s0 name r0 Hs0 Hn. now apply IH.
  - now destruct (recursion =? 0).
Qed.

End Sound.

(** *** Every bundle that requires the bundle asked for is found *)

Definition grows (s s' : reqd_state) : Prop :=
  forall x, In x (reqd_by s) -> In x (reqd_by s').

Lemma required_by_grows (fuel : nat) (s : reqd_state) (cur : string) (recursion : Z)
    (r : Z * reqd_state) :
  required_by G fuel s cur subm recursion exclusions msg = Some r -> grows s (snd r).
Proof.
  intros H x Hx.
  apply (required_by_inv G (fun s0 => In x (reqd_by s0)) subm exclusions msg) in H;
    try assumption.
  - intros s0 H0. exact H0.
  - intros b rec s0 _ _ H0. rewrite reqd_add_by.
    destruct (string_in_list (component b) exclusions); [assumption|].
    apply in_or_app. now left.
  - intros s0 H0. destruct (reqd_finish_by s0) as (-> & _).
    now apply list_str_deduplicate_complete.
Qed.

Lemma reqd_scan_includes_grows again (cur : string) (m : manifest) (recursion : Z) :
  (forall s name r, again s name = Some r -> grows s (snd r)) ->
  forall i s s',
    reqd_scan_includes G again cur m recursion exclusions msg i s = Some s' -> grows s s'.
Proof.
  intros Hagain. induction i as [|name i IH]; intros s s' H; simpl in H.
  - injection H as <-. intros x Hx. exact Hx.
  - destruct (strcmp name cur =? 0).
    + destruct (again _ _) as [[n s1]|] eqn:Ha; [|discriminate].
      apply Hagain in Ha. apply IH in H. intros x Hx. apply H, Ha. simpl.
      rewrite reqd_add_by. destruct (string_in_list (component m) exclusions);
        [assumption|apply in_or_app; now left].
    + now apply IH.
Qed.

Lemma reqd_scan_bundles_grows again (cur : string) (recursion : Z) :
  (forall s name r, again s name = Some r -> grows s (snd r)) ->
  forall b s s',
    reqd_scan_bundles G again cur recursion exclusions msg b s = Some s' -> grows s s'.
Proof.
  intros Hagain. induction b as [|m b IH]; intros s s' H; simpl in H.
  - injection H as <-. intros x Hx. exact Hx.
  - destruct (strcmp (component m) cur =? 0); [now apply IH|].
    destruct (reqd_scan_includes _ _ _ _ _ _ _ _ _) as [s1|] eqn:Hi; [|discriminate].
    apply reqd_scan_includes_grows in Hi; [|exact Hagain]. apply IH in H.
    intros x Hx. now apply H, Hi.
Qed.

(** The scan of the includes of a bundle that includes [cur] calls
    [required_by] for the bundle. *)
Lemma reqd_scan_includes_hit again (cur : string) (m : manifest) (recursion : Z) :
  (forall s name r, again s name = Some r -> grows s (snd r)) ->
  forall i s s',
    In cur i ->
    reqd_scan_includes G again cur m recursion exclusions msg i s = Some s' ->
    exists s1 r,
      again (reqd_add G m recursion exclusions msg s1) (component m) = Some r /\
      grows (snd r) s'.
Proof.
  intros Hagain. induction i as [|name i IH]; intros s s' Hin H; [contradiction|].
  simpl in H. destruct (strcmp name cur =? 0) eqn:Hc.
  - destruct (again _ _) as [[n s1]|] eqn:Ha; [|discriminate].
    exists s, (n, s1). split; [exact Ha|].
    eapply reqd_scan_includes_grows; [exact Hagain|exact H].
  - apply strcmp_neqb in Hc. destruct Hin as [->|Hin]; [congruence|].
    now apply (IH s s').
Qed.

Lemma reqd_scan_bundles_hit again (cur : string) (recursion : Z) (m : manifest) :
  (forall s name r, again s name = Some r -> grows s (snd r)) ->
  In cur (includes m) -> component m <> cur ->
  forall b s s',
    In m b ->
    reqd_scan_bundles G again cur recursion exclusions msg b s = Some s' ->
    exists s1 r,
      again (reqd_add G m recursion exclusions msg s1) (component m) = Some r /\
      grows (snd r) s'.
Proof.
  intros Hagain Hinc Hne. induction b as [|m0 b IH]; intros s s' Hin H; [contradiction|].
  simpl in H. destruct (strcmp (component m0) cur =? 0) eqn:Hc.
  - apply strcmp_eqb in Hc. destruct Hin as [->|Hin]; [congruence|]. now apply (IH s s').
  - destruct (reqd_scan_includes _ _ _ _ _ _ _ _ _) as [s1|] eqn:Hi; [|discriminate].
    destruct Hin as [->|Hin].
    + apply reqd_scan_includes_hit in Hi; [|exact Hagain|exact Hinc].
      destruct Hi as (s2 & r & Ha & Hg). exists s2, r. split; [exact Ha|].
      apply reqd_scan_bundles_grows in H; [|exact Hagain].
      intros x Hx. now apply H, Hg.
    + now apply (IH s1 s').
Qed.

Lemma required_by_complete (x cur : string) :
  requires subm x cur -> string_in_list x exclusions = false ->
  forall fuel s recursion r,
    required_by G fuel s cur subm recursion exclusions msg = Some r ->
    In x (reqd_by (snd r)).
Proof.
  intros Hreq Hex. induction Hreq as [m b Hm Hb Hne|m b x Hm Hb Hne Hx IH];
    intros fuel s recursion r H.
  - destruct fuel as [|fuel]; [discriminate|]. simpl in H.
    destruct (reqd_scan_bundles _ _ _ _ _ _ _ _) as [s1|] eqn:Hs; [|discriminate].
    apply (reqd_scan_bundles_hit _ b _ m) in Hs; try assumption.
    2:{ intros s0 name r0. apply required_by_grows. }
    destruct Hs as (s2 & r2 & Ha & Hg).
    apply required_by_grows in Ha.
    assert (Hin : In (component m) (reqd_by s1)).
    { apply Hg, Ha. rewrite reqd_add_by, Hex. apply in_or_app. right. now left. }
    destruct (recursion + 1 =? 1); injection H as <-; [|exact Hin].
    destruct (reqd_finish_by s1) as (-> & _). now apply list_str_deduplicate_complete.
  - destruct fuel as [|fuel]; [discriminate|]. simpl in H.
    destruct (reqd_scan_bundles _ _ _ _ _ _ _ _) as [s1|] eqn:Hs; [|discriminate].
    apply (reqd_scan_bundles_hit _ b _ m) in Hs; try assumption.
    2:{ intros s0 name r0. apply required_by_grows. }
    destruct Hs as (s2 & r2 & Ha & Hg).
    apply (IH Hex) in Ha.
    assert (Hin : In x (reqd_by s1)) by now apply Hg.
    destruct (recursion + 1 =? 1); injection H as <-; [|exact Hin].
    destruct (reqd_finish_by s1) as (-> & _). now apply list_str_deduplicate_complete.
Qed.

End Resolver.

(** The outermost call on an empty list. *)
Lemma required_by_top (G : options) (fuel : nat) (bundle : string)
    (subm : list manifest) (exclusions : list string) (msg : message)
    (n : Z) (r : reqd_state) :
  required_by G fuel (mk_reqd [] false []) bundle subm 0 exclusions msg = Some (n, r) ->
  forall x, In x (reqd_by r) <-> (requires subm x bundle /\ ~ In x exclusions).
Proof.
  intros Hr x. split.
  - intros Hx.
    assert (H0 : found_ok subm exclusions bundle (mk_reqd [] false [])) by (intros y []).
    destruct (required_by_ok G subm exclusions msg bundle fuel _ bundle 0 _
                H0 (or_introl eq_refl) Hr x Hx) as (Hreq & Hex).
    split; [exact Hreq|]. intros Hin. apply string_in_list_In in Hin. congruence.
  - intros (Hreq & Hex).
    refine (required_by_complete G subm exclusions msg x bundle Hreq _ fuel _ 0 _ Hr).
    destruct (string_in_list x exclusions) eqn:Hs; [|reflexivity].
    apply string_in_list_In in Hs. contradiction.
Qed.

Lemma required_by_top_finish (G : options) (fuel : nat) (s : reqd_state) (bundle : string)
    (subm : list manifest) (exclusions : list string) (msg : message) (r : Z * reqd_state) :
  required_by G fuel s bundle subm 0 exclusions msg = Some r ->
  exists s1, r = reqd_finish G msg s1.
Proof.
  destruct fuel as [|fuel]; [discriminate|]. simpl.
  destruct (reqd_scan_bundles _ _ _ _ _ _ _ _) as [s1|]; [|discriminate].
  intros [= <-]. now exists s1.
Qed.

(** X22: [required_by], called as [remove_bundles] calls it (line 622),
    reports exactly the bundles that require the bundle asked for through
    the includes of the loaded manifests and are not in the list of
    exclusions: every name of the list is one, and every such bundle is in
    the list.  An excluded bundle is left out, the bundles requiring it
    are not. *)
Theorem required_by_finds_dependents (G : options) (fuel : nat) (bundle : string)
    (subm : list manifest) (exclusions : list string) (w w' : world)
    (n : Z) (l : list string) (t : list event) :
  call_required_by G fuel bundle subm exclusions w = Some ((n, l), w', t) ->
  forall x, In x l <-> (requires subm x bundle /\ ~ In x exclusions).
Proof.
  unfold call_required_by. intros H.
  destruct (required_by _ _ _ _ _ _ _ _) as [[n0 r]|] eqn:Hr; [|discriminate].
  injection H as _ <- _ _. exact (required_by_top _ _ _ _ _ _ _ _ Hr).
Qed.

Lemma required_by_finds_dependents_witness :
  call_required_by Reference.defaults 3 "os-core" (submanifests Runs.loaded)
    ["vim"%string] Reference.full
  = Some ((1, ["editors"%string]), Reference.full,
          [EvMsg Info (MsgRequiredByHeader "os-core"); EvMsg Info (MsgListItem "editors")]) /\
  forall x, In x ["editors"%string] <->
            (requires (submanifests Runs.loaded) x "os-core" /\ ~ In x ["vim"%string]).
Proof.
  split; [vm_compute; reflexivity|].
  apply (required_by_finds_dependents Reference.defaults 3 "os-core"
           (submanifests Runs.loaded) ["vim"%string] Reference.full Reference.full 1
           ["editors"%string]
           [EvMsg Info (MsgRequiredByHeader "os-core"); EvMsg Info (MsgListItem "editors")]).
  vm_compute. reflexivity.
Defined.

(** X23: the list [required_by] hands back at line 622 names no bundle
    twice, the value returned is the length of that list, and it is zero
    exactly when no bundle outside the exclusions requires the bundle
    asked for. *)
Theorem required_by_count (G : options) (fuel : nat) (bundle : string)
    (subm : list manifest) (exclusions : list string) (w w' : world)
    (n : Z) (l : list string) (t : list event) :
  call_required_by G fuel bundle subm exclusions w = Some ((n, l), w', t) ->
  List.NoDup l /\ n = Z.of_nat (length l) /\
  (n = 0 <-> forall x, requires subm x bundle -> In x exclusions).
Proof.
  unfold call_required_by. intros H.
  destruct (required_by _ _ _ _ _ _ _ _) as [[n0 r]|] eqn:Hr; [|discriminate].
  injection H as <- <- _ _.
  pose proof (required_by_top _ _ _ _ _ _ _ _ Hr) as Hiff.
  apply required_by_top_finish in Hr. destruct Hr as (s1 & Hr).
  destruct (reqd_finish_by G (MsgRequiredByHeader bundle) s1) as (Hby & Hn).
  rewrite <- Hr in Hby, Hn. simpl in Hby, Hn. subst n0. rewrite Hby in *.
  split; [apply list_str_deduplicate_NoDup|]. split; [reflexivity|].
  unfold list_len. split.
  - intros Hz x Hreq. destruct (in_dec string_dec x exclusions) as [Hin|Hout]; [exact Hin|].
    destruct (list_str_deduplicate (reqd_by s1)) as [|y l']; [|simpl in Hz; lia].
    exfalso. now apply (Hiff x).
  - intros Hall. destruct (list_str_deduplicate (reqd_by s1)) as [|y l']; [reflexivity|].
    exfalso. destruct (proj1 (Hiff y) (or_introl eq_refl)) as (Hreq & Hout).
    apply Hout, Hall, Hreq.
Qed.

Lemma required_by_count_witness :
  call_required_by Reference.defaults 3 "vim" (submanifests Runs.loaded)
    ["editors"%string] Reference.full
  = Some ((0, []), Reference.full, []) /\
  List.NoDup (@nil string) /\ 0 = Z.of_nat (length (@nil string)) /\
  (0 = 0 <-> forall x, requires (submanifests Runs.loaded) x "vim" -> In x ["editors"%string]).
Proof.
  split; [vm_compute; reflexivity|].
  apply (required_by_count Reference.defaults 3 "vim" (submanifests Runs.loaded)
           ["editors"%string] Reference.full Reference.full 0 [] []).
  vm_compute. reflexivity.
Defined.

(** ** The commands *)

Lemma cret_inv {A : Type} (a b : A) (w w' : world) (t : list output) :
  cret a w = Some (b, w', t) -> b = a /\ w' = w /\ t = [].
Proof. unfold cret. intros [= <- <- <-]. auto. Qed.

Lemma say_inv (l : level) (m : command_message) (u : unit) (w w' : world) (t : list output) :
  say l m w = Some (u, w', t) -> w' = w /\ t = [Say l m].
Proof. unfold say. intros [= <- <- <-]. auto. Qed.

Lemma lift_inv {A : Type} (m : M A) (a : A) (w w' : world) (t : list output) :
  lift m w = Some (a, w', t) -> exists t0, m w = Some (a, w', t0) /\ t = map Core t0.
Proof.
  unfold lift. destruct (m w) as [[[a0 w0] t0]|]; [|discriminate].
  intros [= <- <- <-]. eauto.
Qed.

Lemma cbind_inv {A B : Type} (m : C A) (k : A -> C B) (w : world)
    (r : B * world * list output) :
  cbind m k w = Some r ->
  exists a w1 t1 b w2 t2,
    m w = Some (a, w1, t1) /\ k a w1 = Some (b, w2, t2) /\ r = (b, w2, t1 ++ t2).
Proof.
  unfold cbind. destruct (m w) as [[[a w1] t1]|]; [|discriminate].
  destruct (k a w1) as [[[b w2] t2]|] eqn:Hk; [|discriminate].
  intros [= <-]. eauto 10.
Qed.

(** One step of the inversion of a command. *)
Ltac cstep :=
  match goal with
  | H : cbind _ _ _ = Some _ |- _ =>
      let a := fresh "a" in let w := fresh "w" in let t := fresh "t" in
      let b := fresh "b" in let w' := fresh "w" in let t' := fresh "t" in
      let H1 := fresh "Hm" in let H2 := fresh "Hk" in let H3 := fresh "Hr" in
      apply cbind_inv in H;
      destruct H as (a & w & t & b & w' & t' & H1 & H2 & H3);
      injection H3; clear H3; intros; subst
  | H : cret _ _ = Some _ |- _ =>
      apply cret_inv in H;
      let Hb := fresh in let Hw := fresh in let Ht := fresh in
      destruct H as (Hb & Hw & Ht); subst
  | H : say _ _ _ = Some _ |- _ =>
      apply say_inv in H;
      let Hw := fresh in let Ht := fresh in
      destruct H as (Hw & Ht); subst
  | H : lift _ _ = Some _ |- _ =>
      let t0 := fresh "t" in let Ht := fresh in
      apply lift_inv in H; destruct H as (t0 & H & Ht); subst
  end.

Lemma names_of_app (t1 t2 : list output) : names_of (t1 ++ t2) = names_of t1 ++ names_of t2.
Proof. unfold names_of. apply omap_app. Qed.

Lemma names_of_core (t : list event) : names_of (map Core t) = [].
Proof. induction t as [|e t IH]; [reflexivity|exact IH]. Qed.

Lemma core_of_app (t1 t2 : list output) : core_of (t1 ++ t2) = core_of t1 ++ core_of t2.
Proof. unfold core_of. apply omap_app. Qed.

Lemma core_of_core (t : list event) : core_of (map Core t) = t.
Proof.
  induction t as [|e t IH]; [reflexivity|].
  change (e :: core_of (map Core t) = e :: t). now rewrite IH.
Qed.

(** *** show_included_bundles *)

Section ShowIncluded.

Context (G : options) (E : externs) (H : helpers).

(** The request of one bundle with [find_all], from no subscription: the
    bits say what happened to the bundle. *)
Lemma add_subscriptions_single (fuel : nat) (w : world) (mom : MoM) (b : string)
    (r : Z) (subs : list sub) (t : list event) :
  add_subscriptions G E fuel w mom true [b] [] 0 = Some (r, subs, t) ->
  has_bit r add_sub_ERR = false -> has_bit r add_sub_BADNAME = false ->
  r = add_sub_NEW /\ search_bundle_in_manifest mom b <> None /\
  component_subscribed subs b = true.
Proof.
  intros Ha Herr Hbad.
  pose proof (add_subscriptions_mask_rel G E w mom true fuel [b] [] 0 r subs t Ha)
    as (Hr & _ & He & _ & new & Hnew & Hbit).
  assert (Hs : search_bundle_in_manifest mom b <> None).
  { intros Hs.
    destruct (add_subscriptions_badname G E w mom fuel true [b] [] 0 r subs t b Ha
                (or_introl eq_refl) Hs) as [Hb|Hb]; [congruence|].
    apply He in Hb. congruence. }
  assert (Hsub : component_subscribed subs b = true).
  { assert (Hin : In b [b]) by now left.
    remember [b] as bs eqn:Hbs. clear Hbs.
    destruct fuel as [|fuel]; [discriminate|]. simpl in Ha.
    eapply (subscribe_each_requested G E w mom true);
      [|exact Ha|exact Herr|exact Hin|exact Hs|reflexivity].
    intros names s0 r0. apply add_subscriptions_post. }
  split; [|split; assumption].
  assert (Hn : has_bit r add_sub_NEW = true).
  { apply Hbit. intros ->. simpl in Hnew. subst subs. discriminate. }
  assert (Hc : r = 0 \/ r = 1 \/ r = 2 \/ r = 3 \/ r = 4 \/ r = 5 \/ r = 6 \/ r = 7) by lia.
  destruct Hc as [->|[->|[->|[->|[->|[->|[->| ->]]]]]]];
    vm_compute in Herr, Hbad, Hn; try discriminate; reflexivity.
Qed.

Lemma print_included_spec (b : string) (deps : list manifest) (w w' : world)
    (u : unit) (t : list output) :
  print_included b deps w = Some (u, w', t) ->
  w' = w /\
  t = map (fun n => Say Print (MsgName n))
        (List.filter (fun n => negb (strcmp b n =? 0)) (map component deps)).
Proof.
  revert w w' u t. induction deps as [|m deps IH]; intros w w' u t Hp; simpl in Hp.
  - cstep. auto.
  - simpl. destruct (strcmp b (component m) =? 0); simpl.
    + exact (IH _ _ _ _ Hp).
    + cstep. cstep. apply IH in Hk. destruct Hk as (-> & ->). auto.
Qed.

Lemma print_included_returns (b : string) (deps : list manifest) (w : world) :
  exists t, print_included b deps w = Some (tt, w, t).
Proof.
  induction deps as [|m deps IH]; simpl; [now exists []|].
  destruct (strcmp b (component m) =? 0); [exact IH|].
  destruct IH as (t & Ht). unfold cbind, say. rewrite Ht. eauto.
Qed.

Lemma names_of_names (l : list string) :
  names_of (map (fun n => Say Print (MsgName n)) l) = l.
Proof.
  induction l as [|x l IH]; [reflexivity|].
  change (x :: names_of (map (fun n => Say Print (MsgName n)) l) = x :: l). now rewrite IH.
Qed.

(** What a run of [show_included_bundles] is. *)
Lemma show_included_bundles_run (fuel : nat) (b : string) (w w' : world)
    (code : command_code) (t : list output) :
  show_included_bundles G E H fuel b w = Some (code, w', t) ->
  w' = w /\
  ((names_of t = [] /\ exists c, code = Code c /\ c <> SWUPD_OK /\
      forall o, In o t ->
        (exists e, o = Core e) \/ o = Say Error (MsgOfficialMoMFailed (get_current_version E w)) \/
        o = Say Error (MsgAborting "Processing error") \/
        o = Say Error (MsgAborting "Bad bundle name detected") \/
        o = Say Error MsgIncludedFailed) \/
   (code = Code SWUPD_OK /\ 0 <= get_current_version E w /\
    exists mom subs ta,
      load_mom_upstream H (get_current_version E w) w = Some mom /\
      add_subscriptions G E fuel w mom true [b] [] 0 = Some (add_sub_NEW, subs, ta) /\
      search_bundle_in_manifest mom b <> None /\
      component_subscribed subs b = true /\
      ((list_len (recurse_manifest E mom subs) = 1 /\
        t = map Core ta ++ [Say Info MsgNoIncluded]) \/
       (list_len (recurse_manifest E mom subs) <> 1 /\
        recurse_manifest E mom subs <> [] /\
        t = map Core ta ++ Say Info (MsgIncludedBy b) ::
            map (fun n => Say Print (MsgName n))
              (List.filter (fun n => negb (strcmp b n =? 0))
                 (map component (recurse_manifest E mom subs))))))).
Proof.
  unfold show_included_bundles. intros Hrun.
  cstep. cstep. run_inv Hm.
  destruct (get_current_version E w <? 0) eqn:Hv.
  { cstep. cstep. cstep. run_inv Hm. cbn [app map]. split; [reflexivity|]. left. split; [reflexivity|].
    exists SWUPD_CURRENT_VERSION_UNKNOWN. split; [reflexivity|]. split; [discriminate|].
    intros o [<-|[]]. left. eauto. }
  apply Z.ltb_ge in Hv.
  cstep. cstep. run_inv Hm.
  destruct (load_mom_upstream H (get_current_version E w) w) as [mom|] eqn:Hmom.
  2:{ cstep. cstep. cstep. cbn [app map]. split; [reflexivity|]. left. split; [reflexivity|].
      exists SWUPD_COULDNT_LOAD_MOM. split; [reflexivity|]. split; [discriminate|].
      intros o [<-|[]]. right. now left. }
  cstep. cstep. destruct a as [r subs]. unfold call_add_subscriptions_all in Hm.
  destruct (add_subscriptions G E fuel w mom true [b] [] 0) as [[[r0 subs0] ta]|] eqn:Ha;
    [|discriminate].
  injection Hm as -> -> <- <-. cbv beta iota in Hk.
  destruct (negb (r =? add_sub_NEW)) eqn:Hnew.
  { destruct (has_bit r add_sub_ERR) eqn:Herr.
    { cstep. cstep. cstep. cbn [app map]. split; [reflexivity|]. left.
      split; [rewrite names_of_app, names_of_core; reflexivity|].
      exists SWUPD_COULDNT_LOAD_MANIFEST. split; [reflexivity|]. split; [discriminate|].
      intros o Ho. apply in_app_or in Ho. destruct Ho as [Ho|[<-|[]]]; [|tauto].
      apply in_map_iff in Ho. destruct Ho as (e & <- & _). left. eauto. }
    destruct (has_bit r add_sub_BADNAME) eqn:Hbad.
    { cstep. cstep. cstep. cbn [app map]. split; [reflexivity|]. left.
      split; [rewrite names_of_app, names_of_core; reflexivity|].
      exists SWUPD_INVALID_BUNDLE. split; [reflexivity|]. split; [discriminate|].
      intros o Ho. apply in_app_or in Ho. destruct Ho as [Ho|[<-|[]]]; [|tauto].
      apply in_map_iff in Ho. destruct Ho as (e & <- & _). left. eauto. }
    destruct (add_subscriptions_single fuel w mom b r subs ta Ha Herr Hbad) as (-> & _).
    discriminate. }
  apply negb_false_iff, Z.eqb_eq in Hnew. subst r.
  destruct (add_subscriptions_single fuel w mom b _ subs ta Ha eq_refl eq_refl)
    as (_ & Hs & Hsub).
  destruct (recurse_manifest E mom subs) as [|m deps] eqn:Hdeps.
  { cstep. cstep. cstep. cbn [app map]. split; [reflexivity|]. left.
    split; [rewrite names_of_app, names_of_core; reflexivity|].
    exists SWUPD_RECURSE_MANIFEST. split; [reflexivity|]. split; [discriminate|].
    intros o Ho. apply in_app_or in Ho. destruct Ho as [Ho|[<-|[]]]; [|tauto].
    apply in_map_iff in Ho. destruct Ho as (e & <- & _). left. eauto. }
  cbv beta iota in Hk.
  destruct (list_len (m :: deps) =? 1) eqn:Hlen.
  - cstep. cstep. cstep. cbn [app map]. split; [reflexivity|]. right. split; [reflexivity|].
    split; [assumption|]. exists mom, subs, ta. rewrite Hdeps.
    repeat (split; [assumption || reflexivity|]). left.
    split; [now apply Z.eqb_eq|reflexivity].
  - cstep. cstep. cstep. cstep.
    match goal with Hp : print_included _ _ _ = Some _ |- _ =>
      apply print_included_spec in Hp; destruct Hp as (-> & ->) end.
    cbn [app map]. rewrite ?app_nil_r. split; [reflexivity|]. right. split; [reflexivity|].
    split; [assumption|]. exists mom, subs, ta. rewrite Hdeps.
    repeat (split; [assumption || reflexivity|]). right.
    split; [now apply Z.eqb_neq|]. split; [discriminate|].
    reflexivity.
Qed.

Lemma show_included_bundles_returns (fuel : nat) (b : string) (w : world) :
  (forall mom, load_mom_upstream H (get_current_version E w) w = Some mom ->
               (add_subscriptions_budget mom [] <= fuel)%nat) ->
  exists code t, show_included_bundles G E H fuel b w = Some (code, w, t).
Proof.
  intros Hfuel. unfold show_included_bundles, cbind at 1, lift at 1, look.
  destruct (get_current_version E w <? 0); [cbv; eauto|].
  unfold cbind at 1, lift at 1.
  destruct (load_mom_upstream H (get_current_version E w) w) as [mom|] eqn:Hmom;
    [|cbv; eauto].
  specialize (Hfuel mom eq_refl). unfold add_subscriptions_budget in Hfuel.
  destruct (add_subscriptions_returns G E w mom fuel true [b] [] 0) as [[[r subs] ta] Hr];
    [lia|simpl; lia|].
  unfold cbind at 1, lift at 1, call_add_subscriptions_all. rewrite Hr.
  destruct (negb (r =? add_sub_NEW)).
  { destruct (has_bit r add_sub_ERR); [cbv [cbind say cret]; eauto|].
    destruct (has_bit r add_sub_BADNAME); cbv [cbind say cret]; eauto. }
  destruct (recurse_manifest E mom subs) as [|m deps]; [cbv [cbind say cret]; eauto|].
  destruct (list_len (m :: deps) =? 1); [cbv [cbind say cret]; eauto|].
  destruct (print_included_returns b (m :: deps) w) as (tp & Hp).
  unfold cbind at 1, say at 1. unfold cbind at 1. rewrite Hp.
  cbv [cret]. eauto.
Qed.

End ShowIncluded.

(** X24: [show_included_bundles] comes back when [add_subscriptions] has
    the budget for its recursion, it leaves the machine as it was, and it
    never takes the branch of line 264: no run prints [Unknown error] or
    returns [SWUPD_UNEXPECTED_CONDITION], because a request of one bundle
    from an empty subscription list always sets one of the three bits. *)
Theorem show_included_never_unexpected (G : options) (E : externs) (H : helpers)
    (fuel : nat) (bundle_name : string) (w : world) :
  match load_mom_upstream H (get_current_version E w) w with
  | Some mom => (add_subscriptions_budget mom [] <= fuel)%nat
  | None => True
  end ->
  exists code t,
    show_included_bundles G E H fuel bundle_name w = Some (code, w, t) /\
    code <> SWUPD_UNEXPECTED_CONDITION /\
    forall l, ~ In (Say l (MsgAborting "Unknown error")) t.
Proof.
  intros Hfuel.
  destruct (show_included_bundles_returns G E H fuel bundle_name w) as (code & t & Hrun).
  { intros mom Hmom. now rewrite Hmom in Hfuel. }
  exists code, t. split; [exact Hrun|].
  apply show_included_bundles_run in Hrun.
  destruct Hrun as (_ & [(_ & c & -> & _ & Hall)|(-> & _ & mom & subs & ta & _ & _ & _ & _ & Ht)]).
  - split; [discriminate|]. intros l Hin.
    destruct (Hall _ Hin) as [(e & He)|[He|[He|[He|He]]]]; discriminate.
  - split; [discriminate|]. intros l Hin.
    destruct Ht as [(_ & ->)|(_ & _ & ->)].
    + apply in_app_or in Hin. destruct Hin as [Hin|[Hin|[]]]; [|discriminate].
      apply in_map_iff in Hin. destruct Hin as (e & He & _). discriminate.
    + apply in_app_or in Hin. destruct Hin as [Hin|[Hin|Hin]]; [|discriminate|].
      * apply in_map_iff in Hin. destruct Hin as (e & He & _). discriminate.
      * apply in_map_iff in Hin. destruct Hin as (n & Hn & _). discriminate.
Qed.

Lemma show_included_never_unexpected_witness :
  match load_mom_upstream CommandRuns.tools (get_current_version Runs.server Reference.base)
          Reference.base with
  | Some mom => (add_subscriptions_budget mom [] <= 10)%nat
  | None => True
  end /\
  exists code t,
    show_included_bundles Reference.defaults Runs.server CommandRuns.tools 10 "zzz"
      Reference.base = Some (code, Reference.base, t) /\
    code <> SWUPD_UNEXPECTED_CONDITION /\
    forall l, ~ In (Say l (MsgAborting "Unknown error")) t.
Proof.
  split; [vm_compute; lia|].
  apply (show_included_never_unexpected Reference.defaults Runs.server CommandRuns.tools 10
           "zzz" Reference.base).
  vm_compute. lia.
Defined.

(** X25: [show_included_bundles] prints bundle names only in a run that
    returns [SWUPD_OK], and never the name it was asked about.  Such a run
    found the bundle in the MoM and [add_subscriptions] returned
    [add_sub_NEW] alone; the names printed are the components of the list
    of [recurse_manifest] other than the bundle, in the order of the list,
    or none when that list has one element. *)
Theorem show_included_lists (G : options) (E : externs) (H : helpers)
    (fuel : nat) (bundle_name : string) (w w' : world) (code : command_code)
    (t : list output) :
  show_included_bundles G E H fuel bundle_name w = Some (code, w', t) ->
  (forall x, In x (names_of t) -> x <> bundle_name) /\
  (code <> Code SWUPD_OK -> names_of t = []) /\
  (code = Code SWUPD_OK ->
   exists mom subs ta,
     load_mom_upstream H (get_current_version E w) w = Some mom /\
     add_subscriptions G E fuel w mom true [bundle_name] [] 0 = Some (add_sub_NEW, subs, ta) /\
     search_bundle_in_manifest mom bundle_name <> None /\
     component_subscribed subs bundle_name = true /\
     names_of t =
       if list_len (recurse_manifest E mom subs) =? 1 then []
       else List.filter (fun n => negb (strcmp bundle_name n =? 0))
              (map component (recurse_manifest E mom subs))).
Proof.
  intros Hrun. apply show_included_bundles_run in Hrun.
  destruct Hrun as (_ & [(Hn & c & -> & Hc & _)|
                         (-> & _ & mom & subs & ta & Hmom & Ha & Hs & Hsub & Ht)]).
  - rewrite Hn. split; [intros x []|]. split; [reflexivity|].
    intros [= Hok]. contradiction.
  - assert (Hnames : names_of t =
              if list_len (recurse_manifest E mom subs) =? 1 then []
              else List.filter (fun n => negb (strcmp bundle_name n =? 0))
                     (map component (recurse_manifest E mom subs))).
    { destruct Ht as [(Hl & ->)|(Hl & _ & ->)].
      - rewrite Hl. simpl. now rewrite names_of_app, names_of_core.
      - apply Z.eqb_neq in Hl. rewrite Hl.
        rewrite names_of_app, names_of_core. simpl.
        change (names_of (map (fun n => Say Print (MsgName n))
                  (List.filter (fun n => negb (strcmp bundle_name n =? 0))
                     (map component (recurse_manifest E mom subs)))) = 
                List.filter (fun n => negb (strcmp bundle_name n =? 0))
                     (map component (recurse_manifest E mom subs))).
        apply names_of_names. }
    split.
    + intros x Hx. rewrite Hnames in Hx.
      destruct (list_len (recurse_manifest E mom subs) =? 1); [contradiction|].
      apply List.filter_In in Hx. destruct Hx as (_ & Hx).
      apply negb_true_iff, strcmp_neqb in Hx. congruence.
    + split; [congruence|]. intros _. exists mom, subs, ta. auto.
Qed.

Lemma show_included_lists_witness :
  show_included_bundles Reference.defaults Runs.server CommandRuns.tools 10 "editors"
    Reference.base
  = Some (Code SWUPD_OK, Reference.base,
          [Say Info (MsgIncludedBy "editors"); Say Print (MsgName "os-core");
           Say Print (MsgName "vim")]) /\
  (forall x, In x ["os-core"%string; "vim"%string] -> x <> "editors"%string).
Proof.
  split; [vm_compute; reflexivity|].
  apply (show_included_lists Reference.defaults Runs.server CommandRuns.tools 10 "editors"
           Reference.base Reference.base (Code SWUPD_OK)
           [Say Info (MsgIncludedBy "editors"); Say Print (MsgName "os-core");
            Say Print (MsgName "vim")]).
  vm_compute. reflexivity.
Defined.

(** *** install_bundles_frontend *)

Section Frontend.

Context (G : options) (E : externs) (H : helpers).

Lemma expand_aliases_spec (bundles : list string) :
  forall acc w,
    expand_aliases H bundles acc w =
    Some (flat_map (get_alias_bundles H w) (rev bundles) ++ acc, w,
          flat_map (alias_note H w) bundles).
Proof.
  induction bundles as [|b bundles IH]; intros acc w; [reflexivity|].
  simpl. unfold cbind at 1, lift at 1, look. unfold cbind at 1.
  assert (Hnote : (if negb (strcmp b (string_join H ", " (get_alias_bundles H w b)) =? 0)
                   then say Info (MsgAlias b (string_join H ", " (get_alias_bundles H w b)))
                   else cret tt) w = Some (tt, w, alias_note H w b)).
  { unfold alias_note. now destruct (negb _). }
  rewrite Hnote, IH. rewrite flat_map_app. simpl. rewrite app_nil_r, <- app_assoc.
  reflexivity.
Qed.

Lemma alias_notes_core (w : world) (bundles : list string) :
  core_of (flat_map (alias_note H w) bundles) = [].
Proof.
  induction bundles as [|b l IH]; [reflexivity|]. simpl. rewrite core_of_app, IH.
  unfold alias_note. now destruct (negb _).
Qed.

(** Neither [swupd_init] nor the telemetry is called from
    [install_bundles]. *)
Lemma install_bundles_kinds (fuel : nat) (bundles : list string) (subs : list sub)
    (mom : MoM) (w w' : world) (rc : swupd_code) (subs' : list sub) (t : list event) :
  install_bundles G E fuel bundles subs mom w = Some ((rc, subs'), w', t) ->
  only [KMsg; KTrack; KRmDownload; KDownload; KVerify; KUnstage; KStage; KRename;
        KSync; KScripts] t.
Proof.
  intros Hrun. apply install_bundles_parts in Hrun.
  destruct Hrun as (r & subs1 & n & w1 & code & tib & invalid & w2 & ta & tr & t1 & ts & t3 &
                    -> & _ & _ & _ & Hsteps & _ & _ & _ & H1 & H3 & _).
  apply install_steps_shape in Hsteps.
  destruct Hsteps as (pre & tst & trn & post & -> & Hpre & Hst & Hrn & Hcase).
  assert (Hpost : only [KSync; KScripts] post).
  { destruct Hcase as [(_ & -> & _)|(_ & _ & l & _ & _ & ->)]; only_tac. }
  repeat (apply only_app; split);
    (eapply only_mono; [|eassumption]); simpl; tauto.
Qed.

Lemma install_bundles_frontend_run (fuel : nat) (bundles : list string) (w w' : world)
    (rc : swupd_code) (t : list output) :
  install_bundles_frontend G E H fuel bundles w = Some (rc, w', t) ->
  if code_true (fst (swupd_init E w)) then
    rc = fst (swupd_init E w) /\ w' = snd (swupd_init E w) /\
    t = [Core EvInit; Core (EvMsg Error MsgInitFailed)]
  else
    exists t', t = Core EvInit :: t' ++ [Core (EvTelemetry "bundleadd" rc)] /\
      let w1 := snd (swupd_init E w) in
      let v := get_current_version E w1 in
      if v <? 0 then
        rc = SWUPD_CURRENT_VERSION_UNKNOWN /\ w' = w1 /\
        t' = [Core (EvMsg Error MsgVersionUnknown)]
      else
        match load_mom E v w1 with
        | None =>
            rc = SWUPD_COULDNT_LOAD_MOM /\ w' = w1 /\
            t' = [Say Error (MsgOfficialMoMFailed v)]
        | Some mom =>
            exists subs ti,
              install_bundles G E fuel (flat_map (get_alias_bundles H w1) (rev bundles))
                [] mom w1 = Some ((rc, subs), w', ti) /\
              t' = flat_map (alias_note H w1) bundles ++ map Core ti
        end.
Proof.
  unfold install_bundles_frontend.
  unfold cbind at 1, lift at 1, act. destruct (swupd_init E w) as [r w0].
  cbn [fst snd]. destruct (code_true r).
  { cbv [cbind lift error emit cret map app]. intros [= <- <- <-]. auto. }
  unfold cbind at 1, lift at 1, look.
  destruct (get_current_version E w0 <? 0).
  { cbv [cbind lift error emit cret map app]. intros [= <- <- <-].
    exists [Core (EvMsg Error MsgVersionUnknown)]. auto. }
  unfold cbind at 1, lift at 1.
  destruct (load_mom E (get_current_version E w0) w0) as [mom|].
  2:{ cbv [cbind lift say emit cret map app]. intros [= <- <- <-].
      exists [Say Error (MsgOfficialMoMFailed (get_current_version E w0))]. auto. }
  unfold cbind at 1. rewrite expand_aliases_spec. rewrite app_nil_r.
  unfold cbind at 1, lift at 1.
  destruct (install_bundles G E fuel _ [] mom w0) as [[[[rc0 subs] w2] ti]|] eqn:Hi;
    [|discriminate].
  cbv [cbind lift emit cret map]. intros [= <- <- <-].
  exists (flat_map (alias_note H w0) bundles ++ map Core ti). split.
  - cbn [app]. rewrite ?app_nil_r, <- ?app_assoc. reflexivity.
  - exists subs, ti. auto.
Qed.

Lemma install_bundles_frontend_returns (fuel : nat) (bundles : list string) (w : world) :
  (forall mom, load_mom E (get_current_version E (snd (swupd_init E w)))
                 (snd (swupd_init E w)) = Some mom ->
               (add_subscriptions_budget mom [] <= fuel)%nat) ->
  exists rc w' t, install_bundles_frontend G E H fuel bundles w = Some (rc, w', t).
Proof.
  intros Hfuel. unfold install_bundles_frontend.
  unfold cbind at 1, lift at 1, act. destruct (swupd_init E w) as [r w1]. simpl in Hfuel.
  destruct (code_true r); [cbv [cbind lift error emit cret]; eauto|].
  unfold cbind at 1, lift at 1, look.
  destruct (get_current_version E w1 <? 0); [cbv [cbind lift error emit cret]; eauto|].
  unfold cbind at 1, lift at 1.
  destruct (load_mom E (get_current_version E w1) w1) as [mom|];
    [|cbv [cbind lift say emit cret]; eauto].
  unfold cbind at 1. rewrite expand_aliases_spec.
  destruct (install_bundles_returns G E fuel
              (flat_map (get_alias_bundles H w1) (rev bundles) ++ []) [] mom w1
              (Hfuel mom eq_refl)) as (rc & subs & w' & ti & Hi).
  unfold cbind at 1, lift at 1. rewrite Hi.
  cbv [cbind lift emit cret]. eauto.
Qed.

End Frontend.

(** X26: [install_bundles_frontend] calls [swupd_init] once, first.  When
    that fails the status of [swupd_init] is returned after one error
    message and no telemetry record is sent; otherwise the run ends with
    exactly one telemetry record [bundleadd], which carries the status the
    function returns, also when the version is unknown or the MoM cannot
    be loaded. *)
Theorem install_frontend_telemetry (G : options) (E : externs) (H : helpers)
    (fuel : nat) (bundles : list string) (w w' : world) (rc : swupd_code)
    (t : list output) :
  install_bundles_frontend G E H fuel bundles w = Some (rc, w', t) ->
  if code_true (fst (swupd_init E w)) then
    rc = fst (swupd_init E w) /\ w' = snd (swupd_init E w) /\
    t = [Core EvInit; Core (EvMsg Error MsgInitFailed)]
  else
    exists t',
      core_of t = EvInit :: t' ++ [EvTelemetry "bundleadd" rc] /\
      forall e, In e t' -> event_kind e <> KInit /\ event_kind e <> KTelemetry.
Proof.
  intros Hrun. apply install_bundles_frontend_run in Hrun.
  destruct (code_true (fst (swupd_init E w))); [exact Hrun|].
  destruct Hrun as (t' & -> & Hrest). exists (core_of t'). split.
  { change (core_of (Core EvInit :: t' ++ [Core (EvTelemetry "bundleadd" rc)]))
      with (EvInit :: core_of (t' ++ [Core (EvTelemetry "bundleadd" rc)])).
    now rewrite core_of_app. }
  cbv zeta in Hrest.
  destruct (get_current_version E (snd (swupd_init E w)) <? 0).
  { destruct Hrest as (_ & _ & ->). intros e He. cbn in He. destruct He as [<-|[]].
    split; discriminate. }
  destruct (load_mom E _ _) as [mom|].
  2:{ destruct Hrest as (_ & _ & ->). intros e He. cbn in He. destruct He. }
  destruct Hrest as (subs & ti & Hi & ->).
  rewrite core_of_app, core_of_core.
  rewrite alias_notes_core. simpl. intros e He.
  apply install_bundles_kinds in Hi. apply (only_In _ _ _ Hi) in He.
  split; intros Hk; rewrite Hk in He; simpl in He; intuition discriminate.
Qed.

Lemma install_frontend_telemetry_witness :
  install_bundles_frontend Reference.defaults Offline.server CommandRuns.tools 10
    ["vim"%string] Reference.base
  = Some (SWUPD_COULDNT_LOAD_MOM, Reference.base,
          [Core EvInit; Say Error (MsgOfficialMoMFailed 10);
           Core (EvTelemetry "bundleadd" SWUPD_COULDNT_LOAD_MOM)]) /\
  exists t',
    core_of [Core EvInit; Say Error (MsgOfficialMoMFailed 10);
             Core (EvTelemetry "bundleadd" SWUPD_COULDNT_LOAD_MOM)]
    = EvInit :: t' ++ [EvTelemetry "bundleadd" SWUPD_COULDNT_LOAD_MOM] /\
    forall e, In e t' -> event_kind e <> KInit /\ event_kind e <> KTelemetry.
Proof.
  split; [vm_compute; reflexivity|].
  apply (install_frontend_telemetry Reference.defaults Offline.server CommandRuns.tools 10
           ["vim"%string] Reference.base Reference.base SWUPD_COULDNT_LOAD_MOM
           [Core EvInit; Say Error (MsgOfficialMoMFailed 10);
            Core (EvTelemetry "bundleadd" SWUPD_COULDNT_LOAD_MOM)]).
  vm_compute. reflexivity.
Defined.

(** X27: once [swupd_init] succeeded, the version is known and the MoM is
    loaded, [install_bundles_frontend] comes back (given the budget of
    [add_subscriptions]) with the status and the machine of one run of
    [install_bundles] from no subscription.  The list it hands over holds
    what [get_alias_bundles] gives for each name, the names taken in the
    reverse order of the command line; the alias notes come before that
    run on the trace and the telemetry record after it. *)
Theorem install_frontend_installs (G : options) (E : externs) (H : helpers)
    (fuel : nat) (bundles : list string) (w : world) (mom : MoM) :
  code_true (fst (swupd_init E w)) = false ->
  0 <= get_current_version E (snd (swupd_init E w)) ->
  load_mom E (get_current_version E (snd (swupd_init E w))) (snd (swupd_init E w))
    = Some mom ->
  (add_subscriptions_budget mom [] <= fuel)%nat ->
  exists rc subs w' ti,
    install_bundles G E fuel
      (flat_map (get_alias_bundles H (snd (swupd_init E w))) (rev bundles)) [] mom
      (snd (swupd_init E w)) = Some ((rc, subs), w', ti) /\
    install_bundles_frontend G E H fuel bundles w =
    Some (rc, w',
          Core EvInit :: flat_map (alias_note H (snd (swupd_init E w))) bundles ++
          map Core ti ++ [Core (EvTelemetry "bundleadd" rc)]).
Proof.
  intros Hinit Hv Hmom Hfuel.
  destruct (install_bundles_frontend_returns G E H fuel bundles w) as (rc & w' & t & Hrun).
  { intros mom' Hmom'. rewrite Hmom in Hmom'. now injection Hmom' as <-. }
  pose proof (install_bundles_frontend_run G E H fuel bundles w w' rc t Hrun) as Hr.
  rewrite Hinit in Hr. destruct Hr as (t' & -> & Hrest). cbv zeta in Hrest.
  apply Z.ltb_ge in Hv. rewrite Hv, Hmom in Hrest.
  destruct Hrest as (subs & ti & Hi & ->).
  exists rc, subs, w', ti. split; [exact Hi|].
  rewrite Hrun. now rewrite <- app_assoc.
Qed.

Lemma install_frontend_installs_witness :
  code_true (fst (swupd_init Runs.server Reference.base)) = false /\
  0 <= get_current_version Runs.server (snd (swupd_init Runs.server Reference.base)) /\
  load_mom Runs.server
    (get_current_version Runs.server (snd (swupd_init Runs.server Reference.base)))
    (snd (swupd_init Runs.server Reference.base)) = Some Reference.the_mom /\
  (add_subscriptions_budget Reference.the_mom [] <= 10)%nat /\
  exists rc subs w' ti,
    install_bundles Reference.defaults Runs.server 10
      (flat_map (get_alias_bundles CommandRuns.tools
                   (snd (swupd_init Runs.server Reference.base)))
         (rev ["os-core"%string; "dev"%string])) [] Reference.the_mom
      (snd (swupd_init Runs.server Reference.base)) = Some ((rc, subs), w', ti) /\
    install_bundles_frontend Reference.defaults Runs.server CommandRuns.tools 10
      ["os-core"%string; "dev"%string] Reference.base =
    Some (rc, w',
          Core EvInit ::
          flat_map (alias_note CommandRuns.tools
                      (snd (swupd_init Runs.server Reference.base)))
            ["os-core"%string; "dev"%string] ++
          map Core ti ++ [Core (EvTelemetry "bundleadd" rc)]).
Proof.
  split; [reflexivity|]. split; [vm_compute; discriminate|]. split; [reflexivity|].
  split; [vm_compute; lia|].
  apply (install_frontend_installs Reference.defaults Runs.server CommandRuns.tools 10
           ["os-core"%string; "dev"%string] Reference.base Reference.the_mom).
  - reflexivity.
  - vm_compute. discriminate.
  - reflexivity.
  - vm_compute. lia.
Defined.

(** *** show_bundle_reqd_by *)

Section ShowReqdBy.

Context (G : options) (E : externs) (H : helpers).

(** The call of [required_by] without exclusions. *)
Lemma call_required_by_all_spec (fuel : nat) (b : string) (subm : list manifest)
    (msg : message) (w w' : world) (n : Z) (l : list string) (t : list event) :
  call_required_by_all G fuel b subm msg w = Some ((n, l), w', t) ->
  w' = w /\ List.NoDup l /\ n = Z.of_nat (length l) /\
  forall x, In x l <-> requires subm x b.
Proof.
  unfold call_required_by_all.
  destruct (required_by _ _ _ _ _ _ _ _) as [[n0 r]|] eqn:Hr; [|discriminate].
  intros [= <- <- <- <-]. split; [reflexivity|].
  pose proof (required_by_top _ _ _ _ _ _ _ _ Hr) as Hiff.
  apply required_by_top_finish in Hr. destruct Hr as (s1 & Hr).
  destruct (reqd_finish_by G msg s1) as (Hby & Hn).
  rewrite <- Hr in Hby, Hn. simpl in Hby, Hn. subst n0. rewrite Hby in *.
  split; [apply list_str_deduplicate_NoDup|]. split; [reflexivity|].
  intros x. rewrite Hiff. simpl. tauto.
Qed.

(** What [show_bundle_reqd_by] found, read off its last messages. *)
Lemma show_bundle_reqd_by_run (fuel : nat) (msg : bool -> string -> message)
    (b : string) (server : bool) (w w' : world) (rc : swupd_code) (t : list output) :
  show_bundle_reqd_by G E H fuel msg b server w = Some (rc, w', t) ->
  w' = w /\
  ((rc <> SWUPD_OK /\ exists t', t = t' ++ [Say Print MsgListFailed] /\
      forall o, In o t' -> is_verdict o = false) \/
   (rc = SWUPD_OK /\ ~ In (Say Print MsgListFailed) t /\
    (server = false -> is_installed_bundle b w = true) /\
    exists mom subs n l tp,
      load_mom_upstream H (get_current_version E w) w = Some mom /\
      search_bundle_in_manifest mom b <> None /\
      subs = (if server then snd (add_included_manifests H mom w)
              else read_subscriptions E w) /\
      call_required_by_all G fuel b
        (if server then recurse_manifest_server H mom subs
         else recurse_manifest E mom subs) (msg server b) w = Some ((n, l), w, tp) /\
      t = map Core tp ++
          [if decide (l = []) then Say Info (MsgNoDependency b)
           else Say Info (MsgIsRequiredBy b n)])).
Proof.
  unfold show_bundle_reqd_by. cbv zeta.
  unfold cbind at 1, lift at 1, look at 1.
  assert (Hfail : forall c t', code_true c = true ->
            forallb (fun o => negb (is_verdict o)) t' = true ->
            c <> SWUPD_OK /\ exists t'0, t' ++ [Say Print MsgListFailed]
                                         = t'0 ++ [Say Print MsgListFailed] /\
              forall o, In o t'0 -> is_verdict o = false).
  { intros c t' Hc Ht. split; [intros ->; discriminate|]. exists t'.
    split; [reflexivity|]. intros o Ho.
    apply (proj1 (forallb_forall _ _) Ht) in Ho. now apply negb_true_iff in Ho. }
  destruct (negb server && negb (is_installed_bundle b w)) eqn:Hinst.
  { cbv [cbind say cret code_true app]. intros [= <- <- <-]. split; [reflexivity|]. left.
    apply (Hfail SWUPD_BUNDLE_NOT_TRACKED [Say Info (MsgNotSeemInstalled b); Say Info MsgTryAll] eq_refl).
    reflexivity. }
  unfold cbind at 1, lift at 1, look at 1.
  destruct (get_current_version E w <? 0).
  { cbv [cbind lift error emit say cret code_true app map]. intros [= <- <- <-].
    split; [reflexivity|]. left.
    apply (Hfail SWUPD_CURRENT_VERSION_UNKNOWN [Core (EvMsg Error MsgVersionUnknown)] eq_refl).
    reflexivity. }
  unfold cbind at 1, lift at 1, look at 1.
  destruct (load_mom_upstream H (get_current_version E w) w) as [mom|].
  2:{ cbv [cbind lift error emit say cret code_true app map]. intros [= <- <- <-].
      split; [reflexivity|]. left.
      apply (Hfail SWUPD_COULDNT_LOAD_MOM [Core (EvMsg Error (MsgMoMFailed (get_current_version E w)))] eq_refl).
      reflexivity. }
  destruct (search_bundle_in_manifest mom b) as [f|] eqn:Hs.
  2:{ cbv [cbind lift error emit say cret code_true app map]. intros [= <- <- <-].
      split; [reflexivity|]. left.
      apply (Hfail SWUPD_INVALID_BUNDLE [Say Error (MsgInvalidAborting b)] eq_refl).
      reflexivity. }
  unfold cbind at 1.
  set (subs := if server then snd (add_included_manifests H mom w)
               else read_subscriptions E w).
  assert (Hsubs :
    (if server
     then let+ ' (ret, subs0) := lift (look (add_included_manifests H mom)) in
          if negb (ret =? 0)
          then let+ _ := say Error MsgServerManifestFailed in cret None
          else cret (Some subs0)
     else let+ subs0 := lift (look (read_subscriptions E)) in cret (Some subs0)) w =
    if server && negb (fst (add_included_manifests H mom w) =? 0)
    then Some (None, w, [Say Error MsgServerManifestFailed])
    else Some (Some subs, w, [])).
  { subst subs. destruct server; [|reflexivity].
    unfold cbind at 1, lift at 1, look. destruct (add_included_manifests H mom w) as [r s].
    simpl. now destruct (negb (r =? 0)). }
  rewrite Hsubs. clear Hsubs.
  destruct (server && negb (fst (add_included_manifests H mom w) =? 0)).
  { cbv [cbind lift error emit say cret code_true app map]. intros [= <- <- <-].
    split; [reflexivity|]. left.
    apply (Hfail SWUPD_COULDNT_LOAD_MANIFEST [Say Error MsgServerManifestFailed] eq_refl).
    reflexivity. }
  set (subm := if server then recurse_manifest_server H mom subs
               else recurse_manifest E mom subs).
  destruct subm as [|m0 subm0] eqn:Hsubm.
  { cbv [cbind lift error emit say cret code_true app map]. intros [= <- <- <-].
    split; [reflexivity|]. left.
    apply (Hfail SWUPD_RECURSE_MANIFEST [Core (EvMsg Error MsgSubmanifestsFailed)] eq_refl).
    reflexivity. }
  unfold cbind at 1, lift at 1.
  destruct (call_required_by_all G fuel b (m0 :: subm0) (msg server b) w)
    as [[[[n l] w1] tp]|] eqn:Hreq; [|discriminate].
  assert (Hw1 : w1 = w).
  { unfold call_required_by_all in Hreq. destruct (required_by _ _ _ _ _ _ _ _) as [[? ?]|];
      [|discriminate]. now injection Hreq as _ _ <- _. }
  subst w1.
  assert (Hinst' : server = false -> is_installed_bundle b w = true).
  { intros ->. simpl in Hinst. now apply negb_false_iff in Hinst. }
  assert (Hnot : forall o, ~ In (Say Print MsgListFailed) (map Core tp ++ [Say Info o])).
  { intros o Hin. apply in_app_or in Hin. destruct Hin as [Hin|[Hin|[]]]; [|discriminate].
    apply in_map_iff in Hin. destruct Hin as (e & He & _). discriminate. }
  destruct l as [|x l].
  - cbv [cbind lift say cret code_true]. cbn [app]. intros [= <- <- <-].
    split; [reflexivity|]. right.
    split; [reflexivity|]. split; [apply Hnot|]. split; [exact Hinst'|].
    exists mom, subs, n, [], tp. rewrite Hs. fold subm. rewrite Hsubm.
    split; [reflexivity|]. split; [discriminate|]. split; [reflexivity|].
    split; [exact Hreq|reflexivity].
  - cbv [cbind lift say cret code_true]. cbn [app]. intros [= <- <- <-].
    split; [reflexivity|]. right.
    split; [reflexivity|]. split; [apply Hnot|]. split; [exact Hinst'|].
    exists mom, subs, n, (x :: l), tp. rewrite Hs. fold subm. rewrite Hsubm.
    split; [reflexivity|]. split; [discriminate|]. split; [reflexivity|].
    split; [exact Hreq|reflexivity].
Qed.

End ShowReqdBy.

(** X28: a run of [show_bundle_reqd_by] leaves the machine as it was and
    prints [Bundle list failed], as its last line, exactly when the status
    it returns is not [SWUPD_OK].  A run that returns [SWUPD_OK] found the
    bundle in the MoM (and installed, without [server]); its last line
    gives the number of the bundles that require the bundle through the
    includes of the loaded manifests, each counted once, or says that no
    bundle has it as a dependency when there is none. *)
Theorem show_reqd_by_verdict (G : options) (E : externs) (H : helpers) (fuel : nat)
    (msg : bool -> string -> message) (bundle_name : string) (server : bool)
    (w w' : world) (rc : swupd_code) (t : list output) :
  show_bundle_reqd_by G E H fuel msg bundle_name server w = Some (rc, w', t) ->
  w' = w /\
  (In (Say Print MsgListFailed) t <-> rc <> SWUPD_OK) /\
  (rc <> SWUPD_OK -> exists t', t = t' ++ [Say Print MsgListFailed] /\
                                forall o, In o t' -> is_verdict o = false) /\
  (rc = SWUPD_OK ->
   (server = false -> is_installed_bundle bundle_name w = true) /\
   exists mom n l tp,
     load_mom_upstream H (get_current_version E w) w = Some mom /\
     search_bundle_in_manifest mom bundle_name <> None /\
     List.NoDup l /\ n = Z.of_nat (length l) /\
     (forall x, In x l <->
        requires (let subs := if server then snd (add_included_manifests H mom w)
                               else read_subscriptions E w in
                  if server then recurse_manifest_server H mom subs
                  else recurse_manifest E mom subs) x bundle_name) /\
     t = map Core tp ++
         [if decide (l = []) then Say Info (MsgNoDependency bundle_name)
          else Say Info (MsgIsRequiredBy bundle_name n)]).
Proof.
  intros Hrun. apply show_bundle_reqd_by_run in Hrun.
  destruct Hrun as (-> & [(Hrc & t' & -> & Hq)|
                          (-> & Hnot & Hinst & mom & subs & n & l & tp & Hmom & Hs & -> &
                           Hreq & ->)]).
  - split; [reflexivity|]. split.
    { split; [intros _; exact Hrc|]. intros _. apply in_or_app. right. now left. }
    split; [intros _; exists t'; auto|]. intros Hok. contradiction.
  - split; [reflexivity|]. split.
    { split; [intros Hin; contradiction|]. intros Hne. now contradiction Hne. }
    split; [intros Hne; now contradiction Hne|]. intros _. split; [exact Hinst|].
    apply call_required_by_all_spec in Hreq. destruct Hreq as (_ & Hnd & Hn & Hiff).
    exists mom, n, l, tp. cbv zeta. auto 10.
Qed.

Lemma show_reqd_by_verdict_witness :
  show_bundle_reqd_by Reference.defaults Runs.server CommandRuns.tools 3 CommandRuns.header
    "os-core" false Reference.full
  = Some (SWUPD_OK, Reference.full,
    [Core (EvMsg Info (MsgRequiredByHeader "os-core"));
     Core (EvMsg Info (MsgListItem "editors")); Core (EvMsg Info (MsgListItem "vim"));
     Say Info (MsgIsRequiredBy "os-core" 2)]) /\
  Reference.full = Reference.full /\
  (In (Say Print MsgListFailed)
    [Core (EvMsg Info (MsgRequiredByHeader "os-core"));
     Core (EvMsg Info (MsgListItem "editors")); Core (EvMsg Info (MsgListItem "vim"));
     Say Info (MsgIsRequiredBy "os-core" 2)] <-> SWUPD_OK <> SWUPD_OK) /\
  (SWUPD_OK <> SWUPD_OK ->
   exists t',
    [Core (EvMsg Info (MsgRequiredByHeader "os-core"));
     Core (EvMsg Info (MsgListItem "editors")); Core (EvMsg Info (MsgListItem "vim"));
     Say Info (MsgIsRequiredBy "os-core" 2)] = t' ++ [Say Print MsgListFailed] /\
    forall o, In o t' -> is_verdict o = false) /\
  (SWUPD_OK = SWUPD_OK ->
   (false = false -> is_installed_bundle "os-core" Reference.full = true) /\
   exists mom n l tp,
     load_mom_upstream CommandRuns.tools (get_current_version Runs.server Reference.full)
       Reference.full = Some mom /\
     search_bundle_in_manifest mom "os-core" <> None /\
     List.NoDup l /\ n = Z.of_nat (length l) /\
     (forall x, In x l <->
        requires (let subs := if false
                               then snd (add_included_manifests CommandRuns.tools mom
                                           Reference.full)
                               else read_subscriptions Runs.server Reference.full in
                  if false then recurse_manifest_server CommandRuns.tools mom subs
                  else recurse_manifest Runs.server mom subs) x "os-core") /\
    [Core (EvMsg Info (MsgRequiredByHeader "os-core"));
     Core (EvMsg Info (MsgListItem "editors")); Core (EvMsg Info (MsgListItem "vim"));
     Say Info (MsgIsRequiredBy "os-core" 2)] =
     map Core tp ++
         [if decide (l = []) then Say Info (MsgNoDependency "os-core")
          else Say Info (MsgIsRequiredBy "os-core" n)]).
Proof.
  split; [vm_compute; reflexivity|].
  apply (show_reqd_by_verdict Reference.defaults Runs.server CommandRuns.tools 3
           CommandRuns.header "os-core" false Reference.full Reference.full SWUPD_OK
    [Core (EvMsg Info (MsgRequiredByHeader "os-core"));
     Core (EvMsg Info (MsgListItem "editors")); Core (EvMsg Info (MsgListItem "vim"));
     Say Info (MsgIsRequiredBy "os-core" 2)]).
  vm_compute. reflexivity.
Defined.

(** ** The rounds of remove_bundles *)

(** What [required_by] hands back to [remove_bundles]. *)
Lemma call_required_by_exact (G : options) (fuel : nat) (b : string)
    (subm : list manifest) (exclusions : list string) (w w' : world) (n : Z)
    (l : list string) (t : list event) :
  call_required_by G fuel b subm exclusions w = Some ((n, l), w', t) ->
  List.NoDup l /\ n = Z.of_nat (length l) /\
  forall x, In x l <-> dependent subm exclusions b x.
Proof.
  unfold call_required_by.
  destruct (required_by _ _ _ _ _ _ _ _) as [[n0 r]|] eqn:Hr; [|discriminate].
  intros [= <- <- _ _].
  pose proof (required_by_top _ _ _ _ _ _ _ _ Hr) as Hiff.
  apply required_by_top_finish in Hr. destruct Hr as (s1 & Hr).
  destruct (reqd_finish_by G (MsgRequiredByHeader b) s1) as (Hby & Hn).
  rewrite <- Hr in Hby, Hn. simpl in Hby, Hn. subst n0. rewrite Hby in *.
  split; [apply list_str_deduplicate_NoDup|]. split; [reflexivity|exact Hiff].
Qed.

(** *** Moving manifests by name *)

Lemma list_take_item_split (key : string) (src rest : list manifest) (x : manifest) :
  list_take_item find_manifest key src = Some (x, rest) ->
  exists l1 l2, src = l1 ++ x :: l2 /\ rest = l1 ++ l2 /\ component x = key.
Proof.
  revert rest. induction src as [|y src IH]; intros rest; simpl; [discriminate|].
  unfold find_manifest at 1.
  destruct (strcmp (component y) key =? 0) eqn:Hc; simpl.
  - intros [= <- <-]. apply strcmp_eqb in Hc. exists [], src. auto.
  - rewrite Hc.
    destruct (list_take_item find_manifest key src) as [[z rest']|]; [|discriminate].
    intros [= -> <-]. destruct (IH rest' eq_refl) as (l1 & l2 & -> & -> & Hx).
    exists (y :: l1), l2. auto.
Qed.

Lemma list_take_item_none (key : string) (src : list manifest) :
  list_take_item find_manifest key src = None ->
  forall m, In m src -> component m <> key.
Proof.
  induction src as [|y src IH]; simpl; [contradiction|].
  unfold find_manifest at 1.
  destruct (strcmp (component y) key =? 0) eqn:Hc; simpl; [discriminate|].
  rewrite Hc. apply strcmp_neqb in Hc.
  destruct (list_take_item find_manifest key src) as [[z rest']|]; [discriminate|].
  intros _ m [<-|Hm]; [exact Hc|now apply IH].
Qed.

Lemma moved_none (kept removed : list manifest) : moved [] kept removed kept removed.
Proof. split; intros m; simpl; tauto. Qed.

(** [rs_move] moves the manifest of the bundle, if the list has one. *)
Lemma rs_move_moved (name : string) (s : remove_state) :
  List.NoDup (map component (rs_submanifests s)) ->
  moved [name] (rs_submanifests s) (rs_bundles_to_remove s)
    (rs_submanifests (rs_move name s)) (rs_bundles_to_remove (rs_move name s)) /\
  List.NoDup (map component (rs_submanifests (rs_move name s))).
Proof.
  intros Hnd. unfold rs_move, list_move_item.
  destruct (list_take_item find_manifest name (rs_submanifests s)) as [[x rest]|] eqn:Ht;
    simpl.
  - apply list_take_item_split in Ht. destruct Ht as (l1 & l2 & Hfrom & -> & Hx).
    rewrite Hfrom in *. rewrite map_app in Hnd. simpl in Hnd.
    apply List.NoDup_remove in Hnd. destruct Hnd as (Hnd & Hout).
    rewrite <- map_app in Hnd, Hout.
    split; [|exact Hnd]. split; intros m.
    + split.
      * intros Hm. split.
        { apply in_app_or in Hm. apply in_or_app. simpl. tauto. }
        intros [Hc|[]]. apply Hout.
        replace (component x) with (component m) by congruence.
        apply in_map_iff. eauto.
      * intros (Hm & Hc). apply in_app_or in Hm. apply in_or_app.
        destruct Hm as [Hm|[<-|Hm]]; [now left| |now right].
        exfalso. apply Hc. now left.
    + rewrite in_app_iff. simpl. split.
      * intros [Hm|[<-|[]]]; [now left|right]. split; [|now left].
        apply in_or_app. right. now left.
      * intros [Hm|(Hm & [Hc|[]])]; [now left|right; left].
        apply in_app_or in Hm. destruct Hm as [Hm|[Hm|Hm]]; [|exact Hm|].
        -- exfalso. apply Hout.
           replace (component x) with (component m) by congruence. apply in_map_iff.
           exists m. split; [reflexivity|]. apply in_or_app. now left.
        -- exfalso. apply Hout.
           replace (component x) with (component m) by congruence. apply in_map_iff.
           exists m. split; [reflexivity|]. apply in_or_app. now right.
  - split; [|exact Hnd]. pose proof (list_take_item_none _ _ Ht) as Hno.
    split; intros m; simpl.
    + split; [|tauto]. intros Hm. split; [exact Hm|]. intros [Hc|[]].
      apply (Hno m Hm). congruence.
    + split; [tauto|]. intros [Hm|(Hm & [Hc|[]])]; [exact Hm|].
      exfalso. apply (Hno m Hm). congruence.
Qed.

Lemma moved_then (l1 l2 : list string) (k r k1 r1 k2 r2 : list manifest) :
  moved l1 k r k1 r1 -> moved l2 k1 r1 k2 r2 -> moved (l1 ++ l2) k r k2 r2.
Proof.
  intros (K1 & R1) (K2 & R2). split; intros m.
  - rewrite K2, K1, in_app_iff. tauto.
  - rewrite R2, R1, K1, in_app_iff.
    destruct (in_dec string_dec (component m) l1); tauto.
Qed.

Lemma moved_same (l l' : list string) (k r k1 r1 : list manifest) :
  (forall n, In n l <-> In n l') -> moved l k r k1 r1 -> moved l' k r k1 r1.
Proof.
  intros Hl (K & R). split; intros m; [rewrite K|rewrite R]; rewrite Hl; tauto.
Qed.

Lemma remove_dependents_moved (E : externs) (deps : list string) :
  forall s w s' w' t,
    remove_dependents E deps s w = Some (s', w', t) ->
    List.NoDup (map component (rs_submanifests s)) ->
    moved deps (rs_submanifests s) (rs_bundles_to_remove s)
      (rs_submanifests s') (rs_bundles_to_remove s') /\
    List.NoDup (map component (rs_submanifests s')).
Proof.
  induction deps as [|dep deps IH]; intros s w s' w' t H Hnd; simpl in H.
  - run_inv H. split; [apply moved_none|exact Hnd].
  - apply bind_inv in H. destruct H as ([] & w1 & t1 & s2 & w2 & t2 & _ & H & Hr).
    injection Hr as <- <- _.
    destruct (rs_move_moved dep s Hnd) as (Hm & Hnd1).
    destruct (IH _ _ _ _ _ H Hnd1) as (Hm2 & Hnd2).
    split; [|exact Hnd2]. exact (moved_then [dep] deps _ _ _ _ _ _ Hm Hm2).
Qed.

Section Rounds.

Context (G : options) (E : externs) (mom : MoM) (w : world).

(** *** One round *)

Lemma remove_one_round (fuel : nat) (exclusions : list string) (bundle : string)
    (s s' : remove_state) (w0 w' : world) (t : list event) :
  same_but_tracking w w0 ->
  List.NoDup (map component (rs_submanifests s)) ->
  remove_one G E fuel mom exclusions bundle s w0 = Some (s', w', t) ->
  exists c,
    outcomes t = [(bundle, c)] /\
    round G mom w exclusions (rs_submanifests s) (rs_bundles_to_remove s) bundle c
      (rs_submanifests s') (rs_bundles_to_remove s') /\
    List.NoDup (map component (rs_submanifests s')).
Proof.
  intros Hw Hnd. unfold remove_one.
  destruct (strcmp bundle "os-core" =? 0) eqn:Hos.
  { apply strcmp_eqb in Hos. intros H.
    apply bind_inv in H. destruct H as ([] & w1 & t1 & s2 & w2 & t2 & H1 & H & Hr).
    injection Hr as <- <- ->. run_inv H1. run_inv H.
    exists (Some SWUPD_REQUIRED_BUNDLE_ERROR). subst bundle.
    split; [reflexivity|]. split; [now apply round_os_core|exact Hnd]. }
  apply strcmp_neqb in Hos.
  destruct (search_bundle_in_manifest mom bundle) as [f|] eqn:Hs.
  2:{ intros H.
      apply bind_inv in H. destruct H as ([] & w1 & t1 & s2 & w2 & t2 & H1 & H & Hr).
      injection Hr as <- <- ->. run_inv H1. run_inv H.
      exists (Some SWUPD_INVALID_BUNDLE).
      split; [reflexivity|]. split; [now apply round_invalid|exact Hnd]. }
  assert (Hs' : search_bundle_in_manifest mom bundle <> None) by congruence.
  intros H.
  apply bind_inv in H. destruct H as (inst & w1 & t1 & s2 & w2 & t2 & H1 & H & Hr).
  injection Hr as <- <- ->. run_inv H1.
  rewrite (is_installed_same bundle w w0 Hw) in H.
  destruct (is_installed_bundle bundle w) eqn:Hi; simpl in H.
  2:{ apply bind_inv in H. destruct H as ([] & w1 & t1 & s3 & w3 & t3 & H1 & H & Hr).
      injection Hr as <- <- ->. run_inv H1. run_inv H.
      exists (Some SWUPD_BUNDLE_NOT_TRACKED).
      split; [reflexivity|]. split; [now apply round_not_installed|exact Hnd]. }
  apply bind_inv in H. destruct H as ([n l] & w1 & t1 & s3 & w3 & t3 & Hreq & H & Hr).
  injection Hr as <- <- ->.
  pose proof (call_required_by_exact _ _ _ _ _ _ _ _ _ _ Hreq) as (Hndl & Hn & Hl).
  apply call_required_by_spec in Hreq. destruct Hreq as (-> & _ & Hout & _).
  assert (Hfinish : forall s0 w4 s4 w5 t5,
            (let* _ := info (MsgRemoving bundle) in
             let* _ := remove_tracked E bundle in ret (rs_move bundle s0)) w4
            = Some (s4, w5, t5) ->
            s4 = rs_move bundle s0 /\ outcomes t5 = [(bundle, None)]).
  { intros s0 w4 s4 w5 t5 Hf.
    apply bind_inv in Hf. destruct Hf as ([] & wa & ta & sb & wb & tb & Ha & Hf & Hr).
    injection Hr as <- <- ->. run_inv Ha.
    apply bind_inv in Hf. destruct Hf as ([] & wc & tc & sd & wd & td & Hc & Hf & Hr).
    injection Hr as <- <- ->. run_inv Hf.
    apply remove_tracked_spec in Hc. destruct Hc as (-> & _). auto. }
  destruct (0 <? n) eqn:Hpos.
  - assert (Hne : exists x, In x l).
    { destruct l as [|x l]; [simpl in Hn; subst n; discriminate|]. exists x. now left. }
    destruct (negb (cmdline_option_force G)) eqn:Hforce.
    + apply negb_true_iff in Hforce.
      apply bind_inv in H. destruct H as ([] & wa & ta & sb & wb & tb & Ha & H & Hr).
      injection Hr as <- <- ->. run_inv Ha.
      apply bind_inv in H. destruct H as ([] & wc & tc & sd & wd & td & Hc & H & Hr).
      injection Hr as <- <- ->. run_inv Hc. run_inv H.
      exists (Some SWUPD_REQUIRED_BUNDLE_ERROR).
      split; [rewrite !outcomes_app, Hout; reflexivity|]. split; [|exact Hnd].
      destruct Hne as (x & Hx). apply (round_required G mom w _ _ _ _ x); auto.
      now apply Hl.
    + apply negb_false_iff in Hforce.
      apply bind_inv in H. destruct H as ([] & wa & ta & sb & wb & tb & Ha & H & Hr).
      injection Hr as <- <- ->. run_inv Ha.
      apply bind_inv in H. destruct H as (s5 & wc & tc & sd & wd & td & Hd & H & Hr).
      injection Hr as <- <- ->.
      destruct (remove_dependents_moved E l _ _ _ _ _ Hd Hnd) as (Hm1 & Hnd1).
      apply remove_dependents_spec in Hd. destruct Hd as (_ & Hout1 & _).
      apply Hfinish in H. destruct H as (-> & Hout2).
      destruct (rs_move_moved bundle s5 Hnd1) as (Hm2 & Hnd2).
      exists None.
      split; [rewrite !outcomes_app, Hout, Hout1, Hout2; reflexivity|].
      split; [|exact Hnd2].
      apply (round_taken G mom w _ _ _ _ l); auto.
      apply (moved_same (l ++ [bundle])); [intros x; rewrite in_app_iff; simpl; tauto|].
      exact (moved_then l [bundle] _ _ _ _ _ _ Hm1 Hm2).
  - assert (Hnil : l = []).
    { destruct l as [|x l]; [reflexivity|]. apply Z.ltb_ge in Hpos.
      simpl length in Hn. lia. }
    subst l. apply Hfinish in H. destruct H as (-> & Hout2).
    destruct (rs_move_moved bundle s Hnd) as (Hm2 & Hnd2).
    exists None.
    split; [rewrite !outcomes_app, Hout, Hout2; reflexivity|].
    split; [|exact Hnd2].
    apply (round_taken G mom w _ _ _ _ []); auto.
Qed.

(** *** The loop *)

Lemma remove_loop_removal (fuel : nat) (bundles : list string) :
  forall before s w0 s' w' t,
    same_but_tracking w w0 ->
    List.NoDup (map component (rs_submanifests s)) ->
    remove_loop G E fuel mom before bundles s w0 = Some (s', w', t) ->
    removal G E mom w before bundles (rs_submanifests s) (rs_bundles_to_remove s)
      (outcomes t) (rs_submanifests s') (rs_bundles_to_remove s').
Proof.
  induction bundles as [|b rest IH]; intros before s w0 s' w' t Hw Hnd H; simpl in H.
  - run_inv H. apply removal_nil.
  - apply bind_inv in H. destruct H as (s1 & w1 & t1 & s2 & w2 & t2 & H1 & H & Hr).
    injection Hr as <- <- ->.
    pose proof (remove_one_spec G E _ _ _ _ _ _ _ _ _ H1) as (_ & Hw1 & _).
    destruct (remove_one_round _ _ _ _ _ _ _ _ Hw Hnd H1) as (c & Hout & Hround & Hnd1).
    rewrite outcomes_app, Hout. simpl.
    eapply removal_cons; [exact Hround|].
    apply (IH (before ++ [b]) (rs_next s1) w1 s' w' t2);
      [exact (same_but_tracking_trans _ _ _ Hw Hw1)|exact Hnd1|exact H].
Qed.

End Rounds.

(** *** What the rounds keep *)

Section RemovalFacts.

Context (G : options) (E : externs) (mom : MoM) (w : world).

Lemma round_kept (exclusions : list string) (kept removed : list manifest) (b : string)
    (c : option swupd_code) (kept1 removed1 : list manifest) :
  round G mom w exclusions kept removed b c kept1 removed1 ->
  (forall m, In m kept1 -> In m kept) /\
  (forall m, In m removed -> In m removed1) /\
  (forall m, In m kept \/ In m removed <-> In m kept1 \/ In m removed1).
Proof.
  intros H. destruct H as [| | | |l kept1 removed1 _ _ _ _ _ (K & R)];
    try (repeat split; tauto).
  split; [intros m Hm; now apply K in Hm|].
  split; [intros m Hm; apply R; now left|].
  intros m. rewrite K, R. destruct (in_dec string_dec (component m) (b :: l)); tauto.
Qed.

Lemma removal_names (before bundles : list string) (kept removed : list manifest)
    (os : list (string * option swupd_code)) (kept' removed' : list manifest) :
  removal G E mom w before bundles kept removed os kept' removed' ->
  map fst os = bundles.
Proof. induction 1 as [|? ? ? ? ? ? ? ? ? ? ? _ _ IH]; simpl; congruence. Qed.

Lemma removal_kept (before bundles : list string) (kept removed : list manifest)
    (os : list (string * option swupd_code)) (kept' removed' : list manifest) :
  removal G E mom w before bundles kept removed os kept' removed' ->
  (forall m, In m kept' -> In m kept) /\
  (forall m, In m removed -> In m removed') /\
  (forall m, In m kept \/ In m removed <-> In m kept' \/ In m removed').
Proof.
  induction 1 as [|before b rest kept removed c kept1 removed1 os kept' removed' Hr _ IH].
  - repeat split; tauto.
  - apply round_kept in Hr. destruct Hr as (R1 & R2 & R3), IH as (I1 & I2 & I3).
    split; [auto|]. split; [auto|]. intros m. rewrite R3. apply I3.
Qed.

(** The status of a rejection is never [SWUPD_OK]. *)
Lemma round_not_ok (exclusions : list string) (kept removed : list manifest) (b : string)
    (c : option swupd_code) (kept1 removed1 : list manifest) :
  round G mom w exclusions kept removed b c kept1 removed1 -> c <> Some SWUPD_OK.
Proof. intros H. destruct H; discriminate. Qed.

End RemovalFacts.

(** *** What the rounds take *)

Lemma requires_mono (kept subm : list manifest) (x b : string) :
  (forall m, In m kept -> In m subm) -> requires kept x b -> requires subm x b.
Proof.
  intros Hsub. induction 1 as [m b Hm Hb Hne|m b x Hm Hb Hne _ IH].
  - apply requires_direct; auto.
  - eapply requires_through; eauto.
Qed.

Section RemovalTaken.

Context (G : options) (E : externs) (mom : MoM) (w : world).

Lemma round_disjoint (exclusions : list string) (kept removed : list manifest) (b : string)
    (c : option swupd_code) (kept1 removed1 : list manifest) :
  round G mom w exclusions kept removed b c kept1 removed1 ->
  (forall m, In m kept -> In m removed -> False) ->
  forall m, In m kept1 -> In m removed1 -> False.
Proof.
  intros H Hd. destruct H as [| | | |l kept1 removed1 _ _ _ _ _ (K & R)]; try exact Hd.
  intros m Hk Hr. apply K in Hk. apply R in Hr. destruct Hk as [Hk Hn].
  destruct Hr as [Hr|[_ Hr]]; [exact (Hd m Hk Hr)|exact (Hn Hr)].
Qed.

Lemma removal_disjoint (before bundles : list string) (kept removed : list manifest)
    (os : list (string * option swupd_code)) (kept' removed' : list manifest) :
  removal G E mom w before bundles kept removed os kept' removed' ->
  (forall m, In m kept -> In m removed -> False) ->
  forall m, In m kept' -> In m removed' -> False.
Proof.
  induction 1 as [|before b rest kept removed c kept1 removed1 os kept' removed' Hr _ IH];
    intros Hd; [exact Hd|].
  apply IH. eapply round_disjoint; eassumption.
Qed.

(** When no bundle is rejected, the manifests of the listed bundles end in
    the list of removed bundles. *)
Lemma removal_takes (before bundles : list string) (kept removed : list manifest)
    (os : list (string * option swupd_code)) (kept' removed' : list manifest) :
  removal G E mom w before bundles kept removed os kept' removed' ->
  List.Forall (fun o => snd o = None) os ->
  forall m, In m kept \/ In m removed -> In (component m) bundles -> In m removed'.
Proof.
  induction 1 as [|before b rest kept removed c kept1 removed1 os kept' removed' Hr Hrest IH];
    intros Hall m Hm Hc; [contradiction|].
  inversion Hall as [|o os' Ho Hos]; subst. cbn [snd] in Ho. subst c.
  pose proof Hr as Hr'. apply round_kept in Hr'. destruct Hr' as (_ & R2 & R3).
  destruct (string_dec (component m) b) as [Hb|Hb].
  - pose proof Hrest as Hrest'. apply removal_kept in Hrest'. apply Hrest'.
    inversion Hr as [| | | |l k1 r1 _ _ _ _ _ (K & R)]; subst.
    apply R. destruct Hm as [Hm|Hm]; [right|now left].
    split; [exact Hm|]. now left.
  - apply IH; [exact Hos|now apply R3|].
    destruct Hc as [Hc|Hc]; [congruence|exact Hc].
Qed.

(** A manifest in the list of removed bundles is that of a listed bundle
    or, with [--force], of a bundle that requires a listed one. *)
Lemma removal_removed (subm : list manifest) (before bundles : list string)
    (kept removed : list manifest) (os : list (string * option swupd_code))
    (kept' removed' : list manifest) :
  removal G E mom w before bundles kept removed os kept' removed' ->
  (forall m, In m kept -> In m subm) ->
  forall m, In m removed' ->
    In m removed \/
    (In m kept /\
     (In (component m) bundles \/
      (cmdline_option_force G = true /\
       exists b, In b bundles /\ requires subm (component m) b))).
Proof.
  induction 1 as [|before b rest kept removed c kept1 removed1 os kept' removed' Hr Hrest IH];
    intros Hsub m Hm; [now left|].
  pose proof Hr as Hr'. apply round_kept in Hr'. destruct Hr' as (R1 & _ & _).
  destruct (IH (fun m Hm => Hsub m (R1 m Hm)) m Hm) as [Hin|(Hk & Hin)].
  - inversion Hr as [| | | |l k1 r1 _ _ _ Hl Hf (K & R)]; subst; try (now left).
    apply R in Hin. destruct Hin as [Hin|(Hk & [Hb|Hin])]; [now left| |].
    + right. split; [exact Hk|]. left. now left.
    + right. split; [exact Hk|]. right. split.
      * destruct Hf as [->|Hf]; [contradiction|exact Hf].
      * exists b. split; [now left|]. apply Hl in Hin. destruct Hin as [Hin _].
        eapply requires_mono; eassumption.
  - right. split; [now apply R1|].
    destruct Hin as [Hin|(Hf & b' & Hb' & Hreq)]; [left; now right|].
    right. split; [exact Hf|]. exists b'. split; [now right|exact Hreq].
Qed.

(** The status of the last rejection is [SWUPD_OK] only when no bundle is
    rejected. *)
Lemma removal_ok (before bundles : list string) (kept removed : list manifest)
    (os : list (string * option swupd_code)) (kept' removed' : list manifest) :
  removal G E mom w before bundles kept removed os kept' removed' ->
  last_fault SWUPD_OK os = SWUPD_OK ->
  List.Forall (fun o => snd o = None) os.
Proof.
  intros H. assert (Hall : List.Forall (fun o => snd o <> Some SWUPD_OK) os).
  { induction H as [|? ? ? ? ? ? ? ? ? ? ? Hr _ IH]; constructor; [|exact IH].
    cbn [snd]. eapply round_not_ok; exact Hr. }
  clear H. induction Hall as [|o os Ho Hall IH]; intros Hl; [constructor|].
  rewrite last_fault_cons in Hl. destruct (snd o) as [c|] eqn:Hc.
  - exfalso. revert Hl. apply last_fault_not_ok; [exact Hall|congruence].
  - constructor; [exact Hc|exact (IH Hl)].
Qed.

End RemovalTaken.

Lemma nodup_loaded : List.NoDup (map component (submanifests Runs.loaded)).
Proof.
  cbn. repeat constructor; simpl; intuition discriminate.
Qed.



(** ** os-core stays *)

Section OsCoreStays.

Context (G : options) (E : externs).

(** A round whose exclusions name [os-core] leaves the manifest of
    [os-core] among the kept ones. *)
Lemma remove_one_keeps_os_core (fuel : nat) (mom : MoM) (exclusions : list string)
    (bundle : string) (s s' : remove_state) (w w' : world) (t : list event) :
  remove_one G E fuel mom exclusions bundle s w = Some (s', w', t) ->
  In "os-core"%string exclusions ->
  forall m, In m (rs_submanifests s) -> component m = "os-core"%string ->
            In m (rs_submanifests s').
Proof.
  intros H Hex m Hm Hc. unfold remove_one in H.
  destruct (strcmp bundle "os-core" =? 0) eqn:Hos.
  { apply bind_inv in H. destruct H as ([] & w1 & t1 & s2 & w2 & t2 & H1 & H & Hr).
    injection Hr as <- <- ->. run_inv H1. run_inv H. exact Hm. }
  apply strcmp_neqb in Hos.
  destruct (search_bundle_in_manifest mom bundle) as [f|] eqn:Hs.
  2:{ apply bind_inv in H. destruct H as ([] & w1 & t1 & s2 & w2 & t2 & H1 & H & Hr).
      injection Hr as <- <- ->. run_inv H1. run_inv H. exact Hm. }
  apply bind_inv in H. destruct H as (inst & w1 & t1 & s2 & w2 & t2 & H1 & H & Hr).
  injection Hr as <- <- ->. run_inv H1.
  destruct (is_installed_bundle bundle w) eqn:Hi; simpl in H.
  2:{ apply bind_inv in H. destruct H as ([] & w1 & t1 & s3 & w3 & t3 & H1 & H & Hr).
      injection Hr as <- <- ->. run_inv H1. run_inv H. exact Hm. }
  apply bind_inv in H. destruct H as ([n l] & w1 & t1 & s3 & w3 & t3 & Hreq & H & Hr).
  injection Hr as <- <- ->.
  pose proof (call_required_by_exact _ _ _ _ _ _ _ _ _ _ Hreq) as (_ & _ & Hl).
  assert (Hnl : ~ In (component m) l).
  { intros Hin. apply Hl in Hin. destruct Hin as [_ Hin]. apply Hin. now rewrite Hc. }
  assert (Hfinish : forall s0 w4 s4 w5 t5,
            (let* _ := info (MsgRemoving bundle) in
             let* _ := remove_tracked E bundle in ret (rs_move bundle s0)) w4
            = Some (s4, w5, t5) -> s4 = rs_move bundle s0).
  { intros s0 w4 s4 w5 t5 Hf.
    apply bind_inv in Hf. destruct Hf as ([] & wa & ta & sb & wb & tb & Ha & Hf & Hr).
    injection Hr as <- <- ->. run_inv Ha.
    apply bind_inv in Hf. destruct Hf as ([] & wc & tc & sd & wd & td & Hd & Hf & Hr).
    injection Hr as <- <- ->. run_inv Hf. reflexivity. }
  assert (Hmove : forall s0, In m (rs_submanifests s0) ->
                             In m (rs_submanifests (rs_move bundle s0))).
  { intros s0 Hs0. apply rs_move_kept; [exact Hs0|congruence]. }
  destruct (0 <? n) eqn:Hpos.
  - destruct (negb (cmdline_option_force G)) eqn:Hforce.
    + apply bind_inv in H. destruct H as ([] & wa & ta & sb & wb & tb & Ha & H & Hr).
      injection Hr as <- <- ->. run_inv Ha.
      apply bind_inv in H. destruct H as ([] & wc & tc & sd & wd & td & Hd & H & Hr).
      injection Hr as <- <- ->. run_inv Hd. run_inv H. exact Hm.
    + apply bind_inv in H. destruct H as ([] & wa & ta & sb & wb & tb & Ha & H & Hr).
      injection Hr as <- <- ->. run_inv Ha.
      apply bind_inv in H. destruct H as (s5 & wc & tc & sd & wd & td & Hd & H & Hr).
      injection Hr as <- <- ->.
      apply remove_dependents_spec in Hd. destruct Hd as (_ & _ & _ & _ & _ & _ & _ & Hk).
      apply Hfinish in H. subst. apply Hmove. now apply Hk.
  - apply Hfinish in H. subst. now apply Hmove.
Qed.

(** When [list_search] goes through the whole list of requested bundles
    and the list names [os-core], the loop leaves the manifest of
    [os-core] among the kept ones. *)
Lemma remove_loop_keeps_os_core (fuel : nat) (mom : MoM) (bundles : list string) :
  list_search_rewinds E = true ->
  forall before s w s' w' t,
    In "os-core"%string (before ++ bundles) ->
    remove_loop G E fuel mom before bundles s w = Some (s', w', t) ->
    forall m, In m (rs_submanifests s) -> component m = "os-core"%string ->
              In m (rs_submanifests s').
Proof.
  intros Hre. induction bundles as [|b rest IH]; intros before s w s' w' t Hin H m Hm Hc;
    simpl in H.
  - run_inv H. exact Hm.
  - apply bind_inv in H. destruct H as (s1 & w1 & t1 & s2 & w2 & t2 & H1 & H & Hr).
    injection Hr as <- <- ->.
    apply (IH (before ++ [b]) (rs_next s1) w1 s' w' t2); [| exact H | | exact Hc].
    + now rewrite <- app_assoc.
    + simpl. eapply remove_one_keeps_os_core; [exact H1| |exact Hm|exact Hc].
      unfold list_search_span. now rewrite Hre.
Qed.

(** No bundle is announced as removed under the name [os-core]. *)
Lemma remove_loop_never_os_core (fuel : nat) (mom : MoM) (bundles : list string) :
  forall before s w s' w' t,
    remove_loop G E fuel mom before bundles s w = Some (s', w', t) ->
    ~ In ("os-core"%string, None) (outcomes t).
Proof.
  induction bundles as [|b rest IH]; intros before s w s' w' t H; simpl in H.
  - run_inv H. intros [].
  - apply bind_inv in H. destruct H as (s1 & w1 & t1 & s2 & w2 & t2 & H1 & H & Hr).
    injection Hr as <- <- ->.
    apply remove_one_spec in H1. destruct H1 as (_ & _ & (c & Hout & Hfit & _) & _).
    rewrite outcomes_app, Hout. intros [Heq|Hin]; [|exact (IH _ _ _ _ _ _ H Hin)].
    injection Heq as -> ->. unfold fault_fits in Hfit. simpl in Hfit. discriminate.
Qed.

Lemma outcome_removing (b : string) (t : list event) :
  In (EvMsg Info (MsgRemoving b)) t -> In (b, None) (outcomes t).
Proof.
  intros H. unfold outcomes. apply list_elem_of_In, list_elem_of_omap.
  exists (EvMsg Info (MsgRemoving b)). split; [now apply list_elem_of_In|reflexivity].
Qed.

End OsCoreStays.

(** ** os-core *)

(** C4, as the code has it: when the list names [os-core] and the run gets
    past its initialisation, the bundle is rejected with a warning and is
    never announced as removed; the status returned is that of the last
    rejected bundle of the list, so it is not [SWUPD_OK], and it is
    [SWUPD_REQUIRED_BUNDLE_ERROR] when every bundle listed after [os-core]
    is a bundle of the MoM and is installed; and no path that the manifest
    of [os-core] provides is handed to [remove_files_from_fs] when
    [list_search] goes through the whole list of requested bundles, or
    [--force] is not given, or the manifest of [os-core] has no
    includes. *)
Theorem remove_os_core_rejected (G : options) (E : externs) (rank : string -> nat)
    (fuel : nat) (bundles : list string) (w w1 : world) (mom : MoM) (t1 : list event) :
  (forall n, (rank n < fuel)%nat) ->
  remove_prepare E bundles w = Some (inr mom, w1, t1) ->
  ranked rank (submanifests mom) ->
  In "os-core"%string bundles ->
  exists rc w' tr,
    remove_bundles G E fuel bundles w = Some (rc, w', tr) /\
    In (EvMsg Warn MsgOsCore) tr /\
    ~ In (EvMsg Info (MsgRemoving "os-core")) tr /\
    rc = last_fault SWUPD_OK (outcomes tr) /\
    rc <> SWUPD_OK /\
    (forall pre post,
       bundles = pre ++ "os-core"%string :: post ->
       (forall b, In b post ->
          search_bundle_in_manifest mom b <> None /\ is_installed_bundle b w1 = true) ->
       rc = SWUPD_REQUIRED_BUNDLE_ERROR) /\
    (list_search_rewinds E = true \/
     cmdline_option_force G = false \/
     (forall m, In m (submanifests mom) -> component m = "os-core"%string ->
                includes m = []) ->
     forall m p l f,
       In m (submanifests mom) -> component m = "os-core"%string -> provides m p ->
       In (EvRemoveFiles l) tr -> In f l -> filename f <> p).
Proof.
  intros Hfuel Hp Hrank Hos.
  destruct (remove_bundles_run G E rank fuel bundles w w1 mom t1 Hfuel Hp Hrank)
    as (rc & w' & tr & s & w2 & t2 & H & Hloop & Hrc & Hout & Hsub & _).
  exists rc, w', tr. split; [exact H|].
  pose proof (remove_loop_spec G E fuel mom bundles _ _ _ _ _ _ Hloop)
    as (_ & _ & Hmap & Hfits & L5 & _ & _ & _ & L9).
  simpl in L5. rewrite <- Hrc in L5. clear Hrc. rewrite <- Hout in *.
  split; [|split; [|split; [|split; [|split]]]].
  - apply Hsub. eapply remove_loop_os_core; eassumption.
  - intros Hin. apply outcome_removing in Hin. rewrite Hout in Hin.
    exact (remove_loop_never_os_core G E fuel mom bundles _ _ _ _ _ _ Hloop Hin).
  - exact L5.
  - destruct (in_split _ _ Hos) as (pre0 & post0 & Hsplit).
    rewrite Hsplit in Hmap. apply outcomes_split in Hmap.
    destruct Hmap as (os1 & o & os2 & Hos' & _ & Ho & _).
    rewrite L5, Hos', last_fault_app, last_fault_cons.
    rewrite Hos' in Hfits. apply List.Forall_app in Hfits. destruct Hfits as [_ Hfits].
    inversion Hfits as [|? ? Hfo Hfits2]; subst.
    unfold fault_fits in Hfo. rewrite Ho in Hfo. simpl in Hfo. rewrite Hfo.
    apply last_fault_not_ok; [|discriminate].
    eapply List.Forall_impl; [|exact Hfits2]. intros o'. apply fault_fits_not_ok.
  - intros pre post Hb Hpost. rewrite Hb in Hmap. apply outcomes_split in Hmap.
    destruct Hmap as (os1 & o & os2 & Hos' & _ & Ho & Hpost').
    rewrite L5, Hos', last_fault_app, last_fault_cons.
    rewrite Hos' in Hfits. apply List.Forall_app in Hfits. destruct Hfits as [_ Hfits].
    inversion Hfits as [|? ? Hfo Hfits2]; subst.
    unfold fault_fits in Hfo. rewrite Ho in Hfo. simpl in Hfo. rewrite Hfo.
    apply last_fault_stays. apply List.Forall_forall. intros o' Ho'.
    rewrite List.Forall_forall in Hfits2. specialize (Hfits2 o' Ho').
    assert (Hin : In (fst o') (map fst os2)) by now apply in_map.
    destruct (Hpost _ Hin) as [Hs Hi].
    unfold fault_fits in Hfits2. rewrite Hi in Hfits2. simpl in Hfits2.
    destruct (strcmp (fst o') "os-core" =? 0); [now left|].
    destruct (search_bundle_in_manifest mom (fst o')); [assumption|congruence].
  - intros Hsafe m p l f Hm Hc Hprov Hl Hf Hname.
    destruct (remove_files_event G E fuel bundles w w1 w' mom t1 tr rc l Hp H Hl)
      as (s0 & w0 & t0 & Hloop0 & ->).
    rewrite Hloop in Hloop0. assert (Hs : s0 = s) by congruence. rewrite Hs in Hf.
    apply files_to_remove_sound in Hf. destruct Hf as [_ Hkept].
    apply (Hkept m); [|now rewrite Hname].
    destruct Hsafe as [Hre|Hsafe].
    + exact (remove_loop_keeps_os_core G E fuel mom bundles Hre [] _ _ _ _ _ Hos Hloop
               m Hm Hc).
    + apply L9; assumption.
Qed.

Lemma remove_os_core_rejected_witness :
  (forall n, (Runs.rank n < 3)%nat) /\
  remove_prepare Runs.server ["os-core"%string; "editors"%string] Reference.full
    = Some (inr Runs.loaded, Reference.full, [EvInit]) /\
  ranked Runs.rank (submanifests Runs.loaded) /\
  In "os-core"%string ["os-core"%string; "editors"%string] /\
  exists rc w' tr,
    remove_bundles Reference.defaults Runs.server 3 ["os-core"%string; "editors"%string]
      Reference.full = Some (rc, w', tr) /\
    In (EvMsg Warn MsgOsCore) tr /\
    ~ In (EvMsg Info (MsgRemoving "os-core")) tr /\
    rc = last_fault SWUPD_OK (outcomes tr) /\
    rc <> SWUPD_OK /\
    (forall pre post,
       ["os-core"%string; "editors"%string] = pre ++ "os-core"%string :: post ->
       (forall b, In b post ->
          search_bundle_in_manifest Runs.loaded b <> None /\
          is_installed_bundle b Reference.full = true) ->
       rc = SWUPD_REQUIRED_BUNDLE_ERROR) /\
    (list_search_rewinds Runs.server = true \/
     cmdline_option_force Reference.defaults = false \/
     (forall m, In m (submanifests Runs.loaded) -> component m = "os-core"%string ->
                includes m = []) ->
     forall m p l f,
       In m (submanifests Runs.loaded) -> component m = "os-core"%string ->
       provides m p -> In (EvRemoveFiles l) tr -> In f l -> filename f <> p).
Proof.
  split; [exact rank_below_3|].
  split; [vm_compute; reflexivity|].
  split; [exact ranked_loaded|].
  split; [now left|].
  apply (remove_os_core_rejected Reference.defaults Runs.server Runs.rank 3
           ["os-core"%string; "editors"%string] Reference.full Reference.full Runs.loaded
           [EvInit] rank_below_3).
  - vm_compute. reflexivity.
  - exact ranked_loaded.
  - now left.
Defined.

(** The last part of C4 needs its condition: with a [list_search] that
    starts at the cursor, [--force] and an [os-core] that includes a listed
    bundle, [bundle-remove --force os-core tools] takes [os-core] as a
    dependent of [tools] and unlinks its files. *)
Lemma remove_os_core_by_force :
  list_search_rewinds Cursor.server = false /\
  result_value SWUPD_OK Cursor.remove_forced = SWUPD_REQUIRED_BUNDLE_ERROR /\
  In (EvRemoveFiles (files_to_remove [] [Cursor.tools; Cursor.os_core]))
     (result_trace Cursor.remove_forced) /\
  In "/usr/lib/libc.so"%string
     (map filename (files_to_remove [] [Cursor.tools; Cursor.os_core])) /\
  target Cursor.installed !! "/usr/lib/libc.so"%string = Some "h-libc"%string /\
  target (result_world Cursor.installed Cursor.remove_forced) !! "/usr/lib/libc.so"%string
    = None.
Proof.
  vm_compute. repeat split; try reflexivity; repeat (first [now left|right]).
Qed.

(** ** What a successful remove unlinks *)

(** C1: in a run of [remove_bundles] that returns [SWUPD_OK], the loaded
    manifests (of distinct names) are split into kept and removed ones; the
    manifest of every requested bundle is removed, and a removed manifest is
    that of a requested bundle or, with [--force], of a bundle that requires
    one; the list handed to [remove_files_from_fs], handed once and only
    when it is not empty, holds records of removed manifests for paths that
    no kept manifest provides, and it holds every path that a removed
    manifest provides and no kept manifest provides; the machine at the end
    is what [remove_files_from_fs] makes of a machine that differs from the
    initialised one only in the tracking directory; so that, when
    [remove_files_from_fs] unlinks what it is handed, no path that only
    removed manifests provide remains and every path that a kept manifest
    provides is as it was. *)
Theorem remove_unlinks_only_unowned (G : options) (E : externs) (fuel : nat)
    (bundles : list string) (w w1 w' : world) (mom : MoM) (t1 tr : list event) :
  remove_prepare E bundles w = Some (inr mom, w1, t1) ->
  List.NoDup (map component (submanifests mom)) ->
  remove_bundles G E fuel bundles w = Some (SWUPD_OK, w', tr) ->
  exists kept removed w2,
    (forall m, In m (submanifests mom) <-> In m kept \/ In m removed) /\
    (forall m, In m kept -> ~ In m removed) /\
    (forall m, In m (submanifests mom) -> In (component m) bundles -> In m removed) /\
    (forall m, In m removed ->
       In (component m) bundles \/
       (cmdline_option_force G = true /\
        exists b, In b bundles /\ requires (submanifests mom) (component m) b)) /\
    (forall l, In (EvRemoveFiles l) tr <->
               l = files_to_remove kept removed /\ l <> []) /\
    (forall f, In f (files_to_remove kept removed) ->
       (exists m, In m removed /\ In f (files m)) /\
       (forall m, In m kept -> ~ provides m (filename f))) /\
    (forall m p, In m removed -> provides m p ->
       (forall m', In m' kept -> ~ provides m' p) ->
       exists f, In f (files_to_remove kept removed) /\ filename f = p) /\
    same_but_tracking w1 w2 /\
    ((files_to_remove kept removed = [] /\ w' = w2) \/
     (files_to_remove kept removed <> [] /\
      w' = snd (remove_files_from_fs E (files_to_remove kept removed) w2))) /\
    (unlinked E (files_to_remove kept removed) w2 ->
     (forall m p, In m removed -> provides m p ->
        (forall m', In m' kept -> ~ provides m' p) -> target w' !! p = None) /\
     (forall m p, In m kept -> provides m p -> target w' !! p = target w1 !! p)).
Proof.
  intros Hp Hnd H.
  destruct (remove_bundles_inr G E fuel bundles w w1 w' mom t1 tr SWUPD_OK Hp H)
    as (s & w2 & t2 & t3 & Hloop & Hrc & Htr & Hfiles).
  pose proof (remove_loop_removal G E mom w1 fuel bundles []
                (mk_remove_state (submanifests mom) [] SWUPD_OK 0 0) w1 _ _ _
                (same_but_tracking_refl w1) Hnd Hloop) as Hrem.
  pose proof (remove_loop_spec G E fuel mom bundles _ _ _ _ _ _ Hloop)
    as (Honly & Hw2 & _ & _ & L5 & _).
  simpl in Hrem, L5. rewrite <- Hrc in L5. symmetry in L5.
  pose proof (removal_ok _ _ _ _ _ _ _ _ _ _ _ Hrem L5) as Hall.
  pose proof (removal_kept _ _ _ _ _ _ _ _ _ _ _ Hrem) as (_ & _ & Hpart).
  pose proof (removal_disjoint _ _ _ _ _ _ _ _ _ _ _ Hrem) as Hdis.
  pose proof (removal_takes _ _ _ _ _ _ _ _ _ _ _ Hrem Hall) as Htake.
  pose proof (removal_removed _ _ _ _ (submanifests mom) _ _ _ _ _ _ _ Hrem
                (fun m Hm => Hm)) as Hfrom.
  set (kept := rs_submanifests s) in *. set (removed := rs_bundles_to_remove s) in *.
  assert (Hsound : forall f, In f (files_to_remove kept removed) ->
            (exists m, In m removed /\ In f (files m)) /\
            (forall m, In m kept -> ~ provides m (filename f))).
  { intros f. apply files_to_remove_sound. }
  assert (Hcomplete : forall m p, In m removed -> provides m p ->
            (forall m', In m' kept -> ~ provides m' p) ->
            exists f, In f (files_to_remove kept removed) /\ filename f = p).
  { intros m p Hm Hprov Hk.
    destruct (files_to_remove_complete kept removed m p Hm Hprov Hk) as (f & Hf & Hn & _).
    eauto. }
  assert (Hempty : removed = [] -> files_to_remove kept removed = []).
  { intros Hr. destruct (files_to_remove kept removed) as [|f l] eqn:Hl; [reflexivity|].
    destruct (Hsound f (or_introl eq_refl)) as [(m & Hm & _) _].
    rewrite Hr in Hm. contradiction. }
  cbv zeta in Hfiles. fold kept removed in Hfiles.
  assert (Hworld : (files_to_remove kept removed = [] /\ w' = w2) \/
                   (files_to_remove kept removed <> [] /\
                    w' = snd (remove_files_from_fs E (files_to_remove kept removed) w2))).
  { destruct Hfiles as [(_ & -> & [Hr|Hl])|(n & _ & _ & Hl & Hn)].
    - left. split; [now apply Hempty|reflexivity].
    - left. split; [exact Hl|reflexivity].
    - right. split; [exact Hl|]. now rewrite Hn. }
  exists kept, removed, w2.
  split; [intros m; rewrite <- Hpart; simpl; tauto|].
  split; [intros m Hk Hr; exact (Hdis (fun _ _ F => F) m Hk Hr)|].
  split; [intros m Hm Hc; apply Htake; [now left|exact Hc]|].
  split; [intros m Hm; destruct (Hfrom m Hm) as [[]|[_ Hc]]; exact Hc|].
  split.
  { intros l. split.
    - intros Hin.
      destruct (remove_files_event G E fuel bundles w w1 w' mom t1 tr SWUPD_OK l Hp H Hin)
        as (s0 & w0 & t0 & Hloop0 & Hl).
      rewrite Hloop in Hloop0. assert (Hs : s0 = s) by congruence. subst s0.
      fold kept removed in Hl. split; [exact Hl|].
      destruct Hfiles as [(Ht3 & _)|(n & _ & _ & Hne & _)]; [|now rewrite Hl].
      exfalso. subst tr t3. apply remove_prepare_only in Hp.
      apply in_app_or in Hin. destruct Hin as [Hin|Hin]; [not_of_kind|].
      apply in_app_or in Hin. destruct Hin as [Hin|Hin]; [not_of_kind|].
      simpl in Hin. destruct Hin as [Hin|[]]. destruct (0 <? rs_bad s); discriminate.
    - intros [-> Hne]. destruct Hworld as [[Hl _]|_]; [contradiction|].
      destruct Hfiles as [(_ & _ & [Hr|Hl])|(n & -> & _)].
      + apply Hempty in Hr. contradiction.
      + contradiction.
      + subst tr. apply in_or_app. right. apply in_or_app. right.
        apply in_or_app. left. simpl. auto. }
  split; [exact Hsound|]. split; [exact Hcomplete|]. split; [exact Hw2|].
  split; [exact Hworld|].
  intros [Hgone Hrest]. destruct Hw2 as (_ & _ & Htarget). split.
  - intros m p Hm Hprov Hk. destruct (Hcomplete m p Hm Hprov Hk) as (f & Hf & <-).
    destruct Hworld as [[Hl _]|[_ ->]]; [rewrite Hl in Hf; contradiction|].
    now apply Hgone.
  - intros m p Hm Hprov. rewrite <- Htarget.
    destruct Hworld as [[_ ->]|[_ ->]]; [reflexivity|].
    apply Hrest. intros f Hf Hn. destruct (Hsound f Hf) as [_ Hk].
    apply (Hk m Hm). now rewrite Hn.
Qed.

Lemma remove_unlinks_only_unowned_witness :
  remove_prepare Runs.server ["editors"%string] Reference.full
    = Some (inr Runs.loaded, Reference.full, [EvInit]) /\
  List.NoDup (map component (submanifests Runs.loaded)) /\
  Runs.remove_editors =
    Some (SWUPD_OK, result_world Reference.full Runs.remove_editors,
          result_trace Runs.remove_editors) /\
  exists kept removed w2,
    (forall m, In m (submanifests Runs.loaded) <-> In m kept \/ In m removed) /\
    (forall m, In m kept -> ~ In m removed) /\
    (forall m, In m (submanifests Runs.loaded) -> In (component m) ["editors"%string] ->
               In m removed) /\
    (forall m, In m removed ->
       In (component m) ["editors"%string] \/
       (cmdline_option_force Reference.defaults = true /\
        exists b, In b ["editors"%string] /\
                  requires (submanifests Runs.loaded) (component m) b)) /\
    (forall l, In (EvRemoveFiles l) (result_trace Runs.remove_editors) <->
               l = files_to_remove kept removed /\ l <> []) /\
    (forall f, In f (files_to_remove kept removed) ->
       (exists m, In m removed /\ In f (files m)) /\
       (forall m, In m kept -> ~ provides m (filename f))) /\
    (forall m p, In m removed -> provides m p ->
       (forall m', In m' kept -> ~ provides m' p) ->
       exists f, In f (files_to_remove kept removed) /\ filename f = p) /\
    same_but_tracking Reference.full w2 /\
    ((files_to_remove kept removed = [] /\
      result_world Reference.full Runs.remove_editors = w2) \/
     (files_to_remove kept removed <> [] /\
      result_world Reference.full Runs.remove_editors
        = snd (remove_files_from_fs Runs.server (files_to_remove kept removed) w2))) /\
    (unlinked Runs.server (files_to_remove kept removed) w2 ->
     (forall m p, In m removed -> provides m p ->
        (forall m', In m' kept -> ~ provides m' p) ->
        target (result_world Reference.full Runs.remove_editors) !! p = None) /\
     (forall m p, In m kept -> provides m p ->
        target (result_world Reference.full Runs.remove_editors) !! p
          = target Reference.full !! p)).
Proof.
  split; [vm_compute; reflexivity|].
  split; [exact nodup_loaded|].
  split; [vm_compute; reflexivity|].
  apply (remove_unlinks_only_unowned Reference.defaults Runs.server 3 ["editors"%string]
           Reference.full Reference.full
           (result_world Reference.full Runs.remove_editors) Runs.loaded [EvInit]
           (result_trace Runs.remove_editors)).
  - vm_compute. reflexivity.
  - exact nodup_loaded.
  - vm_compute. reflexivity.
Defined.

(** On the machine of the reference runs, [remove_files_from_fs] unlinks
    what [bundle-remove editors] hands it. *)
Lemma remove_editors_unlinked :
  unlinked Runs.server
    (files_to_remove [Reference.os_core; Reference.vim] [Reference.editors]) Reference.full.
Proof.
  assert (Hl : files_to_remove [Reference.os_core; Reference.vim] [Reference.editors]
               = [Reference.regular "/usr/bin/emacs" "h-emacs" 10;
                  Reference.regular "/usr/share/clear/bundles/editors" "h-empty" 10])
    by (vm_compute; reflexivity).
  rewrite Hl. unfold unlinked.
  assert (Ht : target (snd (remove_files_from_fs Runs.server
             [Reference.regular "/usr/bin/emacs" "h-emacs" 10;
              Reference.regular "/usr/share/clear/bundles/editors" "h-empty" 10]
             Reference.full))
          = delete "/usr/bin/emacs"%string (target Reference.full)) by reflexivity.
  rewrite Ht. split.
  - intros f [<-|[<-|[]]]; [apply lookup_delete_eq|vm_compute; reflexivity].
  - intros p Hp. apply lookup_delete_ne. apply (Hp _ (or_introl eq_refl)).
Qed.
